(* ===== verification/_CoqProject ===== *)
-Q . S2P
Prelude.v
Text.v
Crypto.v
Json.v
Record.v
CredentialId.v
Catalog.v
Envelope.v
AuditLog.v
Limiter.v
Database.v
Store.v
TxLogic.v
Secrets.v
SecretCodec.v
AdminGate.v
Kem.v
Signing.v
SecretStore.v
Calls.v
SecretCalls.v
Sealed.v
StoreSpecs.v
Accounting.v
Rotation.v
Engine.v
EngineSpecs.v
Reconcile.v
Lock.v
Grants.v
Enrollment.v
Access.v
ReadSurface.v
ReadSpecs.v
SecretSpecs.v
SecretGrants.v
SecretWitness.v
