(* ===== verification/Prelude.v ===== *)
(** * Claustrum: a verification of the credential vault's core

    Claustrum keeps API keys and OAuth logins of one user sealed in a SQLite database and
    serves them to programs through unguessable handles. A daemon (crate
    [credentials-module]) dispatches requests to the core (crate [credentials-core]): the
    encrypted store ([store.rs]) holds sealed records, refresh intents, handles, a
    MAC-chained audit log and a table of diagnostics; the refresh engine ([engine.rs])
    refreshes OAuth tokens while they are read, and repairs interrupted rotations at boot.
    This library translates that core and proves what it promises.

    ** The parts and their files

    - [Prelude]: results, the state-and-error monad ([do!]), 64-bit integers with their
      casts and saturation, bytes, hex, shared lemmas and tactics.
    - [Text]: the string functions of the language the code uses: ASCII classes, splitting,
      number parsing, UTF-8.
    - [Crypto] ([key.rs]): the AEAD, SHA-256 and HMAC as a class with their documented
      laws; master keys and their fingerprints; a toy instance for evaluation.
    - [Record] ([record.rs], [oauth.rs], [oauth_login.rs], [plan_detection.rs],
      [bedrock.rs]): kinds, states, OAuth material, identities and records, and what is read
      out of a token: the claims, the account id, the ChatGPT plan, the expiry of a
      short-term Bedrock key. JSON and the crates for base64, forms and dates are a class;
      the laws are JSON's round trip; a toy instance.
    - [CredentialId] ([credential_id.rs]): the id grammar and the adapter table.
    - [Catalog] ([catalog.rs]): the two provider registries row by row, the matching of
      ids to rows, and the default categories stamped at creation.
    - [Envelope] ([envelope.rs]): the sealed format, [seal] and [open].
    - [AuditLog] ([audit.rs], [append_audit_tx]): vocabulary, MAC chain, verification.
    - [Limiter] ([limiter.rs]): the per-connection fetch window.
    - [Database] ([store.rs], [store_agent_secrets.rs], [federation.rs]): the tables as
      finite maps, the statements with the triggers on [credentials], and the class
      [SqliteStore]: what the SQLite wrapper documents of fenced and unfenced
      transactions. [tx_rel] and [op_rel] carry a relation on databases through
      statements and operations.
    - [Store] ([store.rs]): every operation on credentials, intents, handles, audit and
      diagnostics, one definition each, and master-key rotation.
    - [Json]: JSON values, their equality and the codec class with its laws; a canonical
      text for evaluation.
    - [Secrets] ([agent_secret*.rs]): secrets for agents: scopes, materials, their sealed
      encoding, validation of hosts, paths and targets, one-time codes, request ids, the
      statements a phone signs and the envelopes it answers with. URL parsing, ECDSA and
      SHA/HMAC variants are the class [SecretExt].
    - [Kem] ([kem.rs]): key containers and opening and sealing over the HPKE class [Hpke].
    - [SecretStore] ([store_secret_use.rs], [store_secret_flow.rs],
      [store_secret_approval.rs], [store_secret_phone.rs], [store_secret_operator.rs],
      [store_agent_secrets.rs], federation helpers): every operation on secrets, grants,
      pending requests, receipts, deposits and the secret home.
    - [AdminGate] ([admin_auth.rs], [admin_surface.rs]): the challenge protocol before every
      administrative call, its state and its histories.
    - [SecretCodec]: theorems on the encodings, targets, codes and ids.
    - [SecretCalls]: the operations on secrets as a datatype of calls, and the statement of
      what a relation on databases needs to survive them.
    - [TxLogic]: preconditions of transaction bodies, partial ([wp]) and total ([runs]).
    - [Calls]: the operations as a datatype of calls; a history is a list of calls.
    - [Sealed], [Accounting], [StoreSpecs], [Rotation]: theorems on histories and on
      single operations.
    - [Engine] ([engine.rs], [refresh_adapters/mod.rs]): the read with its refresh, and
      reconciliation. Clocks, provider answers and what other tasks do to the store
      between any two of the engine's store calls are arguments ([EngineEnv]).
    - [EngineSpecs], [Reconcile], [Lock]: theorems on the engine.
    - [Grants] ([store.rs], [provider_ids.rs], [plan_tier.rs], [list_auth_method.rs]): read
      grants, the evaluation of one request, the scoped listing, and the operator's
      metadata of local and remote records, with reclassification.
    - [Enrollment] ([enrollment.rs], [store.rs]): the ceremony that gives a consumer a
      token, its two tables and their invariant.
    - [Access]: histories that mix store calls with grant, enrollment and secret calls
      ([VaultCall]), and the theorems over them.
    - [Signing] ([signing.rs]): the PEM container, the size cap and the key ids around
      Ed25519, a class.
    - [ReadSurface] ([read_surface.rs], [health.rs]): the requests a consumer makes: who is
      asking and what its grants reach, reads by handle and by grant, status, failure
      reports, signing, opening and sealing with vault-held keys, public keys, the scoped
      listing and the digests a watcher compares, the health summary, the refusal counter.
      A request is the sequence of its store and engine calls; [ReadEnv] says what other
      tasks do before each of them.
    - [ReadSpecs]: theorems on requests, and requests evaluated on a concrete vault.
    - [SecretSpecs], [SecretGrants]: theorems on releases, consent, receipts, requests and
      deposits, on single operations and on histories of the whole vault.
    - [SecretWitness]: a vault with a paired phone, run through the operations, on which
      those theorems are applied.

    ** What the theorems show

    Envelope: the decoder is total, accepts exactly what was sealed under the same key and
    binding, and cannot be fooled about its place unless the AEAD gives one ciphertext to two different
    associated data. Audit: appends
    verify, the tip fixes the log, truncation alone is invisible. Histories, for any calls
    with any outcome: rows stay sealed under their own id and version, a version names one
    blob of its lifetime, the audit log grows and verifies and has an entry for every
    change of material, diagnostics stay bounded, revoked handles stay dead, a fenced-out
    store is frozen, the vault's own active keys do not move, and intents keep naming the
    stored token. Operations: reads are gated by state, creates read back, a refresh commit
    and a rotation are atomic, removal forgets; a rotation of the master key re-seals every
    credential and agent secret that opens and reports exactly the rest. Engine: a refresh token is spent only after
    an intent for it is on disk, at most once per read, only when due; a refresh ends in
    one of a few states, none half-done, when no other task runs between its steps; what is served is what is stored; an unresolved
    rotation blocks its credential; a report defers a refresh by a minute at most; under
    the discipline of the per-credential lock (other tasks do what they like except what the
    lock excludes, and open intents only for the token of the row) a read keeps the vault
    sound, and keeps that discipline itself. Boot: reconciliation terminates, follows its decision table, raises no
    false alarm, and leaves no credential both readable and unresolved.

    Access: over any history of the vault the ceremony's tables keep their limits and
    links, a token is delivered at most once and only to the proposer, a retired token
    resolves to nobody, polling reveals nothing about other requests, the ceremony
    completes when nothing stands in its way, consumers are accounted for in the audit
    log, every grant stays admissible, and an unchanged grants generation means unchanged
    reach. The listing and the per-request check authorize the same, and reclassifying
    takes nobody's reach away. The catalog's default ids are unambiguous.

    Secrets: a secret leaves the store only for a target its sealed scope admits and under
    a grant of that very scope, asker and incarnation; a grant appears only through an
    envelope a registered phone signed over the pending request, and each request is spent
    once; consent that is gone does not come back without a new signature; a use that is
    covered is served; a paired computer gets one sealing per nonce. Over any history
    incarnations stay unique, grants and requests belong to stored secrets, every grant's
    envelope is in the audit log, and requests stay within their limits. A stored secret
    opens to exactly what was sealed under its scope, a one-time code never panics, and a
    request id is a canonical ULID.

    Read surface: what a read answers was permitted by the database it looked at, and, for
    a credential kept here, is what the engine, on the state the authorization left, served
    for the incarnation it was asked about, never a vault-held private key; what another
    member's vault answers is passed on under the caller's id; a caller without a grant cannot tell an absent credential from a forbidden one and
    changes nothing but diagnostics; a failure report can only mark the version its
    reporter was served; a signature or a sealing is authorized and in the audit log before
    it is returned; two listings have one digest exactly when they differ at most in record
    versions and refresh adapters, up to collisions of SHA-256; the health answer is the
    worst thing true of the vault.

    Admin gate: a tag admits one call, once, unless the MAC gives it to two transcripts; challenges are bounded and cannot be crowded
    out; a caller that holds the master key gets through.

    ** Bounds and termination

    Loops of the source run over lists and are structural recursions; the one fuel, of the
    decimal text of a [u64], is its number of digits, twenty. Versions are [u64], columns and clocks [i64], with the source's casts
    ([as_i64], [as_u64]) and saturating arithmetic written out. Randomness, the clock and
    fresh row identities are arguments ([Inputs]); hypotheses on them only state lengths.
    Theorems that an operation returns a result assume the lease and a working backend
    ([serving], [conn_healthy]), which the toy store has.

    ** What is not modelled

    The daemon's dispatch and process life cycle, the tasks that push changes to watchers,
    the client crate, the interactive login flows, provider HTTP and adapters, push notifications, and
    process hardening are I/O or third-party protocols around this core; HPKE, Ed25519,
    ECDSA, URL and base64 are third-party and parameters. Of the read surface the depositing
    of cookies, the enrollment pass-throughs and the replies about remote records are left
    out, and the reader of remote records is a parameter ([RemoteReader]). Migrations are
    not modelled: the database is at the newest schema. Of the secrets, the listings that
    open the database file read-only for the command line are left out; they change
    nothing. Of federation only member ids, the settings of the secret home and the
    transfer-key rule are modelled; member grants, remote records, the dispatch of admitted
    administrative calls, and the interleaving of several engine tasks with the lock
    registry explicit are not. *)

From Stdlib Require Export ZArith Lia Ascii String List.
From Stdlib.Strings Require Export Byte.
From stdpp Require Export base list gmap strings.

#[global] Open Scope string_scope.
#[global] Open Scope Z_scope.
#[global] Open Scope list_scope.

(** ** Results *)

(** Rust's [Result<A, E>]. *)
Inductive result (A E : Type) : Type :=
| Ok (a : A)
| Err (e : E).
Arguments Ok {A E} a.
Arguments Err {A E} e.

Declare Scope vault_scope.
Delimit Scope vault_scope with vault.
#[global] Open Scope vault_scope.

(** The [?] operator. *)
Notation "'let?' x ':=' m 'in' k" :=
  (match m with Ok x => k | Err err => Err err end)
  (at level 10, x pattern, m at level 100, k at level 200)
  : vault_scope.

Definition is_ok {A E} (r : result A E) : bool :=
  match r with Ok _ => true | Err _ => false end.

Definition map_err {A E F} (f : E -> F) (r : result A E) : result A F :=
  match r with Ok a => Ok a | Err e => Err (f e) end.

Definition is_some {A} (o : option A) : bool :=
  match o with Some _ => true | None => false end.

Definition ok_or {A E} (o : option A) (e : E) : result A E :=
  match o with Some a => Ok a | None => Err e end.

Lemma map_err_ok {A E F} (f : E -> F) (r : result A E) a : map_err f r = Ok a -> r = Ok a.
Proof. by destruct r as [b|e]; [intros [= <-]|]. Qed.

(** ** A state and error monad

    The code threads a store through calls that can fail; a failing call keeps the
    state it had reached ([?] returns early, it does not undo). Rolling a transaction
    back is a separate operation, [Database.fenced_write]. *)
Definition M (S E A : Type) : Type := S -> result A E * S.

Definition mret {S E A} (a : A) : M S E A := fun s => (Ok a, s).
Definition merr {S E A} (e : E) : M S E A := fun s => (Err e, s).
Definition mbind {S E A B} (m : M S E A) (k : A -> M S E B) : M S E B :=
  fun s => match m s with
           | (Ok a, s') => k a s'
           | (Err e, s') => (Err e, s')
           end.
Definition mlift {S E A} (r : result A E) : M S E A := fun s => (r, s).
(** Run a fallible call and keep its outcome as a value ([match f() { Ok.. Err.. }]). *)
Definition mtry {S E A} (m : M S E A) : M S E (result A E) :=
  fun s => let '(r, s') := m s in (Ok r, s').

Notation "'do!' x <- m ;; k" := (mbind m (fun x => k))
  (at level 10, x pattern, m at level 99, k at level 200)
  : vault_scope.

(** ** Machine integers *)

Definition i64_min : Z := - 2 ^ 63.
Definition i64_max : Z := 2 ^ 63 - 1.
Definition u64_max : Z := 2 ^ 64 - 1.

Definition in_u64 (z : Z) : Prop := 0 <= z <= u64_max.
Definition in_i64 (z : Z) : Prop := i64_min <= z <= i64_max.

(** The [as u64] and [as i64] casts: two's-complement reinterpretation. *)
Definition as_u64 (z : Z) : Z := z mod 2 ^ 64.
Definition as_i64 (z : Z) : Z := (z + 2 ^ 63) mod 2 ^ 64 - 2 ^ 63.

Definition clamp (lo hi z : Z) : Z := Z.max lo (Z.min hi z).
Definition u64_saturating_add (a b : Z) : Z := clamp 0 u64_max (a + b).
Definition i64_saturating_add (a b : Z) : Z := clamp i64_min i64_max (a + b).
Definition i64_saturating_sub (a b : Z) : Z := clamp i64_min i64_max (a - b).

(** ** Bytes and strings

    A Rust [String] is its UTF-8 byte sequence; [string] here is that sequence. *)
Abbreviation bytes := (list byte).

#[global] Instance byte_eq_dec : EqDecision byte := Byte.byte_eq_dec.

Definition str_bytes (s : string) : bytes := String.list_byte_of_string s.

Definition byte_of_Z (z : Z) : byte :=
  match Byte.of_N (Z.to_N (z mod 256)) with
  | Some b => b
  | None => x00
  end.
Definition Z_of_byte (b : byte) : Z := Z.of_N (Byte.to_N b).

(** [to_le_bytes] at a width of [n] bytes. *)
Fixpoint le_bytes (n : nat) (z : Z) : bytes :=
  match n with
  | O => []
  | S n' => byte_of_Z z :: le_bytes n' (z / 256)
  end.

(** A field behind a little-endian length prefix of [n] bytes. *)
Definition length_prefixed (n : nat) (field : bytes) : bytes :=
  (le_bytes n (Z.of_nat (length field)) ++ field)%list.

(** Lower-case hex, two digits per byte. *)
Definition hex_digit (n : Z) : ascii :=
  ascii_of_N (Z.to_N (if n <? 10 then 48 + n else 87 + n)).
Definition hex_byte (b : byte) : string :=
  String (hex_digit (Z_of_byte b / 16)) (String (hex_digit (Z_of_byte b mod 16)) "").
Definition hex (bs : bytes) : string := String.concat "" (map hex_byte bs).

Definition is_lower_hex_char (c : ascii) : bool :=
  let n := Z.of_N (N_of_ascii c) in
  ((48 <=? n) && (n <=? 57)) || ((97 <=? n) && (n <=? 102)).

Fixpoint str_forallb (p : ascii -> bool) (s : string) : bool :=
  match s with
  | EmptyString => true
  | String c s' => p c && str_forallb p s'
  end.

Definition str_contains_char (c : ascii) (s : string) : bool :=
  negb (str_forallb (fun d => negb (Ascii.eqb c d)) s).

Definition str_starts_with (p s : string) : bool := String.prefix p s.

Definition str_is_empty (s : string) : bool := String.eqb s "".

(** The byte order of strings, as [ORDER BY] and [sort] use it. *)
Definition string_le (x y : string) : Prop := Is_true (String.leb x y).
#[global] Instance string_le_dec : RelDecision string_le.
Proof. intros x y. unfold string_le. apply _. Defined.

(** ** Generic lemmas *)

Create HintDb vault discriminated.
Create Rewrite HintDb vault_rw.

(** Case on every [match] scrutinee of the goal or of a hypothesis, keeping equations. *)
Ltac case_all :=
  repeat match goal with
    | |- context [match ?x with _ => _ end] => destruct x eqn:?; simplify_eq/=; try done
    | H : context [match ?x with _ => _ end] |- _ => destruct x eqn:?; simplify_eq/=; try done
    end.

Lemma is_some_true {A} (o : option A) : is_some o = true <-> is_Some o.
Proof. by destruct o. Qed.
Lemma is_some_false {A} (o : option A) : is_some o = false <-> o = None.
Proof. by destruct o. Qed.

(** Split the boolean conjunctions and disjunctions of the context. *)
Ltac bool_hyps :=
  repeat match goal with
    | H : (_ && _)%bool = true |- _ => apply andb_true_iff in H; destruct H
    | H : (_ || _)%bool = false |- _ => apply orb_false_iff in H; destruct H
    | H : negb _ = true |- _ => apply negb_true_iff in H
    | H : negb _ = false |- _ => apply negb_false_iff in H
    | H : bool_decide _ = true |- _ => apply bool_decide_eq_true in H
    | H : bool_decide _ = false |- _ => apply bool_decide_eq_false in H
    | H : is_some _ = true |- _ => apply is_some_true in H
    | H : is_some _ = false |- _ => apply is_some_false in H
    end.

Lemma clamp_bounds lo hi z : lo <= hi -> lo <= clamp lo hi z <= hi.
Proof. unfold clamp. lia. Qed.

Lemma clamp_id lo hi z : lo <= z <= hi -> clamp lo hi z = z.
Proof. unfold clamp. lia. Qed.

Lemma clamp_mono lo hi a b : a <= b -> clamp lo hi a <= clamp lo hi b.
Proof. unfold clamp. lia. Qed.

(** A version stored in SQLite as a signed column reads back as itself. *)
Lemma as_u64_as_i64 z : in_u64 z -> as_u64 (as_i64 z) = z.
Proof.
  unfold in_u64, u64_max, as_u64, as_i64. intros H.
  rewrite Zminus_mod, Zmod_mod, <- Zminus_mod.
  replace (z + 2 ^ 63 - 2 ^ 63) with z by lia. apply Z.mod_small. lia.
Qed.

Lemma as_i64_id z : in_i64 z -> as_i64 z = z.
Proof.
  unfold in_i64, i64_min, i64_max, as_i64. intros H.
  rewrite Z.mod_small by lia. lia.
Qed.

Lemma as_i64_inj a b : in_u64 a -> in_u64 b -> as_i64 a = as_i64 b -> a = b.
Proof.
  intros Ha Hb H. rewrite <- (as_u64_as_i64 a), <- (as_u64_as_i64 b), H by done. done.
Qed.

Lemma u64_saturating_add_range a b : in_u64 (u64_saturating_add a b).
Proof. apply clamp_bounds. unfold u64_max. lia. Qed.

Lemma str_bytes_inj s t : str_bytes s = str_bytes t -> s = t.
Proof.
  unfold str_bytes. intros H.
  rewrite <- (String.string_of_list_byte_of_string s), H.
  apply String.string_of_list_byte_of_string.
Qed.

(** *** Little-endian encodings *)

Lemma Z_of_byte_of_Z z : Z_of_byte (byte_of_Z z) = z mod 256.
Proof.
  unfold Z_of_byte, byte_of_Z.
  pose proof (Z.mod_pos_bound z 256 ltac:(lia)) as Hb.
  destruct (Byte.of_N (Z.to_N (z mod 256))) as [b|] eqn:E.
  - apply Byte.to_of_N in E. rewrite E. lia.
  - apply Byte.of_N_None_iff in E. lia.
Qed.

Lemma byte_of_Z_of_byte b : byte_of_Z (Z_of_byte b) = b.
Proof. by destruct b. Qed.

Lemma length_le_bytes n z : length (le_bytes n z) = n.
Proof. revert z. induction n; intros; simpl; [done|]. by rewrite IHn. Qed.

Lemma le_bytes_mod_inj n a b :
  le_bytes n a = le_bytes n b -> a mod 256 ^ Z.of_nat n = b mod 256 ^ Z.of_nat n.
Proof.
  revert a b. induction n as [|n IH]; intros a b H; simpl in H.
  - by rewrite !Z.mod_1_r.
  - injection H as Hb Hr. apply (f_equal Z_of_byte) in Hb.
    rewrite !Z_of_byte_of_Z in Hb. specialize (IH _ _ Hr).
    rewrite Nat2Z.inj_succ, Z.pow_succ_r by lia.
    rewrite !Z.rem_mul_r by (try apply Z.pow_pos_nonneg; lia).
    by rewrite Hb, IH.
Qed.

Lemma le_bytes_inj n a b :
  0 <= a < 256 ^ Z.of_nat n -> 0 <= b < 256 ^ Z.of_nat n ->
  le_bytes n a = le_bytes n b -> a = b.
Proof.
  intros Ha Hb H%le_bytes_mod_inj.
  by rewrite (Z.mod_small a), (Z.mod_small b) in H.
Qed.

Lemma le_bytes_i64_inj a b : in_i64 a -> in_i64 b -> le_bytes 8 a = le_bytes 8 b -> a = b.
Proof.
  unfold in_i64, i64_min, i64_max. intros Ha Hb H%le_bytes_mod_inj.
  change (256 ^ Z.of_nat 8) with (2 ^ 64) in H.
  rewrite <- (as_i64_id a), <- (as_i64_id b) by (unfold in_i64, i64_min, i64_max; lia).
  unfold as_i64. f_equal.
  by rewrite <- (Z.add_mod_idemp_l a), <- (Z.add_mod_idemp_l b), H by lia.
Qed.

(** A length prefix makes the field boundary unambiguous. *)
Lemma length_prefixed_app_inj n f1 f2 r1 r2 :
  Z.of_nat (length f1) < 256 ^ Z.of_nat n -> Z.of_nat (length f2) < 256 ^ Z.of_nat n ->
  (length_prefixed n f1 ++ r1)%list = (length_prefixed n f2 ++ r2)%list ->
  f1 = f2 /\ r1 = r2.
Proof.
  unfold length_prefixed. intros H1 H2 H. rewrite <- !app_assoc in H.
  apply app_inj_1 in H as [Hl Hr]; [|by rewrite !length_le_bytes].
  apply le_bytes_inj in Hl; [|lia..].
  apply app_inj_1 in Hr; [done|lia].
Qed.

(** *** Hexadecimal *)

Definition unhex_digit (c : ascii) : Z :=
  let n := Z.of_N (N_of_ascii c) in if n <=? 57 then n - 48 else n - 87.

Lemma hex_cons b bs :
  hex (b :: bs) =
    String (hex_digit (Z_of_byte b / 16)) (String (hex_digit (Z_of_byte b mod 16)) (hex bs)).
Proof. destruct bs; [by destruct b|done]. Qed.

Lemma hex_byte_inj b c :
  hex_digit (Z_of_byte b / 16) = hex_digit (Z_of_byte c / 16) ->
  hex_digit (Z_of_byte b mod 16) = hex_digit (Z_of_byte c mod 16) -> b = c.
Proof.
  assert (forall d, byte_of_Z (16 * unhex_digit (hex_digit (Z_of_byte d / 16))
                     + unhex_digit (hex_digit (Z_of_byte d mod 16))) = d) as Hun
    by (intros d; by destruct d).
  intros H1 H2. by rewrite <- (Hun b), <- (Hun c), H1, H2.
Qed.

Lemma hex_inj xs ys : hex xs = hex ys -> xs = ys.
Proof.
  revert ys. induction xs as [|x xs IH]; intros [|y ys] H; rewrite ?hex_cons in H; try done.
  injection H as H1 H2 H3. f_equal; [by apply hex_byte_inj | by apply IH].
Qed.

Lemma hex_lower xs : str_forallb is_lower_hex_char (hex xs) = true.
Proof.
  induction xs as [|x xs IH]; [done|].
  rewrite hex_cons. cbn [str_forallb]. rewrite IH. by destruct x.
Qed.

Lemma length_hex xs : String.length (hex xs) = (2 * length xs)%nat.
Proof.
  induction xs as [|x xs IH]; [done|]. rewrite hex_cons. cbn [String.length length].
  rewrite IH. lia.
Qed.
