(* ===== verification/Text.v ===== *)
(** * Text: what the code uses of the language's strings

    ASCII classes, the prefix, suffix and splitting methods of [str], number parsing, and
    UTF-8: validity, characters, trimming. Strings are bytes, as in the program; a function
    on characters reads them through [utf8_chars]. *)

From S2P Require Import Prelude.

(** ** ASCII *)

Definition is_ascii_lowercase (c : ascii) : bool :=
  let n := Z.of_N (N_of_ascii c) in (97 <=? n) && (n <=? 122).
Definition is_ascii_digit (c : ascii) : bool :=
  let n := Z.of_N (N_of_ascii c) in (48 <=? n) && (n <=? 57).

Definition ascii_Z (c : ascii) : Z := Z.of_N (N_of_ascii c).
Definition is_ascii_uppercase (c : ascii) : bool := (65 <=? ascii_Z c) && (ascii_Z c <=? 90).
Definition is_printable (c : ascii) : bool := (32 <=? ascii_Z c) && (ascii_Z c <=? 126).
Definition is_visible (c : ascii) : bool := (33 <=? ascii_Z c) && (ascii_Z c <=? 126).

(** [s.strip_prefix(p)]. *)
Fixpoint strip_prefix (p s : string) : option string :=
  match p, s with
  | EmptyString, _ => Some s
  | String a p', String b s' => if Ascii.eqb a b then strip_prefix p' s' else None
  | _, _ => None
  end.

(** [s.strip_suffix(p)]. *)
Fixpoint strip_suffix (p s : string) : option string :=
  if String.eqb s p then Some "" else
  match s with
  | EmptyString => None
  | String c s' => match strip_suffix p s' with Some r => Some (String c r) | None => None end
  end.

Definition ends_with (p s : string) : bool := is_some (strip_suffix p s).

(** [s.split_once(p)]: at the first occurrence. *)
Fixpoint split_once (p s : string) : option (string * string) :=
  match strip_prefix p s with
  | Some r => Some ("", r)
  | None =>
      match s with
      | EmptyString => None
      | String c s' =>
          match split_once p s' with Some (a, b) => Some (String c a, b) | None => None end
      end
  end.

(** [s.trim_end_matches(c)]. *)
Fixpoint trim_end (c : ascii) (s : string) : string :=
  match s with
  | EmptyString => ""
  | String d s' =>
      let r := trim_end c s' in
      if str_is_empty r && Ascii.eqb c d then "" else String d r
  end.

(** [s.split(c)]: the pieces between separators, at least one. *)
Fixpoint split_on (c : ascii) (s : string) : string * list string :=
  match s with
  | EmptyString => ("", [])
  | String d s' =>
      let '(h, t) := split_on c s' in
      if Ascii.eqb c d then ("", h :: t) else (String d h, t)
  end.

(** [s.split(c)] as one list. *)
Definition split_list (c : ascii) (s : string) : list string := let '(h, t) := split_on c s in h :: t.

(** [char::to_ascii_lowercase]; [eq_ignore_ascii_case] compares through it. *)
Definition ascii_lower (c : ascii) : ascii :=
  if is_ascii_uppercase c then ascii_of_N (N_of_ascii c + 32) else c.
Fixpoint str_lower (s : string) : string :=
  match s with EmptyString => "" | String c r => String (ascii_lower c) (str_lower r) end.

(** [str::parse] of an unsigned integer type: an optional plus sign, then digits, no
    overflow of [max]. *)
Fixpoint parse_digits (max acc : Z) (s : string) : option Z :=
  match s with
  | EmptyString => Some acc
  | String c r =>
      if is_ascii_digit c then
        let n := acc * 10 + (ascii_Z c - 48) in
        if n <=? max then parse_digits max n r else None
      else None
  end.
Definition parse_unsigned (max : Z) (s : string) : option Z :=
  let digits := match s with String "+" r => r | _ => s end in
  if str_is_empty digits then None else parse_digits max 0 digits.

(** [str::parse] of a signed integer type. *)
Definition parse_signed (min max : Z) (s : string) : option Z :=
  match s with
  | String "-" r => if str_is_empty r then None else Z.opp <$> parse_digits (- min) 0 r
  | _ => parse_unsigned max s
  end.

Example parse_signed_bounds :
  parse_signed i64_min i64_max "-9223372036854775808" = Some i64_min /\ parse_signed i64_min i64_max "9223372036854775808" = None /\
  parse_signed i64_min i64_max "+43200" = Some 43200 /\ parse_signed i64_min i64_max "-" = None.
Proof. by vm_compute. Qed.

(** ** UTF-8 *)

(** [std::str::from_utf8(bytes).is_ok()]. *)
Definition utf8_cont (b : byte) : bool := (128 <=? Z_of_byte b) && (Z_of_byte b <=? 191).
Fixpoint utf8_valid (bs : bytes) : bool :=
  match bs with
  | [] => true
  | b0 :: r0 =>
      let n := Z_of_byte b0 in
      if n <=? 127 then utf8_valid r0 else
      match r0 with
      | [] => false
      | b1 :: r1 =>
          let m := Z_of_byte b1 in
          if (194 <=? n) && (n <=? 223) then utf8_cont b1 && utf8_valid r1 else
          match r1 with
          | [] => false
          | b2 :: r2 =>
              if (224 <=? n) && (n <=? 239) then
                utf8_cont b1 && ((n =? 224) && (160 <=? m) || (n =? 237) && (m <=? 159) ||
                                 negb (n =? 224) && negb (n =? 237)) &&
                utf8_cont b2 && utf8_valid r2
              else
              match r2 with
              | [] => false
              | b3 :: r3 =>
                  (240 <=? n) && (n <=? 244) && utf8_cont b1 &&
                  ((n =? 240) && (144 <=? m) || (n =? 244) && (m <=? 143) ||
                   negb (n =? 240) && negb (n =? 244)) &&
                  utf8_cont b2 && utf8_cont b3 && utf8_valid r3
              end
          end
      end
  end.

(** The [chars()] of a valid UTF-8 string, as scalar values. *)
Fixpoint utf8_chars (bs : bytes) : list Z :=
  let low b := Z.land (Z_of_byte b) 63 in
  match bs with
  | [] => []
  | b0 :: r0 =>
      let n := Z_of_byte b0 in
      if n <? 128 then n :: utf8_chars r0 else
      match r0 with
      | b1 :: r1 =>
          if n <? 224 then (Z.land n 31 * 64 + low b1) :: utf8_chars r1 else
          match r1 with
          | b2 :: r2 =>
              if n <? 240 then (Z.land n 15 * 4096 + low b1 * 64 + low b2) :: utf8_chars r2 else
              match r2 with
              | b3 :: r3 =>
                  (Z.land n 7 * 262144 + low b1 * 4096 + low b2 * 64 + low b3) :: utf8_chars r3
              | [] => []
              end
          | [] => []
          end
      | [] => []
      end
  end.

(** [char::is_whitespace]: the Unicode White_Space property. *)
Definition char_is_whitespace (c : Z) : bool :=
  ((9 <=? c) && (c <=? 13)) || (c =? 32) || (c =? 133) || (c =? 160) || (c =? 5760) ||
  ((8192 <=? c) && (c <=? 8202)) || (c =? 8232) || (c =? 8233) || (c =? 8239) ||
  (c =? 8287) || (c =? 12288).

(** [char::is_control]: general category Cc. *)
Definition char_is_control (c : Z) : bool :=
  ((0 <=? c) && (c <=? 31)) || ((127 <=? c) && (c <=? 159)).

(** The characters of valid UTF-8, each as its bytes. *)
Fixpoint utf8_chunks (bs : bytes) : list bytes :=
  match bs with
  | [] => []
  | b0 :: r0 =>
      let n := Z_of_byte b0 in
      if n <? 128 then [b0] :: utf8_chunks r0 else
      match r0 with
      | [] => [[b0]]
      | b1 :: r1 =>
          if n <? 224 then [b0; b1] :: utf8_chunks r1 else
          match r1 with
          | [] => [[b0; b1]]
          | b2 :: r2 =>
              if n <? 240 then [b0; b1; b2] :: utf8_chunks r2 else
              match r2 with
              | [] => [[b0; b1; b2]]
              | b3 :: r3 => [b0; b1; b2; b3] :: utf8_chunks r3
              end
          end
      end
  end.

Definition chunk_is_whitespace (c : bytes) : bool :=
  match utf8_chars c with [n] => char_is_whitespace n | _ => false end.

Fixpoint drop_whitespace (l : list bytes) : list bytes :=
  match l with
  | [] => []
  | c :: r => if chunk_is_whitespace c then drop_whitespace r else l
  end.

(** [s.trim()]. *)
Definition str_trim (s : string) : string :=
  String.string_of_list_byte
    (concat (rev (drop_whitespace (rev (drop_whitespace (utf8_chunks (str_bytes s))))))).
