(* ===== verification/Crypto.v ===== *)
(** * The cryptographic primitives the vault calls

    The hash, the MAC and the AEAD come from the crates [sha2], [hmac] and
    [chacha20poly1305], which are not part of the repository. They are the methods of
    the class [Crypto]; [CryptoLaws] states the documented behaviour the vault relies
    on (output lengths, and that decryption accepts exactly what encryption produced).
    No collision freedom is assumed anywhere: the theorems that need it conclude with
    an explicit collision instead. The keyed fingerprints of [key.rs] are here because
    every other component uses them.

    [Toy] is an executable instance, used to evaluate the model on concrete inputs and
    to show that the laws can hold. *)

From S2P Require Import Prelude.

Definition TAG_LEN : nat := 16.

Class Crypto := {
  (** [Sha256::digest] of a whole message. *)
  sha256 : bytes -> bytes;
  (** [HmacSha256] of a whole message under a key. *)
  hmac_sha256 : bytes -> bytes -> bytes;
  (** [XChaCha20Poly1305::new_from_slice] succeeds on this key. *)
  aead_key_ok : bytes -> bool;
  (** [encrypt key nonce aad msg]. *)
  aead_encrypt : bytes -> bytes -> bytes -> bytes -> option bytes;
  (** [decrypt key nonce aad ciphertext]. *)
  aead_decrypt : bytes -> bytes -> bytes -> bytes -> option bytes;
}.

Class CryptoLaws (C : Crypto) : Prop := {
  sha256_length m : length (sha256 m) = 32%nat;
  hmac_length k m : length (hmac_sha256 k m) = 32%nat;
  aead_key_32 k : length k = 32%nat -> aead_key_ok k = true;
  aead_total k n a m :
    length k = 32%nat -> length n = 24%nat -> is_Some (aead_encrypt k n a m);
  aead_length k n a m c :
    aead_encrypt k n a m = Some c -> length c = (length m + TAG_LEN)%nat;
  aead_decrypt_encrypt k n a m c :
    aead_encrypt k n a m = Some c -> aead_decrypt k n a c = Some m;
  aead_genuine k n a m c :
    aead_decrypt k n a c = Some m -> aead_encrypt k n a m = Some c;
}.

(** ** Master keys and fingerprints ([key.rs]) *)

Definition MASTER_KEY_LEN : nat := 32.
Definition KEY_ID_LEN : nat := 8.
Definition KEY_ID_DOMAIN : bytes := str_bytes "cortexkit-credentials/key-id/v1".

(** [MasterKey] owns a 32-byte array. *)
Record MasterKey := { mk_bytes : bytes; mk_len : length mk_bytes = MASTER_KEY_LEN }.

(** [KeyId] owns an 8-byte array; the lemmas below carry its length. *)
Abbreviation KeyId := bytes (only parsing).

Section KeyId.
Context `{Crypto}.

Definition key_id (k : MasterKey) : KeyId :=
  take KEY_ID_LEN (sha256 (KEY_ID_DOMAIN ++ mk_bytes k)).

Definition key_id_to_hex (k : KeyId) : string := hex k.

(** [char::to_digit(16)]: both cases are accepted. *)
Definition to_digit16 (c : ascii) : option Z :=
  let n := Z.of_N (N_of_ascii c) in
  if (48 <=? n) && (n <=? 57) then Some (n - 48)
  else if (97 <=? n) && (n <=? 102) then Some (n - 87)
  else if (65 <=? n) && (n <=? 70) then Some (n - 55)
  else None.

Fixpoint from_hex_pairs (s : string) : option bytes :=
  match s with
  | String a (String b s') =>
      match to_digit16 a, to_digit16 b with
      | Some hi, Some lo =>
          match from_hex_pairs s' with
          | Some r => Some (byte_of_Z (Z.lor (Z.shiftl hi 4) lo) :: r)
          | None => None
          end
      | _, _ => None
      end
  | _ => Some []
  end.

Definition key_id_from_hex (s : string) : option KeyId :=
  if (String.length s =? KEY_ID_LEN * 2)%nat then from_hex_pairs s else None.

Lemma key_id_length `{!CryptoLaws _} k : length (key_id k) = KEY_ID_LEN.
Proof. unfold key_id. rewrite length_take, sha256_length. done. Qed.

Lemma from_hex_pairs_hex bs : from_hex_pairs (hex bs) = Some bs.
Proof.
  induction bs as [|b bs IH]; [done|].
  rewrite hex_cons. cbn [from_hex_pairs].
  rewrite IH. by destruct b.
Qed.

(** A stored [key_id] column parses back to the fingerprint it was written from. *)
Lemma key_id_hex_roundtrip k :
  length k = KEY_ID_LEN -> key_id_from_hex (key_id_to_hex k) = Some k.
Proof.
  intros Hk. unfold key_id_from_hex, key_id_to_hex.
  rewrite length_hex, Hk. apply from_hex_pairs_hex.
Qed.
End KeyId.

#[export] Hint Resolve key_id_length : vault.
#[global] Arguments key_id : simpl never.

(** ** A concrete instance *)

Module Toy.
(** A polynomial checksum, padded to 32 bytes. *)
Definition digest (m : bytes) : bytes :=
  le_bytes 32 (fold_left (fun h b => (h * 8191 + Z_of_byte b + 1) mod 2 ^ 61) m 7).

Definition tag (k n a m : bytes) : bytes :=
  take TAG_LEN (digest (k ++ n ++ length_prefixed 8 a ++ m)).

Definition encrypt (k n a m : bytes) : option bytes :=
  if decide (length k = 32%nat /\ length n = 24%nat) then Some (m ++ tag k n a m) else None.

Definition decrypt (k n a c : bytes) : option bytes :=
  let m := take (length c - TAG_LEN) c in
  if decide (length k = 32%nat /\ length n = 24%nat /\ c = m ++ tag k n a m) then Some m else None.

#[export] Instance toy_crypto : Crypto := {|
  sha256 := digest;
  hmac_sha256 k m := digest (length_prefixed 8 k ++ m);
  aead_key_ok k := (length k =? 32)%nat;
  aead_encrypt := encrypt;
  aead_decrypt := decrypt;
|}.

Lemma length_tag k n a m : length (tag k n a m) = TAG_LEN.
Proof. unfold tag, digest. rewrite length_take, length_le_bytes. done. Qed.

#[export] Instance toy_laws : CryptoLaws toy_crypto.
Proof.
  split; cbn -[le_bytes]; unfold digest.
  - intros. apply length_le_bytes.
  - intros. apply length_le_bytes.
  - intros k ->. done.
  - intros k n a m Hk Hn. unfold encrypt. rewrite decide_True by done. eauto.
  - intros k n a m c. unfold encrypt. case_decide; intros; simplify_eq.
    by rewrite length_app, length_tag.
  - intros k n a m c. unfold encrypt, decrypt. case_decide as Hd; [|done]. intros [= <-].
    rewrite length_app, length_tag, Nat.add_sub, take_app_length.
    destruct Hd. by rewrite decide_True.
  - intros k n a m c. unfold encrypt, decrypt. case_decide as Hd; [|done]. intros [= <-].
    destruct Hd as (? & ? & Hc). rewrite decide_True by done. by rewrite <- Hc.
Qed.

Definition key_of_byte (b : byte) : MasterKey :=
  {| mk_bytes := replicate 32 b; mk_len := length_replicate 32 b |}.
End Toy.
