(* ===== verification/Json.v ===== *)
(** * JSON values ([serde_json::Value]) and their text

    Statements, replies and stored method lists are JSON. [Value] is the crate's value
    type; its maps keep their keys sorted (the [preserve_order] feature is off), so an
    object is a list of members in strictly ascending key order. Printing and parsing are
    the crate's: the class [JsonCodec], with the documented law that parsing what was
    printed gives the value back. [ToyJson] is an executable instance. *)

From stdpp Require Import gmap sorting.
From S2P Require Import Prelude.

Unset Elimination Schemes.
Inductive Value :=
| JNull
| JBool (b : bool)
| JNum (n : Z)
| JFloat (bits : Z)
| JStr (s : string)
| JArr (l : list Value)
| JObj (l : list (string * Value)).
Set Elimination Schemes.

Section ValueInd.
Context (P : Value -> Prop).
Context (Hnull : P JNull) (Hbool : forall b, P (JBool b)) (Hnum : forall n, P (JNum n))
  (Hfloat : forall n, P (JFloat n)) (Hstr : forall s, P (JStr s))
  (Harr : forall l, Forall P l -> P (JArr l)) (Hobj : forall l, Forall (fun kv => P kv.2) l -> P (JObj l)).

Fixpoint Value_ind (v : Value) : P v :=
  match v with
  | JNull => Hnull
  | JBool b => Hbool b
  | JNum n => Hnum n
  | JFloat n => Hfloat n
  | JStr s => Hstr s
  | JArr l => Harr l ((fix go (l : list Value) : Forall P l := match l with
                        | [] => List.Forall_nil P
                        | x :: r => List.Forall_cons P x r (Value_ind x) (go r)
                        end) l)
  | JObj l => Hobj l ((fix go (l : list (string * Value)) : Forall (fun kv => P kv.2) l := match l with
                        | [] => List.Forall_nil _
                        | kv :: r => List.Forall_cons _ kv r (Value_ind kv.2) (go r)
                        end) l)
  end.
End ValueInd.

(** ** Equality *)

Fixpoint value_eqb (v w : Value) {struct v} : bool :=
  match v, w with
  | JNull, JNull => true
  | JBool a, JBool b => Bool.eqb a b
  | JNum a, JNum b | JFloat a, JFloat b => a =? b
  | JStr a, JStr b => String.eqb a b
  | JArr xs, JArr ys =>
      (fix go xs ys := match xs, ys with
         | [], [] => true
         | x :: xs, y :: ys => value_eqb x y && go xs ys
         | _, _ => false
         end) xs ys
  | JObj xs, JObj ys =>
      (fix go xs ys := match xs, ys with
         | [], [] => true
         | (k, x) :: xs, (k', y) :: ys => String.eqb k k' && value_eqb x y && go xs ys
         | _, _ => false
         end) xs ys
  | _, _ => false
  end.

Lemma value_eqb_eq v w : value_eqb v w = true <-> v = w.
Proof.
  revert w. induction v as [|b|n|n|s|l IH|l IH] using Value_ind; intros []; cbn; try done.
  - rewrite Bool.eqb_true_iff. split; congruence.
  - rewrite Z.eqb_eq. split; congruence.
  - rewrite Z.eqb_eq. split; congruence.
  - rewrite String.eqb_eq. split; congruence.
  - transitivity (l = l0); [|split; congruence].
    revert l0. induction IH as [|x l Hx Hl IHl]; intros [|y l0]; try done.
    rewrite andb_true_iff, Hx, IHl. split; [intros [-> ->]|intros [= -> ->]]; done.
  - transitivity (l = l0); [|split; congruence].
    revert l0. induction IH as [|[k x] l Hx Hl IHl]; intros [|[k' y] l0]; try done.
    rewrite !andb_true_iff, String.eqb_eq, Hx, IHl. cbn.
    split; [intros [[-> ->] ->]|intros [= -> -> ->]]; done.
Qed.

#[global] Instance Value_eq_dec : EqDecision Value.
Proof.
  intros v w. destruct (value_eqb v w) eqn:E; [left|right]; rewrite <- value_eqb_eq; congruence.
Defined.

(** ** Objects *)

(** Strictly ascending keys: the byte order of [String]. *)
Definition str_ltb (a b : string) : bool := String.ltb a b.

(** [Map::insert]: replace or add, keeping the keys sorted. *)
Fixpoint map_insert (k : string) (v : Value) (l : list (string * Value)) : list (string * Value) :=
  match l with
  | [] => [(k, v)]
  | (k', v') :: r =>
      if String.eqb k k' then (k, v) :: r
      else if str_ltb k k' then (k, v) :: l
      else (k', v') :: map_insert k v r
  end.

Fixpoint map_get (k : string) (l : list (string * Value)) : option Value :=
  match l with
  | [] => None
  | (k', v) :: r => if String.eqb k k' then Some v else map_get k r
  end.

(** [json!({..})]: the members inserted in the order written. *)
Definition jobj (l : list (string * Value)) : Value :=
  JObj (fold_left (fun m kv => map_insert kv.1 kv.2 m) l []).

(** [value.get(key)]. *)
Definition jget (k : string) (v : Value) : option Value :=
  match v with JObj l => map_get k l | _ => None end.

(** [value[key]]: [Null] for a missing member or a value that is no object. *)
Definition jidx (v : Value) (k : string) : Value := default JNull (jget k v).

(** [value[key] = x], on an object. *)
Definition jset (k : string) (x v : Value) : Value :=
  match v with JObj l => JObj (map_insert k x l) | _ => v end.

Definition as_str (v : Value) : option string := match v with JStr s => Some s | _ => None end.
Definition as_array (v : Value) : option (list Value) := match v with JArr l => Some l | _ => None end.

(** [json!(x)] of the types the code passes. *)
Definition jopt (o : option string) : Value := match o with Some s => JStr s | None => JNull end.
Definition jopt_num (o : option Z) : Value := match o with Some n => JNum n | None => JNull end.

Definition jvalue_is (v : Value) (w : Value) : bool := bool_decide (v = w).

(** ** Well-formed values

    Every value the crate builds or parses: keys strictly ascending at every level and
    numbers within [i64] or [u64]. *)
Fixpoint keys_sorted (l : list string) : bool :=
  match l with
  | a :: (b :: _) as r => str_ltb a b && keys_sorted r
  | _ => true
  end.

Fixpoint value_wf (v : Value) : bool :=
  match v with
  | JNum n => (i64_min <=? n) && (n <=? u64_max)
  | JFloat n => (0 <=? n) && (n <=? u64_max)
  | JArr l => forallb value_wf l
  | JObj l => keys_sorted (map fst l) && forallb (fun kv => value_wf kv.2) l
  | _ => true
  end.

Class JsonCodec := {
  (** [serde_json::to_vec]. *)
  json_to_vec : Value -> bytes;
  (** [serde_json::from_slice::<Value>]. *)
  json_from_slice : bytes -> option Value;
}.

Class JsonLaws (J : JsonCodec) : Prop := {
  json_from_to v : value_wf v = true -> json_from_slice (json_to_vec v) = Some v;
}.

Section Text.
Context `{J : JsonCodec}.

(** [serde_json::to_string] and [from_str]: the same bytes as text. *)
Definition json_to_string (v : Value) : string := String.string_of_list_byte (json_to_vec v).
Definition json_from_str (s : string) : option Value := json_from_slice (str_bytes s).

Fixpoint strings_of (l : list Value) : option (list string) :=
  match l with
  | [] => Some []
  | v :: r => match as_str v, strings_of r with Some s, Some r' => Some (s :: r') | _, _ => None end
  end.

(** [to_string(&Vec<String>)] and [from_str::<Vec<String>>]. *)
Definition strings_to_text (l : list string) : string := json_to_string (JArr (map JStr l)).
Definition strings_from_text (s : string) : option (list string) :=
  match json_from_str s with Some (JArr l) => strings_of l | _ => None end.

Context `{!JsonLaws J}.

Lemma str_bytes_of_bytes bs : str_bytes (String.string_of_list_byte bs) = bs.
Proof. apply String.list_byte_of_string_of_list_byte. Qed.

Lemma json_str_roundtrip v : value_wf v = true -> json_from_str (json_to_string v) = Some v.
Proof. intros. unfold json_from_str, json_to_string. rewrite str_bytes_of_bytes. by apply json_from_to. Qed.

Lemma strings_roundtrip l : strings_from_text (strings_to_text l) = Some l.
Proof.
  unfold strings_from_text, strings_to_text. rewrite json_str_roundtrip.
  - induction l as [|s l IH]; cbn; [done|]. by rewrite IH.
  - cbn. by induction l.
Qed.

Lemma json_to_vec_inj v w :
  value_wf v = true -> value_wf w = true -> json_to_vec v = json_to_vec w -> v = w.
Proof. intros Hv Hw E. apply json_from_to in Hv, Hw. congruence. Qed.
End Text.

(** ** A concrete codec *)

Module ToyJson.

(** A string: each character behind a one, then a zero. *)
Fixpoint enc_str (s : string) : bytes :=
  match s with
  | EmptyString => [x00]
  | String c r => x01 :: byte_of_ascii c :: enc_str r
  end.

Fixpoint dec_str (bs : bytes) : option (string * bytes) :=
  match bs with
  | x00 :: r => Some ("", r)
  | x01 :: c :: r =>
      match dec_str r with Some (s, r') => Some (String (ascii_of_byte c) s, r') | None => None end
  | _ => None
  end.

Fixpoint le_value (bs : bytes) : Z :=
  match bs with [] => 0 | b :: r => Z_of_byte b + 256 * le_value r end.

Definition enc_num (n : Z) : bytes := le_bytes 9 (n + 2 ^ 64).
Definition dec_num (bs : bytes) : Z := le_value (take 9 bs) - 2 ^ 64.

Fixpoint enc (v : Value) : bytes :=
  match v with
  | JNull => [x6e]
  | JBool true => [x74]
  | JBool false => [x66]
  | JNum n => x69 :: enc_num n
  | JFloat n => x64 :: enc_num n
  | JStr s => x73 :: enc_str s
  | JArr l => x61 :: concat (map (fun v => x01 :: enc v) l) ++ [x00]
  | JObj l => x6f :: concat (map (fun kv => x01 :: enc_str kv.1 ++ enc kv.2) l) ++ [x00]
  end.

(** Items behind a one each, ended by a zero; [n] bounds their number. *)
Fixpoint dec_items {A} (item : bytes -> option (A * bytes)) (n : nat) (bs : bytes)
  : option (list A * bytes) :=
  match n, bs with
  | _, x00 :: r => Some ([], r)
  | S n, x01 :: r =>
      match item r with
      | Some (v, r') => match dec_items item n r' with Some (l, r'') => Some (v :: l, r'') | None => None end
      | None => None
      end
  | _, _ => None
  end.

Fixpoint dec (n : nat) (bs : bytes) : option (Value * bytes) :=
  match n with
  | O => None
  | S n =>
      match bs with
      | x6e :: r => Some (JNull, r)
      | x74 :: r => Some (JBool true, r)
      | x66 :: r => Some (JBool false, r)
      | x69 :: r => Some (JNum (dec_num r), drop 9 r)
      | x64 :: r => Some (JFloat (dec_num r), drop 9 r)
      | x73 :: r => match dec_str r with Some (s, r') => Some (JStr s, r') | None => None end
      | x61 :: r => match dec_items (dec n) n r with Some (l, r') => Some (JArr l, r') | None => None end
      | x6f :: r =>
          match dec_items (fun r =>
                  match dec_str r with
                  | Some (k, r') => match dec n r' with Some (v, r'') => Some ((k, v), r'') | None => None end
                  | None => None
                  end) n r with
          | Some (l, r') => Some (JObj l, r')
          | None => None
          end
      | _ => None
      end
  end.

#[export] Instance toy_json : JsonCodec := {|
  json_to_vec := enc;
  json_from_slice bs := match dec (length bs) bs with Some (v, []) => Some v | _ => None end;
|}.

Lemma dec_enc_str s r : dec_str (enc_str s ++ r) = Some (s, r).
Proof. induction s as [|c s IH]; cbn; [done|]. rewrite IH. by rewrite ascii_of_byte_of_ascii. Qed.

Lemma le_value_bytes n z : 0 <= z < 256 ^ Z.of_nat n -> le_value (le_bytes n z) = z.
Proof.
  revert z. induction n as [|n IH]; intros z Hz; [cbn in *; lia|].
  rewrite Nat2Z.inj_succ, Z.pow_succ_r in Hz by lia. cbn [le_bytes le_value].
  rewrite Z_of_byte_of_Z, IH.
  - pose proof (Z.div_mod z 256). lia.
  - split; [apply Z.div_pos; lia|apply Z.div_lt_upper_bound; lia].
Qed.

Lemma dec_enc_num n r : i64_min <= n <= u64_max -> dec_num (enc_num n ++ r) = n /\ drop 9 (enc_num n ++ r) = r.
Proof.
  intros Hn. unfold dec_num, enc_num, i64_min, u64_max in *.
  pose proof (length_le_bytes 9 (n + 2 ^ 64)) as Hl.
  rewrite take_app_le, drop_app_ge, take_ge, Hl, le_value_bytes by (rewrite ?Hl; cbn; lia).
  split; [lia|done].
Qed.

Lemma dec_items_app {A} (item : bytes -> option (A * bytes)) (e : A -> bytes) l n r :
  Forall (fun v => forall r, item (e v ++ r) = Some (v, r)) l -> (length l <= n)%nat ->
  dec_items item n ((concat (map (fun v => x01 :: e v) l) ++ [x00]) ++ r) = Some (l, r).
Proof.
  intros Hl. revert n. induction Hl as [|v l Hv Hl IH]; intros [|n] Hn; cbn in *; try done; [lia|].
  rewrite <- !app_assoc, Hv. specialize (IH n ltac:(lia)). rewrite <- !app_assoc in IH. by rewrite IH.
Qed.

Lemma length_items {A} (e : A -> bytes) l :
  (length l <= length (concat (map (fun v => x01 :: e v) l)))%nat.
Proof. induction l; cbn; [lia|]. rewrite length_app. lia. Qed.

Lemma length_item {A} (e : A -> bytes) l v : v ∈ l ->
  (length (e v) < length (concat (map (fun v => x01 :: e v) l)))%nat.
Proof. induction 1; cbn; rewrite length_app; lia. Qed.

Lemma dec_enc v : value_wf v = true -> forall n r, (length (enc v) <= n)%nat -> dec n (enc v ++ r) = Some (v, r).
Proof.
  induction v as [|b|z|z|s|l IH|l IH] using Value_ind; intros Hw [|n] r Hn;
    try (exfalso; first [destruct b|idtac]; cbn in Hn; lia); cbn [enc length] in Hn.
  - done.
  - destruct b; reflexivity.
  - cbn in Hw. bool_hyps. cbn [enc app dec].
    destruct (dec_enc_num z r) as [-> ->]; [lia|done].
  - cbn in Hw. bool_hyps. cbn [enc app dec].
    destruct (dec_enc_num z r) as [-> ->]; [unfold i64_min; lia|done].
  - cbn. by rewrite dec_enc_str.
  - cbn [enc app dec]. cbn in Hw. rewrite forallb_forall in Hw. rewrite length_app in Hn. cbn in Hn.
    rewrite dec_items_app; [done| |pose proof (length_items enc l); lia].
    apply list.Forall_forall. intros v Hv r'. rewrite list.Forall_forall in IH.
    apply IH; [done|apply Hw; by apply list_elem_of_In|pose proof (length_item enc l v Hv); lia].
  - cbn [enc app dec]. cbn in Hw. apply andb_true_iff in Hw as [_ Hw]. rewrite forallb_forall in Hw.
    rewrite length_app in Hn. cbn in Hn. set (e := fun kv : string * Value => enc_str kv.1 ++ enc kv.2).
    change (fun kv : string * Value => x01 :: enc_str kv.1 ++ enc kv.2) with (fun kv => x01 :: e kv) in *.
    rewrite (dec_items_app _ e); [done| |pose proof (length_items e l); lia].
    apply list.Forall_forall. intros [k v] Hv r'. rewrite list.Forall_forall in IH. unfold e. cbn.
    rewrite <- app_assoc, dec_enc_str.
    rewrite (IH (k, v) Hv); [done|apply (Hw (k, v)); by apply list_elem_of_In|].
    pose proof (length_item e l (k, v) Hv) as Hi. unfold e in Hi at 1. rewrite length_app in Hi. cbn in *. lia.
Qed.

#[export] Instance toy_json_laws : JsonLaws toy_json.
Proof.
  split. intros v Hv. cbn. rewrite <- (app_nil_r (enc v)) at 2. by rewrite dec_enc.
Qed.
End ToyJson.
