(* ===== verification/Record.v ===== *)
(** * The typed vault record ([record.rs], [oauth.rs], [plan_detection.rs] data)

    [VaultRecord] and its parts, the lifecycle state with its text form, account
    identities and their normalisation, the readers of provider tokens and of Bedrock keys
    ([oauth_login.rs], [plan_detection.rs], [bedrock.rs]), and the constructors of a
    record. What the record needs from code outside the repository (the JSON codec derived
    by [serde], the clock, and the crates that read a presigned URL) is the class
    [RecordExt]; [RecordExtLaws] states the codec's round trip. *)

From S2P Require Import Prelude Text Json.

Definition RECORD_SCHEMA_VERSION : Z := 1.

Inductive CredentialKind :=
| Oauth | ApiKey | Dsn | Cookie | Opaque | SigningKey | KemKey.
#[global] Instance CredentialKind_eq_dec : EqDecision CredentialKind.
Proof. solve_decision. Defined.

Definition is_vault_held_key (k : CredentialKind) : bool :=
  match k with SigningKey | KemKey => true | _ => false end.

Inductive RecordState := Active | NeedsReauthState | Retired | CorruptState.
#[global] Instance RecordState_eq_dec : EqDecision RecordState.
Proof. solve_decision. Defined.

Definition state_as_str (s : RecordState) : string :=
  match s with
  | Active => "active"
  | NeedsReauthState => "needs_reauth"
  | Retired => "retired"
  | CorruptState => "corrupt"
  end.

Definition state_from_str (s : string) : RecordState :=
  if bool_decide (s = "active") then Active
  else if bool_decide (s = "needs_reauth") then NeedsReauthState
  else if bool_decide (s = "retired") then Retired
  else CorruptState.

(** ** OAuth material *)

Definition CUSTODY_TOMBSTONE_PREFIX : string := "claustrum-tombstone:v1:".
Definition is_custody_tombstone (value : string) : bool :=
  str_starts_with CUSTODY_TOMBSTONE_PREFIX value.

Record OAuthCredential := {
  access_token : string;
  refresh_token : string;
  oauth_expires_at_ms : option Z;
  token_url : string;
  client_id : option string;
  client_secret : option string;
  scopes : list string;
}.
#[global] Instance OAuthCredential_eq_dec : EqDecision OAuthCredential.
Proof. solve_decision. Defined.

Definition is_access_expired (c : OAuthCredential) (now_ms skew_ms : Z) : bool :=
  match oauth_expires_at_ms c with
  | Some exp => exp <=? i64_saturating_add now_ms skew_ms
  | None => false
  end.

(** ** Account identity *)

Record RecordIdentity := {
  account_id : option string;
  email : option string;
  org_name : option string;
}.
#[global] Instance RecordIdentity_eq_dec : EqDecision RecordIdentity.
Proof. solve_decision. Defined.

Definition identity_default : RecordIdentity :=
  {| account_id := None; email := None; org_name := None |}.

(** [value.trim().is_empty()]. *)
Definition trim_is_empty (s : string) : bool :=
  forallb char_is_whitespace (utf8_chars (str_bytes s)).

Definition validate_identity_value (field value : string) : result unit string :=
  if trim_is_empty value then Err (field ++ " must not be empty")%string
  else if (256 <? String.length value)%nat then Err (field ++ " must be at most 256 bytes")%string
  else if existsb char_is_control (utf8_chars (str_bytes value))
  then Err (field ++ " must not contain control characters")%string
  else Ok tt.

Definition identity_is_empty (i : RecordIdentity) : bool :=
  bool_decide (account_id i = None) && bool_decide (email i = None) && bool_decide (org_name i = None).

Definition is_servable (i : RecordIdentity) : bool :=
  negb (bool_decide (is_Some (email i)) && bool_decide (account_id i = None)).

Definition identity_validate (i : RecordIdentity) : result unit string :=
  let? _ := match account_id i with
            | Some a => if trim_is_empty a then Err "account_id must not be empty"
                        else validate_identity_value "account_id" a
            | None => Ok tt
            end in
  let? _ := match email i with Some e => validate_identity_value "email" e | None => Ok tt end in
  match org_name i with Some o => validate_identity_value "org_name" o | None => Ok tt end.

Definition normalized (i : RecordIdentity) : RecordIdentity :=
  if is_servable i then i
  else {| account_id := None; email := None; org_name := org_name i |}.

(** ** The record *)

Record DetectedPlan := {
  plan_tier : option string;
  plan_raw : option string;
  plan_observed_at_ms : Z;
}.
#[global] Instance DetectedPlan_eq_dec : EqDecision DetectedPlan.
Proof. solve_decision. Defined.

Record VaultRecord := {
  schema_version : Z;
  kind : CredentialKind;
  source : string;
  record_version : Z;
  expires_at_ms : option Z;
  refresh_adapter : option string;
  oauth : option OAuthCredential;
  payload : bytes;
  identity : RecordIdentity;
  detected_plan : option DetectedPlan;
  audit_each_signature : bool;
  operator_sign : bool;
}.
#[global] Instance VaultRecord_eq_dec : EqDecision VaultRecord.
Proof. solve_decision. Defined.

Definition set_identity (i : RecordIdentity) (r : VaultRecord) : VaultRecord :=
  {| schema_version := schema_version r; kind := kind r; source := source r;
     record_version := record_version r; expires_at_ms := expires_at_ms r;
     refresh_adapter := refresh_adapter r; oauth := oauth r; payload := payload r;
     identity := i; detected_plan := detected_plan r;
     audit_each_signature := audit_each_signature r; operator_sign := operator_sign r |}.

Definition set_version (v : Z) (r : VaultRecord) : VaultRecord :=
  {| schema_version := schema_version r; kind := kind r; source := source r;
     record_version := v; expires_at_ms := expires_at_ms r;
     refresh_adapter := refresh_adapter r; oauth := oauth r; payload := payload r;
     identity := identity r; detected_plan := detected_plan r;
     audit_each_signature := audit_each_signature r; operator_sign := operator_sign r |}.

Definition set_detected_plan (p : option DetectedPlan) (r : VaultRecord) : VaultRecord :=
  {| schema_version := schema_version r; kind := kind r; source := source r;
     record_version := record_version r; expires_at_ms := expires_at_ms r;
     refresh_adapter := refresh_adapter r; oauth := oauth r; payload := payload r;
     identity := identity r; detected_plan := p;
     audit_each_signature := audit_each_signature r; operator_sign := operator_sign r |}.

Definition with_identity (i : RecordIdentity) (r : VaultRecord) : VaultRecord :=
  set_identity (normalized i) r.

Definition is_refreshable (r : VaultRecord) : bool :=
  bool_decide (kind r = Oauth) && bool_decide (is_Some (refresh_adapter r)) &&
  bool_decide (is_Some (oauth r)).

(** What the record code calls outside the repository. *)
Class RecordExt := {
  (** [serde_json::to_vec] and [from_slice] on [VaultRecord]. *)
  encode : VaultRecord -> result bytes string;
  decode : bytes -> result VaultRecord string;
  (** [serde_json::from_slice] on the claims of a token. *)
  claims_from_slice : bytes -> option Value;
  (** [chrono::Utc::now()] when the plan of a token is read. *)
  plan_clock : string -> Z;
  (** [STANDARD_NO_PAD.decode] of the crate [base64], [form_urlencoded::parse] of [url], and
      [chrono]'s reading of ["%Y%m%dT%H%M%SZ"] as Unix milliseconds. *)
  no_pad_decode : string -> option bytes;
  form_pairs : string -> list (string * string);
  amz_date_ms : string -> option Z;
}.

(** ** Reading tokens ([oauth_login.rs], [plan_detection.rs], [bedrock.rs]) *)

Definition ALPHABET : bytes := str_bytes "ABCDEFGHIJKLMNOPQRSTUVWXYZabcdefghijklmnopqrstuvwxyz0123456789+/".

Definition translate_byte (b : byte) : byte :=
  if bool_decide (b = x2d) then x2b else if bool_decide (b = x5f) then x2f else b.

Fixpoint position (b : byte) (l : bytes) : option Z :=
  match l with
  | [] => None
  | a :: l => if bool_decide (a = b) then Some 0 else Z.succ <$> position b l
  end.

(** The decoding loop: [buf] is a [u32], [bits] how many of its low bits are pending. *)
Fixpoint base64_loop (padded : bytes) (buf bits : Z) (out : bytes) : option bytes :=
  match padded with
  | [] => Some out
  | ch :: rest =>
      if bool_decide (ch = x3d) then Some out else
      val ← position ch ALPHABET;
      let buf := Z.lor (Z.shiftl buf 6 mod 2 ^ 32) val in
      let bits := bits + 6 in
      if 8 <=? bits
      then base64_loop rest buf (bits - 8) (out ++ [byte_of_Z (Z.shiftr buf (bits - 8) mod 256)])
      else base64_loop rest buf bits out
  end.

Definition base64url_decode (s : string) : option bytes :=
  let translated := map translate_byte (str_bytes s) in
  padded ← match (length translated mod 4)%nat with
           | 0%nat => Some translated
           | 2%nat => Some (translated ++ [x3d; x3d])
           | 3%nat => Some (translated ++ [x3d])
           | _ => None
           end;
  base64_loop padded 0 0 [].

Example base64url_reads : base64url_decode "aGkh" = Some (str_bytes "hi!") /\ base64url_decode "_-8" = Some [xff; xef] /\
  base64url_decode "aGk" = Some (str_bytes "hi") /\ base64url_decode "aGkhQ" = None.
Proof. by vm_compute. Qed.

(** [token.split('.').nth(1)]. *)
Fixpoint before_dot (bs : bytes) : bytes :=
  match bs with [] => [] | b :: bs => if bool_decide (b = x2e) then [] else b :: before_dot bs end.
Fixpoint second_segment (bs : bytes) : option bytes :=
  match bs with
  | [] => None
  | b :: bs => if bool_decide (b = x2e) then Some (before_dot bs) else second_segment bs
  end.

Section Claims.
Context `{RecordExt}.

Definition decode_jwt_claims (token : string) : option Value :=
  payload ← second_segment (str_bytes token);
  bs ← base64url_decode (String.string_of_list_byte payload);
  claims_from_slice bs.

(** A member of OpenAI's own claim. *)
Definition openai_claim (field jwt : string) : option string :=
  claims ← decode_jwt_claims jwt;
  auth ← jget "https://api.openai.com/auth" claims;
  v ← jget field auth;
  as_str v.

Definition chatgpt_account_id_from_jwt (jwt : string) : option string := openai_claim "chatgpt_account_id" jwt.

Definition account_id_for_adapter (adapter access_token : string) : option string :=
  if bool_decide (adapter = "openai") then chatgpt_account_id_from_jwt access_token else None.

Definition chatgpt_plan (access_token : string) : DetectedPlan :=
  let raw := openai_claim "chatgpt_plan_type" access_token in
  let tier := r ← raw;
              if bool_decide (r = "pro") then Some "pro_200"
              else if bool_decide (r = "prolite") then Some "pro_100"
              else if bool_decide (r = "plus") then Some "plus" else None in
  {| plan_tier := tier; plan_raw := raw; plan_observed_at_ms := plan_clock access_token |}.

Definition SHORT_TERM_PREFIX : string := "bedrock-api-key-".

Definition is_ascii_whitespace (b : byte) : bool := bool_decide (b ∈ [x20; x09; x0a; x0c; x0d]).
Fixpoint trim_ascii_start (bs : bytes) : bytes :=
  match bs with [] => [] | b :: rest => if is_ascii_whitespace b then trim_ascii_start rest else bs end.
Definition trim_ascii (bs : bytes) : bytes := rev (trim_ascii_start (rev (trim_ascii_start bs))).

(** [i64::checked_mul] and [checked_add]. *)
Definition i64_checked (z : Z) : option Z := if (i64_min <=? z) && (z <=? i64_max) then Some z else None.

(** The loop over the query: the last value of each key counts. *)
Definition presigned_pair (acc : option Z * option Z) (kv : string * string) : option Z * option Z :=
  let '(signed_at, lifetime_secs) := acc in
  if bool_decide (kv.1 = "X-Amz-Date") then (amz_date_ms kv.2, lifetime_secs)
  else if bool_decide (kv.1 = "X-Amz-Expires") then (signed_at, parse_signed i64_min i64_max kv.2)
  else acc.

Definition presigned_expiry_ms (body : bytes) : option Z :=
  if negb (utf8_valid body) then None else
  let body := trim_end "=" (str_trim (String.string_of_list_byte body)) in
  decoded ← no_pad_decode body;
  if negb (utf8_valid decoded) then None else
  found ← split_once "?" (String.string_of_list_byte decoded);
  let '(signed_at, lifetime_secs) := fold_left presigned_pair (form_pairs found.2) (None, None) in
  signed_at ← signed_at;
  lifetime_secs ← lifetime_secs;
  lifetime ← i64_checked (lifetime_secs * 1000);
  i64_checked (signed_at + lifetime).

(** The declared expiry of a short-term key, or [None] for any other key. *)
Definition short_term_bedrock_key (payload : bytes) : option (option Z) :=
  let payload := trim_ascii payload in
  let prefix := str_bytes SHORT_TERM_PREFIX in
  if bool_decide (take (length prefix) payload = prefix)
  then Some (presigned_expiry_ms (drop (length prefix) payload)) else None.
End Claims.

(** A record whose version is a [u64], as the Rust type has it. *)
Definition version_typed (r : VaultRecord) : Prop := in_u64 (record_version r).

Class RecordExtLaws (X : RecordExt) : Prop := {
  encode_total r : exists bs, encode r = Ok bs;
  decode_encode r bs : version_typed r -> encode r = Ok bs -> decode bs = Ok r;
  decode_typed bs r : decode bs = Ok r -> version_typed r;
}.

Definition new_oauth `{RecordExt} (src adapter : string) (o : OAuthCredential) (pl : bytes) : VaultRecord :=
  {| schema_version := RECORD_SCHEMA_VERSION; kind := Oauth; source := src; record_version := 1;
     expires_at_ms := oauth_expires_at_ms o; refresh_adapter := Some adapter; oauth := Some o;
     payload := pl; identity := identity_default;
     detected_plan :=
       if bool_decide (adapter = "openai") then Some (chatgpt_plan (access_token o)) else None;
     audit_each_signature := false; operator_sign := false |}.

Definition new_static (k : CredentialKind) (src : string) (pl : bytes) (exp : option Z) : VaultRecord :=
  {| schema_version := RECORD_SCHEMA_VERSION; kind := k; source := src; record_version := 1;
     expires_at_ms := exp; refresh_adapter := None; oauth := None; payload := pl;
     identity := identity_default; detected_plan := None;
     audit_each_signature := false; operator_sign := false |}.

Definition new_cookie (src : string) (pl : bytes) : VaultRecord := new_static Cookie src pl None.

(** ** Lemmas *)

Lemma state_from_as_str s : state_from_str (state_as_str s) = s.
Proof. by destruct s. Qed.

Lemma state_from_str_active s : state_from_str s = Active -> s = "active".
Proof. unfold state_from_str. repeat case_bool_decide; done. Qed.

Lemma state_as_str_inj s t : state_as_str s = state_as_str t -> s = t.
Proof. destruct s, t; done. Qed.

Lemma normalized_servable i : is_servable (normalized i) = true.
Proof. unfold normalized. destruct (is_servable i) eqn:E; done. Qed.

Lemma normalized_idem i : normalized (normalized i) = normalized i.
Proof. unfold normalized at 1. by rewrite normalized_servable. Qed.

#[export] Hint Rewrite state_from_as_str normalized_servable normalized_idem : vault_rw.

Lemma is_refreshable_true r :
  is_refreshable r = true ->
  kind r = Oauth /\ exists a o, refresh_adapter r = Some a /\ oauth r = Some o.
Proof.
  unfold is_refreshable. intros H. bool_hyps.
  destruct (refresh_adapter r), (oauth r); try by (exfalso; eapply is_Some_None). eauto.
Qed.

(** A label a consumer can display: not blank, bounded, no control characters. *)
Definition identity_label_ok (v : string) : Prop :=
  trim_is_empty v = false /\ (String.length v <= 256)%nat /\
  Forall (fun c => char_is_control c = false) (utf8_chars (str_bytes v)).

Lemma validate_identity_value_ok field v :
  validate_identity_value field v = Ok tt -> identity_label_ok v.
Proof.
  unfold validate_identity_value, identity_label_ok.
  destruct (trim_is_empty v); [done|].
  destruct (Nat.ltb_spec 256 (String.length v)); [done|].
  destruct (existsb _ _) eqn:E; [done|]. intros _. split_and!; [done|lia|].
  apply Forall_forall. intros c Hc.
  destruct (char_is_control c) eqn:Hcc; [|done].
  exfalso. assert (existsb char_is_control (utf8_chars (str_bytes v)) = true) as E2
    by (apply existsb_exists; exists c; split; [by apply list_elem_of_In|done]).
  by rewrite E in E2.
Qed.

(** What reaches a stored record through [with_identity] and [validate] can be
    served: it never carries an email without an account id, the organisation name is
    kept, a servable identity is stored unchanged, and every label that is present is
    non-blank, at most 256 bytes long and free of control characters. *)
Theorem stored_identity_servable i r :
  is_servable (identity (with_identity i r)) = true /\
  org_name (identity (with_identity i r)) = org_name i /\
  (is_servable i = true -> identity (with_identity i r) = i) /\
  (identity_validate (identity (with_identity i r)) = Ok tt ->
   forall v, In (Some v) [account_id (normalized i); email (normalized i); org_name i] ->
     identity_label_ok v).
Proof.
  cbn. split; [apply normalized_servable|].
  assert (org_name (normalized i) = org_name i) as Ho
    by (unfold normalized; destruct (is_servable i); done).
  split; [done|]. split; [unfold normalized; by intros ->|].
  unfold identity_validate. rewrite Ho. intros Hv v Hin.
  destruct (account_id (normalized i)) as [a|], (email (normalized i)) as [e|], (org_name i) as [o|];
    cbn in Hin; destruct_or?; simplify_eq; cbn in Hv; case_all;
    repeat match goal with u : unit |- _ => destruct u end;
    eapply validate_identity_value_ok; eassumption.
Qed.

(** ** A concrete codec, to evaluate the model and to show that the laws can hold *)

Module ToyCodec.
(** A record as a tree of strings and integers; trees have a linear-size encoding. *)
Abbreviation tree := (gen_tree (string + Z)).
Definition str (s : string) : tree := GenLeaf (inl s).
Definition int (z : Z) : tree := GenLeaf (inr z).
Definition opt {A} (f : A -> tree) (o : option A) : tree :=
  match o with Some a => GenNode 1 [f a] | None => GenNode 0 [] end.
Definition un_str (t : tree) : option string := match t with GenLeaf (inl s) => Some s | _ => None end.
Definition un_int (t : tree) : option Z := match t with GenLeaf (inr z) => Some z | _ => None end.
Definition un_opt {A} (f : tree -> option A) (t : tree) : option (option A) :=
  match t with
  | GenNode 1 [x] => a ← f x; Some (Some a)
  | GenNode 0 [] => Some None
  | _ => None
  end.

Definition kind_code (k : CredentialKind) : Z :=
  match k with
  | Oauth => 0 | ApiKey => 1 | Dsn => 2 | Cookie => 3 | Opaque => 4 | SigningKey => 5 | KemKey => 6
  end.
Definition un_kind (t : tree) : option CredentialKind :=
  match un_int t with
  | Some 0 => Some Oauth | Some 1 => Some ApiKey | Some 2 => Some Dsn | Some 3 => Some Cookie
  | Some 4 => Some Opaque | Some 5 => Some SigningKey | Some 6 => Some KemKey | _ => None
  end.
Definition boolean (b : bool) : tree := int (if b then 1 else 0).
Definition un_boolean (t : tree) : option bool :=
  match un_int t with Some 1 => Some true | Some 0 => Some false | _ => None end.
Definition blob (bs : bytes) : tree := str (String.string_of_list_byte bs).
Definition un_blob (t : tree) : option bytes := str_bytes <$> un_str t.

Definition of_oauth (o : OAuthCredential) : tree :=
  GenNode 0 [str (access_token o); str (refresh_token o); opt int (oauth_expires_at_ms o);
    str (token_url o); opt str (client_id o); opt str (client_secret o); GenNode 0 (str <$> scopes o)].
Definition un_oauth (t : tree) : option OAuthCredential :=
  match t with
  | GenNode _ [a; r; e; u; ci; cs; GenNode _ sc] =>
      a ← un_str a; r ← un_str r; e ← un_opt un_int e; u ← un_str u; ci ← un_opt un_str ci;
      cs ← un_opt un_str cs; sc ← mapM un_str sc; Some (Build_OAuthCredential a r e u ci cs sc)
  | _ => None
  end.

Definition of_identity (i : RecordIdentity) : tree :=
  GenNode 0 [opt str (account_id i); opt str (email i); opt str (org_name i)].
Definition un_identity (t : tree) : option RecordIdentity :=
  match t with
  | GenNode _ [a; e; o] =>
      a ← un_opt un_str a; e ← un_opt un_str e; o ← un_opt un_str o; Some (Build_RecordIdentity a e o)
  | _ => None
  end.

Definition of_plan (p : DetectedPlan) : tree :=
  GenNode 0 [opt str (plan_tier p); opt str (plan_raw p); int (plan_observed_at_ms p)].
Definition un_plan (t : tree) : option DetectedPlan :=
  match t with
  | GenNode _ [ti; r; o] =>
      ti ← un_opt un_str ti; r ← un_opt un_str r; o ← un_int o; Some (Build_DetectedPlan ti r o)
  | _ => None
  end.

Definition of_record (r : VaultRecord) : tree :=
  GenNode 0 [int (schema_version r); int (kind_code (kind r)); str (source r); int (record_version r);
    opt int (expires_at_ms r); opt str (refresh_adapter r); opt of_oauth (oauth r); blob (payload r);
    of_identity (identity r); opt of_plan (detected_plan r); boolean (audit_each_signature r);
    boolean (operator_sign r)].
Definition un_record (t : tree) : option VaultRecord :=
  match t with
  | GenNode _ [sv; k; s; v; e; ra; o; p; i; dp; a; os] =>
      sv ← un_int sv; k ← un_kind k; s ← un_str s; v ← un_int v; e ← un_opt un_int e;
      ra ← un_opt un_str ra; o ← un_opt un_oauth o; p ← un_blob p; i ← un_identity i;
      dp ← un_opt un_plan dp; a ← un_boolean a; os ← un_boolean os;
      Some (Build_VaultRecord sv k s v e ra o p i dp a os)
  | _ => None
  end.

Lemma un_opt_opt {A} (f : A -> tree) g o : (forall a, g (f a) = Some a) -> un_opt g (opt f o) = Some o.
Proof. intros Hf. destruct o; [cbn; by rewrite Hf|done]. Qed.
Lemma mapM_str l : mapM un_str (str <$> l) = Some l.
Proof. induction l as [|s l IH]; [done|]. cbn. by rewrite IH. Qed.
Lemma un_of_oauth o : un_oauth (of_oauth o) = Some o.
Proof. destruct o. cbn -[opt un_opt]. rewrite !un_opt_opt by done. cbn. by rewrite mapM_str. Qed.
Lemma un_of_identity i : un_identity (of_identity i) = Some i.
Proof. destruct i. cbn -[opt un_opt]. by rewrite !un_opt_opt. Qed.
Lemma un_of_plan p : un_plan (of_plan p) = Some p.
Proof. destruct p. cbn -[opt un_opt]. by rewrite !un_opt_opt. Qed.
Lemma un_of_record r : un_record (of_record r) = Some r.
Proof.
  destruct r. cbn -[opt un_opt un_kind un_blob blob un_identity of_identity un_boolean boolean].
  rewrite !un_opt_opt by (done || apply un_of_oauth || apply un_of_plan). cbn -[un_identity of_identity].
  rewrite un_of_identity. unfold un_kind, un_boolean, un_blob, blob, str_bytes. cbn.
  rewrite String.list_byte_of_string_of_list_byte.
  by destruct kind0, audit_each_signature0, operator_sign0.
Qed.

Fixpoint bytes_of_pos (p : positive) : bytes :=
  match p with
  | xH => []
  | xO q => x00 :: bytes_of_pos q
  | xI q => x01 :: bytes_of_pos q
  end.
Fixpoint pos_of_bytes (bs : bytes) : positive :=
  match bs with
  | [] => xH
  | b :: rest => if bool_decide (b = x00) then xO (pos_of_bytes rest) else xI (pos_of_bytes rest)
  end.
Lemma pos_bytes_roundtrip p : pos_of_bytes (bytes_of_pos p) = p.
Proof. induction p; cbn; [by rewrite IHp..|done]. Qed.

#[export] Instance toy_record_ext : RecordExt := {|
  Record.encode r := Ok (bytes_of_pos (countable.encode (of_record r)));
  Record.decode bs :=
    match countable.decode (A := tree) (pos_of_bytes bs) ≫= un_record with
    | Some r => if (0 <=? record_version r) && (record_version r <=? u64_max) then Ok r else Err "version"
    | None => Err "malformed"
    end;
  claims_from_slice := @json_from_slice ToyJson.toy_json;
  plan_clock _ := 0;
  no_pad_decode _ := None;
  form_pairs _ := [];
  amz_date_ms _ := None;
|}.

#[export] Instance toy_record_laws : RecordExtLaws toy_record_ext.
Proof.
  split; cbn.
  - eauto.
  - intros r bs Ht [= <-]. rewrite pos_bytes_roundtrip, countable.decode_encode. unfold base.mbind, option_bind.
    rewrite un_of_record.
    destruct Ht as [H1%Z.leb_le H2%Z.leb_le]. by rewrite H1, H2.
  - intros bs r H. case_all. bool_hyps. split; lia.
Qed.
End ToyCodec.
