(* ===== verification/CredentialId.v ===== *)
(** * Credential ids ([credentials-core/src/credential_id.rs])

    Parsing of [<method>:<provider>[:<account>]] ids, the legacy provider-first form, and
    the method to refresh-adapter table. *)

From S2P Require Import Prelude Text Record.

Inductive AuthMethod :=
| MOauth | MApiKey | MCookie | MAntigravity | MChatgpt | MCopilot | MGithubApp | MSigning | MKem.
#[global] Instance AuthMethod_eq_dec : EqDecision AuthMethod.
Proof. solve_decision. Defined.

Definition method_as_str (m : AuthMethod) : string :=
  match m with
  | MOauth => "oauth" | MApiKey => "apikey" | MCookie => "cookie"
  | MAntigravity => "antigravity" | MChatgpt => "chatgpt" | MCopilot => "copilot"
  | MGithubApp => "github_app" | MSigning => "signing" | MKem => "kem"
  end.

Definition from_segment (seg : string) : option AuthMethod :=
  if bool_decide (seg = "oauth") then Some MOauth
  else if bool_decide (seg = "apikey") then Some MApiKey
  else if bool_decide (seg = "cookie") then Some MCookie
  else if bool_decide (seg = "antigravity") then Some MAntigravity
  else if bool_decide (seg = "chatgpt") then Some MChatgpt
  else if bool_decide (seg = "copilot") then Some MCopilot
  else if bool_decide (seg = "github_app") then Some MGithubApp
  else if bool_decide (seg = "signing") then Some MSigning
  else if bool_decide (seg = "kem") then Some MKem
  else None.

Definition credential_kind (m : AuthMethod) : CredentialKind :=
  match m with
  | MApiKey => ApiKey
  | MCookie => Cookie
  | MSigning => SigningKey
  | MKem => KemKey
  | MOauth | MAntigravity | MChatgpt | MCopilot | MGithubApp => Oauth
  end.

Definition is_api_key (m : AuthMethod) : bool := match m with MApiKey => true | _ => false end.

Record ParsedCredentialId := {
  method : option AuthMethod;
  provider : string;
  account : option string;
}.

Definition non_empty (s : string) : option string := if str_is_empty s then None else Some s.

(** [parse_credential_id]; [split] is never empty, so [segs[0]] is its first piece. *)
Definition parse_credential_id (id : string) : ParsedCredentialId :=
  let '(seg0, rest) := split_on ":" id in
  match from_segment seg0 with
  | Some m => {| method := Some m; provider := default "" (rest !! 0%nat);
                 account := rest !! 1%nat ≫= non_empty |}
  | None => {| method := None; provider := seg0; account := rest !! 0%nat ≫= non_empty |}
  end.

Definition default_refresh_adapter (m : option AuthMethod) (p : string) : option string :=
  match m with
  | None | Some MOauth => Some p
  | Some MAntigravity => Some "antigravity"
  | Some MChatgpt => Some "openai"
  | Some MCopilot => Some "github-copilot"
  | Some MGithubApp => Some "github_app"
  | Some MApiKey | Some MCookie | Some MSigning | Some MKem => None
  end.

(** ** Lemmas *)

Definition no_colon (s : string) : bool := negb (str_contains_char ":" s).

Lemma from_segment_as_str m : from_segment (method_as_str m) = Some m.
Proof. by destruct m. Qed.

Lemma from_segment_inv s m : from_segment s = Some m -> s = method_as_str m.
Proof. unfold from_segment. repeat case_bool_decide; intros; simplify_eq; done. Qed.

Lemma no_colon_cons c s :
  no_colon (String c s) = true -> Ascii.eqb ":" c = false /\ no_colon s = true.
Proof.
  unfold no_colon, str_contains_char. rewrite !negb_involutive. cbn.
  intros [H1 H2]%andb_true_iff. by apply negb_true_iff in H1.
Qed.

Lemma split_on_no_colon s : no_colon s = true -> split_on ":" s = (s, []).
Proof.
  induction s as [|c s IH]; [done|]. intros [Hc Hs]%no_colon_cons.
  cbn [split_on]. by rewrite IH, Hc.
Qed.

Lemma split_on_app s t :
  no_colon s = true ->
  split_on ":" (s ++ ":" ++ t)%string = (s, (split_on ":" t).1 :: (split_on ":" t).2).
Proof.
  induction s as [|c s IH]; intros H.
  - change ("" ++ ":" ++ t)%string with (String ":" t). cbn [split_on].
    destruct (split_on ":" t). done.
  - apply no_colon_cons in H as [Hc Hs].
    change (String c s ++ ":" ++ t)%string with (String c (s ++ ":" ++ t)).
    cbn [split_on]. by rewrite IH, Hc.
Qed.

Lemma method_no_colon m : no_colon (method_as_str m) = true.
Proof. by destruct m. Qed.

(** ** Properties *)

(** Ids round trip: printing a method, a provider and an account without colons
    and parsing the id gives them back; without an account segment the account is
    absent; and an id whose first segment is no method parses as the legacy form, never
    as a method. *)
Theorem credential_id_roundtrip m p a
  (Hp : no_colon p = true) (Ha : no_colon a = true) (Hne : a <> "") :
  parse_credential_id (method_as_str m ++ ":" ++ p ++ ":" ++ a) =
    {| method := Some m; provider := p; account := Some a |} /\
  parse_credential_id (method_as_str m ++ ":" ++ p) =
    {| method := Some m; provider := p; account := None |} /\
  (from_segment p = None ->
   parse_credential_id (p ++ ":" ++ a) = {| method := None; provider := p; account := Some a |}).
Proof.
  assert (non_empty a = Some a) as Hna
    by (unfold non_empty, str_is_empty; destruct (String.eqb_spec a ""); done).
  unfold parse_credential_id. split_and!.
  - rewrite !split_on_app, split_on_no_colon by auto using method_no_colon. cbn.
    by rewrite from_segment_as_str, Hna.
  - rewrite split_on_app, split_on_no_colon by auto using method_no_colon. cbn.
    by rewrite from_segment_as_str.
  - intros Hs. rewrite split_on_app, split_on_no_colon by done. by rewrite Hs; cbn; rewrite Hna.
Qed.

(** The adapter table agrees with the kind table: a method stores no refresh
    adapter exactly when its records are static, and a method that is refreshed names a
    non-empty adapter unless the provider itself is empty. *)
Theorem adapter_iff_oauth_kind m p :
  (default_refresh_adapter (Some m) p = None <-> credential_kind m <> Oauth) /\
  (forall n, default_refresh_adapter (Some m) p = Some n -> n = "" -> m = MOauth /\ p = "").
Proof. destruct m; cbn; (split; [naive_solver|]); intros ? [= <-]; try done. Qed.

Module Witness.
Lemma roundtrip_witness :
  parse_credential_id ("apikey" ++ ":" ++ "openai" ++ ":" ++ "work") =
    {| method := Some MApiKey; provider := "openai"; account := Some "work" |}.
Proof. apply (credential_id_roundtrip MApiKey "openai" "work"); done. Defined.
End Witness.
