(* ===== verification/Catalog.v ===== *)
(** * The provider catalog ([credentials-core/src/catalog.rs])

    The registries of API-key and login providers, row by row (the constants of the
    refresh adapters are written out), and what is derived from a credential id with them: the categories it is stamped with at creation, the native
    family of its adapter, the vendors it serves and its listed type. *)

From S2P Require Import Prelude Text Record CredentialId.

Inductive CredentialCategory := LlmProvider | DataWarehouse | CloudInfrastructure | WebSearch.

Definition category_as_str (c : CredentialCategory) : string :=
  match c with
  | LlmProvider => "llm-provider"
  | DataWarehouse => "data-warehouse"
  | CloudInfrastructure => "cloud-infrastructure"
  | WebSearch => "web-search"
  end.

Inductive ModelVendor :=
| VAnthropic | VOpenAI | VGoogle | VXAI | VDeepSeek | VMistral | VMoonshot | VZhipu | VMeta
| VQwen | VPerplexity | VNvidia | VMiniMax | VXiaomi | VStepFun | VInception.

Definition ModelVendor_ALL : list ModelVendor :=
  [VAnthropic; VOpenAI; VGoogle; VXAI; VDeepSeek; VMistral; VMoonshot; VZhipu; VMeta;
   VQwen; VPerplexity; VNvidia; VMiniMax; VXiaomi; VStepFun; VInception].

Definition LLM : list CredentialCategory := [LlmProvider].
Definition LLM_AND_WEB_SEARCH : list CredentialCategory := [LlmProvider; WebSearch].
Definition DATA_WAREHOUSE : list CredentialCategory := [DataWarehouse].
Definition CLOUD_INFRASTRUCTURE : list CredentialCategory := [CloudInfrastructure].
Definition WEB_SEARCH : list CredentialCategory := [WebSearch].
Definition NO_CATEGORIES : list CredentialCategory := [].

Inductive AuthHeaderScheme := HdrBearer | HdrXGoogApiKey | HdrBraveSubscriptionToken | HdrAnthropicApiKey.

Inductive KeyValidation :=
| OpenAiChat (base_url model : string)
| AnthropicMessages (base_url model : string)
| AwsApiKeyGet (url : string)
| FirecrawlCreditUsage (url : string)
| TinyFishWallet (url : string)
| GetEndpoint (url : string) (auth_header : AuthHeaderScheme)
| CloudflareWorkersAiModels (api_base : string)
| Unvalidated (reason : string).

Inductive AccountIdFormat := LowerHex32.

Definition account_id_accepts (f : AccountIdFormat) (value : string) : bool :=
  match f with LowerHex32 => (String.length value =? 32)%nat && str_forallb is_lower_hex_char value end.

Definition account_id_describe (f : AccountIdFormat) : string :=
  match f with LowerHex32 => "32 lowercase hexadecimal characters (0-9, a-f)" end.

Record AccountIdPrompt := { ap_label : string; ap_format : AccountIdFormat }.

Record ApiKeyProvider := {
  ak_key : string;
  ak_display_name : string;
  ak_default_id : string;
  ak_dashboard_url : string;
  ak_placeholder : string;
  ak_validation : KeyValidation;
  ak_categories : list CredentialCategory;
  ak_serves : list ModelVendor;
  ak_account_id_prompt : option AccountIdPrompt;
}.
Definition api_key_row := Build_ApiKeyProvider.

Inductive DeviceKind := DeviceXai | DeviceOpenAi | DeviceGithubCopilot | DeviceKimi | DeviceMeta.

Inductive ExchangeWire := AnthropicJson | RfcForm.

Record LoginProvider := {
  lp_key : string;
  lp_authorize_url : string;
  lp_token_url : string;
  lp_client_id : string;
  lp_redirect_uri : string;
  lp_scopes : list string;
  lp_extra_authorize_params : list (string * string);
  lp_adapter_name : string;
  lp_default_id : string;
  lp_exchange : ExchangeWire;
  lp_needs_oidc_nonce : bool;
  lp_exchange_echoes_challenge : bool;
  lp_paste_prompt : string;
  lp_code_redirect_uri : option string;
  lp_code_paste_prompt : option string;
  lp_device : option DeviceKind;
  lp_categories : list CredentialCategory;
  lp_serves : list ModelVendor;
  lp_default_provider_ids : list string;
}.
Definition login_row := Build_LoginProvider.

Definition api_key_providers_1 : list ApiKeyProvider :=
  [ api_key_row "kiro" "Kiro" "apikey:kiro" "https://app.kiro.dev" "ksk_..." (AwsApiKeyGet "https://q.us-east-1.amazonaws.com/ListAvailableModels?origin=AI_EDITOR") LLM [VAnthropic; VDeepSeek; VQwen; VZhipu; VMiniMax] None
  ; api_key_row "zai" "Z.AI (GLM Coding Plan)" "apikey:zai" "https://z.ai/manage-apikey/apikey-list" "sk-..." (OpenAiChat "https://api.z.ai/api/coding/paas/v4" "glm-5.2") LLM_AND_WEB_SEARCH [VZhipu] None
  ; api_key_row "openrouter" "OpenRouter" "apikey:openrouter" "https://openrouter.ai/keys" "sk-or-..." (GetEndpoint "https://openrouter.ai/api/v1/auth/key" HdrBearer) LLM ModelVendor_ALL None
  ; api_key_row "deepseek" "DeepSeek" "apikey:deepseek" "https://platform.deepseek.com/api_keys" "sk-..." (OpenAiChat "https://api.deepseek.com" "deepseek-chat") LLM_AND_WEB_SEARCH [VDeepSeek] None
  ; api_key_row "cerebras" "Cerebras" "apikey:cerebras" "https://cloud.cerebras.ai" "csk-..." (OpenAiChat "https://api.cerebras.ai/v1" "llama3.1-8b") LLM [VMeta; VQwen; VOpenAI] None
  ; api_key_row "fireworks-ai" "Fireworks AI" "apikey:fireworks-ai" "https://app.fireworks.ai/settings/users/api-keys" "fw_..." (GetEndpoint "https://api.fireworks.ai/v1/accounts/fireworks/models?filter=supports_serverless%3Dtrue&pageSize=1" HdrBearer) LLM [VMeta; VQwen; VDeepSeek; VMistral; VOpenAI] None
  ; api_key_row "groq" "Groq" "apikey:groq" "https://console.groq.com/keys" "gsk_..." (GetEndpoint "https://api.groq.com/openai/v1/models" HdrBearer) LLM [VMeta; VQwen; VOpenAI; VMoonshot; VMistral] None
  ; api_key_row "mistral" "Mistral" "apikey:mistral" "https://console.mistral.ai/api-keys" "sk-..." (GetEndpoint "https://api.mistral.ai/v1/models" HdrBearer) LLM [VMistral] None
  ; api_key_row "together" "Together AI" "apikey:together" "https://api.together.ai/settings/api-keys" "sk-..." (GetEndpoint "https://api.together.xyz/v1/models" HdrBearer) LLM [VMeta; VQwen; VDeepSeek; VMistral; VOpenAI; VMoonshot] None ].

Definition api_key_providers_2 : list ApiKeyProvider :=
  [ api_key_row "perplexity" "Perplexity" "apikey:perplexity" "https://www.perplexity.ai/settings/api" "pplx-..." (OpenAiChat "https://api.perplexity.ai" "sonar") LLM_AND_WEB_SEARCH [VPerplexity] None
  ; api_key_row "moonshot" "Moonshot" "apikey:moonshot" "https://platform.moonshot.ai/console/api-keys" "sk-..." (OpenAiChat "https://api.moonshot.ai/v1" "moonshot-v1-8k") LLM [VMoonshot] None
  ; api_key_row "huggingface" "Hugging Face" "apikey:huggingface" "https://huggingface.co/settings/tokens" "hf_..." (GetEndpoint "https://huggingface.co/api/whoami-v2" HdrBearer) LLM [VMeta; VQwen; VDeepSeek; VMistral; VOpenAI; VMoonshot; VZhipu] None
  ; api_key_row "nvidia" "NVIDIA" "apikey:nvidia" "https://build.nvidia.com" "nvapi-..." (OpenAiChat "https://integrate.api.nvidia.com/v1" "meta/llama-3.1-8b-instruct") LLM [VNvidia; VMeta; VQwen; VDeepSeek; VMistral; VOpenAI; VMoonshot] None
  ; api_key_row "xai" "xAI (API Key)" "apikey:xai" "https://console.x.ai" "xai-..." (GetEndpoint "https://api.x.ai/v1/models" HdrBearer) LLM [VXAI] None
  ; api_key_row "openai" "OpenAI (API Key)" "apikey:openai" "https://platform.openai.com/api-keys" "sk-proj-..." (GetEndpoint "https://api.openai.com/v1/models" HdrBearer) LLM [VOpenAI] None
  ; api_key_row "google" "Google AI Studio (API Key)" "apikey:google" "https://aistudio.google.com/apikey" "AIzaSy..." (GetEndpoint "https://generativelanguage.googleapis.com/v1beta/models" HdrXGoogApiKey) LLM [VGoogle] None
  ; api_key_row "anthropic" "Anthropic (API Key)" "apikey:anthropic" "https://console.anthropic.com/settings/keys" "sk-ant-api03-..." (GetEndpoint "https://api.anthropic.com/v1/models" HdrAnthropicApiKey) LLM [VAnthropic] None
  ; api_key_row "inception" "Inception (Mercury)" "apikey:inception" "https://platform.inceptionlabs.ai/dashboard/api-keys" "API key" (OpenAiChat "https://api.inceptionlabs.ai/v1" "mercury-2") LLM [VInception] None ].

Definition api_key_providers_3 : list ApiKeyProvider :=
  [ api_key_row "cloudflare-workers-ai" "Cloudflare Workers AI" "apikey:cloudflare-workers-ai" "https://dash.cloudflare.com/profile/api-tokens" "an API token with Workers AI Read and Edit permissions (not the Global API Key)" (CloudflareWorkersAiModels "https://api.cloudflare.com/client/v4") LLM [VOpenAI; VGoogle; VDeepSeek; VMistral; VMoonshot; VZhipu; VMeta; VQwen; VNvidia] (Some (Build_AccountIdPrompt "Cloudflare account id (32 hex characters; shown on the dashboard's Account home and in the Workers AI 'Use REST API' panel)" LowerHex32))
  ; api_key_row "abliteration" "Abliteration" "apikey:abliteration" "https://abliteration.ai/console" "ak_..." (GetEndpoint "https://api.abliteration.ai/v1/models" HdrBearer) LLM [VZhipu] None
  ; api_key_row "aiand" "ai&" "apikey:aiand" "https://console.aiand.com/api-keys" "sk-..." (GetEndpoint "https://api.aiand.com/v1/models" HdrBearer) LLM [VOpenAI; VGoogle; VDeepSeek; VMoonshot; VZhipu; VQwen] None
  ; api_key_row "baseten" "Baseten" "apikey:baseten" "https://app.baseten.co/settings/api_keys" "bt_..." (GetEndpoint "https://inference.baseten.co/v1/models" HdrBearer) LLM [VOpenAI; VDeepSeek; VMoonshot; VZhipu; VNvidia] None
  ; api_key_row "charm-hyper" "Charm Hyper" "apikey:charm-hyper" "https://hyper.charm.land/" "sk-hyper-..." (GetEndpoint "https://hyper.charm.land/v1/credits" HdrBearer) LLM [VGoogle; VMoonshot; VZhipu] None
  ; api_key_row "cline-pass" "ClinePass" "apikey:cline-pass" "https://app.cline.bot/dashboard/account" "sk_..." (Unvalidated "ClinePass checks keys on an account route that also needs client headers this login does not send") LLM [VGoogle; VDeepSeek; VMoonshot; VZhipu; VMeta; VQwen; VMiniMax; VXiaomi] None
  ; api_key_row "commandcode" "Command Code" "apikey:commandcode" "https://commandcode.ai/studio" "user_..." (Unvalidated "Command Code has no endpoint that rejects a bad key without billing it: its model list is public, and a chat probe bills the key and refuses Go-plan keys that are still valid") LLM [VAnthropic; VOpenAI; VGoogle; VXAI; VDeepSeek; VMoonshot; VZhipu; VMeta; VQwen; VNvidia; VMiniMax; VXiaomi; VStepFun] None
  ; api_key_row "deepinfra" "DeepInfra" "apikey:deepinfra" "https://deepinfra.com/dash/api_keys" "..." (OpenAiChat "https://api.deepinfra.com/v1/openai" "deepseek-ai/DeepSeek-V4-Flash-0731") LLM [VAnthropic; VOpenAI; VGoogle; VDeepSeek; VMistral; VMoonshot; VZhipu; VMeta; VQwen; VNvidia; VMiniMax; VXiaomi] None ].

Definition api_key_providers_4 : list ApiKeyProvider :=
  [ api_key_row "firepass" "Fire Pass (Fireworks subscription)" "apikey:firepass" "https://app.fireworks.ai/settings/users/api-keys" "fpk_..." (OpenAiChat "https://api.fireworks.ai/inference/v1" "accounts/fireworks/routers/glm-5p2-fast") LLM [VMoonshot; VZhipu] None
  ; api_key_row "gmi-cloud" "GMI Cloud" "apikey:gmi-cloud" "https://console.gmicloud.ai" "eyJ..." (GetEndpoint "https://api.gmi-serving.com/v1/models" HdrBearer) LLM [VDeepSeek] None
  ; api_key_row "meta" "Meta Model API" "apikey:meta" "https://developer.meta.com/ai/" "Model API key" (GetEndpoint "https://api.meta.ai/v1/models" HdrBearer) LLM [VMeta] None
  ; api_key_row "minimax-code" "MiniMax Token Plan (International)" "apikey:minimax-code" "https://platform.minimax.io/subscribe/token-plan" "sk-..." (OpenAiChat "https://api.minimax.io/v1" "MiniMax-M3") LLM [VMiniMax] None
  ; api_key_row "minimax-code-cn" "MiniMax Token Plan (China)" "apikey:minimax-code-cn" "https://platform.minimaxi.com/subscribe/token-plan" "sk-..." (OpenAiChat "https://api.minimaxi.com/v1" "MiniMax-M3") LLM [VMiniMax] None
  ; api_key_row "nanogpt" "NanoGPT" "apikey:nanogpt" "https://nano-gpt.com/api" "sk-..." (GetEndpoint "https://nano-gpt.com/api/v1/models" HdrBearer) LLM ModelVendor_ALL None
  ; api_key_row "novita" "Novita" "apikey:novita" "https://novita.ai/settings/key-management" "sk_..." (OpenAiChat "https://api.novita.ai/openai/v1" "moonshotai/kimi-k2.7-code") LLM [VOpenAI; VGoogle; VDeepSeek; VMistral; VMoonshot; VZhipu; VMeta; VQwen; VNvidia; VMiniMax; VXiaomi; VStepFun] None
  ; api_key_row "ollama-cloud" "Ollama Cloud" "apikey:ollama-cloud" "https://ollama.com/settings/keys" "ollama-cloud-api-key" (Unvalidated "no known Ollama Cloud endpoint reliably rejects a bad key without cost, so a wrong key shows up on first use") LLM_AND_WEB_SEARCH [VOpenAI; VGoogle; VDeepSeek; VMistral; VMoonshot; VZhipu; VQwen; VNvidia; VMiniMax] None
  ; api_key_row "opencode-go" "OpenCode Go" "apikey:opencode-go" "https://opencode.ai/auth" "sk-..." (Unvalidated "no known OpenCode Go endpoint reliably rejects a bad key without cost, so a wrong key shows up on first use") LLM [VOpenAI; VXAI; VDeepSeek; VMoonshot; VZhipu; VMeta; VQwen; VMiniMax; VXiaomi] None ].

Definition api_key_providers_5 : list ApiKeyProvider :=
  [ api_key_row "opencode-zen" "OpenCode Zen" "apikey:opencode-zen" "https://opencode.ai/auth" "sk-..." (Unvalidated "no known OpenCode Zen endpoint reliably rejects a bad key without cost, so a wrong key shows up on first use") LLM [VAnthropic; VOpenAI; VGoogle; VXAI; VDeepSeek; VMoonshot; VZhipu; VMeta; VQwen; VNvidia; VMiniMax; VXiaomi] None
  ; api_key_row "qianfan" "Qianfan" "apikey:qianfan" "https://console.bce.baidu.com/qianfan/ais/console/apiKey" "bce-v3/ALTAK-..." (Unvalidated "Qianfan answers 401 when the probe model is not enabled on the account, and this login cannot tell that apart from a bad key") LLM [VDeepSeek] None
  ; api_key_row "qwen-portal" "Qwen Portal" "apikey:qwen-portal" "https://chat.qwen.ai" "sk-..." (OpenAiChat "https://portal.qwen.ai/v1" "coder-model") LLM [VQwen] None
  ; api_key_row "sakana" "Sakana AI" "apikey:sakana" "https://console.sakana.ai/api-keys" "sk-..." (GetEndpoint "https://api.sakana.ai/v1/models" HdrBearer) LLM [] None
  ; api_key_row "siliconflow" "SiliconFlow" "apikey:siliconflow" "https://cloud.siliconflow.com/account/ak" "sk-..." (GetEndpoint "https://api.siliconflow.com/v1/models" HdrBearer) LLM [VZhipu] None
  ; api_key_row "siliconflow-cn" "SiliconFlow (China)" "apikey:siliconflow-cn" "https://cloud.siliconflow.cn/account/ak" "sk-..." (GetEndpoint "https://api.siliconflow.cn/v1/models" HdrBearer) LLM [VDeepSeek] None
  ; api_key_row "singularityapi-dev" "SingularityAPI" "apikey:singularityapi-dev" "https://app.singularityapi.dev" "sk-sapi-..." (GetEndpoint "https://api.singularityapi.dev/v1/models" HdrBearer) LLM [VDeepSeek; VMoonshot; VZhipu] None
  ; api_key_row "singularityapi-tech" "SingularityAPI Reserved Lanes" "apikey:singularityapi-tech" "https://app.singularityapi.tech/compute/billing" "sk-..." (GetEndpoint "https://api.singularityapi.tech/v1/models" HdrBearer) LLM [VDeepSeek] None
  ; api_key_row "stepfun" "StepFun" "apikey:stepfun" "https://platform.stepfun.ai/interface-key" "..." (OpenAiChat "https://api.stepfun.ai/v1" "step-5-preview") LLM [VStepFun] None ].

Definition api_key_providers_6 : list ApiKeyProvider :=
  [ api_key_row "synthetic" "Synthetic" "apikey:synthetic" "https://dev.synthetic.new/docs/api/overview" "sk-..." (GetEndpoint "https://api.synthetic.new/openai/v1/models" HdrBearer) LLM_AND_WEB_SEARCH [VOpenAI; VDeepSeek; VMoonshot; VZhipu; VQwen; VNvidia] None
  ; api_key_row "typesafe" "TypeSafe" "apikey:typesafe" "https://console.typesafe.ai/" "API key" (Unvalidated "a TypeSafe key may belong to a deployment at a custom base URL, and probing the public host would refuse it") LLM [] None
  ; api_key_row "umans" "Umans AI Coding Plan" "apikey:umans" "https://app.umans.ai/billing" "sk-..." (AnthropicMessages "https://api.code.umans.ai" "umans-coder") LLM [VDeepSeek; VMoonshot; VZhipu; VQwen; VXiaomi] None
  ; api_key_row "venice" "Venice" "apikey:venice" "https://venice.ai/settings/api" "vapi_..." (OpenAiChat "https://api.venice.ai/api/v1" "qwen3-4b") LLM [VAnthropic; VOpenAI; VGoogle; VXAI; VDeepSeek; VMistral; VMoonshot; VZhipu; VMeta; VQwen; VNvidia; VMiniMax; VXiaomi] None
  ; api_key_row "vercel-ai-gateway" "Vercel AI Gateway" "apikey:vercel-ai-gateway" "https://vercel.com/d?to=%2F%5Bteam%5D%2F%7E%2Fai-gateway%2Fapi-keys&title=AI+Gateway+API+Keys" "vck_..." (Unvalidated "no known Vercel AI Gateway endpoint reliably rejects a bad key without cost, so a wrong key shows up on first use") LLM ModelVendor_ALL None
  ; api_key_row "wafer-serverless" "Wafer Serverless (pay-as-you-go)" "apikey:wafer-serverless" "https://app.wafer.ai/usage" "wfr_..." (GetEndpoint "https://pass.wafer.ai/v1/models" HdrBearer) LLM [VDeepSeek; VMoonshot; VZhipu; VQwen; VMiniMax] None
  ; api_key_row "xiaomi-token-plan-ams" "Xiaomi Token Plan (Europe)" "apikey:xiaomi-token-plan-ams" "https://platform.xiaomimimo.com/console/plan-manage" "tp-..." (OpenAiChat "https://token-plan-ams.xiaomimimo.com/v1" "mimo-v2.5") LLM [VXiaomi] None
  ; api_key_row "xiaomi-token-plan-cn" "Xiaomi Token Plan (China)" "apikey:xiaomi-token-plan-cn" "https://platform.xiaomimimo.com/console/plan-manage" "tp-..." (OpenAiChat "https://token-plan-cn.xiaomimimo.com/v1" "mimo-v2.5") LLM [VXiaomi] None
  ; api_key_row "xiaomi-token-plan-sgp" "Xiaomi Token Plan (Singapore)" "apikey:xiaomi-token-plan-sgp" "https://platform.xiaomimimo.com/console/plan-manage" "tp-..." (OpenAiChat "https://token-plan-sgp.xiaomimimo.com/v1" "mimo-v2.5") LLM [VXiaomi] None ].

Definition api_key_providers_7 : list ApiKeyProvider :=
  [ api_key_row "yolo-auto" "Yolo-Auto" "apikey:yolo-auto" "https://yolo-auto.com/app" "yolo_..." (GetEndpoint "https://yolo-auto.com/v1/models" HdrBearer) LLM [VDeepSeek; VQwen] None
  ; api_key_row "zenmux" "ZenMux" "apikey:zenmux" "https://zenmux.ai/settings/keys" "sk-..." (GetEndpoint "https://zenmux.ai/api/v1/models" HdrBearer) LLM [VAnthropic; VOpenAI; VGoogle; VXAI; VDeepSeek; VMistral; VMoonshot; VZhipu; VMeta; VQwen; VMiniMax; VXiaomi; VStepFun] None
  ; api_key_row "zhipu-coding-plan" "Zhipu Coding Plan (智谱)" "apikey:zhipu-coding-plan" "https://bigmodel.cn/coding-plan/personal/overview" "<id>.<secret>" (OpenAiChat "https://open.bigmodel.cn/api/coding/paas/v4" "glm-5.1") LLM [VZhipu] None
  ; api_key_row "tavily" "Tavily" "apikey:tavily" "https://app.tavily.com/home" "tvly-..." (Unvalidated "no known Tavily endpoint reliably rejects a bad key without cost, so a wrong key shows up on first use") WEB_SEARCH [] None
  ; api_key_row "kagi" "Kagi" "apikey:kagi" "https://kagi.com/settings/api" "KG_..." (Unvalidated "no known Kagi endpoint reliably rejects a bad key without cost, so a wrong key shows up on first use") WEB_SEARCH [] None
  ; api_key_row "exa" "Exa" "apikey:exa" "https://dashboard.exa.ai/api-keys" "API key" (Unvalidated "no known Exa endpoint reliably rejects a bad key without cost, so a wrong key shows up on first use") WEB_SEARCH [] None
  ; api_key_row "parallel" "Parallel" "apikey:parallel" "https://platform.parallel.ai/settings?tab=api-keys" "sk_..." (Unvalidated "no known Parallel endpoint reliably rejects a bad key without cost, so a wrong key shows up on first use") WEB_SEARCH [] None
  ; api_key_row "brave" "Brave Search" "apikey:brave" "https://api-dashboard.search.brave.com/app/keys" "API key" (Unvalidated "Brave documents no distinct invalid-key response for its Search API") WEB_SEARCH [] None
  ; api_key_row "firecrawl" "Firecrawl" "apikey:firecrawl" "https://www.firecrawl.dev/app/api-keys" "fc-..." (FirecrawlCreditUsage "https://api.firecrawl.dev/v2/team/credit-usage") WEB_SEARCH [] None ].

Definition api_key_providers_8 : list ApiKeyProvider :=
  [ api_key_row "jina" "Jina AI" "apikey:jina" "https://jina.ai/?sui=apikey" "jina_..." (Unvalidated "Jina's public API docs do not specify a distinct invalid-key response") WEB_SEARCH [] None
  ; api_key_row "tinyfish" "TinyFish" "apikey:tinyfish" "https://agent.tinyfish.ai/api-keys" "API key" (TinyFishWallet "https://api.tinyfish.ai/v1/wallet") WEB_SEARCH [] None
  ; api_key_row "searxng" "SearXNG" "apikey:searxng" "https://docs.searxng.org/admin/settings/settings.html" "API key" (Unvalidated "SearXNG is self-hosted, so there is no shared endpoint to check a key against; a wrong key shows up on first use") WEB_SEARCH [] None ].

Definition API_KEY_PROVIDERS : list ApiKeyProvider :=
  api_key_providers_1 ++ api_key_providers_2 ++ api_key_providers_3 ++ api_key_providers_4 ++ api_key_providers_5 ++ api_key_providers_6 ++ api_key_providers_7 ++ api_key_providers_8.

Definition login_providers_1 : list LoginProvider :=
  [ login_row "anthropic" "https://claude.ai/oauth/authorize" "https://api.anthropic.com/v1/oauth/token" "9d1c250a-e61b-44d9-88ed-5944d1962f5e" "http://localhost:54545/callback" ["org:create_api_key"; "user:profile"; "user:inference"; "user:sessions:claude_code"; "user:mcp_servers"; "user:file_upload"] [("code", "true")] "anthropic" "oauth:anthropic" AnthropicJson false false "After approving, the browser will fail to connect to localhost:54545 — that is expected (nothing listens there).
Copy the FULL URL from the browser's address bar (or the code#state if shown) and paste it here, then Enter:" (Some "https://platform.claude.com/oauth/code/callback") (Some "After approving, the page shows a short code of the form code#state (a long code, a '#', then a shorter value).
Copy the WHOLE thing, including the '#', and paste it here, then Enter:") None LLM [VAnthropic] ["anthropic"]
  ; login_row "openai" "https://auth.openai.com/oauth/authorize" "https://auth.openai.com/oauth/token" "app_EMoamEEZ73f0CkXaXp7hrann" "http://localhost:1455/auth/callback" ["openid"; "profile"; "email"; "offline_access"] [("id_token_add_organizations", "true"); ("codex_cli_simplified_flow", "true"); ("originator", "opencode")] "openai" "chatgpt:openai" RfcForm false false "After approving, the browser will fail to connect to localhost:1455 — that is expected (nothing listens there).
Copy the FULL URL from the browser's address bar and paste it here, then Enter:" None None (Some DeviceOpenAi) LLM [VOpenAI] ["openai"]
  ; login_row "xai" "https://auth.x.ai/oauth2/authorize" "https://auth.x.ai/oauth2/token" "b1a00492-073a-47ea-816f-4c329264a828" "http://127.0.0.1:56121/callback" ["openid"; "profile"; "email"; "offline_access"; "grok-cli:access"; "api:access"] [("plan", "generic"); ("referrer", "hermes-agent")] "xai" "oauth:xai" RfcForm true true "After approving, the browser will fail to connect to 127.0.0.1:56121 — that is expected (nothing listens there).
Copy the FULL URL from the browser's address bar and paste it here, then Enter:" None None (Some DeviceXai) LLM [VXAI] ["xai"]
  ; login_row "github-copilot" EmptyString "https://github.com/login/oauth/access_token" "Ov23li8tweQw6odWQebz" EmptyString ["read:user"] [] "github-copilot" "copilot:github" RfcForm false false EmptyString None None (Some DeviceGithubCopilot) LLM [VOpenAI; VAnthropic; VGoogle; VXAI] []
  ; login_row "kimi" EmptyString "https://auth.kimi.com/api/oauth/token" "17e5f671-d194-4dfb-9706-5516cb48c098" EmptyString [] [] "kimi" "oauth:kimi" RfcForm false false EmptyString None None (Some DeviceKimi) LLM [VMoonshot] []
  ; login_row "meta" EmptyString "https://auth.meta.com/oidc/device/token/" "1031625952748946" EmptyString [] [] "meta" "oauth:meta" RfcForm false false EmptyString None None (Some DeviceMeta) LLM [VMeta] ["meta"] ].

Definition login_providers_2 : list LoginProvider :=
  [ login_row "google" "https://accounts.google.com/o/oauth2/v2/auth" "https://oauth2.googleapis.com/token" "681255809395-oo8ft2oprdrnp9e3aqf6av3hmdib135j.apps.googleusercontent.com" "http://127.0.0.1:8085/oauth2callback" ["https://www.googleapis.com/auth/cloud-platform"; "https://www.googleapis.com/auth/userinfo.email"; "https://www.googleapis.com/auth/userinfo.profile"] [("access_type", "offline"); ("prompt", "consent")] "google" "oauth:google" RfcForm false false "After approving, the browser may fail to connect to 127.0.0.1:8085 — that is expected. Copy the FULL URL from the address bar and paste it here, then Enter:" None None None LLM [VGoogle] []
  ; login_row "gmail" "https://accounts.google.com/o/oauth2/v2/auth" "https://oauth2.googleapis.com/token" EmptyString "http://127.0.0.1:8086/oauth2callback" ["https://www.googleapis.com/auth/gmail.send"; "openid"; "email"] [("access_type", "offline"); ("prompt", "consent")] "gmail" "oauth:gmail" RfcForm false false "Copy the FULL URL from the browser address bar and paste it here, then Enter:" None None None NO_CATEGORIES [] []
  ; login_row "antigravity" "https://accounts.google.com/o/oauth2/v2/auth" "https://oauth2.googleapis.com/token" "1071006060591-tmhssin2h21lcre235vtolojh4g403ep.apps.googleusercontent.com" "http://127.0.0.1:51121/callback" ["https://www.googleapis.com/auth/cloud-platform"; "https://www.googleapis.com/auth/userinfo.email"; "https://www.googleapis.com/auth/userinfo.profile"] [("access_type", "offline"); ("prompt", "consent")] "antigravity" "antigravity:google" RfcForm false false "After approving, the browser may fail to connect to 127.0.0.1:51121 — that is expected. Copy the FULL URL from the address bar and paste it here, then Enter:" None None None LLM [VGoogle; VAnthropic; VOpenAI] ["google"]
  ; login_row "cursor" "https://cursor.com/loginDeepControl" "https://api2.cursor.sh/auth/exchange_user_api_key" EmptyString EmptyString [] [] "cursor" "oauth:cursor" RfcForm false false "Cursor login is completed by browser polling." None None None LLM [VAnthropic; VOpenAI; VGoogle; VXAI] []
  ; login_row "devin" "https://app.devin.ai/auth/cli/continue" "https://api.devin.ai/auth/cli/token" EmptyString "http://127.0.0.1:59653/callback" [] [] "devin" "oauth:devin" RfcForm false false "After approving Devin, paste the callback URL." None None None NO_CATEGORIES [] []
  ; login_row "snowflake" "https://{account}.snowflakecomputing.com/oauth/token-request" "https://{account}.snowflakecomputing.com/oauth/token-request" "LOCAL_APPLICATION" "http://127.0.0.1:0/" [] [] "snowflake" "oauth:snowflake" RfcForm false false "After approving Snowflake, paste the callback URL." None None None DATA_WAREHOUSE [] []
  ; login_row "digitalocean" "https://cloud.digitalocean.com/v1/oauth/authorize" "https://cloud.digitalocean.com/v1/oauth/authorize" "b1a6c5158156caac821fd1b30253ca8acb52454a48fa744420e41889cb589f82" "http://localhost:1456/auth/callback" ["genai:read"; "inference:query"] [] "digitalocean" "oauth:digitalocean" RfcForm false false "After approving DigitalOcean, paste the full callback URL including its fragment." None None None CLOUD_INFRASTRUCTURE [] [] ].

Definition LOGIN_PROVIDERS : list LoginProvider :=
  login_providers_1 ++ login_providers_2.


(** ** Lookups *)

Definition api_key_provider (k : string) : option ApiKeyProvider :=
  List.find (fun e => bool_decide (ak_key e = k)) API_KEY_PROVIDERS.

Definition login_provider (k : string) : option LoginProvider :=
  List.find (fun e => bool_decide (lp_key e = k)) LOGIN_PROVIDERS.

Inductive CatalogEntry :=
| EntryApiKey (e : ApiKeyProvider)
| EntryLogin (e : LoginProvider).

Definition entry_categories (e : CatalogEntry) : list CredentialCategory :=
  match e with EntryApiKey e => ak_categories e | EntryLogin e => lp_categories e end.

Definition entry_serves (e : CatalogEntry) : list ModelVendor :=
  match e with EntryApiKey e => ak_serves e | EntryLogin e => lp_serves e end.

(** The id matches a row when it is the row's default id or its first two segments are. *)
Definition catalog_match (id : string) : option CatalogEntry :=
  let '(first, rest) := split_on ":" id in
  let boundary_id := (fun second => first ++ ":" ++ second)%string <$> rest !! 0%nat in
  let matches default_id :=
    bool_decide (id = default_id) || bool_decide (boundary_id = Some default_id) in
  match List.find (fun e => matches (ak_default_id e)) API_KEY_PROVIDERS with
  | Some e => Some (EntryApiKey e)
  | None => EntryLogin <$> List.find (fun e => matches (lp_default_id e)) LOGIN_PROVIDERS
  end.

Definition label_char (c : ascii) : bool :=
  is_ascii_lowercase c || is_ascii_digit c || Ascii.eqb c "-".

Definition valid_category_name (name : string) : bool :=
  (2 <=? String.length name)%nat && (String.length name <=? 32)%nat &&
  match name with
  | EmptyString => false
  | String c rest => is_ascii_lowercase c && str_forallb label_char rest
  end.

(** [s.replace('_', "-")]. *)
Fixpoint underscores_to_hyphens (s : string) : string :=
  match s with
  | EmptyString => EmptyString
  | String c s' => String (if Ascii.eqb c "_" then "-"%char else c) (underscores_to_hyphens s')
  end.

Definition native_family_category (id : string) : option string :=
  let parsed := parse_credential_id id in
  match method parsed with
  | None => None
  | Some m =>
      match default_refresh_adapter (Some m) (provider parsed) with
      | None => None
      | Some adapter =>
          let candidate := (underscores_to_hyphens adapter ++ "-native")%string in
          if valid_category_name candidate then Some candidate else None
      end
  end.

Definition category_defaults (id : string) : list string :=
  if str_starts_with "cookie:" id then ["browser-session"]
  else
    let categories :=
      match catalog_match id with
      | Some e => map category_as_str (entry_categories e)
      | None => []
      end in
    match native_family_category id with
    | Some native => (categories ++ [native])%list
    | None => categories
    end.

Definition serves_for (id : string) : list ModelVendor :=
  match catalog_match id with Some e => entry_serves e | None => [] end.

Definition default_provider_ids (id : string) : list string :=
  match catalog_match id with
  | Some (EntryLogin e) => lp_default_provider_ids e
  | _ => []
  end.

Definition credential_type (id : string) : string :=
  let m := (split_on ":" id).1 in
  if existsb (fun e => bool_decide ((split_on ":" (ak_default_id e)).1 = m)) API_KEY_PROVIDERS then "apikey"
  else if existsb (fun e => bool_decide ((split_on ":" (lp_default_id e)).1 = m)) LOGIN_PROVIDERS then "oauth"
  else if bool_decide (m = "cookie") then "cookie"
  else if bool_decide (m = "signing") then "signing"
  else if bool_decide (m = "kem") then "kem"
  else if bool_decide (m = "github_app") then "github_app"
  else if bool_decide (m = "apple") then "apple"
  else "unknown".

(** ** Lemmas *)

Lemma category_as_str_inj c c' : category_as_str c = category_as_str c' -> c = c'.
Proof. by destruct c, c'. Qed.

(** No purpose category is spelled like a native family. *)
Lemma category_not_native c x : category_as_str c <> (x ++ "-native")%string.
Proof.
  destruct c; cbn; intros H;
    repeat (destruct x as [|? x]; [discriminate H|cbn in H; injection H as _ H]); destruct x; discriminate.
Qed.

Lemma catalog_match_in id e :
  catalog_match id = Some e ->
  match e with EntryApiKey r => In r API_KEY_PROVIDERS | EntryLogin r => In r LOGIN_PROVIDERS end.
Proof.
  unfold catalog_match. destruct (split_on ":" id) as [first rest].
  destruct (List.find _ API_KEY_PROVIDERS) eqn:E1.
  - intros [= <-]. by apply find_some in E1 as [? _].
  - destruct (List.find _ LOGIN_PROVIDERS) eqn:E2; intros [= <-].
    by apply find_some in E2 as [? _].
Qed.

(** Decide a property of every row by evaluation. *)
Lemma all_api_key_rows (p : ApiKeyProvider -> bool) :
  forallb p API_KEY_PROVIDERS = true -> forall e, In e API_KEY_PROVIDERS -> p e = true.
Proof. rewrite forallb_forall. auto. Qed.
Lemma all_login_rows (p : LoginProvider -> bool) :
  forallb p LOGIN_PROVIDERS = true -> forall e, In e LOGIN_PROVIDERS -> p e = true.
Proof. rewrite forallb_forall. auto. Qed.

#[global] Instance CredentialCategory_eq_dec : EqDecision CredentialCategory.
Proof. solve_decision. Defined.

Lemma entry_categories_nodup id e : catalog_match id = Some e -> NoDup (entry_categories e).
Proof.
  intros H%catalog_match_in. destruct e as [r|r]; cbn.
  - apply (bool_decide_eq_true_1 (NoDup (ak_categories r))). revert r H.
    by apply (all_api_key_rows (fun r => bool_decide (NoDup (ak_categories r)))).
  - apply (bool_decide_eq_true_1 (NoDup (lp_categories r))). revert r H.
    by apply (all_login_rows (fun r => bool_decide (NoDup (lp_categories r)))).
Qed.

Lemma native_family_inv id n :
  native_family_category id = Some n ->
  valid_category_name n = true /\ exists a, n = (a ++ "-native")%string.
Proof.
  unfold native_family_category. destruct (method _); [|done].
  destruct (default_refresh_adapter _ _); [|done]. cbv zeta.
  destruct (valid_category_name _) eqn:E; [|done]. intros [= <-]. eauto.
Qed.

(** ** Properties *)

(** The categories an id is stamped with are valid names, so a grant can select on each
    of them, and are pairwise distinct, so stamping them never trips the primary key of
    [credential_categories]. *)
Lemma category_defaults_spec id :
  Forall (fun c => valid_category_name c = true) (category_defaults id) /\
  NoDup (category_defaults id).
Proof.
  unfold category_defaults. case_match; [split; [by repeat constructor|by apply NoDup_singleton]|].
  set (cats := match catalog_match id with Some e => _ | None => _ end).
  assert (Forall (fun c => valid_category_name c = true /\ exists k, c = category_as_str k) cats
          /\ NoDup cats) as [Hv Hn].
  { subst cats. destruct (catalog_match id) as [e|] eqn:E; [|split; constructor]. split.
    - apply List.Forall_forall. intros c (k & <- & _)%in_map_iff. split; [by destruct k|eauto].
    - apply NoDup_fmap_2; [|by eapply entry_categories_nodup].
      intros ? ?. apply category_as_str_inj. }
  assert (Forall (fun c => valid_category_name c = true) cats) as Hv'
    by (eapply List.Forall_impl; [|exact Hv]; naive_solver).
  destruct (native_family_category id) as [n|] eqn:En; [|done].
  apply native_family_inv in En as [Hvn [a ->]]. split.
  - apply Forall_app_2; [done|by constructor].
  - apply NoDup_app. split_and!; [done| |apply NoDup_singleton].
    intros c Hc ->%list_elem_of_singleton. rewrite List.Forall_forall in Hv.
    apply list_elem_of_In in Hc. apply Hv in Hc as [_ [k Hk]]. by apply (category_not_native k a).
Qed.

(** ** Every row owns its ids *)

Definition entry_default_id (e : CatalogEntry) : string :=
  match e with EntryApiKey e => ak_default_id e | EntryLogin e => lp_default_id e end.

Definition catalog_entries : list CatalogEntry :=
  map EntryApiKey API_KEY_PROVIDERS ++ map EntryLogin LOGIN_PROVIDERS.

(** Two segments, as every default id has. *)
Definition two_segments (id : string) : bool :=
  let '(first, rest) := split_on ":" id in
  match rest with [second] => bool_decide (id = first ++ ":" ++ second)%string | _ => false end.

Lemma rows_have_two_segments : forallb (fun e => two_segments (entry_default_id e)) catalog_entries = true.
Proof. vm_compute. reflexivity. Qed.

Lemma default_ids_distinct : NoDup (map entry_default_id catalog_entries).
Proof. apply (bool_decide_unpack _). vm_compute. exact I. Qed.

Lemma split_on_colon_app x acct :
  split_on ":" (x ++ String ":" acct) =
  ((split_on ":" x).1, (split_on ":" x).2 ++ (split_on ":" acct).1 :: (split_on ":" acct).2).
Proof.
  induction x as [|c x IH].
  - change (split_on ":" (String ":" acct) = (EmptyString, (split_on ":" acct).1 :: (split_on ":" acct).2)).
    cbn [split_on]. by destruct (split_on ":" acct).
  - change (String c x ++ String ":" acct)%string with (String c (x ++ String ":" acct)).
    cbn [split_on]. rewrite IH. destruct (split_on ":" x) as [w ws]. cbn [fst snd]. destruct (Ascii.eqb ":" c); reflexivity.
Qed.

Lemma find_unique {A} (f : A -> string) (p : A -> bool) l e :
  NoDup (map f l) -> In e l -> (forall y, In y l -> p y = true <-> f y = f e) -> List.find p l = Some e.
Proof.
  induction l as [|y l IH]; [done|]. cbn. intros [Hy Hn]%NoDup_cons Hin Hp.
  destruct (p y) eqn:Ep.
  - apply Hp in Ep; [|by left]. destruct Hin as [->|Hin]; [done|]. exfalso. apply Hy.
    rewrite Ep. apply list_elem_of_In, in_map_iff. eauto.
  - destruct Hin as [->|Hin]; [by rewrite (proj2 (Hp e (or_introl eq_refl)) eq_refl) in Ep|].
    apply IH; [done|done|]. intros z Hz. apply Hp. by right.
Qed.

Lemma find_app {A} (p : A -> bool) l l' :
  List.find p (l ++ l') = match List.find p l with Some x => Some x | None => List.find p l' end.
Proof. induction l as [|x l IH]; [done|]. cbn. by destruct (p x). Qed.

Lemma find_entries (p : CatalogEntry -> bool) l1 l2 :
  List.find p (map EntryApiKey l1 ++ map EntryLogin l2) =
  match List.find (fun x => p (EntryApiKey x)) l1 with
  | Some r => Some (EntryApiKey r)
  | None => EntryLogin <$> List.find (fun x => p (EntryLogin x)) l2
  end.
Proof.
  assert (forall {A} (g : A -> CatalogEntry) l, List.find p (map g l) = g <$> List.find (fun x => p (g x)) l) as Hmap.
  { intros A g l. induction l as [|x l IH]; [done|]. cbn. by destruct (p (g x)). }
  rewrite find_app, !Hmap. by destruct (List.find _ l1).
Qed.

Lemma matches_by_prefix e id :
  In e catalog_entries ->
  (forall e', In e' catalog_entries -> id <> entry_default_id e' \/ id = entry_default_id e) ->
  (let '(first, rest) := split_on ":" id in (fun second => first ++ ":" ++ second)%string <$> rest !! 0%nat)
    = Some (entry_default_id e) ->
  catalog_match id = Some e.
Proof.
  intros He Hne Hb. unfold catalog_match. destruct (split_on ":" id) as [first rest]. rewrite Hb.
  set (p := fun e' => bool_decide (id = entry_default_id e') || bool_decide (Some (entry_default_id e) = Some (entry_default_id e'))).
  assert (List.find p catalog_entries = Some e) as Hf.
  { apply (find_unique entry_default_id); [apply default_ids_distinct|done|]. intros y Hy. unfold p.
    rewrite orb_true_iff, !bool_decide_eq_true. split.
    - intros [Hid|[= ->]]; [|done]. destruct (Hne y Hy) as [Hn|Hx]; [done|congruence].
    - intros ->. by right. }
  unfold catalog_entries in Hf. rewrite find_entries in Hf. exact Hf.
Qed.

(** The default ids of the catalog are unambiguous: the id of a row, and that id with
    any account appended, is matched to that row and to no other. *)
Theorem catalog_row_owns_its_ids e acct :
  In e catalog_entries ->
  catalog_match (entry_default_id e) = Some e /\
  catalog_match (entry_default_id e ++ ":" ++ acct) = Some e.
Proof.
  intros He. pose proof rows_have_two_segments as H2. rewrite forallb_forall in H2.
  pose proof (H2 _ He) as Hs. unfold two_segments in Hs.
  destruct (split_on ":" (entry_default_id e)) as [a r] eqn:Ea. destruct r as [|b [|]]; [done| |done]. bool_hyps.
  split; (apply matches_by_prefix; [exact He| |]).
  - intros e' _. by right.
  - rewrite Ea. cbn. by rewrite Hs.
  - intros e' He'. left. intros Hid. specialize (H2 _ He'). unfold two_segments in H2. rewrite <- Hid in H2.
    change (":" ++ acct)%string with (String ":" acct) in H2. rewrite split_on_colon_app, Ea in H2. done.
  - change (":" ++ acct)%string with (String ":" acct). rewrite split_on_colon_app, Ea. cbn. by rewrite Hs.
Qed.

Module CatalogWitness.
Lemma catalog_row_witness :
  option_map entry_default_id (catalog_match "oauth:kimi:work") = Some "oauth:kimi".
Proof.
  destruct (catalog_match "oauth:kimi") as [e|] eqn:E; [|vm_compute in E; discriminate E].
  assert (entry_default_id e = "oauth:kimi") as Ed by (vm_compute in E; injection E as <-; reflexivity).
  assert (In e catalog_entries) as He.
  { apply catalog_match_in in E. unfold catalog_entries. apply in_app_iff.
    destruct e; [left|right]; by apply in_map. }
  destruct (catalog_row_owns_its_ids e "work" He) as [_ Hm]. rewrite Ed in Hm.
  change ("oauth:kimi" ++ ":" ++ "work")%string with "oauth:kimi:work" in Hm. rewrite Hm. cbn. by rewrite Ed.
Defined.
End CatalogWitness.
