(* ===== verification/Envelope.v ===== *)
(** * The at-rest cipher envelope ([credentials-core/src/envelope.rs])

    One record's plaintext sealed as a single unit: header, nonce, ciphertext and tag,
    with the key id, the credential id and the record version authenticated as
    additional data. The model keeps the byte layout. Slicing and indexing are partial
    ([None] is a panic), so that [open_checked] can be shown never to panic. *)

From S2P Require Import Prelude Crypto.

Definition MAGIC : byte := xc7.
Definition CIPHER_VERSION_XCHACHA20POLY1305 : byte := x01.
Definition NONCE_LEN : nat := 24.
Definition HEADER_LEN : nat := 1 + 1 + KEY_ID_LEN + NONCE_LEN.
Definition MIN_ENVELOPE_LEN : nat := HEADER_LEN + TAG_LEN.
Definition AAD_DOMAIN : bytes := str_bytes "cortexkit-credentials/envelope-aad/v1".

Record RecordBinding := { rb_credential_id : string; rb_record_version : Z }.

Inductive EnvelopeError :=
| Truncated
| BadMagic (b : byte)
| UnsupportedCipherVersion (v : byte)
| KeyMismatch (envelope key : KeyId)
| Decrypt
| Cipher.

(** [push_lp]: a u32 little-endian length, then the bytes. *)
Definition push_lp (buf field : bytes) : bytes := buf ++ length_prefixed 4 field.

Definition build_aad (kid : KeyId) (b : RecordBinding) : bytes :=
  let aad := [] in
  let aad := push_lp aad AAD_DOMAIN in
  let aad := push_lp aad [CIPHER_VERSION_XCHACHA20POLY1305] in
  let aad := push_lp aad kid in
  let aad := push_lp aad (str_bytes (rb_credential_id b)) in
  push_lp aad (le_bytes 8 (rb_record_version b)).

#[global] Arguments build_aad : simpl never.

(** [&blob[a..b]], which panics out of range. *)
Definition slice (a b : nat) (l : bytes) : option bytes :=
  if ((a <=? b) && (b <=? length l))%nat then Some (take (b - a) (drop a l)) else None.

(** [<[u8; N]>::try_from(slice)]. *)
Definition try_into_array (n : nat) (l : bytes) : option bytes :=
  if (length l =? n)%nat then Some l else None.

Section Envelope.
Context `{C : Crypto}.

(** [seal]: [rnd] is what [getrandom] filled the nonce with, [None] when it failed. *)
Definition seal (rnd : option bytes) (key : MasterKey) (plaintext : bytes) (b : RecordBinding)
  : result bytes EnvelopeError :=
  let kid := key_id key in
  if negb (aead_key_ok (mk_bytes key)) then Err Cipher else
  let? nonce := ok_or rnd Cipher in
  let aad := build_aad kid b in
  let? ciphertext := ok_or (aead_encrypt (mk_bytes key) nonce aad plaintext) Cipher in
  Ok ([MAGIC; CIPHER_VERSION_XCHACHA20POLY1305] ++ kid ++ nonce ++ ciphertext).

(** [open], with [None] standing for a panic. *)
Definition open_checked (key : MasterKey) (blob : bytes) (b : RecordBinding)
  : option (result bytes EnvelopeError) :=
  if (length blob <? MIN_ENVELOPE_LEN)%nat then Some (Err Truncated) else
  match blob !! 0%nat with None => None | Some magic =>
  if negb (bool_decide (magic = MAGIC)) then Some (Err (BadMagic magic)) else
  match blob !! 1%nat with None => None | Some cipher_version =>
  if negb (bool_decide (cipher_version = CIPHER_VERSION_XCHACHA20POLY1305))
  then Some (Err (UnsupportedCipherVersion cipher_version)) else
  match slice 2 (2 + KEY_ID_LEN) blob with None => None | Some key_id_slice =>
  match try_into_array KEY_ID_LEN key_id_slice with
  | None => Some (Err Truncated)
  | Some envelope_key_id =>
  let kid := key_id key in
  if negb (bool_decide (envelope_key_id = kid)) then Some (Err (KeyMismatch envelope_key_id kid)) else
  let nonce_start := (2 + KEY_ID_LEN)%nat in
  match slice nonce_start (nonce_start + NONCE_LEN) blob with None => None | Some nonce_slice =>
  match try_into_array NONCE_LEN nonce_slice with
  | None => Some (Err Truncated)
  | Some nonce =>
  match slice HEADER_LEN (length blob) blob with None => None | Some ciphertext =>
  if negb (aead_key_ok (mk_bytes key)) then Some (Err Cipher) else
  let aad := build_aad envelope_key_id b in
  Some (ok_or (aead_decrypt (mk_bytes key) nonce aad ciphertext) Decrypt)
  end end end end end end end.

(** [open] for callers; [open_total] below shows the default is never taken. *)
Definition open (key : MasterKey) (blob : bytes) (b : RecordBinding) : result bytes EnvelopeError :=
  default (Err Truncated) (open_checked key blob b).

Context `{!CryptoLaws C}.

(** ** Slicing *)

Lemma slice_in_range a b l :
  (a <= b <= length l)%nat -> slice a b l = Some (take (b - a) (drop a l)).
Proof.
  intros [H1 H2]. unfold slice.
  apply Nat.leb_le in H1, H2. by rewrite H1, H2.
Qed.

Lemma try_into_array_slice a n (l : bytes) :
  (a + n <= length l)%nat ->
  try_into_array n (take n (drop a l)) = Some (take n (drop a l)).
Proof.
  intros H. unfold try_into_array. rewrite length_take, length_drop.
  destruct (Nat.eqb_spec (n `min` (length l - a)) n); [done|lia].
Qed.

(** The decoder as one equation, once the length guard has passed. *)
Lemma open_checked_long key blob b :
  (MIN_ENVELOPE_LEN <= length blob)%nat ->
  exists m v rest,
    blob = m :: v :: rest /\
    open_checked key blob b = Some
      (let kid := take KEY_ID_LEN rest in
       let body := drop KEY_ID_LEN rest in
       if negb (bool_decide (m = MAGIC)) then Err (BadMagic m) else
       if negb (bool_decide (v = CIPHER_VERSION_XCHACHA20POLY1305))
       then Err (UnsupportedCipherVersion v) else
       if negb (bool_decide (kid = key_id key)) then Err (KeyMismatch kid (key_id key)) else
       if negb (aead_key_ok (mk_bytes key)) then Err Cipher else
       ok_or (aead_decrypt (mk_bytes key) (take NONCE_LEN body) (build_aad kid b)
                (drop NONCE_LEN body)) Decrypt).
Proof.
  intros Hlen. destruct blob as [|m [|v rest]]; [unfold MIN_ENVELOPE_LEN in Hlen; simpl in Hlen; lia..|].
  exists m, v, rest. split; [done|]. unfold open_checked.
  destruct (Nat.ltb_spec (length (m :: v :: rest)) MIN_ENVELOPE_LEN); [lia|].
  unfold MIN_ENVELOPE_LEN, HEADER_LEN, KEY_ID_LEN, NONCE_LEN, TAG_LEN in *.
  rewrite !slice_in_range by (simpl in *; lia).
  rewrite !try_into_array_slice by (simpl in *; lia).
  cbn [lookup list_lookup].
  replace (drop 2 (m :: v :: rest)) with rest by done.
  replace (drop (2 + 8) (m :: v :: rest)) with (drop 8 rest) by done.
  replace (drop (1 + 1 + 8 + 24) (m :: v :: rest)) with (drop 24 (drop 8 rest))
    by (rewrite drop_drop; done).
  replace (2 + 8 - 2)%nat with 8%nat by lia. replace (2 + 8 + 24 - (2 + 8))%nat with 24%nat by lia.
  rewrite (take_ge (drop 24 (drop 8 rest))) by (rewrite !length_drop; simpl in *; lia).
  case_all.
Qed.

Lemma open_total key blob b : open_checked key blob b = Some (open key blob b).
Proof.
  unfold open. destruct (Nat.ltb_spec (length blob) MIN_ENVELOPE_LEN) as [Hl|Hl].
  - unfold open_checked. apply Nat.ltb_lt in Hl. by rewrite Hl.
  - destruct (open_checked_long key blob b Hl) as (? & ? & ? & _ & ->). done.
Qed.

(** ** The associated data determines the binding *)

(** Sizes for which the u32 length prefixes cannot wrap, and versions of their type. *)
Definition binding_wf (b : RecordBinding) : Prop :=
  Z.of_nat (length (str_bytes (rb_credential_id b))) < 2 ^ 32 /\ in_u64 (rb_record_version b).

Lemma build_aad_fields kid b :
  build_aad kid b =
    length_prefixed 4 AAD_DOMAIN ++ length_prefixed 4 [CIPHER_VERSION_XCHACHA20POLY1305] ++
    length_prefixed 4 kid ++ length_prefixed 4 (str_bytes (rb_credential_id b)) ++
    length_prefixed 4 (le_bytes 8 (rb_record_version b)).
Proof. unfold build_aad, push_lp. by rewrite <- !app_assoc. Qed.

Lemma build_aad_inj k1 k2 b1 b2 :
  length k1 = KEY_ID_LEN -> length k2 = KEY_ID_LEN -> binding_wf b1 -> binding_wf b2 ->
  build_aad k1 b1 = build_aad k2 b2 -> k1 = k2 /\ b1 = b2.
Proof.
  intros Hk1 Hk2 [Hc1 Hv1] [Hc2 Hv2] H. rewrite !build_aad_fields in H.
  apply length_prefixed_app_inj in H as [_ H]; [|done..].
  apply length_prefixed_app_inj in H as [_ H]; [|done..].
  apply length_prefixed_app_inj in H as [-> H]; [|by rewrite ?Hk1, ?Hk2..].
  apply length_prefixed_app_inj in H as [Hc H]; [|done..].
  rewrite <- (app_nil_r (length_prefixed 4 (le_bytes 8 (rb_record_version b1)))),
    <- (app_nil_r (length_prefixed 4 (le_bytes 8 (rb_record_version b2)))) in H.
  apply length_prefixed_app_inj in H as [Hv _]; [|by rewrite length_le_bytes..].
  unfold in_u64, u64_max in *. apply le_bytes_inj in Hv; [|lia..].
  split; [done|]. destruct b1, b2; cbn in *. by rewrite (str_bytes_inj _ _ Hc), Hv.
Qed.

(** ** Sealing *)

Lemma seal_ok rnd key pt b blob :
  seal rnd key pt b = Ok blob <->
  exists nonce ct, rnd = Some nonce /\ aead_key_ok (mk_bytes key) = true /\
    aead_encrypt (mk_bytes key) nonce (build_aad (key_id key) b) pt = Some ct /\
    blob = [MAGIC; CIPHER_VERSION_XCHACHA20POLY1305] ++ key_id key ++ nonce ++ ct.
Proof.
  unfold seal. split.
  - intros H. destruct rnd as [nonce|]; cbn in H; case_all. cbn in *.
    destruct (aead_encrypt _ _ _ _) eqn:?; cbn in *; simplify_eq. bool_hyps. eauto 10.
  - intros (nonce & ct & -> & -> & Hct & ->). cbn. by rewrite Hct.
Qed.

Lemma seal_total nonce key pt b :
  length nonce = NONCE_LEN -> exists blob, seal (Some nonce) key pt b = Ok blob.
Proof.
  intros Hn. destruct (aead_total (mk_bytes key) nonce (build_aad (key_id key) b) pt) as [ct Hct];
    [apply mk_len|done|].
  eexists. apply seal_ok. eexists _, _. eauto using aead_key_32, mk_len.
Qed.

Lemma open_header_app (kid nonce ct : bytes) :
  length kid = KEY_ID_LEN -> length nonce = NONCE_LEN ->
  take KEY_ID_LEN (kid ++ nonce ++ ct) = kid /\
  take NONCE_LEN (drop KEY_ID_LEN (kid ++ nonce ++ ct)) = nonce /\
  drop NONCE_LEN (drop KEY_ID_LEN (kid ++ nonce ++ ct)) = ct.
Proof.
  intros <- <-. by rewrite take_app_length, drop_app_length, take_app_length, drop_app_length.
Qed.

Lemma seal_length nonce key pt b blob :
  length nonce = NONCE_LEN -> seal (Some nonce) key pt b = Ok blob ->
  length blob = (MIN_ENVELOPE_LEN + length pt)%nat.
Proof.
  intros Hn (n & ct & [= <-] & _ & Hct & ->)%seal_ok.
  apply aead_length in Hct. rewrite !length_app, key_id_length, Hn, Hct.
  unfold MIN_ENVELOPE_LEN, HEADER_LEN. cbn [length]. lia.
Qed.

Lemma open_sealed nonce key pt b blob :
  length nonce = NONCE_LEN -> seal (Some nonce) key pt b = Ok blob -> open key blob b = Ok pt.
Proof.
  intros Hn Hs. pose proof (seal_length _ _ _ _ _ Hn Hs) as Hl.
  apply seal_ok in Hs as (n' & ct & Hn' & Hk & Hct & ->). simplify_eq.
  destruct (open_checked_long key _ b ltac:(rewrite Hl; lia)) as (m & v & rest & Heq & Hopen).
  cbn in Heq. simplify_eq.
  destruct (open_header_app (key_id key) n' ct (key_id_length key) Hn) as (E1 & E2 & E3).
  unfold open. rewrite Hopen. cbn zeta. rewrite E1, E2, E3, Hk.
  rewrite !bool_decide_eq_true_2 by done. cbn.
  by rewrite (aead_decrypt_encrypt _ _ _ _ _ Hct).
Qed.

Lemma open_ok_inv key blob b pt :
  open key blob b = Ok pt ->
  exists nonce ct, length nonce = NONCE_LEN /\
    blob = [MAGIC; CIPHER_VERSION_XCHACHA20POLY1305] ++ key_id key ++ nonce ++ ct /\
    aead_decrypt (mk_bytes key) nonce (build_aad (key_id key) b) ct = Some pt.
Proof.
  unfold open. destruct (Nat.ltb_spec (length blob) MIN_ENVELOPE_LEN) as [Hl|Hl].
  { unfold open_checked. apply Nat.ltb_lt in Hl. by rewrite Hl. }
  destruct (open_checked_long key blob b Hl) as (m & v & rest & -> & ->). cbn zeta.
  intros H. cbn in H. case_all. bool_hyps. subst.
  match goal with H : take _ _ = key_id _ |- _ => rename H into Hkid end. rewrite Hkid in H.
  destruct (aead_decrypt _ _ _ _) eqn:Hd in H; [|done]. cbn in H. simplify_eq.
  exists (take NONCE_LEN (drop KEY_ID_LEN rest)), (drop NONCE_LEN (drop KEY_ID_LEN rest)).
  split; [|split; [|done]].
  - rewrite length_take, length_drop. unfold MIN_ENVELOPE_LEN, HEADER_LEN, NONCE_LEN, KEY_ID_LEN in *.
    simpl in Hl. lia.
  - cbn. by rewrite take_drop, <- Hkid, take_drop.
Qed.
End Envelope.

(** ** Properties *)

Section Properties.
Context `{C : Crypto, !CryptoLaws C}.

(** [open] never panics: whatever the bytes of the blob, no index or slice of the
    decoder is out of range, and the call returns a plaintext or a typed error. A blob
    shorter than the minimal envelope is [Truncated]. *)
Theorem open_never_panics key blob b :
  (exists r, open_checked key blob b = Some r) /\
  ((length blob < MIN_ENVELOPE_LEN)%nat -> open_checked key blob b = Some (Err Truncated)).
Proof.
  split; [rewrite open_total; eauto|].
  intros Hl%Nat.ltb_lt. unfold open_checked. by rewrite Hl.
Qed.

Lemma open_inv_sealed key blob b pt :
  open key blob b = Ok pt -> exists nonce, length nonce = NONCE_LEN /\ seal (Some nonce) key pt b = Ok blob.
Proof.
  intros (nonce & ct & Hn & -> & Hd)%open_ok_inv. exists nonce. split; [done|].
  apply seal_ok. exists nonce, ct. split_and!; auto using aead_genuine, aead_key_32, mk_len.
Qed.

(** A sealed record cannot be relocated or rolled back: if a blob sealed for one
    credential id and version also opens under another, then the AEAD, under that key
    and nonce, produced the same ciphertext for the two bindings' associated data,
    which differ. *)
Lemma relocation_needs_aead_collision nonce key pt b1 b2 blob pt2
  (Hn : length nonce = NONCE_LEN) (Hwf1 : binding_wf b1) (Hwf2 : binding_wf b2)
  (Hs : seal (Some nonce) key pt b1 = Ok blob) (Ho : open key blob b2 = Ok pt2) (Hne : b1 <> b2) :
  build_aad (key_id key) b1 <> build_aad (key_id key) b2 /\
  aead_encrypt (mk_bytes key) nonce (build_aad (key_id key) b1) pt =
  aead_encrypt (mk_bytes key) nonce (build_aad (key_id key) b2) pt2.
Proof.
  apply seal_ok in Hs as (n1 & ct & Hn1 & _ & Hct & ->). simplify_eq.
  apply open_ok_inv in Ho as (n2 & ct2 & Hn2 & Heq & Hd). cbn in Heq. simplify_eq.
  apply app_inj_1 in Heq as [-> ->]; [|by rewrite Hn, Hn2].
  split; [|rewrite Hct; symmetry; by apply aead_genuine].
  intros Ha. apply build_aad_inj in Ha as [_ ?]; eauto using key_id_length.
Qed.

(** C32: [open] accepts exactly what [seal] produces: a blob opens to a plaintext under
    a key and binding if and only if it is the sealing of that plaintext, under that
    key and binding, with some 24-byte nonce. And what it authenticates tells bindings
    apart: a blob that opens under two different bindings (another credential id, or
    another version) is one for which the AEAD gave one ciphertext to two different
    associated data. *)
Theorem open_iff_sealed key blob b pt :
  (open key blob b = Ok pt <->
   exists nonce, length nonce = NONCE_LEN /\ seal (Some nonce) key pt b = Ok blob) /\
  forall b' pt', binding_wf b -> binding_wf b' -> b' <> b -> open key blob b = Ok pt -> open key blob b' = Ok pt' ->
    build_aad (key_id key) b <> build_aad (key_id key) b' /\
    exists nonce, aead_encrypt (mk_bytes key) nonce (build_aad (key_id key) b) pt =
                  aead_encrypt (mk_bytes key) nonce (build_aad (key_id key) b') pt'.
Proof.
  split; [split; [apply open_inv_sealed|intros (nonce & Hn & Hs); by eapply open_sealed]|].
  intros b' pt' Hwf Hwf' Hne (nonce & Hn & Hs)%open_inv_sealed Ho'.
  destruct (relocation_needs_aead_collision nonce key pt b b' blob pt' Hn Hwf Hwf' Hs Ho' ltac:(congruence)). eauto.
Qed.

(** A key whose fingerprint differs from the sealing key's is reported as
    [KeyMismatch], naming both fingerprints, before any decryption is attempted. *)
Theorem open_wrong_key_fails_fast nonce key key' pt b b' blob
  (Hn : length nonce = NONCE_LEN) (Hs : seal (Some nonce) key pt b = Ok blob)
  (Hne : key_id key <> key_id key') :
  open key' blob b' = Err (KeyMismatch (key_id key) (key_id key')).
Proof.
  pose proof (seal_length _ _ _ _ _ Hn Hs) as Hl.
  apply seal_ok in Hs as (n' & ct & Hn' & Hk & Hct & ->). simplify_eq.
  destruct (open_checked_long key' _ b' ltac:(rewrite Hl; lia)) as (m & v & rest & Heq & Hopen).
  cbn in Heq. simplify_eq.
  destruct (open_header_app (key_id key) n' ct (key_id_length key) Hn) as (E1 & _ & _).
  unfold open. rewrite Hopen. cbn zeta. rewrite E1.
  rewrite (bool_decide_eq_true_2 (MAGIC = MAGIC)), (bool_decide_eq_true_2 (CIPHER_VERSION_XCHACHA20POLY1305 = CIPHER_VERSION_XCHACHA20POLY1305)) by done.
  by rewrite bool_decide_eq_false_2.
Qed.
End Properties.

(** ** Witnesses, evaluated with the executable instance *)

Module Witness.
Import Toy.

Definition k1 := key_of_byte x11.
Definition k2 := key_of_byte x22.
Definition n1 : bytes := replicate 24 x05.
Definition b1 := {| rb_credential_id := "oauth:anthropic"; rb_record_version := 3 |}.
Definition pt1 : bytes := str_bytes "secret".
Definition blob1 : bytes := match seal (Some n1) k1 pt1 b1 with Ok b => b | Err _ => [] end.

Example open_blob1 : open k1 blob1 b1 = Ok pt1.
Proof. vm_compute. reflexivity. Qed.

Example open_blob1_other_version :
  open k1 blob1 {| rb_credential_id := "oauth:anthropic"; rb_record_version := 4 |} = Err Decrypt.
Proof. vm_compute. reflexivity. Qed.

Lemma open_never_panics_witness :
  open_checked k1 (take 20 blob1) b1 = Some (Err Truncated).
Proof. apply (open_never_panics k1 (take 20 blob1) b1). vm_compute. lia. Defined.

Lemma open_iff_sealed_witness :
  exists nonce, length nonce = NONCE_LEN /\ seal (Some nonce) k1 pt1 b1 = Ok blob1.
Proof. apply (proj1 (open_iff_sealed k1 blob1 b1 pt1)). vm_compute. reflexivity. Defined.

Lemma open_wrong_key_witness :
  open k2 blob1 b1 = Err (KeyMismatch (key_id k1) (key_id k2)).
Proof.
  apply (open_wrong_key_fails_fast n1 k1 k2 pt1 b1 b1 blob1).
  - reflexivity.
  - vm_compute. reflexivity.
  - vm_compute. discriminate.
Defined.

(** An AEAD that authenticates no associated data satisfies the laws, and shows that
    the hypotheses of the relocation theorem can hold together. *)
Definition no_aad_crypto : Crypto := {|
  sha256 := digest;
  hmac_sha256 k m := digest (length_prefixed 8 k ++ m);
  aead_key_ok k := (length k =? 32)%nat;
  aead_encrypt k n a m := encrypt k n [] m;
  aead_decrypt k n a m := decrypt k n [] m;
|}.

Lemma no_aad_laws : CryptoLaws no_aad_crypto.
Proof.
  destruct toy_laws as [A1 A2 A3 A4 A5 A6 A7].
  split; [exact A1|exact A2|exact A3|..]; cbn in *; eauto.
Qed.

Definition b2 := {| rb_credential_id := "oauth:openai"; rb_record_version := 9 |}.
Definition blob2 : bytes :=
  match seal (C := no_aad_crypto) (Some n1) k1 pt1 b1 with Ok b => b | Err _ => [] end.

Lemma relocation_witness :
  build_aad (key_id (H := no_aad_crypto) k1) b1 <> build_aad (key_id (H := no_aad_crypto) k1) b2 /\
  aead_encrypt (Crypto := no_aad_crypto) (mk_bytes k1) n1
    (build_aad (key_id (H := no_aad_crypto) k1) b1) pt1 =
  aead_encrypt (Crypto := no_aad_crypto) (mk_bytes k1) n1
    (build_aad (key_id (H := no_aad_crypto) k1) b2) pt1.
Proof.
  apply (relocation_needs_aead_collision (C := no_aad_crypto) (CryptoLaws0 := no_aad_laws)
           n1 k1 pt1 b1 b2 blob2 pt1).
  - reflexivity.
  - split; [vm_compute; reflexivity|]. unfold in_u64, u64_max. cbn. lia.
  - split; [vm_compute; reflexivity|]. unfold in_u64, u64_max. cbn. lia.
  - vm_compute. reflexivity.
  - vm_compute. reflexivity.
  - discriminate.
Defined.
End Witness.
