(* ===== verification/AuditLog.v ===== *)
(** * The tamper-evident audit chain ([credentials-core/src/audit.rs])

    Every durable mutation appends one entry whose MAC covers its own fields and the
    MAC of its predecessor. This file holds the vocabulary of the chain, the MAC over
    the length-prefixed fields, the verifier, and [append_audit] (the chain part of
    [append_audit_tx] in [store.rs]); the tables it is appended to are in [Database]. *)

From S2P Require Import Prelude Crypto.

Definition GENESIS_MAC : string := "genesis".
Definition PAYLOAD_KEY_DOMAIN : bytes := str_bytes "cortexkit-credentials/audit-payload-key/v1".

Inductive AuditOp :=
| SecretDepositKeyCreate | SecretPhoneGateSet | SecretHomeSet | SecretPhoneRegister
| SecretStore | SecretGrantCreate | SecretDelete | SecretGrantRevoke | SecretGrantExpire
| SecretFirstRelease | SecretQuarantine | DepositCookieCreate | DepositCookieReplace | Put
| Import | Login | Overwrite | SetIdentity | Invalidate | RotateMasterKey | RefreshCommit
| ReportAuthFailure | Remove | Reactivate | MintHandle | RevokeHandle | FetchAnomaly | Sign
| Seal | GrantCreate | GrantRevoke | SetCategory | SetProviders | SetPlan | EnrollApprove
| EnrollDeny | EnrollRevoke | EnrollRotate | EnrollReissue | CategoryMigrate | Approval
| RemoteIssue | TransferOut | TransferIn | TransferReject | MemberGrantCreate
| MemberGrantRevoke | RemoteAdd | RemoteRemove | FederationGateSet | FederationSelfSet.
#[global] Instance AuditOp_eq_dec : EqDecision AuditOp.
Proof. solve_decision. Defined.

Definition op_as_str (op : AuditOp) : string :=
  match op with
  | SecretDepositKeyCreate => "secret_deposit_key_create"
  | SecretPhoneGateSet => "secret_phone_gate_set"
  | SecretHomeSet => "secret_home_set"
  | SecretPhoneRegister => "secret_phone_register"
  | SecretStore => "secret_store"
  | SecretGrantCreate => "secret_grant_create"
  | SecretDelete => "secret_delete"
  | SecretGrantRevoke => "secret_grant_revoke"
  | SecretGrantExpire => "secret_grant_expire"
  | SecretFirstRelease => "secret_first_release"
  | SecretQuarantine => "secret_quarantine"
  | DepositCookieCreate => "deposit_cookie_create"
  | DepositCookieReplace => "deposit_cookie_replace"
  | Put => "put"
  | Import => "import"
  | Login => "login"
  | Overwrite => "overwrite"
  | SetIdentity => "set_identity"
  | Invalidate => "invalidate"
  | RotateMasterKey => "rotate_master_key"
  | RefreshCommit => "refresh_commit"
  | ReportAuthFailure => "report_auth_failure"
  | Remove => "remove"
  | Reactivate => "reactivate"
  | MintHandle => "mint_handle"
  | RevokeHandle => "revoke_handle"
  | FetchAnomaly => "fetch_anomaly"
  | Sign => "sign"
  | Seal => "seal"
  | GrantCreate => "grant_create"
  | GrantRevoke => "grant_revoke"
  | SetCategory => "set_category"
  | SetProviders => "set_providers"
  | SetPlan => "set_plan"
  | EnrollApprove => "enroll.approve"
  | EnrollDeny => "enroll.deny"
  | EnrollRevoke => "enroll.revoke"
  | EnrollRotate => "enroll.rotate"
  | EnrollReissue => "enroll.reissue"
  | CategoryMigrate => "category.migrate"
  | Approval => "approval"
  | RemoteIssue => "remote_issue"
  | TransferOut => "transfer_out"
  | TransferIn => "transfer_in"
  | TransferReject => "transfer_reject"
  | MemberGrantCreate => "member_grant_create"
  | MemberGrantRevoke => "member_grant_revoke"
  | RemoteAdd => "remote_add"
  | RemoteRemove => "remote_remove"
  | FederationGateSet => "federation_gate_set"
  | FederationSelfSet => "federation_self_set"
  end.

Inductive AuthEventKind :=
| EvSecretUseRefusal | EvSecretForward | EvRefreshFailed | EvStaleNonrefreshableLatch | EvConsumerReportStale | EvConsumerReportLatch | EvScopedReadRefusal
| EvScopedFirstUse | EvReconcileNeedsReauth | EvGithubAppPermissionsChanged | EvStaleRefreshDeferred | EvEnrollment.

Definition event_kind_as_str (k : AuthEventKind) : string :=
  match k with
  | EvSecretUseRefusal => "secret_use_refusal"
  | EvSecretForward => "secret_forward"
  | EvRefreshFailed => "refresh_failed"
  | EvStaleNonrefreshableLatch => "stale_nonrefreshable_latch"
  | EvConsumerReportStale => "consumer_report_stale"
  | EvConsumerReportLatch => "consumer_report_latch"
  | EvScopedReadRefusal => "scoped_read_refusal"
  | EvScopedFirstUse => "scoped_first_use"
  | EvReconcileNeedsReauth => "reconcile_needs_reauth"
  | EvGithubAppPermissionsChanged => "github_app_permissions_changed"
  | EvStaleRefreshDeferred => "stale_refresh_deferred"
  | EvEnrollment => "enrollment"
  end.

Inductive AlarmReason :=
| OverwriteWithoutCas | FetchRateAnomaly | AdminWrite | ReconcileHashMismatch.

Definition alarm_as_str (a : AlarmReason) : string :=
  match a with
  | OverwriteWithoutCas => "overwrite_without_cas"
  | FetchRateAnomaly => "fetch_rate_anomaly"
  | AdminWrite => "admin_write"
  | ReconcileHashMismatch => "reconcile_hash_mismatch"
  end.

(** Who performs a mutation, under what op, and whether it alarms. *)
Record AuditCtx := { ctx_op : AuditOp; ctx_actor : string; ctx_alarm : option AlarmReason }.

Definition ctx_vault (op : AuditOp) : AuditCtx :=
  {| ctx_op := op; ctx_actor := "vault"; ctx_alarm := None |}.
Definition ctx_admin (op : AuditOp) : AuditCtx :=
  {| ctx_op := op; ctx_actor := "offline-cli"; ctx_alarm := Some AdminWrite |}.
Definition ctx_route_admin (op : AuditOp) (actor : string) : AuditCtx :=
  {| ctx_op := op; ctx_actor := actor; ctx_alarm := Some AdminWrite |}.

(** One entry before it is sequenced and chained. *)
Record AuditRecord := {
  rec_op : AuditOp;
  rec_credential_id : option string;
  rec_payload_hash : option string;
  rec_actor : string;
  rec_alarm : option AlarmReason;
}.

(** A chained entry as stored. *)
Record AuditEntry := {
  seq : Z;
  ts_ms : Z;
  op : string;
  credential_id : option string;
  payload_hash : option string;
  actor : string;
  alarm : bool;
  alarm_reason : option string;
  prev_mac : string;
  entry_mac : string;
}.
#[global] Instance AuditEntry_eq_dec : EqDecision AuditEntry.
Proof. solve_decision. Defined.

(** The MAC-covered content of an entry. *)
Record MacFields := {
  mf_seq : Z;
  mf_ts_ms : Z;
  mf_op : string;
  mf_credential_id : option string;
  mf_payload_hash : option string;
  mf_actor : string;
  mf_alarm : bool;
  mf_alarm_reason : option string;
}.

Definition fields_of (e : AuditEntry) : MacFields :=
  {| mf_seq := seq e; mf_ts_ms := ts_ms e; mf_op := op e; mf_credential_id := credential_id e;
     mf_payload_hash := payload_hash e; mf_actor := actor e; mf_alarm := alarm e;
     mf_alarm_reason := alarm_reason e |}.

(** [feed]: a u64 little-endian length, then the bytes. *)
Definition feed (field : bytes) : bytes := length_prefixed 8 field.

(** [feed_opt]: a presence tag before the field. *)
Definition feed_opt (field : option string) : bytes :=
  match field with
  | Some s => x01 :: feed (str_bytes s)
  | None => [x00]
  end.

(** The whole message the entry's HMAC is computed over. *)
Definition mac_input (prev : string) (f : MacFields) : bytes :=
  feed (str_bytes prev) ++ feed (le_bytes 8 (mf_seq f)) ++ feed (le_bytes 8 (mf_ts_ms f)) ++
  feed (str_bytes (mf_op f)) ++ feed_opt (mf_credential_id f) ++ feed_opt (mf_payload_hash f) ++
  feed (str_bytes (mf_actor f)) ++ feed [if mf_alarm f then x01 else x00] ++
  feed_opt (mf_alarm_reason f).

#[global] Arguments feed : simpl never.
#[global] Arguments feed_opt : simpl never.
#[global] Arguments mac_input : simpl never.

Section Chain.
Context `{C : Crypto}.

Definition payload_fingerprint (audit_key pl : bytes) : bytes :=
  hmac_sha256 (hmac_sha256 audit_key PAYLOAD_KEY_DOMAIN) pl.

Definition compute_entry_mac (audit_key : bytes) (prev : string) (f : MacFields) : string :=
  hex (hmac_sha256 audit_key (mac_input prev f)).

(** [verify_chain], from an expected predecessor. *)
Fixpoint verify_from (audit_key : bytes) (expected_prev : string) (entries : list AuditEntry)
  : option Z :=
  match entries with
  | [] => None
  | e :: rest =>
      if negb (bool_decide (prev_mac e = expected_prev)) then Some (seq e) else
      let recomputed := compute_entry_mac audit_key (prev_mac e) (fields_of e) in
      if negb (bool_decide (recomputed = entry_mac e)) then Some (seq e) else
      verify_from audit_key (entry_mac e) rest
  end.

(** The seq of the first broken entry, [None] when the segment verifies. *)
Definition verify_chain (audit_key : bytes) (entries : list AuditEntry) : option Z :=
  verify_from audit_key GENESIS_MAC entries.

(** [SELECT entry_mac FROM audit_log ORDER BY seq DESC LIMIT 1], or the genesis anchor.
    The log is kept in ascending seq order. *)
Definition tip_mac (log : list AuditEntry) : string :=
  match last log with Some e => entry_mac e | None => GENESIS_MAC end.

(** [SELECT COALESCE(MAX(seq), 0) + 1 FROM audit_log]. *)
Definition next_seq (log : list AuditEntry) : Z :=
  match last log with Some e => seq e + 1 | None => 1 end.

(** [append_audit_tx]: the new entry, from the log it is appended to. *)
Definition append_entry (audit_key : bytes) (now : Z) (log : list AuditEntry) (r : AuditRecord)
  : AuditEntry :=
  let prev := tip_mac log in
  let f := {| mf_seq := next_seq log; mf_ts_ms := now; mf_op := op_as_str (rec_op r);
              mf_credential_id := rec_credential_id r; mf_payload_hash := rec_payload_hash r;
              mf_actor := rec_actor r; mf_alarm := bool_decide (is_Some (rec_alarm r));
              mf_alarm_reason := alarm_as_str <$> rec_alarm r |} in
  {| seq := mf_seq f; ts_ms := now; op := mf_op f; credential_id := rec_credential_id r;
     payload_hash := rec_payload_hash r; actor := rec_actor r; alarm := mf_alarm f;
     alarm_reason := mf_alarm_reason f; prev_mac := prev;
     entry_mac := compute_entry_mac audit_key prev f |}.

Definition append_audit (audit_key : bytes) (now : Z) (r : AuditRecord) (log : list AuditEntry)
  : list AuditEntry :=
  log ++ [append_entry audit_key now log r].

(** [audit_tip]: the sequence and MAC of the newest entry. *)
Definition audit_tip (log : list AuditEntry) : option (Z * string) :=
  (fun e => (seq e, entry_mac e)) <$> last log.

(** [read_audit]: the newest [limit] entries, oldest first. *)
Definition read_audit (limit : option nat) (log : list AuditEntry) : list AuditEntry :=
  match limit with
  | Some n => rev (take n (rev log))
  | None => log
  end.

(** ** The chain invariant *)

(** Every link and every MAC checks, the sequence counts from 1. *)
Fixpoint chained_from (k : bytes) (prev : string) (n : Z) (log : list AuditEntry) : Prop :=
  match log with
  | [] => True
  | e :: rest => prev_mac e = prev /\ seq e = n /\
      entry_mac e = compute_entry_mac k prev (fields_of e) /\
      chained_from k (entry_mac e) (n + 1) rest
  end.

Definition chain_ok (k : bytes) (log : list AuditEntry) : Prop := chained_from k GENESIS_MAC 1 log.

Lemma verify_from_none k prev log :
  verify_from k prev log = None <->
  match log with
  | [] => True
  | e :: rest => prev_mac e = prev /\ entry_mac e = compute_entry_mac k prev (fields_of e) /\
      verify_from k (entry_mac e) rest = None
  end.
Proof.
  destruct log as [|e rest]; [done|]. cbn. split.
  - intros H. case_all. bool_hyps. subst. done.
  - intros (-> & H & Hr). rewrite <- H. by rewrite !bool_decide_eq_true_2.
Qed.

Lemma chained_verify k prev n log : chained_from k prev n log -> verify_from k prev log = None.
Proof.
  revert prev n. induction log as [|e rest IH]; intros prev n H; [done|].
  apply verify_from_none. destruct H as (? & _ & ? & ?). eauto.
Qed.

Lemma last_cons_tip (e : AuditEntry) rest (d : string) :
  match last (e :: rest) with Some x => entry_mac x | None => d end =
  match last rest with Some x => entry_mac x | None => entry_mac e end.
Proof. destruct rest; [done|]. rewrite last_cons. by destruct (last _) eqn:E. Qed.

Lemma chained_app k prev n l1 l2 :
  chained_from k prev n (l1 ++ l2) <->
  chained_from k prev n l1 /\
  chained_from k (match last l1 with Some x => entry_mac x | None => prev end)
    (n + Z.of_nat (length l1)) l2.
Proof.
  revert prev n. induction l1 as [|e l1 IH]; intros prev n.
  - cbn. rewrite Z.add_0_r. tauto.
  - rewrite last_cons_tip. cbn [app chained_from length]. rewrite IH.
    replace (n + 1 + Z.of_nat (length l1)) with (n + Z.of_nat (S (length l1))) by lia. tauto.
Qed.

Lemma chained_last_seq k prev n log e :
  chained_from k prev n log -> last log = Some e -> seq e = n + Z.of_nat (length log) - 1.
Proof.
  intros H He. destruct (exists_last (l := log)) as (l & x & ->); [by intros ->|].
  rewrite last_snoc in He. simplify_eq. apply chained_app in H as [_ H].
  destruct H as (_ & -> & _). rewrite length_app. cbn. lia.
Qed.

(** Appending keeps the chain. *)
Lemma append_audit_chain k now r log : chain_ok k log -> chain_ok k (append_audit k now r log).
Proof.
  unfold chain_ok, append_audit. intros H. apply chained_app. split; [done|]. cbn.
  split_and!; try done.
  unfold next_seq. destruct (last log) as [e|] eqn:E.
  - rewrite (chained_last_seq _ _ _ _ _ H E). lia.
  - apply last_None in E as ->. cbn. lia.
Qed.

Lemma verify_app k prev l1 l2 :
  verify_from k prev (l1 ++ l2) = None -> verify_from k prev l1 = None.
Proof.
  revert prev. induction l1 as [|e l1 IH]; intros prev H; [done|].
  apply verify_from_none. apply verify_from_none in H as (? & ? & ?). eauto.
Qed.

(** ** The MAC input determines the entry *)

(** Entries as Rust can hold them: i64 counters, and strings shorter than 2^64 bytes. *)
Definition str_wf (s : string) : Prop := Z.of_nat (length (str_bytes s)) < 2 ^ 64.
Definition fields_wf (f : MacFields) : Prop :=
  in_i64 (mf_seq f) /\ in_i64 (mf_ts_ms f) /\ str_wf (mf_op f) /\ str_wf (mf_actor f) /\
  (forall s, In (Some s) [mf_credential_id f; mf_payload_hash f; mf_alarm_reason f] -> str_wf s).

Lemma feed_app_inj f1 f2 r1 r2 :
  Z.of_nat (length f1) < 2 ^ 64 -> Z.of_nat (length f2) < 2 ^ 64 ->
  feed f1 ++ r1 = feed f2 ++ r2 -> f1 = f2 /\ r1 = r2.
Proof. intros. by apply (length_prefixed_app_inj 8). Qed.

Lemma feed_str_inj s1 s2 r1 r2 :
  str_wf s1 -> str_wf s2 -> feed (str_bytes s1) ++ r1 = feed (str_bytes s2) ++ r2 ->
  s1 = s2 /\ r1 = r2.
Proof. intros ?? [?%str_bytes_inj ?]%feed_app_inj; done. Qed.

Lemma feed_i64_inj a b r1 r2 :
  in_i64 a -> in_i64 b -> feed (le_bytes 8 a) ++ r1 = feed (le_bytes 8 b) ++ r2 ->
  a = b /\ r1 = r2.
Proof.
  intros ?? [H ?]%feed_app_inj; [|by rewrite length_le_bytes..].
  split; [by apply le_bytes_i64_inj|done].
Qed.

Lemma feed_opt_inj o1 o2 r1 r2 :
  (forall s, o1 = Some s -> str_wf s) -> (forall s, o2 = Some s -> str_wf s) ->
  feed_opt o1 ++ r1 = feed_opt o2 ++ r2 -> o1 = o2 /\ r1 = r2.
Proof.
  unfold feed_opt. intros H1 H2 H. destruct o1, o2; rewrite <- ?app_comm_cons in H;
    try discriminate H; apply (f_equal (@tl byte)) in H; cbn [tl] in H; [|done].
  apply feed_str_inj in H as [-> ->]; auto.
Qed.

Lemma mac_input_inj p1 p2 f1 f2 :
  str_wf p1 -> str_wf p2 -> fields_wf f1 -> fields_wf f2 ->
  mac_input p1 f1 = mac_input p2 f2 -> p1 = p2 /\ f1 = f2.
Proof.
  intros Hp1 Hp2 (Hs1 & Ht1 & Ho1 & Ha1 & Hopt1) (Hs2 & Ht2 & Ho2 & Ha2 & Hopt2) H.
  destruct f1, f2; cbn in Hs1, Ht1, Ho1, Ha1, Hopt1, Hs2, Ht2, Ho2, Ha2, Hopt2.
  unfold mac_input in H.
  cbn [mf_seq mf_ts_ms mf_op mf_credential_id mf_payload_hash mf_actor mf_alarm mf_alarm_reason] in H.
  apply feed_str_inj in H as [-> H]; [|done..].
  apply feed_i64_inj in H as [-> H]; [|done..].
  apply feed_i64_inj in H as [-> H]; [|done..].
  apply feed_str_inj in H as [-> H]; [|done..].
  apply feed_opt_inj in H as [-> H]; [|intros; subst; auto..].
  apply feed_opt_inj in H as [-> H]; [|intros; subst; auto..].
  apply feed_str_inj in H as [-> H]; [|done..].
  apply feed_app_inj in H as [Hal H]; [|done..].
  rewrite <- (app_nil_r (feed_opt mf_alarm_reason0)), <- (app_nil_r (feed_opt mf_alarm_reason1)) in H.
  apply feed_opt_inj in H as [-> _]; [|intros; subst; auto..].
  split; [done|]. f_equal. destruct mf_alarm0, mf_alarm1; done.
Qed.
End Chain.

(** ** Properties *)

Section Properties.
Context `{C : Crypto}.

(** Two entries with different MAC inputs and one HMAC: what a forger has to find. *)
Definition mac_collision (k : bytes) (e1 e2 : AuditEntry) : Prop :=
  mac_input (prev_mac e1) (fields_of e1) <> mac_input (prev_mac e2) (fields_of e2) /\
  hmac_sha256 k (mac_input (prev_mac e1) (fields_of e1)) =
  hmac_sha256 k (mac_input (prev_mac e2) (fields_of e2)).

Definition entry_wf (e : AuditEntry) : Prop := str_wf (prev_mac e) /\ fields_wf (fields_of e).

(** A verified, non-empty chain never has the genesis anchor as its tip: the anchor is
    not a hexadecimal string. *)
Lemma verified_tip_not_genesis k prev l e :
  verify_from k prev (l ++ [e]) = None -> entry_mac e <> GENESIS_MAC.
Proof.
  revert prev. induction l as [|x l IH]; intros prev H.
  - apply verify_from_none in H as (_ & -> & _). intros Hg.
    pose proof (hex_lower (hmac_sha256 k (mac_input prev (fields_of e)))) as Hx.
    unfold compute_entry_mac in Hg. rewrite Hg in Hx. done.
  - apply verify_from_none in H as (_ & _ & H). eauto.
Qed.

Lemma verify_snoc k prev l e :
  verify_from k prev (l ++ [e]) = None ->
  verify_from k prev l = None /\
  prev_mac e = match last l with Some x => entry_mac x | None => prev end /\
  entry_mac e = compute_entry_mac k (prev_mac e) (fields_of e).
Proof.
  revert prev. induction l as [|x l IH]; intros prev H.
  - apply verify_from_none in H as (? & ? & _). subst. done.
  - rewrite last_cons_tip. apply verify_from_none in H as (? & ? & H).
    apply IH in H as (? & ? & ?). split; [|done]. by apply verify_from_none.
Qed.

Lemma verify_snoc_intro k prev l e :
  verify_from k prev l = None ->
  prev_mac e = match last l with Some x => entry_mac x | None => prev end ->
  entry_mac e = compute_entry_mac k (prev_mac e) (fields_of e) ->
  verify_from k prev (l ++ [e]) = None.
Proof.
  revert prev. induction l as [|x l IH]; intros prev Hv Hp Hm.
  - apply verify_from_none. cbn in Hp. by subst prev.
  - rewrite last_cons_tip in Hp. apply verify_from_none in Hv as (? & ? & ?).
    apply verify_from_none. split_and!; [done..|]. by apply IH.
Qed.

Lemma entry_ext e1 e2 :
  fields_of e1 = fields_of e2 -> prev_mac e1 = prev_mac e2 -> entry_mac e1 = entry_mac e2 -> e1 = e2.
Proof. destruct e1, e2. unfold fields_of. cbn. intros [= ????????] -> ->. by subst. Qed.

(** Verified entries with one MAC are one entry, or a collision. *)
Lemma same_mac_same_entry k e1 e2 :
  entry_wf e1 -> entry_wf e2 ->
  entry_mac e1 = compute_entry_mac k (prev_mac e1) (fields_of e1) ->
  entry_mac e2 = compute_entry_mac k (prev_mac e2) (fields_of e2) ->
  entry_mac e1 = entry_mac e2 -> e1 = e2 \/ mac_collision k e1 e2.
Proof.
  intros [Hp1 Hf1] [Hp2 Hf2] H1 H2 Heq.
  destruct (decide (mac_input (prev_mac e1) (fields_of e1) = mac_input (prev_mac e2) (fields_of e2)))
    as [Hi|Hi].
  - apply mac_input_inj in Hi as [? ?]; [|done..]. left. by apply entry_ext.
  - right. split; [done|]. rewrite H1, H2 in Heq. by apply hex_inj in Heq.
Qed.

(** The audit chain grows by one verifiable entry per append: starting from the
    empty log, any sequence of [append_audit_tx] calls leaves a log that verifies, whose
    i-th entry has sequence number i, and which still contains every earlier entry. *)
Theorem appends_verify k (rs : list (Z * AuditRecord)) log
  (Hok : chain_ok k log) :
  let log' := fold_left (fun l '(now, r) => append_audit k now r l) rs log in
  verify_chain k log' = None /\
  length log' = (length log + length rs)%nat /\
  prefix log log' /\
  (forall i e, log' !! i = Some e -> seq e = Z.of_nat i + 1).
Proof.
  cbn zeta. revert log Hok. induction rs as [|[now r] rs IH]; intros log Hok; cbn.
  - split_and!; [by eapply chained_verify|lia|done|]. intros i e Hi.
    unfold chain_ok in Hok. rewrite <- (take_drop_middle log i e Hi) in Hok.
    apply chained_app in Hok as [_ (_ & -> & _)].
    rewrite length_take_le; [lia|]. apply lookup_lt_Some in Hi. lia.
  - destruct (IH _ (append_audit_chain k now r log Hok)) as (? & Hl & Hp & ?).
    split_and!; [done| |by eapply prefix_app_l|done].
    rewrite Hl. unfold append_audit. rewrite length_app. cbn. lia.
Qed.

(** The published tip fixes the whole history: two logs that both verify and end
    in the same MAC are equal, entry by entry, unless two of their entries are an HMAC
    collision. So no interior edit, insertion, deletion or reordering of a log that
    keeps its tip goes unnoticed. *)
Theorem tip_determines_chain k l1 l2 e1 e2
  (Hwf1 : Forall entry_wf (l1 ++ [e1])) (Hwf2 : Forall entry_wf (l2 ++ [e2]))
  (Hv1 : verify_chain k (l1 ++ [e1]) = None) (Hv2 : verify_chain k (l2 ++ [e2]) = None)
  (Htip : entry_mac e1 = entry_mac e2) :
  l1 ++ [e1] = l2 ++ [e2] \/
  exists x y, x ∈ l1 ++ [e1] /\ y ∈ l2 ++ [e2] /\ mac_collision k x y.
Proof.
  revert l2 e1 e2 Hwf1 Hwf2 Hv1 Hv2 Htip. unfold verify_chain.
  induction l1 as [|x1 l1 IH] using rev_ind; intros l2 e1 e2 Hwf1 Hwf2 Hv1 Hv2 Htip;
    apply verify_snoc in Hv1 as (Hv1 & Hp1 & Hm1); apply verify_snoc in Hv2 as (Hv2 & Hp2 & Hm2);
    apply Forall_app in Hwf1 as [Hwf1 He1]; apply Forall_app in Hwf2 as [Hwf2 He2];
    rewrite Forall_singleton in He1, He2;
    (destruct (same_mac_same_entry k e1 e2 He1 He2 Hm1 Hm2 Htip) as [->|Hc];
     [|right; exists e1, e2; split_and!; [apply elem_of_app; right; by left..|done]]);
    destruct l2 as [|x2 l2 _] using rev_ind; rewrite ?last_snoc in Hp1; rewrite ?last_snoc in Hp2; cbn in Hp1, Hp2.
  - by left.
  - exfalso. eapply (verified_tip_not_genesis k _ _ _ Hv2). congruence.
  - exfalso. eapply (verified_tip_not_genesis k _ _ _ Hv1). congruence.
  - destruct (IH l2 x1 x2 Hwf1 Hwf2 Hv1 Hv2) as [->|(x & y & Hx & Hy & Hc)]; [congruence|by left|].
    right. exists x, y. split_and!; [apply elem_of_app; by left..|done].
Qed.

(** The limit the code documents: cutting any number of newest entries off a
    verified log leaves a log that verifies, and the next append continues from the
    truncated tip. *)
Theorem truncation_verifies k l1 l2 now r
  (Hv : verify_chain k (l1 ++ l2) = None) :
  verify_chain k l1 = None /\ verify_chain k (append_audit k now r l1) = None.
Proof.
  apply verify_app in Hv. split; [done|]. by apply verify_snoc_intro.
Qed.
End Properties.

(** ** Witnesses *)

Module Witness.
Import Toy.
Definition k : bytes := replicate 32 x07.
Definition r1 : AuditRecord :=
  {| rec_op := Put; rec_credential_id := Some "oauth:anthropic"; rec_payload_hash := Some "ab";
     rec_actor := "offline-cli"; rec_alarm := Some AdminWrite |}.
Definition r2 : AuditRecord :=
  {| rec_op := RefreshCommit; rec_credential_id := Some "oauth:anthropic"; rec_payload_hash := None;
     rec_actor := "vault"; rec_alarm := None |}.
Definition log1 := append_audit k 10 r1 [].
Definition log2 := append_audit k 20 r2 log1.
Definition e1 := append_entry k 10 [] r1.
Definition e2 := append_entry k 20 log1 r2.

Lemma appends_verify_witness : verify_chain k (append_audit k 20 r2 (append_audit k 10 r1 [])) = None.
Proof. apply (appends_verify k [(10, r1); (20, r2)] [] I). Defined.

Example edited_entry_is_reported :
  verify_chain k [{| seq := 1; ts_ms := 10; op := "put"; credential_id := Some "oauth:openai";
     payload_hash := Some "ab"; actor := "offline-cli"; alarm := true;
     alarm_reason := Some "admin_write"; prev_mac := "genesis"; entry_mac := entry_mac e1 |}; e2]
  = Some 1.
Proof. vm_compute. reflexivity. Qed.

Lemma fields_wf_e1 : fields_wf (fields_of e1).
Proof.
  split; [split; vm_compute; discriminate|]. split; [split; vm_compute; discriminate|].
  split; [vm_compute; reflexivity|]. split; [vm_compute; reflexivity|].
  intros s [Hs|[Hs|[Hs|[]]]]; injection Hs as <-; vm_compute; reflexivity.
Qed.

Lemma fields_wf_e2 : fields_wf (fields_of e2).
Proof.
  split; [split; vm_compute; discriminate|]. split; [split; vm_compute; discriminate|].
  split; [vm_compute; reflexivity|]. split; [vm_compute; reflexivity|].
  intros s [Hs|[Hs|[Hs|[]]]]; try discriminate Hs; injection Hs as <-; vm_compute; reflexivity.
Qed.

Lemma entries_wf : Forall entry_wf ([e1] ++ [e2]).
Proof.
  apply Forall_cons; split; [|apply Forall_singleton].
  - split; [vm_compute; reflexivity|exact fields_wf_e1].
  - split; [vm_compute; reflexivity|exact fields_wf_e2].
Qed.

Lemma tip_determines_witness :
  [e1] ++ [e2] = [e1] ++ [e2] \/
  exists x y, x ∈ [e1] ++ [e2] /\ y ∈ [e1] ++ [e2] /\ mac_collision k x y.
Proof.
  apply (tip_determines_chain k [e1] [e1] e2 e2 entries_wf entries_wf).
  - vm_compute. reflexivity.
  - vm_compute. reflexivity.
  - reflexivity.
Defined.

Lemma truncation_witness :
  verify_chain k log1 = None /\ verify_chain k (append_audit k 30 r2 log1) = None.
Proof. apply (truncation_verifies k log1 [e2] 30 r2). vm_compute. reflexivity. Defined.
End Witness.
