(* ===== verification/Limiter.v ===== *)
(** * Per-connection fetch limits ([credentials-module/src/limiter.rs])

    The limiter watches, per connection, how many distinct credentials were fetched and
    how many fetches were made inside a rolling window. An [Instant] is a count of
    nanoseconds from the clock's origin, so [checked_sub] fails below zero. *)

From Stdlib Require Import Sorted.
From stdpp Require Import pretty.
From S2P Require Import Prelude.

Definition GET_MANY_MAX : Z := 8.
Definition DEFAULT_DISTINCT_CEILING : Z := 16.
Definition DEFAULT_WINDOW : Z := 60 * 1000000000.
Definition DEFAULT_RATE_CEILING : Z := 64.

Inductive Admission := AdmOk | Anomaly (first : bool).
#[global] Instance Admission_eq_dec : EqDecision Admission.
Proof. solve_decision. Defined.

Record Caps := { distinct_ceiling : Z; window : Z; rate_ceiling : Z }.

Definition caps_default : Caps :=
  {| distinct_ceiling := DEFAULT_DISTINCT_CEILING; window := DEFAULT_WINDOW;
     rate_ceiling := DEFAULT_RATE_CEILING |}.

Record ConnState := {
  distinct : gmap string Z;
  fetches : list Z;
  flagged : bool;
}.

Definition conn_new : ConnState := {| distinct := ∅; fetches := []; flagged := false |}.

(** [now.checked_sub(window)]. *)
Definition checked_sub (now w : Z) : option Z := if now - w <? 0 then None else Some (now - w).

(** [while front < cutoff { pop_front }]. *)
Fixpoint pop_older (cutoff : Z) (l : list Z) : list Z :=
  match l with
  | t :: l' => if t <? cutoff then pop_older cutoff l' else l
  | [] => []
  end.

Definition prune (s : ConnState) (now w : Z) : ConnState :=
  let '(fs, ds) :=
    match checked_sub now w with
    | Some cutoff => (pop_older cutoff (fetches s),
                      filter (fun '(_, last_fetch) => cutoff <= last_fetch) (distinct s))
    | None => (fetches s, distinct s)
    end in
  match fs with
  | [] => {| distinct := ∅; fetches := []; flagged := false |}
  | _ => {| distinct := ds; fetches := fs; flagged := flagged s |}
  end.

Definition usize_saturating_add (a b : Z) : Z := clamp 0 u64_max (a + b).

(** The body of [admit] on one connection's state. *)
Definition admit_conn (caps : Caps) (s : ConnState) (credential_id : string) (now : Z)
  : Admission * ConnState :=
  let s := prune s now (window caps) in
  let fs := if Z.of_nat (length (fetches s)) =? usize_saturating_add (rate_ceiling caps) 1
            then tail (fetches s) else fetches s in
  let fs := fs ++ [now] in
  let ds := match distinct s !! credential_id with
            | Some _ => <[credential_id := now]> (distinct s)
            | None => if Z.of_nat (size (distinct s)) <=? distinct_ceiling caps
                      then <[credential_id := now]> (distinct s) else distinct s
            end in
  let over := (distinct_ceiling caps <? Z.of_nat (size ds)) || (rate_ceiling caps <? Z.of_nat (length fs)) in
  if over then (Anomaly (negb (flagged s)), {| distinct := ds; fetches := fs; flagged := true |})
  else (AdmOk, {| distinct := ds; fetches := fs; flagged := flagged s |}).

Record FetchLimiter := { caps : Caps; conns : gmap Z ConnState }.

Definition limiter_new (c : Caps) : FetchLimiter := {| caps := c; conns := ∅ |}.

Definition limiter_admit (l : FetchLimiter) (connection_id : Z) (credential_id : string) (now : Z)
  : Admission * FetchLimiter :=
  let state := default conn_new (conns l !! connection_id) in
  let '(a, state') := admit_conn (caps l) state credential_id now in
  (a, {| caps := caps l; conns := <[connection_id := state']> (conns l) |}).

(** [*id as u16 != channel]. *)
Definition drop_channel (l : FetchLimiter) (channel : Z) : FetchLimiter :=
  {| caps := caps l; conns := filter (fun '(id, _) => id mod 2 ^ 16 <> channel) (conns l) |}.

Definition drop_connection (l : FetchLimiter) (connection_id : Z) : FetchLimiter :=
  {| caps := caps l; conns := delete connection_id (conns l) |}.

(** ** Reference semantics: the whole history, unpruned *)

(** Fetch times of one connection inside the window that ends at [now]. *)
Definition in_window (caps : Caps) (now : Z) (times : list Z) : list Z :=
  match checked_sub now (window caps) with
  | Some cutoff => filter (fun t => cutoff <= t) times
  | None => times
  end.

(** The state after a connection's fetches, oldest first. *)
Definition conn_after (caps : Caps) (hist : list (string * Z)) : ConnState :=
  fold_left (fun s '(id, now) => (admit_conn caps s id now).2) hist conn_new.

(** Distinct credentials actually fetched inside the window that ends at [now]. *)
Definition distinct_in_window (caps : Caps) (now : Z) (hist : list (string * Z)) : gset string :=
  match checked_sub now (window caps) with
  | Some cutoff => list_to_set (filter (fun '(_, t) => cutoff <= t) hist).*1
  | None => list_to_set hist.*1
  end.

(** ** Lemmas *)

Definition caps_wf (c : Caps) : Prop :=
  0 <= distinct_ceiling c /\ 0 <= rate_ceiling c < u64_max /\ 0 <= window c.

(** The newest [n] elements. *)
Definition lastn {A} (n : nat) (l : list A) : list A := drop (length l - n) l.

Lemma pop_older_drop c l : exists j, pop_older c l = drop j l /\ Forall (fun t => t < c) (take j l).
Proof.
  induction l as [|t l [j [IH1 IH2]]]; [by exists 0%nat|]. cbn.
  destruct (Z.ltb_spec t c).
  - exists (S j). split; [done|]. cbn. by constructor.
  - by exists 0%nat.
Qed.

Lemma pop_older_head c l t r : pop_older c l = t :: r -> c <= t.
Proof.
  induction l as [|x l IH]; [done|]. cbn. destruct (Z.ltb_spec x c); [done|]. by intros [= -> ->].
Qed.

Lemma filter_id (P : Z -> Prop) `{!forall x, Decision (P x)} (l : list Z) :
  Forall P l -> filter P l = l.
Proof. induction 1; [done|]. rewrite filter_cons_True by done. by f_equal. Qed.

Lemma sorted_le_strong l : Sorted Z.le l -> StronglySorted Z.le l.
Proof. apply Sorted_StronglySorted. intros ???; lia. Qed.

Lemma pop_older_filter c l : StronglySorted Z.le l -> pop_older c l = filter (fun t => c <= t) l.
Proof.
  induction 1 as [|t l Hs IH Ht]; [done|]. cbn [pop_older]. destruct (Z.ltb_spec t c).
  - by rewrite filter_cons_False by lia.
  - rewrite filter_cons_True by lia. f_equal. symmetry. apply filter_id.
    eapply Forall_impl; [done|]. cbn. lia.
Qed.

Lemma strongly_sorted_drop j l : StronglySorted Z.le l -> StronglySorted Z.le (drop j l).
Proof.
  revert l. induction j as [|j IH]; intros l H; [done|].
  destruct H; [constructor|]. by apply IH.
Qed.

Lemma filter_drop_sorted c j l :
  StronglySorted Z.le l ->
  filter (fun t => c <= t) (drop j l) = drop (j - (length l - length (filter (fun t => c <= t) l))) (filter (fun t => c <= t) l).
Proof.
  intros H. revert j. induction H as [|t l Hs IH Ht]; intros j.
  - rewrite filter_nil, !drop_nil. done.
  - destruct (decide (c <= t)) as [Hct|Hct].
    + assert (filter (fun t => c <= t) l = l) as E
        by (apply filter_id; eapply Forall_impl; [done|]; cbn; lia).
      rewrite filter_cons_True, E by done. cbn [length].
      replace (j - (S (length l) - S (length l)))%nat with j by lia.
      destruct j as [|j]; cbn [drop]; [by rewrite filter_cons_True, E|].
      apply filter_id. apply Forall_drop. eapply Forall_impl; [done|]. cbn; lia.
    + rewrite filter_cons_False by done. destruct j as [|j]; cbn [drop length].
      * rewrite filter_cons_False by done. by rewrite Nat.sub_0_l.
      * rewrite IH. f_equal. pose proof (length_filter (fun t => c <= t) l). lia.
Qed.

(** Pruning the newest [n] entries of a sorted history keeps the newest [n] of what is
    still in the window. *)
Lemma filter_lastn c n l :
  StronglySorted Z.le l ->
  filter (fun t => c <= t) (lastn n l) = lastn n (filter (fun t => c <= t) l).
Proof.
  intros H. unfold lastn. rewrite filter_drop_sorted by done. f_equal.
  pose proof (length_filter (fun t => c <= t) l). lia.
Qed.

Lemma tail_drop_S {A} n (l : list A) : tail (drop n l) = drop (S n) l.
Proof. revert l. induction n as [|n IH]; intros [|x l]; done || apply IH. Qed.

Lemma lastn_snoc {A} n (l : list A) x :
  (0 < n)%nat -> lastn n (l ++ [x]) =
    (if (length (lastn n l) =? n)%nat then tail (lastn n l) else lastn n l) ++ [x].
Proof.
  intros Hn. unfold lastn. rewrite length_app, length_drop. cbn [length].
  destruct (Nat.eqb_spec (length l - (length l - n)) n).
  - rewrite drop_app_le by lia. f_equal.
    replace (length l + 1 - n)%nat with (S (length l - n)) by lia.
    by rewrite tail_drop_S.
  - replace (length l + 1 - n)%nat with 0%nat by lia.
    by replace (length l - n)%nat with 0%nat by lia.
Qed.

Lemma length_lastn {A} n (l : list A) : length (lastn n l) = Nat.min n (length l).
Proof. unfold lastn. rewrite length_drop. lia. Qed.

Lemma checked_sub_mono a b w c0 :
  a <= b -> checked_sub a w = Some c0 -> exists c, checked_sub b w = Some c /\ c0 <= c.
Proof.
  unfold checked_sub. intros Hab H.
  destruct (Z.ltb_spec (a - w) 0), (Z.ltb_spec (b - w) 0); simplify_eq; try lia.
  eexists. split; [done|]. lia.
Qed.

Lemma prune_fetches s now w :
  fetches (prune s now w) =
    match checked_sub now w with Some c => pop_older c (fetches s) | None => fetches s end.
Proof.
  unfold prune. destruct (checked_sub now w); [destruct (pop_older _ _)|destruct (fetches s)]; done.
Qed.

(** A later window keeps the newest entries of an earlier one. *)
Lemma in_window_later caps a b n ts :
  a <= b -> StronglySorted Z.le ts ->
  match checked_sub b (window caps) with
  | Some c => pop_older c (lastn n (in_window caps a ts))
  | None => lastn n (in_window caps a ts)
  end = lastn n (in_window caps b ts).
Proof.
  intros Hab Hs. unfold in_window.
  destruct (checked_sub a (window caps)) as [c0|] eqn:Ea.
  - destruct (checked_sub_mono _ _ _ _ Hab Ea) as (c & Eb & Hc). rewrite Eb.
    assert (StronglySorted Z.le (filter (fun t => c0 <= t) ts)) as Hs'
      by (rewrite <- pop_older_filter by done; destruct (pop_older_drop c0 ts) as (j & -> & _);
          by apply strongly_sorted_drop).
    rewrite pop_older_filter by (by apply strongly_sorted_drop).
    rewrite filter_lastn by done. f_equal. rewrite list_filter_filter.
    apply list_filter_iff. lia.
  - destruct (checked_sub b (window caps)) as [c|]; [|done].
    rewrite pop_older_filter by (by apply strongly_sorted_drop). by apply filter_lastn.
Qed.

Lemma in_window_snoc caps now ts :
  0 <= window caps -> in_window caps now (ts ++ [now]) = in_window caps now ts ++ [now].
Proof.
  intros Hw. unfold in_window. destruct (checked_sub now (window caps)) as [c|] eqn:E; [|done].
  rewrite filter_app, filter_cons_True; [done|].
  unfold checked_sub in E. case_match; simplify_eq. lia.
Qed.

Lemma conn_after_snoc caps hist id now :
  conn_after caps (hist ++ [(id, now)]) = (admit_conn caps (conn_after caps hist) id now).2.
Proof. unfold conn_after. by rewrite fold_left_app. Qed.

Lemma admit_conn_fetches caps s id now :
  caps_wf caps ->
  fetches (admit_conn caps s id now).2 =
    (if (length (fetches (prune s now (window caps))) =? S (Z.to_nat (rate_ceiling caps)))%nat
     then tail (fetches (prune s now (window caps))) else fetches (prune s now (window caps))) ++ [now].
Proof.
  intros (_ & Hr & _). unfold admit_conn, usize_saturating_add.
  rewrite clamp_id by (unfold u64_max in *; lia).
  set (fs := fetches (prune s now (window caps))).
  assert ((Z.of_nat (length fs) =? rate_ceiling caps + 1) =
          (length fs =? S (Z.to_nat (rate_ceiling caps)))%nat) as ->.
  { destruct (Nat.eqb_spec (length fs) (S (Z.to_nat (rate_ceiling caps)))); lia. }
  by destruct (_ || _).
Qed.

Lemma strongly_sorted_snoc l x :
  StronglySorted Z.le (l ++ [x]) -> StronglySorted Z.le l /\ Forall (fun t => t <= x) l.
Proof.
  induction l as [|t l IH]; cbn; intros H; [split; constructor|].
  apply StronglySorted_inv in H as [H Ht]. apply IH in H as [H1 H2].
  apply Forall_app in Ht as [Ht1 Ht2%Forall_inv].
  split; constructor; done.
Qed.

(** What the bounded queue of one connection holds. *)
Lemma conn_after_fetches caps hist id now :
  caps_wf caps -> StronglySorted Z.le (hist ++ [(id, now)]).*2 ->
  fetches (conn_after caps (hist ++ [(id, now)])) =
    lastn (S (Z.to_nat (rate_ceiling caps))) (in_window caps now (hist ++ [(id, now)]).*2).
Proof.
  intros Hc. revert id now.
  induction hist as [|[id0 now0] hist IH] using rev_ind; intros id now Hs;
    rewrite conn_after_snoc, admit_conn_fetches, prune_fetches by done.
  - rewrite fmap_app. cbn [fmap list_fmap app snd]. change [now] with ([] ++ [now]).
    rewrite in_window_snoc by apply Hc. cbn [conn_after fold_left conn_new fetches].
    assert (in_window caps now [] = []) as -> by (unfold in_window; by destruct (checked_sub _ _)).
    rewrite lastn_snoc by lia. destruct (checked_sub now (window caps)); done.
  - rewrite fmap_app in Hs |- *. cbn [fmap list_fmap snd] in *.
    apply strongly_sorted_snoc in Hs as [Hs Hle].
    rewrite IH, in_window_later by (done || (rewrite fmap_app in Hle; apply Forall_app in Hle as [_ Hle];
      apply Forall_inv in Hle; done)).
    rewrite in_window_snoc by apply Hc. by rewrite lastn_snoc by lia.
Qed.

Lemma admit_conn_distinct caps s id now :
  distinct (admit_conn caps s id now).2 = distinct (prune s now (window caps)) \/
  distinct (admit_conn caps s id now).2 = <[id := now]> (distinct (prune s now (window caps))).
Proof.
  unfold admit_conn. set (s' := prune s now (window caps)).
  destruct (distinct s' !! id); [|destruct (_ <=? distinct_ceiling caps)];
    match goal with |- context [if ?b then (Anomaly _, _) else _] => destruct b end; cbn; auto.
Qed.

Lemma prune_distinct s now w k t :
  distinct (prune s now w) !! k = Some t ->
  distinct s !! k = Some t /\ (forall c, checked_sub now w = Some c -> c <= t).
Proof.
  unfold prune. destruct (checked_sub now w) as [c|] eqn:E.
  - destruct (pop_older c (fetches s)); cbn; [by rewrite lookup_empty|].
    intros [H1 H2]%map_lookup_filter_Some. split; [done|]. by intros ? [= <-].
  - destruct (fetches s); cbn; [by rewrite lookup_empty|]. intros ?. split; [done|]. done.
Qed.

Lemma admit_conn_distinct_inv caps s id now k t :
  0 <= window caps -> distinct (admit_conn caps s id now).2 !! k = Some t ->
  ((k, t) = (id, now) \/ distinct s !! k = Some t) /\
  (forall c, checked_sub now (window caps) = Some c -> c <= t).
Proof.
  intros Hw Hk. destruct (admit_conn_distinct caps s id now) as [E|E]; rewrite E in Hk.
  { apply prune_distinct in Hk as [??]. auto. }
  destruct (decide (id = k)) as [->|Hne].
  - rewrite lookup_insert_eq in Hk. simplify_eq. split; [by left|].
    unfold checked_sub. intros. case_match; simplify_eq. lia.
  - rewrite lookup_insert_ne in Hk by done. apply prune_distinct in Hk as [??]. auto.
Qed.

(** Every retained credential was fetched at the recorded time, inside the window. *)
Lemma conn_after_distinct caps hist id now k t :
  0 <= window caps ->
  distinct (conn_after caps (hist ++ [(id, now)])) !! k = Some t ->
  (k, t) ∈ hist ++ [(id, now)] /\ (forall c, checked_sub now (window caps) = Some c -> c <= t).
Proof.
  intros Hw. revert id now. induction hist as [|[id0 now0] hist IH] using rev_ind; intros id now Hk;
    rewrite conn_after_snoc in Hk; apply admit_conn_distinct_inv in Hk as [Hk Hc]; try done;
    (split; [|done]); apply elem_of_app.
  - destruct Hk as [->|Hk]; [right; by left|]. cbn in Hk. by rewrite lookup_empty in Hk.
  - destruct Hk as [->|Hk]; [right; by left|]. apply IH in Hk as [Hk _]. by left.
Qed.

Lemma distinct_in_window_elem caps now hist k t :
  (k, t) ∈ hist -> (forall c, checked_sub now (window caps) = Some c -> c <= t) ->
  k ∈ distinct_in_window caps now hist.
Proof.
  intros Hk Hc. unfold distinct_in_window. destruct (checked_sub now (window caps)) as [c|];
    apply elem_of_list_to_set, list_elem_of_fmap; exists (k, t); (split; [done|]); [|done].
  apply list_elem_of_filter. auto.
Qed.

Lemma conn_after_distinct_size caps hist id now :
  0 <= window caps ->
  (size (distinct (conn_after caps (hist ++ [(id, now)]))) <=
   size (distinct_in_window caps now (hist ++ [(id, now)])))%nat.
Proof.
  intros Hw. rewrite <- size_dom. apply subseteq_size. intros k [t Hk]%elem_of_dom.
  apply conn_after_distinct in Hk as [??]; [|done]. by eapply distinct_in_window_elem.
Qed.

Lemma admit_conn_outcome caps s id now :
  (admit_conn caps s id now).1 = AdmOk <->
  Z.of_nat (size (distinct (admit_conn caps s id now).2)) <= distinct_ceiling caps /\
  Z.of_nat (length (fetches (admit_conn caps s id now).2)) <= rate_ceiling caps.
Proof.
  unfold admit_conn. match goal with |- context [if ?b then (Anomaly _, _) else _] => destruct b eqn:E end;
    cbn; [split; [done|]; intros [??]|split; [|done]; intros _].
  - apply orb_true_iff in E as [E%Z.ltb_lt|E%Z.ltb_lt]; lia.
  - apply orb_false_iff in E as [?%Z.ltb_ge ?%Z.ltb_ge]. lia.
Qed.

(** ** Properties *)

(** The bounded timestamp queue decides the rate exactly: on a connection whose
    clock does not run backwards, the fetch is over the rate ceiling in the limiter's
    queue if and only if more than [rate_ceiling] fetches of its whole history lie
    inside the window, while the queue never holds more than [rate_ceiling + 1]. An
    unflagged fetch is within both ceilings; a fetch at the ceiling is not flagged. *)
Theorem rate_decision_exact caps hist id now
  (Hc : caps_wf caps) (Hs : StronglySorted Z.le (hist ++ [(id, now)]).*2) :
  let '(a, s) := admit_conn caps (conn_after caps hist) id now in
  let in_win := length (in_window caps now (hist ++ [(id, now)]).*2) in
  (Z.of_nat (length (fetches s)) <= rate_ceiling caps <-> Z.of_nat in_win <= rate_ceiling caps) /\
  Z.of_nat (length (fetches s)) <= rate_ceiling caps + 1 /\
  (a = AdmOk <-> Z.of_nat in_win <= rate_ceiling caps /\
                 Z.of_nat (size (distinct s)) <= distinct_ceiling caps).
Proof.
  pose proof (conn_after_fetches caps hist id now Hc Hs) as Hf.
  pose proof (admit_conn_outcome caps (conn_after caps hist) id now) as Ho.
  rewrite conn_after_snoc in Hf. destruct (admit_conn _ _ _ _) as [a s]. cbn in *.
  apply (f_equal length) in Hf. rewrite length_lastn in Hf. destruct Hc as (_ & Hr & _).
  split_and!; [lia|lia|]. rewrite Ho. lia.
Qed.

(** No false alarm: a flagged fetch really is beyond a ceiling, counted over the
    connection's whole history inside the window. *)
Theorem anomaly_is_genuine caps hist id now
  (Hc : caps_wf caps) (Hs : StronglySorted Z.le (hist ++ [(id, now)]).*2)
  (Ha : (admit_conn caps (conn_after caps hist) id now).1 <> AdmOk) :
  rate_ceiling caps < Z.of_nat (length (in_window caps now (hist ++ [(id, now)]).*2)) \/
  distinct_ceiling caps < Z.of_nat (size (distinct_in_window caps now (hist ++ [(id, now)]))).
Proof.
  pose proof (conn_after_fetches caps hist id now Hc Hs) as Hf.
  pose proof (conn_after_distinct_size caps hist id now (proj2 (proj2 Hc))) as Hd.
  rewrite conn_after_snoc in Hf, Hd. rewrite admit_conn_outcome in Ha.
  apply (f_equal length) in Hf. rewrite length_lastn in Hf. destruct Hc as (_ & Hr & _). lia.
Qed.

(** ** Witnesses *)

Module Witness.
(** Names [1..n], fetched at one instant. *)
Definition sweep (tag : string) (n : nat) (t : Z) : list (string * Z) :=
  map (fun i => ((tag ++ pretty.pretty i)%string, t)) (List.seq 1 n).

Definition small := {| distinct_ceiling := 3; window := 60; rate_ceiling := 5 |}.

Lemma small_wf : caps_wf small.
Proof. unfold caps_wf, u64_max. cbn. lia. Qed.

Definition hist5 : list (string * Z) := [("a", 0); ("a", 1); ("a", 2); ("a", 3); ("a", 4)].

Lemma hist5_sorted id : StronglySorted Z.le (hist5 ++ [(id, 5)]).*2.
Proof. cbn. repeat first [lia|apply SSorted_nil|apply SSorted_cons|apply Forall_nil; done|apply Forall_cons; split]. Qed.

Lemma rate_decision_witness :
  (admit_conn small (conn_after small hist5) "a" 5).1 = AdmOk <->
  Z.of_nat (length (in_window small 5 (hist5 ++ [("a", 5)]).*2)) <= rate_ceiling small /\
  Z.of_nat (size (distinct (admit_conn small (conn_after small hist5) "a" 5).2)) <= distinct_ceiling small.
Proof.
  pose proof (rate_decision_exact small hist5 "a" 5 small_wf (hist5_sorted "a")) as H.
  destruct (admit_conn _ _ _ _). apply H.
Defined.

Lemma anomaly_witness :
  rate_ceiling small < Z.of_nat (length (in_window small 5 (hist5 ++ [("a", 5)]).*2)) \/
  distinct_ceiling small < Z.of_nat (size (distinct_in_window small 5 (hist5 ++ [("a", 5)]))).
Proof.
  apply (anomaly_is_genuine small hist5 "a" 5 small_wf (hist5_sorted "a")).
  vm_compute. discriminate.
Defined.
End Witness.

(** The retained set of credentials is capped, and the cap can hide a sweep: with
    the shipped caps, a connection that fetched 17 credentials, 17 others half a window
    later, and one more after the first 17 have expired has fetched 18 distinct
    credentials inside the window (ceiling 16), is below the rate ceiling, and is
    admitted unflagged. *)
Theorem distinct_cap_can_miss_a_sweep :
  let hist := Witness.sweep "a" 17 0 ++ Witness.sweep "b" 17 (30 * 1000000000) in
  let now := 61 * 1000000000 in
  size (distinct_in_window caps_default now (hist ++ [("c", now)])) = 18%nat /\
  (length (in_window caps_default now (hist ++ [("c", now)]).*2) <= 64)%nat /\
  (admit_conn caps_default (conn_after caps_default hist) "c" now).1 = AdmOk.
Proof. cbn zeta. split_and!; vm_compute; [reflexivity|lia|reflexivity]. Qed.
