(* ===== verification/Database.v ===== *)
(** * The vault's database ([credentials-core/src/store.rs]: schema, transactions)

    The tables of the vault as one record of finite maps, the SQL statements the store
    issues as operations on it (triggers included), and the contract of the SQLite
    wrapper crate [cortexkit-store], which is not part of the repository: the class
    [SqliteStore], with [SqliteStoreLaws] saying that a transaction commits exactly what
    its closure computed or leaves the database as it was. [EncryptedStore] and
    [fenced_write] are the vault's own layer over it.

    A closure that fails after it filled a captured cell ([refused], [typed_error])
    returns the cell's content with the error here ([Raised]; [Captured] for a cell of
    the caller's error type); every other SQL error is its message ([Sql]). *)

From stdpp Require Import gmap.
From S2P Require Import Prelude Text Crypto Record Envelope AuditLog.

(** ** Errors *)

Inductive ProviderIdRule := RuleCharset | RuleLength | RuleDuplicate | RuleCount.

Inductive StoreOpError :=
| NotFound
| AlreadyExists
| CasMismatch
| InvalidCredentialId
| InvalidCategoryName
| InvalidPlanTier
| InvalidProviderId (rule : ProviderIdRule) (value : string)
| InvalidPrincipal
| EnrollmentNameHasGrants (name : string)
| InvalidDepositGrant
| DepositCookieNotPermitted
| AccountIdentityMismatch (credential_id retained_account_id incoming_account_id : string)
| SuppliedIdentityContradictsClaim (credential_id supplied_account_id derived_account_id : string)
| ShortTermBedrockKey (expires_at_ms : option Z)
| Quarantined
| NeedsReauth
| CredentialIdIsRemote
| CredentialIdIsLocal
| InvalidMemberId
| TransferKeyReserved
| TransferKeyProtected
| SecretSetupIncomplete
| SecretNameExists
| SecretHomeElsewhere (home_member : string)
| SecretRemoteSetupIncomplete (remedy_member : option string)
| SecretHomeNotEmpty (agent_secrets grants flow_grants pending_requests : Z)
| DecryptError (e : EnvelopeError)
| CorruptRecord (msg : string)
| Fenced (holder_epoch db_epoch : Z)
| EncodeError (msg : string)
| CorruptVault (msg : string)
| StoreFailure (msg : string).

(** A [rusqlite::Error] inside a transaction. *)
Inductive SqlError :=
| Sql (msg : string)
| Raised (e : StoreOpError)
| Captured (failure : string).

(** [cortexkit_store::StoreError]: the fence refused, the closure failed, the backend did. *)
Inductive StoreError :=
| SFenced (holder_epoch db_epoch : Z)
| SWork (e : SqlError)
| SBackend (msg : string).

(** [haystack.contains(needle)]. *)
Fixpoint str_contains (needle haystack : string) : bool :=
  str_starts_with needle haystack ||
  match haystack with
  | EmptyString => false
  | String _ rest => str_contains needle rest
  end.

(** [impl From<StoreError> for StoreOpError]: the fence keeps its type, the messages of
    the id-uniqueness triggers are named, anything else is a backend failure. *)
Definition op_error_of_message (message : string) : StoreOpError :=
  if str_contains "credential_id_is_remote" message then CredentialIdIsRemote
  else if str_contains "credential_id_is_local" message then CredentialIdIsLocal
  else StoreFailure message.

Definition from_store_error (e : StoreError) : StoreOpError :=
  match e with
  | SFenced holder_epoch db_epoch => Fenced holder_epoch db_epoch
  | SWork (Raised e) => e
  | SWork (Sql message) | SWork (Captured message) | SBackend message => op_error_of_message message
  end.

(** ** Tables *)

(** A row of [credentials]. *)
Record CredRow := {
  cr_record_version : Z;
  cr_key_id : string;
  cr_state : string;
  cr_stale_pending : bool;
  cr_envelope : bytes;
  cr_updated_at_ms : Z;
  cr_created_at_ms : Z;
  cr_created_by : option string;
  cr_incarnation : string;
  cr_last_github_app_permissions : option string;
}.

Record RefreshIntent := {
  ri_credential_id : string;
  ri_record_version : Z;
  ri_old_refresh_hash : string;
  ri_lease_epoch : Z;
  ri_started_at_ms : Z;
}.

Record HandleRow := { h_credential_id : string; h_created_at_ms : Z; h_revoked : bool }.

(** A row of [auth_events]; the table is a list in insertion (seq) order. *)
Record AuthEventRow := {
  ev_ts_ms : Z;
  ev_credential_id : string;
  ev_kind : string;
  ev_provider_status : option Z;
  ev_detail : option string;
  ev_reporter_source : option string;
  ev_record_version : option Z;
  ev_applied : bool;
  ev_principal_kind : option string;
  ev_principal_id : option string;
}.

Record HeldPlan := {
  hp_record_version : Z;
  hp_token_hash : string;
  hp_identity : string;
  hp_plan : DetectedPlan;
}.

Record SecretRow := { sec_key_id : string; sec_envelope : bytes }.

(** A row of [agent_secrets]. *)
Record AgentSecretRow := {
  as_kind : string;
  as_incarnation : string;
  as_state : string;
  as_host : option string;
  as_path_prefix : option string;
  as_location : option string;
  as_origin : option string;
  as_record_version : Z;
  as_key_id : string;
  as_envelope : bytes;
  as_created_at_ms : Z;
}.

(** A row of [secret_phone_keys]. *)
Record PhoneKeysRow := { pk_deposit_pub : bytes; pk_approval_pub : bytes; pk_created_at_ms : Z }.

(** A row of [secret_phone_observations]. *)
Record ObservationRow := { ob_pairing_id : option string; ob_observed_at_ms : Z }.

(** A row of [secret_pending_requests]. *)
Record RequestRow := {
  rq_kind : string;
  rq_secret_name : string;
  rq_incarnation : string;
  rq_member_id : string;
  rq_owner : option string;
  rq_scope_kind : option string;
  rq_scope_ref : option string;
  rq_epoch : option Z;
  rq_coverage : option string;
  rq_agent_id : option string;
  rq_statement_bytes : bytes;
  rq_statement_sha256 : string;
  rq_expires_at_ms : Z;
  rq_consumed : bool;
  rq_flow_id : option string;
  rq_flow_version : option Z;
  rq_flow_code_hash : option string;
  rq_flow_install_id : option string;
  rq_methods : option string;
  rq_asking_member_id : string;
}.

(** A row of [secret_grants]. *)
Record SecretGrantRow := {
  sg_secret_name : string;
  sg_incarnation : string;
  sg_scope_owner : string;
  sg_scope_kind : string;
  sg_scope_ref : string;
  sg_coverage : string;
  sg_duration : string;
  sg_expires_at_ms : Z;
  sg_granted_at_ms : Z;
  sg_envelope_sha256 : string;
  sg_agent_id : option string;
  sg_card_ref : option string;
  sg_first_released : bool;
  sg_last_use_ms : option Z;
  sg_asking_member_id : string;
}.

(** A row of [secret_flow_grants]. *)
Record FlowGrantRow := {
  fg_secret_name : string;
  fg_incarnation : string;
  fg_flow_id : string;
  fg_flow_version : Z;
  fg_flow_code_hash : string;
  fg_flow_install_id : string;
  fg_methods : option string;
  fg_granted_at_ms : Z;
  fg_envelope_sha256 : string;
  fg_card_ref : option string;
  fg_first_released : bool;
  fg_last_use_ms : option Z;
  fg_asking_member_id : string;
}.

(** Rows of [secret_deposit_tombstones], [secret_approval_replies] and
    [secret_release_receipts]. *)
Record TombstoneRow := { tb_digest : string; tb_member_id : string; tb_incarnation : string }.
Record ReplyRow := { rp_reply : string; rp_expires_at_ms : Z }.
Record ReceiptRow := {
  rc_aad_sha256 : string;
  rc_incarnation : string;
  rc_grant_kind : string;
  rc_grant_id : string;
  rc_enc : bytes;
  rc_ciphertext : bytes;
  rc_expires_at_ms : Z;
}.

(** The tables of agent secrets other than [agent_secrets], by their primary keys. *)
Record SecretTables := {
  secret_phone_keys : gmap (string * string) PhoneKeysRow;
  secret_phone_observations : gmap string ObservationRow;
  secret_pending_requests : gmap string RequestRow;
  secret_grants : gmap string SecretGrantRow;
  secret_flow_grants : gmap string FlowGrantRow;
  secret_deposit_tombstones : gmap string TombstoneRow;
  secret_approval_replies : gmap (string * string * bool) ReplyRow;
  secret_release_receipts : gmap (string * string) ReceiptRow;
}.

(** A row of [remote_issue_seen]. *)
Record IssueSeenRow := {
  is_member_id : string;
  is_credential_id : string;
  is_record_version : Z;
  is_material_digest : string;
  is_seen_at_ms : Z;
}.

(** A row of [pending_enrollments]. *)
Record PendingRow := {
  pe_proposed_name : string;
  pe_final_name : option string;
  pe_enrollment_id : option string;
  pe_request_secret_hash : string;
  pe_state : string;
  pe_approved_by : option string;
  pe_approved_at_ms : option Z;
  pe_created_at_ms : Z;
  pe_expires_at_ms : Z;
  pe_proposer_kind : option string;
  pe_proposer_id : option string;
}.

(** A row of [enrolled_consumers]. *)
Record ConsumerRow := {
  ec_name : string;
  ec_token_hash : option string;
  ec_token_generation : Z;
  ec_approved_at_ms : Z;
  ec_approved_by : string;
  ec_revoked_at_ms : option Z;
}.

(** The primary key of [read_grants]: principal kind and id, selector kind, selector,
    operation, as the text columns hold them. *)
Abbreviation GrantKey := (string * string * string * string * string)%type.

(** The tables of the enrollment ceremony and of scoped authorization. [read_grants]
    maps a key to its [created_at_ms]; of [member_grants] only the selectors of its
    category rows matter here. *)
Record AccessTables := {
  pending_enrollments : gmap string PendingRow;
  enrolled_consumers : gmap string ConsumerRow;
  read_grants : gmap GrantKey Z;
  remote_record_categories : gset (string * string);
  remote_record_provider_ids : gset (string * string);
  remote_record_plan_tiers : gmap string string;
  member_category_selectors : gset string;
}.

(** The tables the modelled operations read or write. Of [remote_records] only the ids
    matter here: they are what the id-uniqueness triggers consult. *)
Record Db := {
  credentials : gmap string CredRow;
  refresh_intent : gmap string RefreshIntent;
  handles : gmap string HandleRow;
  audit_log : list AuditEntry;
  auth_events : list AuthEventRow;
  credential_categories : gset (string * string);
  credential_provider_ids : gset (string * string);
  credential_plan_tiers : gmap string string;
  held_detected_plans : gmap string HeldPlan;
  remote_issue_seen : list IssueSeenRow;
  remote_records : gset string;
  agent_secrets : gmap string AgentSecretRow;
  vault_secrets : gmap string SecretRow;
  grants_generation : Z;
  db_schema_version : Z;
  (** [settings]: the value and [updated_at_ms] of each name. *)
  settings : gmap string (string * Z);
  (** Phone keys, requests, grants and receipts of agent secrets. *)
  secrets : SecretTables;
  (** Enrollment, grants and the metadata of remote records. *)
  access : AccessTables;
}.

Definition with_credentials (f : gmap string CredRow -> gmap string CredRow) (d : Db) : Db :=
  {| credentials := f (credentials d); refresh_intent := refresh_intent d;
     handles := handles d; audit_log := audit_log d; auth_events := auth_events d;
     credential_categories := credential_categories d;
     credential_provider_ids := credential_provider_ids d;
     credential_plan_tiers := credential_plan_tiers d;
     held_detected_plans := held_detected_plans d;
     remote_issue_seen := remote_issue_seen d; remote_records := remote_records d;
     agent_secrets := agent_secrets d; vault_secrets := vault_secrets d;
     grants_generation := grants_generation d; db_schema_version := db_schema_version d;
     settings := settings d; secrets := secrets d;
     access := access d |}.
Definition with_refresh_intent (f : gmap string RefreshIntent -> gmap string RefreshIntent) (d : Db) : Db :=
  {| credentials := credentials d; refresh_intent := f (refresh_intent d);
     handles := handles d; audit_log := audit_log d; auth_events := auth_events d;
     credential_categories := credential_categories d;
     credential_provider_ids := credential_provider_ids d;
     credential_plan_tiers := credential_plan_tiers d;
     held_detected_plans := held_detected_plans d;
     remote_issue_seen := remote_issue_seen d; remote_records := remote_records d;
     agent_secrets := agent_secrets d; vault_secrets := vault_secrets d;
     grants_generation := grants_generation d; db_schema_version := db_schema_version d;
     settings := settings d; secrets := secrets d;
     access := access d |}.
Definition with_handles (f : gmap string HandleRow -> gmap string HandleRow) (d : Db) : Db :=
  {| credentials := credentials d; refresh_intent := refresh_intent d;
     handles := f (handles d); audit_log := audit_log d; auth_events := auth_events d;
     credential_categories := credential_categories d;
     credential_provider_ids := credential_provider_ids d;
     credential_plan_tiers := credential_plan_tiers d;
     held_detected_plans := held_detected_plans d;
     remote_issue_seen := remote_issue_seen d; remote_records := remote_records d;
     agent_secrets := agent_secrets d; vault_secrets := vault_secrets d;
     grants_generation := grants_generation d; db_schema_version := db_schema_version d;
     settings := settings d; secrets := secrets d;
     access := access d |}.
Definition with_audit_log (f : list AuditEntry -> list AuditEntry) (d : Db) : Db :=
  {| credentials := credentials d; refresh_intent := refresh_intent d;
     handles := handles d; audit_log := f (audit_log d); auth_events := auth_events d;
     credential_categories := credential_categories d;
     credential_provider_ids := credential_provider_ids d;
     credential_plan_tiers := credential_plan_tiers d;
     held_detected_plans := held_detected_plans d;
     remote_issue_seen := remote_issue_seen d; remote_records := remote_records d;
     agent_secrets := agent_secrets d; vault_secrets := vault_secrets d;
     grants_generation := grants_generation d; db_schema_version := db_schema_version d;
     settings := settings d; secrets := secrets d;
     access := access d |}.
Definition with_auth_events (f : list AuthEventRow -> list AuthEventRow) (d : Db) : Db :=
  {| credentials := credentials d; refresh_intent := refresh_intent d;
     handles := handles d; audit_log := audit_log d; auth_events := f (auth_events d);
     credential_categories := credential_categories d;
     credential_provider_ids := credential_provider_ids d;
     credential_plan_tiers := credential_plan_tiers d;
     held_detected_plans := held_detected_plans d;
     remote_issue_seen := remote_issue_seen d; remote_records := remote_records d;
     agent_secrets := agent_secrets d; vault_secrets := vault_secrets d;
     grants_generation := grants_generation d; db_schema_version := db_schema_version d;
     settings := settings d; secrets := secrets d;
     access := access d |}.
Definition with_credential_categories (f : gset (string * string) -> gset (string * string)) (d : Db) : Db :=
  {| credentials := credentials d; refresh_intent := refresh_intent d;
     handles := handles d; audit_log := audit_log d; auth_events := auth_events d;
     credential_categories := f (credential_categories d);
     credential_provider_ids := credential_provider_ids d;
     credential_plan_tiers := credential_plan_tiers d;
     held_detected_plans := held_detected_plans d;
     remote_issue_seen := remote_issue_seen d; remote_records := remote_records d;
     agent_secrets := agent_secrets d; vault_secrets := vault_secrets d;
     grants_generation := grants_generation d; db_schema_version := db_schema_version d;
     settings := settings d; secrets := secrets d;
     access := access d |}.
Definition with_credential_provider_ids (f : gset (string * string) -> gset (string * string)) (d : Db) : Db :=
  {| credentials := credentials d; refresh_intent := refresh_intent d;
     handles := handles d; audit_log := audit_log d; auth_events := auth_events d;
     credential_categories := credential_categories d;
     credential_provider_ids := f (credential_provider_ids d);
     credential_plan_tiers := credential_plan_tiers d;
     held_detected_plans := held_detected_plans d;
     remote_issue_seen := remote_issue_seen d; remote_records := remote_records d;
     agent_secrets := agent_secrets d; vault_secrets := vault_secrets d;
     grants_generation := grants_generation d; db_schema_version := db_schema_version d;
     settings := settings d; secrets := secrets d;
     access := access d |}.
Definition with_credential_plan_tiers (f : gmap string string -> gmap string string) (d : Db) : Db :=
  {| credentials := credentials d; refresh_intent := refresh_intent d;
     handles := handles d; audit_log := audit_log d; auth_events := auth_events d;
     credential_categories := credential_categories d;
     credential_provider_ids := credential_provider_ids d;
     credential_plan_tiers := f (credential_plan_tiers d);
     held_detected_plans := held_detected_plans d;
     remote_issue_seen := remote_issue_seen d; remote_records := remote_records d;
     agent_secrets := agent_secrets d; vault_secrets := vault_secrets d;
     grants_generation := grants_generation d; db_schema_version := db_schema_version d;
     settings := settings d; secrets := secrets d;
     access := access d |}.
Definition with_held_detected_plans (f : gmap string HeldPlan -> gmap string HeldPlan) (d : Db) : Db :=
  {| credentials := credentials d; refresh_intent := refresh_intent d;
     handles := handles d; audit_log := audit_log d; auth_events := auth_events d;
     credential_categories := credential_categories d;
     credential_provider_ids := credential_provider_ids d;
     credential_plan_tiers := credential_plan_tiers d;
     held_detected_plans := f (held_detected_plans d);
     remote_issue_seen := remote_issue_seen d; remote_records := remote_records d;
     agent_secrets := agent_secrets d; vault_secrets := vault_secrets d;
     grants_generation := grants_generation d; db_schema_version := db_schema_version d;
     settings := settings d; secrets := secrets d;
     access := access d |}.
Definition with_remote_issue_seen (f : list IssueSeenRow -> list IssueSeenRow) (d : Db) : Db :=
  {| credentials := credentials d; refresh_intent := refresh_intent d;
     handles := handles d; audit_log := audit_log d; auth_events := auth_events d;
     credential_categories := credential_categories d;
     credential_provider_ids := credential_provider_ids d;
     credential_plan_tiers := credential_plan_tiers d;
     held_detected_plans := held_detected_plans d;
     remote_issue_seen := f (remote_issue_seen d); remote_records := remote_records d;
     agent_secrets := agent_secrets d; vault_secrets := vault_secrets d;
     grants_generation := grants_generation d; db_schema_version := db_schema_version d;
     settings := settings d; secrets := secrets d;
     access := access d |}.
Definition with_agent_secrets (f : gmap string AgentSecretRow -> gmap string AgentSecretRow) (d : Db) : Db :=
  {| credentials := credentials d; refresh_intent := refresh_intent d;
     handles := handles d; audit_log := audit_log d; auth_events := auth_events d;
     credential_categories := credential_categories d;
     credential_provider_ids := credential_provider_ids d;
     credential_plan_tiers := credential_plan_tiers d;
     held_detected_plans := held_detected_plans d;
     remote_issue_seen := remote_issue_seen d; remote_records := remote_records d;
     agent_secrets := f (agent_secrets d); vault_secrets := vault_secrets d;
     grants_generation := grants_generation d; db_schema_version := db_schema_version d;
     settings := settings d; secrets := secrets d;
     access := access d |}.
Definition with_vault_secrets (f : gmap string SecretRow -> gmap string SecretRow) (d : Db) : Db :=
  {| credentials := credentials d; refresh_intent := refresh_intent d;
     handles := handles d; audit_log := audit_log d; auth_events := auth_events d;
     credential_categories := credential_categories d;
     credential_provider_ids := credential_provider_ids d;
     credential_plan_tiers := credential_plan_tiers d;
     held_detected_plans := held_detected_plans d;
     remote_issue_seen := remote_issue_seen d; remote_records := remote_records d;
     agent_secrets := agent_secrets d; vault_secrets := f (vault_secrets d);
     grants_generation := grants_generation d; db_schema_version := db_schema_version d;
     settings := settings d; secrets := secrets d;
     access := access d |}.
Definition with_grants_generation (f : Z -> Z) (d : Db) : Db :=
  {| credentials := credentials d; refresh_intent := refresh_intent d;
     handles := handles d; audit_log := audit_log d; auth_events := auth_events d;
     credential_categories := credential_categories d;
     credential_provider_ids := credential_provider_ids d;
     credential_plan_tiers := credential_plan_tiers d;
     held_detected_plans := held_detected_plans d;
     remote_issue_seen := remote_issue_seen d; remote_records := remote_records d;
     agent_secrets := agent_secrets d; vault_secrets := vault_secrets d;
     grants_generation := f (grants_generation d);
     db_schema_version := db_schema_version d;
     settings := settings d; secrets := secrets d;
     access := access d |}.
Definition with_access (f : AccessTables -> AccessTables) (d : Db) : Db :=
  {| credentials := credentials d; refresh_intent := refresh_intent d;
     handles := handles d; audit_log := audit_log d; auth_events := auth_events d;
     credential_categories := credential_categories d;
     credential_provider_ids := credential_provider_ids d;
     credential_plan_tiers := credential_plan_tiers d;
     held_detected_plans := held_detected_plans d;
     remote_issue_seen := remote_issue_seen d; remote_records := remote_records d;
     agent_secrets := agent_secrets d; vault_secrets := vault_secrets d;
     grants_generation := grants_generation d;
     db_schema_version := db_schema_version d;
     settings := settings d; secrets := secrets d;
     access := f (access d) |}.
Definition with_settings (f : gmap string (string * Z) -> gmap string (string * Z)) (d : Db) : Db :=
  {| credentials := credentials d; refresh_intent := refresh_intent d;
     handles := handles d; audit_log := audit_log d; auth_events := auth_events d;
     credential_categories := credential_categories d;
     credential_provider_ids := credential_provider_ids d;
     credential_plan_tiers := credential_plan_tiers d;
     held_detected_plans := held_detected_plans d;
     remote_issue_seen := remote_issue_seen d; remote_records := remote_records d;
     agent_secrets := agent_secrets d; vault_secrets := vault_secrets d;
     grants_generation := grants_generation d;
     db_schema_version := db_schema_version d;
     settings := f (settings d); secrets := secrets d;
     access := access d |}.
Definition with_secrets (f : SecretTables -> SecretTables) (d : Db) : Db :=
  {| credentials := credentials d; refresh_intent := refresh_intent d;
     handles := handles d; audit_log := audit_log d; auth_events := auth_events d;
     credential_categories := credential_categories d;
     credential_provider_ids := credential_provider_ids d;
     credential_plan_tiers := credential_plan_tiers d;
     held_detected_plans := held_detected_plans d;
     remote_issue_seen := remote_issue_seen d; remote_records := remote_records d;
     agent_secrets := agent_secrets d; vault_secrets := vault_secrets d;
     grants_generation := grants_generation d;
     db_schema_version := db_schema_version d;
     settings := settings d; secrets := f (secrets d);
     access := access d |}.

Definition with_phone_keys (f : gmap (string * string) PhoneKeysRow -> gmap (string * string) PhoneKeysRow) : Db -> Db :=
  with_secrets (fun t =>
    {| secret_phone_keys := f (secret_phone_keys t);
       secret_phone_observations := secret_phone_observations t;
       secret_pending_requests := secret_pending_requests t;
       secret_grants := secret_grants t;
       secret_flow_grants := secret_flow_grants t;
       secret_deposit_tombstones := secret_deposit_tombstones t;
       secret_approval_replies := secret_approval_replies t;
       secret_release_receipts := secret_release_receipts t |}).
Definition with_phone_observations (f : gmap string ObservationRow -> gmap string ObservationRow) : Db -> Db :=
  with_secrets (fun t =>
    {| secret_phone_keys := secret_phone_keys t;
       secret_phone_observations := f (secret_phone_observations t);
       secret_pending_requests := secret_pending_requests t;
       secret_grants := secret_grants t;
       secret_flow_grants := secret_flow_grants t;
       secret_deposit_tombstones := secret_deposit_tombstones t;
       secret_approval_replies := secret_approval_replies t;
       secret_release_receipts := secret_release_receipts t |}).
Definition with_requests (f : gmap string RequestRow -> gmap string RequestRow) : Db -> Db :=
  with_secrets (fun t =>
    {| secret_phone_keys := secret_phone_keys t;
       secret_phone_observations := secret_phone_observations t;
       secret_pending_requests := f (secret_pending_requests t);
       secret_grants := secret_grants t;
       secret_flow_grants := secret_flow_grants t;
       secret_deposit_tombstones := secret_deposit_tombstones t;
       secret_approval_replies := secret_approval_replies t;
       secret_release_receipts := secret_release_receipts t |}).
Definition with_secret_grants (f : gmap string SecretGrantRow -> gmap string SecretGrantRow) : Db -> Db :=
  with_secrets (fun t =>
    {| secret_phone_keys := secret_phone_keys t;
       secret_phone_observations := secret_phone_observations t;
       secret_pending_requests := secret_pending_requests t;
       secret_grants := f (secret_grants t);
       secret_flow_grants := secret_flow_grants t;
       secret_deposit_tombstones := secret_deposit_tombstones t;
       secret_approval_replies := secret_approval_replies t;
       secret_release_receipts := secret_release_receipts t |}).
Definition with_flow_grants (f : gmap string FlowGrantRow -> gmap string FlowGrantRow) : Db -> Db :=
  with_secrets (fun t =>
    {| secret_phone_keys := secret_phone_keys t;
       secret_phone_observations := secret_phone_observations t;
       secret_pending_requests := secret_pending_requests t;
       secret_grants := secret_grants t;
       secret_flow_grants := f (secret_flow_grants t);
       secret_deposit_tombstones := secret_deposit_tombstones t;
       secret_approval_replies := secret_approval_replies t;
       secret_release_receipts := secret_release_receipts t |}).
Definition with_tombstones (f : gmap string TombstoneRow -> gmap string TombstoneRow) : Db -> Db :=
  with_secrets (fun t =>
    {| secret_phone_keys := secret_phone_keys t;
       secret_phone_observations := secret_phone_observations t;
       secret_pending_requests := secret_pending_requests t;
       secret_grants := secret_grants t;
       secret_flow_grants := secret_flow_grants t;
       secret_deposit_tombstones := f (secret_deposit_tombstones t);
       secret_approval_replies := secret_approval_replies t;
       secret_release_receipts := secret_release_receipts t |}).
Definition with_approval_replies (f : gmap (string * string * bool) ReplyRow -> gmap (string * string * bool) ReplyRow) : Db -> Db :=
  with_secrets (fun t =>
    {| secret_phone_keys := secret_phone_keys t;
       secret_phone_observations := secret_phone_observations t;
       secret_pending_requests := secret_pending_requests t;
       secret_grants := secret_grants t;
       secret_flow_grants := secret_flow_grants t;
       secret_deposit_tombstones := secret_deposit_tombstones t;
       secret_approval_replies := f (secret_approval_replies t);
       secret_release_receipts := secret_release_receipts t |}).
Definition with_release_receipts (f : gmap (string * string) ReceiptRow -> gmap (string * string) ReceiptRow) : Db -> Db :=
  with_secrets (fun t =>
    {| secret_phone_keys := secret_phone_keys t;
       secret_phone_observations := secret_phone_observations t;
       secret_pending_requests := secret_pending_requests t;
       secret_grants := secret_grants t;
       secret_flow_grants := secret_flow_grants t;
       secret_deposit_tombstones := secret_deposit_tombstones t;
       secret_approval_replies := secret_approval_replies t;
       secret_release_receipts := f (secret_release_receipts t) |}).

Definition with_pending (f : gmap string PendingRow -> gmap string PendingRow) : Db -> Db :=
  with_access (fun a =>
    {| pending_enrollments := f (pending_enrollments a); enrolled_consumers := enrolled_consumers a;
       read_grants := read_grants a; remote_record_categories := remote_record_categories a;
       remote_record_provider_ids := remote_record_provider_ids a;
       remote_record_plan_tiers := remote_record_plan_tiers a;
       member_category_selectors := member_category_selectors a |}).
Definition with_consumers (f : gmap string ConsumerRow -> gmap string ConsumerRow) : Db -> Db :=
  with_access (fun a =>
    {| pending_enrollments := pending_enrollments a; enrolled_consumers := f (enrolled_consumers a);
       read_grants := read_grants a; remote_record_categories := remote_record_categories a;
       remote_record_provider_ids := remote_record_provider_ids a;
       remote_record_plan_tiers := remote_record_plan_tiers a;
       member_category_selectors := member_category_selectors a |}).
Definition with_read_grants (f : gmap GrantKey Z -> gmap GrantKey Z) : Db -> Db :=
  with_access (fun a =>
    {| pending_enrollments := pending_enrollments a; enrolled_consumers := enrolled_consumers a;
       read_grants := f (read_grants a); remote_record_categories := remote_record_categories a;
       remote_record_provider_ids := remote_record_provider_ids a;
       remote_record_plan_tiers := remote_record_plan_tiers a;
       member_category_selectors := member_category_selectors a |}).
Definition with_remote_categories (f : gset (string * string) -> gset (string * string)) : Db -> Db :=
  with_access (fun a =>
    {| pending_enrollments := pending_enrollments a; enrolled_consumers := enrolled_consumers a;
       read_grants := read_grants a; remote_record_categories := f (remote_record_categories a);
       remote_record_provider_ids := remote_record_provider_ids a;
       remote_record_plan_tiers := remote_record_plan_tiers a;
       member_category_selectors := member_category_selectors a |}).
Definition with_remote_provider_ids (f : gset (string * string) -> gset (string * string)) : Db -> Db :=
  with_access (fun a =>
    {| pending_enrollments := pending_enrollments a; enrolled_consumers := enrolled_consumers a;
       read_grants := read_grants a; remote_record_categories := remote_record_categories a;
       remote_record_provider_ids := f (remote_record_provider_ids a);
       remote_record_plan_tiers := remote_record_plan_tiers a;
       member_category_selectors := member_category_selectors a |}).
Definition with_remote_plan_tiers (f : gmap string string -> gmap string string) : Db -> Db :=
  with_access (fun a =>
    {| pending_enrollments := pending_enrollments a; enrolled_consumers := enrolled_consumers a;
       read_grants := read_grants a; remote_record_categories := remote_record_categories a;
       remote_record_provider_ids := remote_record_provider_ids a;
       remote_record_plan_tiers := f (remote_record_plan_tiers a);
       member_category_selectors := member_category_selectors a |}).

(** ** Statements

    A transaction body is a program over the database that can fail; a failure part way
    keeps the partial effects, which the surrounding transaction then rolls back. *)

Abbreviation Tx A := (M Db SqlError A).

Definition query {A} (f : Db -> A) : Tx A := fun d => (Ok (f d), d).
Definition exec (f : Db -> Db) : Tx unit := fun d => (Ok tt, f d).

(** [UPDATE credentials SET .. WHERE credential_id = id AND guard]: the rows changed.
    The trigger [held_detected_plans_version] drops a held plan when the version moves. *)
Definition update_credential (id : string) (guard : CredRow -> bool) (upd : CredRow -> CredRow)
  : Tx nat :=
  fun d =>
    match credentials d !! id with
    | Some row =>
        if guard row then
          let row' := upd row in
          let d' := with_credentials (insert id row') d in
          (Ok 1%nat,
           if bool_decide (cr_record_version row = cr_record_version row') then d'
           else with_held_detected_plans (delete id) d')
        else (Ok 0%nat, d)
    | None => (Ok 0%nat, d)
    end.

(** [INSERT INTO credentials .. ON CONFLICT(credential_id) DO NOTHING], with the triggers
    [credentials_id_not_remote_insert], [held_detected_plans_insert] and
    [credentials_incarnation_insert]; [fresh] is [lower(hex(randomblob(16)))]. *)
Definition insert_credential (fresh id : string) (row : string -> CredRow) : Tx nat :=
  fun d =>
    if bool_decide (id ∈ remote_records d) then (Err (Sql "credential_id_is_remote"), d)
    else match credentials d !! id with
         | Some _ => (Ok 0%nat, d)
         | None =>
             (Ok 1%nat,
              with_held_detected_plans (delete id) (with_credentials (insert id (row fresh)) d))
         end.

(** [DELETE FROM credentials WHERE credential_id = id], with [held_detected_plans_remove]. *)
Definition delete_credential (id : string) : Tx nat :=
  fun d =>
    match credentials d !! id with
    | Some _ => (Ok 1%nat, with_held_detected_plans (delete id) (with_credentials (delete id) d))
    | None => (Ok 0%nat, d)
    end.

Definition clear_intent_tx (id : string) : Tx nat :=
  fun d =>
    match refresh_intent d !! id with
    | Some _ => (Ok 1%nat, with_refresh_intent (delete id) d)
    | None => (Ok 0%nat, d)
    end.

Definition bump_grants_generation_tx : Tx unit := exec (with_grants_generation (Z.add 1)).

Definition insert_category (id category : string) : Tx unit :=
  fun d =>
    if bool_decide ((id, category) ∈ credential_categories d)
    then (Err (Sql "UNIQUE constraint failed: credential_categories.credential_id, credential_categories.category"), d)
    else (Ok tt, with_credential_categories (fun s => {[ (id, category) ]} ∪ s) d).

(** The live handles of a credential, and [UPDATE handles SET revoked = 1 ..]. *)
Definition handle_live_for (id : string) (r : HandleRow) : bool :=
  bool_decide (h_credential_id r = id) && negb (h_revoked r).

Definition revoked_row (r : HandleRow) : HandleRow :=
  {| h_credential_id := h_credential_id r; h_created_at_ms := h_created_at_ms r; h_revoked := true |}.

Definition live_handles (id : string) (m : gmap string HandleRow) : gmap string HandleRow :=
  filter (fun kv => Is_true (handle_live_for id kv.2)) m.

Definition revoke_handles_of (id : string) : Tx nat :=
  fun d =>
    (Ok (size (live_handles id (handles d))),
     with_handles (fmap (fun r => if handle_live_for id r then revoked_row r else r)) d).

(** *** Diagnostic events *)

Definition AUTH_EVENTS_PER_CREDENTIAL : nat := 64.

Inductive ReporterSource := RsDirect | RelayStatusField | RelayMessageParse | Unrecognised.

Definition reporter_source_as_str (s : ReporterSource) : string :=
  match s with
  | RsDirect => "direct"
  | RelayStatusField => "relay_status_field"
  | RelayMessageParse => "relay_message_parse"
  | Unrecognised => "unrecognised"
  end.

Inductive AuthEventPrincipal :=
| PDirect | PReserved (id : string) | PEnrolled (name : string) | PMember (id : string)
| PPhone (id : string) | PUnverified.

Definition principal_kind (p : AuthEventPrincipal) : string :=
  match p with
  | PDirect => "direct"
  | PReserved _ => "reserved"
  | PEnrolled _ => "enrolled"
  | PMember _ => "member"
  | PPhone _ => "phone"
  | PUnverified => "unverified"
  end.

Definition principal_id (p : AuthEventPrincipal) : option string :=
  match p with
  | PReserved i | PEnrolled i | PMember i | PPhone i => Some i
  | PDirect | PUnverified => None
  end.

Record AuthObservation := {
  obs_kind : string;
  obs_provider_status : option Z;
  obs_detail : option string;
  obs_reporter_source : option ReporterSource;
  obs_principal : option AuthEventPrincipal;
}.

Definition credential_auth_subject (id : string) : string :=
  if str_contains_char "|"%char id then "credential.invalid_id" else id.

(** Newest first: drop every row of [subject] past the first [keep]. *)
Fixpoint trim_newest (subject : string) (keep : nat) (rows : list AuthEventRow) : list AuthEventRow :=
  match rows with
  | [] => []
  | e :: rest =>
      if bool_decide (ev_credential_id e = subject) then
        match keep with
        | O => trim_newest subject O rest
        | S k => e :: trim_newest subject k rest
        end
      else e :: trim_newest subject keep rest
  end.

Definition trim_auth_events_tx (subject : string) : Tx unit :=
  exec (with_auth_events (fun rows => rev (trim_newest subject AUTH_EVENTS_PER_CREDENTIAL (rev rows)))).

Definition append_secret_auth_event_tx (ts : Z) (subject : string) (obs : AuthObservation)
    (version : option Z) (applied : bool) : Tx unit :=
  do! _ <- exec (with_auth_events (fun rows => rows ++
    [{| ev_ts_ms := ts; ev_credential_id := subject; ev_kind := obs_kind obs;
        ev_provider_status := obs_provider_status obs; ev_detail := obs_detail obs;
        ev_reporter_source := reporter_source_as_str <$> obs_reporter_source obs;
        ev_record_version := as_i64 <$> version; ev_applied := applied;
        ev_principal_kind := principal_kind <$> obs_principal obs;
        ev_principal_id := obs_principal obs ≫= principal_id |}])) ;;
  trim_auth_events_tx subject.

Definition append_auth_event_tx (ts : Z) (id : string) (obs : AuthObservation)
    (version : option Z) (applied : bool) : Tx unit :=
  append_secret_auth_event_tx ts (credential_auth_subject id) obs version applied.

(** *** Reserved key ids *)

Definition DEPOSIT_KEY_PREFIX : string := "kem:secret-deposit:".
Definition is_deposit_key (id : string) : bool :=
  if negb (str_starts_with DEPOSIT_KEY_PREFIX id) || str_contains_char "|"%char id
  then false else true.

Definition VAULT_TRANSFER_ID_PREFIX : string := "kem:vault-transfer:".
Definition VAULT_TRANSFER_ID : string := "kem:vault-transfer:1".
Definition is_vault_transfer_id (id : string) : bool := str_starts_with VAULT_TRANSFER_ID_PREFIX id.

Definition row_active (d : Db) (id : string) : bool :=
  match credentials d !! id with
  | Some row => bool_decide (cr_state row = "active")
  | None => false
  end.

Definition deposit_key_write_protected (id : string) : Tx bool :=
  if negb (is_deposit_key id) then mret false else query (fun d => row_active d id).

Definition vault_transfer_key_fence_holds_tx : Tx bool :=
  query (fun d => bool_decide (cr_state <$> credentials d !! VAULT_TRANSFER_ID = Some (state_as_str Active))).

Definition credential_incarnation_matches (id incarnation : string) : Tx bool :=
  query (fun d => bool_decide (cr_incarnation <$> credentials d !! id = Some incarnation)).

(** ** The SQLite wrapper crate *)

Class SqliteStore (Conn : Type) := {
  (** The committed database, as this connection sees it. *)
  conn_db : Conn -> Db;
  (** The fence epoch this connection acquired with its lease. *)
  conn_epoch : Conn -> Z;
  (** The lease is still this connection's. *)
  conn_lease : Conn -> bool;
  (** The backend can serve (no I/O error, no lock timeout). *)
  conn_healthy : Conn -> bool;
  with_conn_fenced : forall {A}, Tx A -> Conn -> result A StoreError * Conn;
  with_conn : forall {A}, Tx A -> Conn -> result A StoreError * Conn;
}.

(** What the crate documents: a fenced closure's effects are committed as a whole when
    the call returns [Ok] and dropped as a whole when it returns [Err]; a lost lease is
    never regained and commits nothing; with the lease and a working backend the closure
    runs. Unfenced calls do not look at the lease. *)
Class SqliteStoreLaws (Conn : Type) `{SqliteStore Conn} : Prop := {
  fenced_commits {A} (f : Tx A) c a c' :
    with_conn_fenced f c = (Ok a, c') -> f (conn_db c) = (Ok a, conn_db c');
  fenced_rolls_back {A} (f : Tx A) c e c' :
    with_conn_fenced f c = (Err e, c') -> conn_db c' = conn_db c;
  fenced_epoch {A} (f : Tx A) c r c' :
    with_conn_fenced f c = (r, c') -> conn_epoch c' = conn_epoch c;
  fenced_runs {A} (f : Tx A) c :
    conn_lease c = true -> conn_healthy c = true ->
    exists c', with_conn_fenced f c = (map_err SWork (fst (f (conn_db c))), c') /\
      conn_lease c' = true /\ conn_healthy c' = true;
  fenced_reject {A} (f : Tx A) c h e c' :
    with_conn_fenced f c = (Err (SFenced h e), c') -> conn_lease c' = false;
  fenced_lost {A} (f : Tx A) c :
    conn_lease c = false ->
    exists e c', with_conn_fenced f c = (Err e, c') /\ conn_lease c' = false;
  conn_commits {A} (f : Tx A) c a c' :
    with_conn f c = (Ok a, c') -> f (conn_db c) = (Ok a, conn_db c');
  conn_rolls_back {A} (f : Tx A) c e c' :
    with_conn f c = (Err e, c') -> conn_db c' = conn_db c;
  conn_keeps {A} (f : Tx A) c r c' :
    with_conn f c = (r, c') -> conn_epoch c' = conn_epoch c /\ conn_lease c' = conn_lease c;
  conn_runs {A} (f : Tx A) c :
    conn_healthy c = true ->
    exists c', with_conn f c = (map_err SWork (fst (f (conn_db c))), c') /\ conn_healthy c' = true;
}.

(** ** The encrypted store *)

Record EncryptedStore (Conn : Type) := {
  es_conn : Conn;
  es_key : MasterKey;
  es_key_id : KeyId;
  es_audit_key : bytes;
  es_fenced_out : bool;
  (** How often the [writes] watch channel was signalled. *)
  es_writes : nat;
}.
Arguments es_conn {_}.
Arguments es_key {_}.
Arguments es_key_id {_}.
Arguments es_audit_key {_}.
Arguments es_fenced_out {_}.
Arguments es_writes {_}.
Arguments Build_EncryptedStore {_}.

(** The key material a method reads through [&self]; only rotation changes it. *)
Record Keys := { k_key : MasterKey; k_key_id : KeyId; k_audit_key : bytes }.

Definition keys_of {Conn} (s : EncryptedStore Conn) : Keys :=
  {| k_key := es_key s; k_key_id := es_key_id s; k_audit_key := es_audit_key s |}.

(** What a call reads from outside: the successive readings of [now_ms()], what
    [getrandom] returned each time, and the incarnation an insert would draw. *)
Record Inputs := {
  in_now : nat -> Z;
  in_rnd : nat -> option bytes;
  in_fresh : string;
}.

Section Store.
Context {Conn : Type} `{SqliteStore Conn}.

Abbreviation Store := (EncryptedStore Conn).
Abbreviation Op A := (M Store StoreOpError A).

Definition es_db (s : Store) : Db := conn_db (es_conn s).

Definition set_conn (c : Conn) (fenced : bool) (signal : nat) (s : Store) : Store :=
  {| es_conn := c; es_key := es_key s; es_key_id := es_key_id s; es_audit_key := es_audit_key s;
     es_fenced_out := es_fenced_out s || fenced; es_writes := es_writes s + signal |}.

Definition with_self {A} (f : Keys -> Op A) : Op A := fun s => f (keys_of s) s.

(** [self.store.epoch()]. *)
Definition with_epoch {A} (f : Z -> Op A) : Op A := fun s => f (conn_epoch (es_conn s)) s.

Definition is_fenced_out (s : Store) : bool := es_fenced_out s.

(** [fenced_write] with [signal_commit]. *)
Definition fenced_write {A} (f : Tx A) : M Store StoreError A :=
  fun s =>
    let '(out, c) := with_conn_fenced f (es_conn s) in
    (out, set_conn c (match out with Err (SFenced _ _) => true | _ => false end)
                   (if is_ok out then 1 else 0)%nat s).

(** The [map_err(StoreOpError::from)] tail of a fenced write. *)
Definition fenced {A} (f : Tx A) : Op A :=
  fun s => let '(out, s') := fenced_write f s in (map_err from_store_error out, s').

(** [self.store.with_conn(..).map_err(StoreOpError::from)]. *)
Definition unfenced {A} (f : Tx A) : Op A :=
  fun s =>
    let '(out, c) := with_conn f (es_conn s) in
    (map_err from_store_error out, set_conn c false 0 s).

(** An unfenced write that calls [signal_commit]. *)
Definition unfenced_signalled {A} (f : Tx A) : Op A :=
  fun s =>
    let '(out, c) := with_conn f (es_conn s) in
    (map_err from_store_error out, set_conn c false (if is_ok out then 1 else 0)%nat s).

Definition fenced_write_unless_transfer_key_protected {A} (id : string) (work : Tx A) : Op A :=
  fenced (
    do! protected <- deposit_key_write_protected id ;;
    do! holds <- (if negb protected && is_vault_transfer_id id
                  then vault_transfer_key_fence_holds_tx else mret false) ;;
    if protected || holds then merr (Raised TransferKeyProtected) else work).

Definition vault_transfer_key_state : Op (option RecordState) :=
  unfenced (query (fun d => (fun r => state_from_str (cr_state r)) <$> credentials d !! VAULT_TRANSFER_ID)).

Definition refuses_vault_transfer_key_mutation : Op bool :=
  do! st <- vault_transfer_key_state ;; mret (bool_decide (st = Some Active)).

Definition check_vault_transfer_key_writable (id : string) : Op unit :=
  do! protected <- unfenced (deposit_key_write_protected id) ;;
  if protected : bool then merr NotFound else
  do! refuses <- (if is_vault_transfer_id id then refuses_vault_transfer_key_mutation
                  else mret false) ;;
  if refuses : bool then merr TransferKeyProtected else mret tt.
End Store.

(** ** Reasoning about transactions and operations

    [tx_rel R m]: a successful run of [m] relates the databases before and after by [R].
    [op_rel K R m]: any run of [m] on a store with keys [K] keeps the keys, never clears
    the fenced-out latch, and relates the committed databases by [R]. Both compose for a
    preorder [R], so an invariant is proved statement by statement. *)

Create HintDb rel discriminated.

Section TxRel.
Context (R : Db -> Db -> Prop) `{!PreOrder R}.

Definition tx_rel {A} (m : Tx A) : Prop := forall d a d', m d = (Ok a, d') -> R d d'.

Lemma tx_rel_ret {A} (a : A) : tx_rel (mret a).
Proof. intros d b d' [= _ <-]. reflexivity. Qed.
Lemma tx_rel_err {A} e : tx_rel (merr (A := A) e).
Proof. intros d b d' [=]. Qed.
Lemma tx_rel_lift {A} (r : result A SqlError) : tx_rel (mlift r).
Proof. intros d b d' [= _ <-]. reflexivity. Qed.
Lemma tx_rel_query {A} (f : Db -> A) : tx_rel (query f).
Proof. intros d b d' [= _ <-]. reflexivity. Qed.
Lemma tx_rel_bind {A B} (m : Tx A) (k : A -> Tx B) :
  tx_rel m -> (forall a, tx_rel (k a)) -> tx_rel (mbind m k).
Proof.
  unfold mbind. intros Hm Hk d b d' H. destruct (m d) as [[a|e] d1] eqn:E; [|done].
  transitivity d1; [by eapply Hm|by eapply Hk].
Qed.
(** What a pure step computed stays known in the rest. *)
Lemma tx_rel_bind_lift {A B} (r : result A SqlError) (k : A -> Tx B) :
  (forall a, r = Ok a -> tx_rel (k a)) -> tx_rel (mbind (mlift r) k).
Proof. unfold mbind, mlift. intros Hk d b d'. destruct r as [a|e]; [by apply Hk|done]. Qed.
End TxRel.
#[export] Hint Resolve tx_rel_ret tx_rel_err tx_rel_lift tx_rel_query tx_rel_bind : rel.

Section OpRel.
Context {Conn : Type} `{SqliteStoreLaws Conn}.
Context (K : Keys) (R : Db -> Db -> Prop) `{!PreOrder R}.

Definition op_rel {F A} (m : EncryptedStore Conn -> result A F * EncryptedStore Conn) : Prop :=
  forall s r s', keys_of s = K -> m s = (r, s') ->
    keys_of s' = K /\ R (es_db s) (es_db s') /\
    (es_fenced_out s = true -> es_fenced_out s' = true).

Lemma op_rel_self {A} (f : Keys -> M (EncryptedStore Conn) StoreOpError A) :
  op_rel (f K) -> op_rel (with_self f).
Proof. intros Hf s r s' Hk Hm. unfold with_self in Hm. rewrite Hk in Hm. by eapply Hf. Qed.

Lemma op_rel_epoch {A} (f : Z -> M (EncryptedStore Conn) StoreOpError A) :
  (forall epoch, op_rel (f epoch)) -> op_rel (with_epoch f).
Proof. intros Hf s r s' Hk Hm. by eapply Hf. Qed.

Lemma op_rel_ret {F A} (a : A) : op_rel (F := F) (mret a).
Proof. intros s r s' Hk [= _ <-]. done. Qed.
Lemma op_rel_err {F A} (e : F) : op_rel (merr (A := A) e).
Proof. intros s r s' Hk [= _ <-]. done. Qed.
Lemma op_rel_lift {F A} (r : result A F) : op_rel (mlift r).
Proof. intros s r' s' Hk [= _ <-]. done. Qed.

Lemma op_rel_bind {F A B} (m : M (EncryptedStore Conn) F A)
    (k : A -> M (EncryptedStore Conn) F B) :
  op_rel m -> (forall a, op_rel (k a)) -> op_rel (mbind m k).
Proof.
  unfold mbind. intros Hm Hk s r s' HK H1. destruct (m s) as [[a|e] s1] eqn:E.
  - destruct (Hm _ _ _ HK E) as (HK1 & HR1 & HF1).
    destruct (Hk a _ _ _ HK1 H1) as (HK2 & HR2 & HF2).
    split_and!; [done|by transitivity (es_db s1)|auto].
  - simplify_eq. by eapply Hm.
Qed.

Lemma op_rel_bind_lift {F A B} (x : result A F)
    (k : A -> M (EncryptedStore Conn) F B) :
  (forall a, x = Ok a -> op_rel (k a)) -> op_rel (mbind (mlift x) k).
Proof.
  unfold mbind, mlift. intros Hk s r s' HK. destruct x as [a|e]; [by apply Hk|].
  intros [= _ <-]. done.
Qed.

(** What a call can return stays known in the rest. *)
Lemma op_rel_bind_post {F A B} (Q : A -> Prop) (m : M (EncryptedStore Conn) F A)
    (k : A -> M (EncryptedStore Conn) F B) :
  op_rel m -> (forall s a s', keys_of s = K -> m s = (Ok a, s') -> Q a) ->
  (forall a, Q a -> op_rel (k a)) -> op_rel (mbind m k).
Proof.
  unfold mbind. intros Hm HQ Hk s r s' HK H1. destruct (m s) as [[a|e] s1] eqn:E.
  - destruct (Hm _ _ _ HK E) as (HK1 & HR1 & HF1).
    destruct (Hk a (HQ _ _ _ HK E) _ _ _ HK1 H1) as (HK2 & HR2 & HF2).
    split_and!; [done|by transitivity (es_db s1)|auto].
  - simplify_eq. by eapply Hm.
Qed.

Lemma op_rel_try {F A} (m : M (EncryptedStore Conn) F A) : op_rel m -> op_rel (mtry m).
Proof.
  unfold mtry. intros Hm s r s' HK H1. destruct (m s) as [x s1] eqn:E. simplify_eq. by eapply Hm.
Qed.

Lemma op_rel_fenced {A} (f : Tx A) : tx_rel R f -> op_rel (fenced f).
Proof.
  intros Hf s r s' HK H1. unfold fenced, fenced_write in H1.
  destruct (with_conn_fenced f (es_conn s)) as [out c] eqn:E. simplify_eq.
  split; [done|]. split; [|by intros Hfo; cbn; rewrite Hfo].
  unfold es_db, set_conn. cbn. destruct out as [a|e].
  - apply (Hf _ a). by apply fenced_commits.
  - apply fenced_rolls_back in E. rewrite E. reflexivity.
Qed.

Lemma op_rel_unfenced {A} (f : Tx A) : tx_rel R f -> op_rel (unfenced f).
Proof.
  intros Hf s r s' HK H1. unfold unfenced in H1.
  destruct (with_conn f (es_conn s)) as [out c] eqn:E. simplify_eq.
  split; [done|]. split; [|by intros Hfo; cbn; rewrite Hfo].
  unfold es_db, set_conn. cbn. destruct out as [a|e].
  - apply (Hf _ a). by apply conn_commits.
  - apply conn_rolls_back in E. rewrite E. reflexivity.
Qed.

Lemma op_rel_unfenced_signalled {A} (f : Tx A) : tx_rel R f -> op_rel (unfenced_signalled f).
Proof.
  intros Hf s r s' HK H1. unfold unfenced_signalled in H1.
  destruct (with_conn f (es_conn s)) as [out c] eqn:E. simplify_eq.
  split; [done|]. split; [|by intros Hfo; cbn; rewrite Hfo].
  unfold es_db, set_conn. cbn. destruct out as [a|e].
  - apply (Hf _ a). by apply conn_commits.
  - apply conn_rolls_back in E. rewrite E. reflexivity.
Qed.
End OpRel.
#[export] Hint Resolve op_rel_self op_rel_ret op_rel_err op_rel_lift op_rel_bind op_rel_try
  op_rel_fenced op_rel_unfenced op_rel_unfenced_signalled : rel.

(** Split binds, conditionals and matches of a program, then use the database. *)
Ltac rel_step :=
  lazymatch goal with
  | |- tx_rel _ (mbind (mlift _) _) => apply tx_rel_bind_lift
  | |- op_rel _ _ (mbind (mlift _) _) => apply op_rel_bind_lift
  | |- tx_rel _ (mbind _ _) => apply tx_rel_bind
  | |- op_rel _ _ (mbind _ _) => apply op_rel_bind
  | |- op_rel _ _ (with_self _) => apply op_rel_self; cbv beta
  | |- op_rel _ _ (with_epoch _) => apply op_rel_epoch; intro
  | |- op_rel _ _ (fenced _) => apply op_rel_fenced
  | |- op_rel _ _ (unfenced _) => apply op_rel_unfenced
  | |- op_rel _ _ (unfenced_signalled _) => apply op_rel_unfenced_signalled
  | |- op_rel _ _ (mtry _) => apply op_rel_try
  | |- tx_rel _ (match ?x with _ => _ end) => destruct x eqn:?
  | |- op_rel _ _ (match ?x with _ => _ end) => destruct x eqn:?
  | |- forall _, _ => intro
  end.
Ltac rel_solve := repeat rel_step; auto with rel typeclass_instances.

(** ** A concrete store: one database with a fence epoch *)

Module ToyStore.
Record ToyConn := { tc_db : Db; tc_epoch : Z; tc_db_epoch : Z }.

Definition set_db (d : Db) (c : ToyConn) : ToyConn :=
  {| tc_db := d; tc_epoch := tc_epoch c; tc_db_epoch := tc_db_epoch c |}.

Definition run {A} (f : Tx A) (c : ToyConn) : result A StoreError * ToyConn :=
  match f (tc_db c) with
  | (Ok a, d) => (Ok a, set_db d c)
  | (Err e, _) => (Err (SWork e), c)
  end.

#[export] Instance toy_store : SqliteStore ToyConn := {|
  conn_db := tc_db;
  conn_epoch := tc_epoch;
  conn_lease c := tc_db_epoch c <=? tc_epoch c;
  conn_healthy c := true;
  with_conn_fenced A f c :=
    if tc_db_epoch c <=? tc_epoch c then run f c
    else (Err (SFenced (tc_epoch c) (tc_db_epoch c)), c);
  with_conn A f c := run f c;
|}.

Lemma run_ok {A} (f : Tx A) c a c' :
  run f c = (Ok a, c') -> f (tc_db c) = (Ok a, tc_db c').
Proof. unfold run. intros. destruct (f (tc_db c)) as [[]] eqn:E; by simplify_eq. Qed.
Lemma run_err {A} (f : Tx A) c e c' : run f c = (Err e, c') -> c' = c.
Proof. unfold run. intros. destruct (f (tc_db c)) as [[]] eqn:E; by simplify_eq. Qed.
Lemma run_keeps {A} (f : Tx A) c r c' :
  run f c = (r, c') -> tc_epoch c' = tc_epoch c /\ tc_db_epoch c' = tc_db_epoch c.
Proof. unfold run. intros. destruct (f (tc_db c)) as [[]] eqn:E; by simplify_eq. Qed.
Lemma run_runs {A} (f : Tx A) c :
  exists c', run f c = (map_err SWork (fst (f (tc_db c))), c') /\
    tc_epoch c' = tc_epoch c /\ tc_db_epoch c' = tc_db_epoch c.
Proof. unfold run. destruct (f (tc_db c)) as [[] d]; cbn; eauto. Qed.

#[export] Instance toy_store_laws : SqliteStoreLaws ToyConn.
Proof.
  split; cbn; intros A f c; try (intros r c' Hr; apply run_keeps in Hr as [-> ->]; done).
  - intros a c'. case_match; [apply run_ok|done].
  - intros e c'. case_match; [by intros ->%run_err|by intros [= _ <-]].
  - intros r c'. case_match; [by intros [-> _]%run_keeps|intros; by simplify_eq].
  - intros Hl _. rewrite Hl. destruct (run_runs f c) as (c' & -> & Hk & Hd).
    exists c'. by rewrite Hk, Hd.
  - intros h e c'. case_match eqn:E; [|by intros [= _ _ <-]].
    intros Hr. unfold run in Hr. case_all.
  - intros Hl. rewrite Hl. eauto.
  - apply run_ok.
  - by intros e c' ->%run_err.
  - intros _. destruct (run_runs f c) as (c' & -> & _). eauto.
Qed.

Definition no_secrets : SecretTables := {|
  secret_phone_keys := ∅; secret_phone_observations := ∅; secret_pending_requests := ∅; secret_grants := ∅;
  secret_flow_grants := ∅; secret_deposit_tombstones := ∅; secret_approval_replies := ∅;
  secret_release_receipts := ∅ |}.

Definition empty_db : Db := {|
  credentials := ∅; refresh_intent := ∅; handles := ∅; audit_log := []; auth_events := [];
  credential_categories := ∅; credential_provider_ids := ∅; credential_plan_tiers := ∅;
  held_detected_plans := ∅; remote_issue_seen := []; remote_records := ∅; agent_secrets := ∅;
  vault_secrets := ∅; grants_generation := 1; db_schema_version := 33;
  settings := ∅; secrets := no_secrets;
  access := {| pending_enrollments := ∅; enrolled_consumers := ∅; read_grants := ∅;
               remote_record_categories := ∅; remote_record_provider_ids := ∅;
               remote_record_plan_tiers := ∅; member_category_selectors := ∅ |} |}.

Definition fresh_conn (d : Db) : ToyConn := {| tc_db := d; tc_epoch := 1; tc_db_epoch := 1 |}.
End ToyStore.
