(* ===== verification/Store.v ===== *)
(** * The encrypted credential store ([credentials-core/src/store.rs])

    Every operation of [EncryptedStore] that reads or changes a credential row, its
    refresh intent or its handles, with the guards, the early returns and the audit
    entries of the code. [Inputs] supplies the clock readings, the nonces and the fresh
    incarnation an operation draws; reading [i] of the clock is the [i]-th call of
    [now_ms()] in the operation. *)

From stdpp Require Import sorting.
From S2P Require Import Prelude Text Crypto Record CredentialId Catalog Envelope AuditLog Database.

(** ** Helpers without a store *)

Definition hex32 (bs : bytes) : string := hex bs.

(** [credential_id.starts_with("category:") || credential_id.contains('|')]. *)
Definition validate_deposit_credential_id (id : string) : result unit StoreOpError :=
  if str_starts_with "category:" id || str_contains_char "|"%char id
  then Err InvalidCredentialId else Ok tt.

Definition normalize_record_identity (r : VaultRecord) : VaultRecord := with_identity (identity r) r.

Definition validate_record_identity (r : VaultRecord) : result unit StoreOpError :=
  map_err EncodeError (identity_validate (identity r)).

Definition set_account_id (a : string) (i : RecordIdentity) : RecordIdentity :=
  {| account_id := Some a; email := email i; org_name := org_name i |}.

(** [impl Display for EnvelopeError]. *)
Definition display_envelope_error (e : EnvelopeError) : string :=
  match e with
  | Truncated => "cipher envelope is truncated or malformed"
  | BadMagic b => ("cipher envelope has wrong magic byte 0x" ++ hex [b])%string
  | UnsupportedCipherVersion v => ("unsupported cipher version 0x" ++ hex [v])%string
  | KeyMismatch env k =>
      ("envelope sealed under key " ++ key_id_to_hex env ++ " but loaded key is " ++ key_id_to_hex k)%string
  | Decrypt => "cipher envelope failed authenticated decryption"
  | Cipher => "cipher could not be constructed"
  end.

(** [impl Display for StoreOpError] on the errors [seal_record] returns; the other
    variants never reach a message. *)
Definition display_seal_error (e : StoreOpError) : string :=
  match e with
  | DecryptError e => ("envelope decrypt failed: " ++ display_envelope_error e)%string
  | EncodeError m => ("record encode failed: " ++ m)%string
  | _ => ""
  end.

(** [retain_detected_plan]. *)
Definition retain_detected_plan (incoming : VaultRecord) (old : option VaultRecord) : VaultRecord :=
  let same o := bool_decide (account_id (normalized (identity o)) = account_id (identity incoming)) in
  match old with
  | Some o =>
      if negb (same o) then
        if bool_decide (detected_plan incoming = detected_plan o)
        then set_detected_plan None incoming else incoming
      else
        match detected_plan incoming with
        | None => set_detected_plan (detected_plan o) incoming
        | Some _ => incoming
        end
  | None => incoming
  end.

(** An entry for one credential under the caller's context. *)
Definition ctx_record (ctx : AuditCtx) (op : AuditOp) (id : string) (ph : option string) : AuditRecord :=
  {| rec_op := op; rec_credential_id := Some id; rec_payload_hash := ph;
     rec_actor := ctx_actor ctx; rec_alarm := ctx_alarm ctx |}.

Definition set_row_state (state : RecordState) (now : Z) (r : CredRow) : CredRow :=
  {| cr_record_version := cr_record_version r; cr_key_id := cr_key_id r; cr_state := state_as_str state;
     cr_stale_pending := cr_stale_pending r; cr_envelope := cr_envelope r; cr_updated_at_ms := now;
     cr_created_at_ms := cr_created_at_ms r; cr_created_by := cr_created_by r;
     cr_incarnation := cr_incarnation r;
     cr_last_github_app_permissions := cr_last_github_app_permissions r |}.

(** The row an overwrite or a refresh commit leaves: new version and envelope, active,
    stale mark cleared. *)
Definition rewrite_row (version : Z) (key_id_hex : string) (blob : bytes) (now : Z) (r : CredRow) : CredRow :=
  {| cr_record_version := version; cr_key_id := key_id_hex; cr_state := "active";
     cr_stale_pending := false; cr_envelope := blob; cr_updated_at_ms := now;
     cr_created_at_ms := cr_created_at_ms r; cr_created_by := cr_created_by r;
     cr_incarnation := cr_incarnation r;
     cr_last_github_app_permissions := cr_last_github_app_permissions r |}.

(** The row an identity update leaves: new version and envelope, state and mark kept. *)
Definition relabel_row (version : Z) (key_id_hex : string) (blob : bytes) (now : Z) (r : CredRow) : CredRow :=
  {| cr_record_version := version; cr_key_id := key_id_hex; cr_state := cr_state r;
     cr_stale_pending := cr_stale_pending r; cr_envelope := blob; cr_updated_at_ms := now;
     cr_created_at_ms := cr_created_at_ms r; cr_created_by := cr_created_by r;
     cr_incarnation := cr_incarnation r;
     cr_last_github_app_permissions := cr_last_github_app_permissions r |}.

Definition mark_row_stale (r : CredRow) : CredRow :=
  {| cr_record_version := cr_record_version r; cr_key_id := cr_key_id r; cr_state := cr_state r;
     cr_stale_pending := true; cr_envelope := cr_envelope r; cr_updated_at_ms := cr_updated_at_ms r;
     cr_created_at_ms := cr_created_at_ms r; cr_created_by := cr_created_by r;
     cr_incarnation := cr_incarnation r;
     cr_last_github_app_permissions := cr_last_github_app_permissions r |}.

Definition set_permissions (json : string) (r : CredRow) : CredRow :=
  {| cr_record_version := cr_record_version r; cr_key_id := cr_key_id r; cr_state := cr_state r;
     cr_stale_pending := cr_stale_pending r; cr_envelope := cr_envelope r;
     cr_updated_at_ms := cr_updated_at_ms r; cr_created_at_ms := cr_created_at_ms r;
     cr_created_by := cr_created_by r; cr_incarnation := cr_incarnation r;
     cr_last_github_app_permissions := Some json |}.

(** The rows rotation leaves: quarantined, or re-sealed under the new key. *)
Definition set_state_only (state : string) (r : CredRow) : CredRow :=
  {| cr_record_version := cr_record_version r; cr_key_id := cr_key_id r; cr_state := state;
     cr_stale_pending := cr_stale_pending r; cr_envelope := cr_envelope r;
     cr_updated_at_ms := cr_updated_at_ms r; cr_created_at_ms := cr_created_at_ms r;
     cr_created_by := cr_created_by r; cr_incarnation := cr_incarnation r;
     cr_last_github_app_permissions := cr_last_github_app_permissions r |}.

Definition reseal_row (key_id_hex : string) (blob : bytes) (r : CredRow) : CredRow :=
  {| cr_record_version := cr_record_version r; cr_key_id := key_id_hex; cr_state := cr_state r;
     cr_stale_pending := cr_stale_pending r; cr_envelope := blob;
     cr_updated_at_ms := cr_updated_at_ms r; cr_created_at_ms := cr_created_at_ms r;
     cr_created_by := cr_created_by r; cr_incarnation := cr_incarnation r;
     cr_last_github_app_permissions := cr_last_github_app_permissions r |}.

Definition row_version_is (v : Z) (r : CredRow) : bool := bool_decide (cr_record_version r = v).
Definition row_state_is (s : RecordState) (r : CredRow) : bool :=
  bool_decide (cr_state r = state_as_str s).

Section Helpers.
Context `{C : Crypto} `{X : RecordExt}.

Definition payload_sha256 (pl : bytes) : bytes := sha256 pl.

Definition sha256_hex_of_bytes (bs : bytes) : string := hex (sha256 bs).

Definition refresh_token_hash (token : string) : string :=
  hex (sha256 (str_bytes "cortexkit-credentials/refresh-token-hash/v1" ++ str_bytes token)).

Definition handle_hash (raw : string) : string :=
  hex (sha256 (str_bytes "cortexkit-credentials/handle/v1" ++ str_bytes raw)).

Definition refuse_short_term_bedrock_key (r : VaultRecord) : result unit StoreOpError :=
  if bool_decide (kind r = Oauth) then Ok tt else
  match short_term_bedrock_key (payload r) with
  | Some expires => Err (ShortTermBedrockKey expires)
  | None => Ok tt
  end.

Definition derived_account_id (r : VaultRecord) : option string :=
  match refresh_adapter r with
  | None => None
  | Some adapter =>
      match oauth r with
      | None => None
      | Some o => account_id_for_adapter adapter (access_token o)
      end
  end.

Definition bytes_start_with (p bs : bytes) : bool := bool_decide (take (length p) bs = p).

(** [seal_record]. *)
Definition seal_record (K : Keys) (rnd : option bytes) (id : string) (r : VaultRecord)
  : result bytes StoreOpError :=
  if negb (bool_decide (kind r = Oauth)) && bool_decide (payload r = [])
  then Err (EncodeError "non-OAuth credential payload must not be empty")
  else if (negb (bool_decide (kind r = Oauth)) &&
           bytes_start_with (str_bytes CUSTODY_TOMBSTONE_PREFIX) (payload r)) ||
          match oauth r with
          | Some o => is_custody_tombstone (access_token o) || is_custody_tombstone (refresh_token o)
          | None => false
          end
  then Err (EncodeError "custody-tombstone material is not a credential; storing it would invert custody")
  else if bool_decide (kind r = Cookie) && bool_decide (is_Some (expires_at_ms r))
  then Err (EncodeError "cookie credentials must not declare an expiry")
  else
    let? body := map_err EncodeError (encode r) in
    map_err DecryptError
      (seal rnd (k_key K) body {| rb_credential_id := id; rb_record_version := record_version r |}).

(** ** Transaction helpers *)

Definition append_audit_tx (audit_key : bytes) (ts : Z) (r : AuditRecord) : Tx AuditEntry :=
  fun d => (Ok (append_entry audit_key ts (audit_log d) r),
            with_audit_log (append_audit audit_key ts r) d).

Definition plan_tier_from_conn (id : string) (d : Db) : option string :=
  if db_schema_version d <? 16 then None else credential_plan_tiers d !! id.

Definition write_plan_tier_tx (audit_key : bytes) (ts : Z) (id : string) (tier : option string)
    (ctx : AuditCtx) : Tx unit :=
  do! old <- query (plan_tier_from_conn id) ;;
  if bool_decide (old = tier) then mret tt else
  do! _ <- exec (with_credential_plan_tiers (delete id)) ;;
  do! _ <- match tier with
           | Some t => exec (with_credential_plan_tiers (insert id t))
           | None => mret tt
           end ;;
  do! _ <- append_audit_tx audit_key ts (ctx_record ctx SetPlan
             ("plan:" ++ id ++ "|" ++ default "" old ++ "|" ++ default "" tier)%string None) ;;
  mret tt.

Definition clear_plan_on_account_change_tx (audit_key : bytes) (ts : Z) (id : string)
    (old : option RecordIdentity) (new : RecordIdentity) (ctx : AuditCtx) : Tx unit :=
  if match old with
     | None => true
     | Some o => negb (bool_decide (account_id (normalized o) = account_id new))
     end
  then write_plan_tier_tx audit_key ts id None ctx else mret tt.

(** One [INSERT] and one generation bump per default category of a new record. *)
Fixpoint insert_default_categories (id : string) (cats : list string) : Tx unit :=
  match cats with
  | [] => mret tt
  | c :: rest =>
      do! _ <- insert_category id c ;;
      do! _ <- bump_grants_generation_tx ;;
      insert_default_categories id rest
  end.

Fixpoint bump_generation_times (n : nat) : Tx unit :=
  match n with
  | O => mret tt
  | S n' => do! _ <- bump_grants_generation_tx ;; bump_generation_times n'
  end.
End Helpers.

Record StaleMark := { sm_pending : bool; sm_record_written_at_ms : Z }.

Record StoredRead := {
  sr_record : VaultRecord;
  sr_incarnation : string;
  sr_mark : StaleMark;
  sr_stored_digest_hex : string;
}.

Record InvalidateOutcome := {
  io_state_changed : bool;
  io_intent_cleared : bool;
  io_handles_revoked : nat;
}.

Definition changed_anything (o : InvalidateOutcome) : bool :=
  io_state_changed o || io_intent_cleared o || (0 <? io_handles_revoked o)%nat.

Inductive IdentityPolicyOverwriteOutcome :=
| OverwriteNotFound
| OverwriteAccountMismatch (retained_account_id incoming_account_id : string)
| OverwriteUpdated (rows : nat).

(** Binding a [u64] parameter: rusqlite refuses a value above [i64::MAX]. *)
Definition sql_u64 (v : Z) : Tx Z :=
  if v <=? i64_max then mret v
  else merr (Sql "out of range integral type conversion attempted").

Section Operations.
Context `{C : Crypto} `{X : RecordExt} {Conn : Type} `{S : SqliteStore Conn}.

Abbreviation Op A := (M (EncryptedStore Conn) StoreOpError A).

(** ** Creating *)

Definition create_audited (inp : Inputs) (id : string) (record : VaultRecord) (ctx : AuditCtx)
  : Op unit :=
  with_self (fun K =>
  do! _ <- mlift (validate_deposit_credential_id id) ;;
  do! _ <- check_vault_transfer_key_writable id ;;
  do! _ <- mlift (refuse_short_term_bedrock_key record) ;;
  let record := normalize_record_identity record in
  do! record <- mlift (
    match derived_account_id record with
    | Some derived =>
        match account_id (identity record) with
        | Some supplied =>
            if negb (bool_decide (supplied = derived))
            then Err (SuppliedIdentityContradictsClaim id supplied derived)
            else Ok record
        | None => Ok (set_identity (set_account_id derived (identity record)) record)
        end
    | None => Ok record
    end) ;;
  do! _ <- mlift (validate_record_identity record) ;;
  let record := set_version 1 record in
  do! blob <- mlift (seal_record K (in_rnd inp 0) id record) ;;
  let key_id_hex := key_id_to_hex (k_key_id K) in
  let now := in_now inp 0 in
  let payload_hash_hex := hex32 (payload_fingerprint (k_audit_key K) (payload record)) in
  do! changed <- fenced (
    do! n <- insert_credential (in_fresh inp) id (fun incarnation =>
      {| cr_record_version := as_i64 (record_version record); cr_key_id := key_id_hex;
         cr_state := "active"; cr_stale_pending := false; cr_envelope := blob;
         cr_updated_at_ms := now; cr_created_at_ms := now; cr_created_by := Some "operator";
         cr_incarnation := incarnation; cr_last_github_app_permissions := None |}) ;;
    if (0 <? n)%nat then
      do! _ <- insert_default_categories id (category_defaults id) ;;
      do! _ <- clear_intent_tx id ;;
      do! _ <- append_audit_tx (k_audit_key K) (in_now inp 1)
                 (ctx_record ctx (ctx_op ctx) id (Some payload_hash_hex)) ;;
      mret n
    else mret n) ;;
  if (changed =? 0)%nat then merr AlreadyExists else mret tt).

Definition create (inp : Inputs) (id : string) (record : VaultRecord) : Op unit :=
  create_audited inp id record (ctx_vault Put).

(** ** Quarantine and reading *)

Definition quarantine_in_incarnation (inp : Inputs) (id : string) (expected_version : Z)
    (incarnation : string) : Op bool :=
  let now := in_now inp 0 in
  do! changed <- fenced_write_unless_transfer_key_protected id (
    do! matches <- credential_incarnation_matches id incarnation ;;
    if negb matches then mret None else
    do! v <- sql_u64 expected_version ;;
    do! n <- update_credential id (row_version_is v) (set_row_state CorruptState now) ;;
    mret (Some n)) ;;
  do! n <- mlift (ok_or changed NotFound) ;;
  mret (n =? 1)%nat.

Definition quarantine_on_read (inp : Inputs) (id : string) (version : Z) (incarnation : string)
    (e : StoreOpError) : Op (VaultRecord * bool) :=
  do! q <- mtry (quarantine_in_incarnation inp id (as_u64 version) incarnation) ;;
  match q with
  | Err NotFound => merr NotFound
  | _ => merr e
  end.

(** [decode_record_row]. *)
Definition decode_record_row (K : Keys) (inp : Inputs) (id : string) (version : Z)
    (incarnation state : string) (stale_pending : bool) (blob : bytes) : Op (VaultRecord * bool) :=
  match state_from_str state with
  | CorruptState => merr Quarantined
  | NeedsReauthState | Retired => merr NeedsReauth
  | Active =>
      let binding := {| rb_credential_id := id; rb_record_version := as_u64 version |} in
      match open (k_key K) blob binding with
      | Err e => quarantine_on_read inp id version incarnation (DecryptError e)
      | Ok plaintext =>
          match decode plaintext with
          | Ok record => mret (record, stale_pending)
          | Err e => quarantine_on_read inp id version incarnation (CorruptRecord e)
          end
      end
  end.

Definition read_snapshot (inp : Inputs) (id : string) (expected_incarnation : option string)
  : Op StoredRead :=
  with_self (fun K =>
  do! found <- unfenced (query (fun d => credentials d !! id)) ;;
  do! row <- mlift (ok_or found NotFound) ;;
  if match expected_incarnation with
     | Some expected => negb (bool_decide (expected = cr_incarnation row))
     | None => false
     end
  then merr NotFound else
  do! rp <- decode_record_row K inp id (cr_record_version row)
        (cr_incarnation row) (cr_state row) (cr_stale_pending row) (cr_envelope row) ;;
  let '(record, pending) := rp in
  mret {| sr_record := record; sr_incarnation := cr_incarnation row;
          sr_mark := {| sm_pending := pending; sm_record_written_at_ms := cr_updated_at_ms row |};
          sr_stored_digest_hex := sha256_hex_of_bytes (cr_envelope row) |}).

Definition get_snapshot (inp : Inputs) (id incarnation : string) : Op StoredRead :=
  read_snapshot inp id (Some incarnation).

Definition get_with_stale_pending_and_digest (inp : Inputs) (id : string) : Op StoredRead :=
  read_snapshot inp id None.

Definition get_with_stale_pending (inp : Inputs) (id : string) : Op (VaultRecord * StaleMark) :=
  do! read <- get_with_stale_pending_and_digest inp id ;; mret (sr_record read, sr_mark read).

Definition get (inp : Inputs) (id : string) : Op VaultRecord :=
  do! r <- get_with_stale_pending inp id ;; mret (fst r).

Definition stored_refresh_hash (inp : Inputs) (id : string) : Op (option string) :=
  do! r <- mtry (get inp id) ;;
  match r with
  | Ok record => mret ((fun o => refresh_token_hash (refresh_token o)) <$> oauth record)
  | Err NotFound => mret None
  | Err e => merr e
  end.

Definition credential_incarnation (id : string) : Op string :=
  do! found <- unfenced (query (fun d => cr_incarnation <$> credentials d !! id)) ;;
  mlift (ok_or found NotFound).

Definition quarantine_if_version (inp : Inputs) (id : string) (expected_version : Z) : Op bool :=
  do! incarnation <- credential_incarnation id ;;
  quarantine_in_incarnation inp id expected_version incarnation.

(** ** Replacing *)

Definition overwrite_cas_audited (inp : Inputs) (id : string) (record : VaultRecord)
    (expected_payload_hash : bytes) (ctx : AuditCtx) : Op unit :=
  with_self (fun K =>
  do! _ <- mlift (validate_deposit_credential_id id) ;;
  do! _ <- check_vault_transfer_key_writable id ;;
  do! current <- get inp id ;;
  if negb (bool_decide (payload_sha256 (payload current) = expected_payload_hash))
  then merr CasMismatch else
  let next_version := u64_saturating_add (record_version current) 1 in
  let record := normalize_record_identity record in
  do! _ <- mlift (validate_record_identity record) ;;
  let record := retain_detected_plan record (Some current) in
  let record := set_version next_version record in
  do! blob <- mlift (seal_record K (in_rnd inp 0) id record) ;;
  let key_id_hex := key_id_to_hex (k_key_id K) in
  let now := in_now inp 1 in
  let payload_hash_hex := hex32 (payload_fingerprint (k_audit_key K) (payload record)) in
  do! changed <- fenced (
    do! n <- update_credential id (row_version_is (as_i64 (record_version current)))
               (rewrite_row (as_i64 next_version) key_id_hex blob now) ;;
    if (0 <? n)%nat then
      do! _ <- clear_intent_tx id ;;
      do! _ <- clear_plan_on_account_change_tx (k_audit_key K) (in_now inp 2) id
                 (Some (identity current)) (identity record) ctx ;;
      do! _ <- append_audit_tx (k_audit_key K) (in_now inp 3)
                 (ctx_record ctx (ctx_op ctx) id (Some payload_hash_hex)) ;;
      mret n
    else mret n) ;;
  if (changed =? 0)%nat then merr CasMismatch else mret tt).

Definition overwrite_cas (inp : Inputs) (id : string) (record : VaultRecord)
    (expected_payload_hash : bytes) : Op unit :=
  overwrite_cas_audited inp id record expected_payload_hash (ctx_vault Overwrite).

(** The existing record an overwrite may take its identity and plan from. *)
Definition open_existing (K : Keys) (id : string) (version : Z) (blob : bytes) : option VaultRecord :=
  match open (k_key K) blob {| rb_credential_id := id; rb_record_version := as_u64 version |} with
  | Ok plaintext => match decode plaintext with Ok r => Some r | Err _ => None end
  | Err _ => None
  end.

Definition existing_identity_of (existing : option VaultRecord) : option RecordIdentity :=
  match existing with
  | Some r => if is_ok (identity_validate (identity r)) then Some (normalized (identity r)) else None
  | None => None
  end.

Definition overwrite_unconditional_with_identity_policy_audited (inp : Inputs) (id : string)
    (record : VaultRecord) (preserve_existing_identity : bool) (ctx : AuditCtx) : Op unit :=
  with_self (fun K =>
  do! _ <- mlift (refuse_short_term_bedrock_key record) ;;
  do! _ <- check_vault_transfer_key_writable id ;;
  let incoming := normalize_record_identity record in
  do! _ <- mlift (
    match account_id (identity incoming), derived_account_id incoming with
    | Some supplied, Some derived =>
        if negb (bool_decide (supplied = derived))
        then Err (SuppliedIdentityContradictsClaim id supplied derived) else Ok tt
    | _, _ => Ok tt
    end) ;;
  do! _ <- mlift (validate_record_identity incoming) ;;
  let incoming_account_id :=
    if preserve_existing_identity && identity_is_empty (identity incoming)
    then derived_account_id incoming else None in
  let key_id_hex := key_id_to_hex (k_key_id K) in
  let now := in_now inp 0 in
  let payload_hash_hex := hex32 (payload_fingerprint (k_audit_key K) (payload record)) in
  do! outcome <- fenced (
    do! existing <- query (fun d => credentials d !! id) ;;
    match existing with
    | None => mret OverwriteNotFound
    | Some row =>
        let current_version := cr_record_version row in
        let next_version := u64_saturating_add (as_u64 current_version) 1 in
        let existing_record := open_existing K id current_version (cr_envelope row) in
        let existing_identity := existing_identity_of existing_record in
        let adopted :=
          if preserve_existing_identity && identity_is_empty (identity incoming) then
            match existing_identity with
            | Some i =>
                match account_id i, incoming_account_id with
                | Some retained, Some derived =>
                    if negb (bool_decide (retained = derived))
                    then Err (OverwriteAccountMismatch retained derived)
                    else Ok (set_identity i incoming)
                | _, _ => Ok (set_identity i incoming)
                end
            | None => Ok incoming
            end
          else Ok incoming in
        match adopted with
        | Err mismatch => mret mismatch
        | Ok sealed =>
            let sealed := retain_detected_plan sealed existing_record in
            let sealed := set_version next_version sealed in
            do! blob <- mlift (map_err (fun e => Sql (display_seal_error e))
                                 (seal_record K (in_rnd inp 0) id sealed)) ;;
            do! n <- update_credential id (row_version_is current_version)
                       (rewrite_row (as_i64 next_version) key_id_hex blob now) ;;
            do! _ <- (if (0 <? n)%nat then
                        do! _ <- clear_intent_tx id ;;
                        do! _ <- append_audit_tx (k_audit_key K) (in_now inp 1)
                                   (ctx_record ctx (ctx_op ctx) id (Some payload_hash_hex)) ;;
                        mret tt
                      else mret tt) ;;
            do! _ <- (if (0 <? n)%nat then
                        clear_plan_on_account_change_tx (k_audit_key K) (in_now inp 2) id
                          existing_identity (identity sealed) ctx
                      else mret tt) ;;
            mret (OverwriteUpdated n)
        end
    end) ;;
  match outcome with
  | OverwriteNotFound => merr NotFound
  | OverwriteAccountMismatch retained derived => merr (AccountIdentityMismatch id retained derived)
  | OverwriteUpdated O => merr CasMismatch
  | OverwriteUpdated _ => mret tt
  end).

Definition overwrite_unconditional_audited (inp : Inputs) (id : string) (record : VaultRecord)
    (ctx : AuditCtx) : Op unit :=
  overwrite_unconditional_with_identity_policy_audited inp id record true ctx.

Definition set_identity_audited (inp : Inputs) (id : string) (ident : RecordIdentity)
    (ctx : AuditCtx) : Op unit :=
  with_self (fun K =>
  let ident := normalized ident in
  do! _ <- mlift (map_err EncodeError (identity_validate ident)) ;;
  do! _ <- check_vault_transfer_key_writable id ;;
  let key_id_hex := key_id_to_hex (k_key_id K) in
  let now := in_now inp 0 in
  do! outcome <- fenced (
    do! existing <- query (fun d => credentials d !! id) ;;
    match existing with
    | None => mret None
    | Some row =>
        let current_version := cr_record_version row in
        do! plaintext <- mlift (map_err (fun e => Raised (DecryptError e))
          (open (k_key K) (cr_envelope row)
             {| rb_credential_id := id; rb_record_version := as_u64 current_version |})) ;;
        do! record <- mlift (map_err (fun e => Raised (CorruptRecord e)) (decode plaintext)) ;;
        let next_version := u64_saturating_add (as_u64 current_version) 1 in
        let updated := with_identity ident record in
        let updated := retain_detected_plan updated (Some record) in
        let updated := set_version next_version updated in
        let payload_hash_hex := hex32 (payload_fingerprint (k_audit_key K) (payload updated)) in
        do! blob <- mlift (map_err (fun e => Sql (display_seal_error e))
                             (seal_record K (in_rnd inp 0) id updated)) ;;
        do! changed <- update_credential id (row_version_is current_version)
                         (relabel_row (as_i64 next_version) key_id_hex blob now) ;;
        if (0 <? changed)%nat then
          do! _ <- clear_plan_on_account_change_tx (k_audit_key K) (in_now inp 1) id
                     (Some (identity record)) (identity updated) ctx ;;
          do! _ <- append_audit_tx (k_audit_key K) (in_now inp 2)
                     (ctx_record ctx SetIdentity id (Some payload_hash_hex)) ;;
          mret (Some changed)
        else mret (Some changed)
    end) ;;
  match outcome with
  | None => merr NotFound
  | Some O => merr CasMismatch
  | Some _ => mret tt
  end).

(** ** Lifecycle transitions *)

(** [set_state]: never out of [corrupt], and a no-op write when already there. *)
Definition set_state (inp : Inputs) (id : string) (state : RecordState) (clear_intent : bool)
    (ctx : option AuditCtx) : Op unit :=
  with_self (fun K =>
  let now := in_now inp 0 in
  fenced_write_unless_transfer_key_protected id (
    do! n <- update_credential id
               (fun r => negb (row_state_is state r) && negb (row_state_is CorruptState r))
               (set_row_state state now) ;;
    do! _ <- (if clear_intent then do! _ <- clear_intent_tx id ;; mret tt else mret tt) ;;
    if (0 <? n)%nat then
      match ctx with
      | Some ctx =>
          do! _ <- append_audit_tx (k_audit_key K) (in_now inp 1)
                     (ctx_record ctx (ctx_op ctx) id None) ;;
          mret tt
      | None => mret tt
      end
    else mret tt)).

Definition invalidate_audited (inp : Inputs) (id : string) (ctx : AuditCtx) : Op unit :=
  set_state inp id NeedsReauthState true (Some ctx).

Definition invalidate (inp : Inputs) (id : string) : Op unit :=
  invalidate_audited inp id (ctx_vault Invalidate).

Definition quarantine (inp : Inputs) (id : string) : Op unit :=
  set_state inp id CorruptState false None.

Definition mark_needs_reauth_retaining_intent (inp : Inputs) (id : string) : Op unit :=
  set_state inp id NeedsReauthState false None.

Definition invalidate_in_incarnation (inp : Inputs) (id : string) (expected_version : Z)
    (incarnation : string) (ctx : AuditCtx) (observation : option AuthObservation) : Op bool :=
  with_self (fun K =>
  let now := in_now inp 0 in
  do! changed <- fenced_write_unless_transfer_key_protected id (
    do! matches <- credential_incarnation_matches id incarnation ;;
    if negb matches then mret None else
    do! n <- update_credential id
               (fun r => row_version_is (as_i64 expected_version) r && row_state_is Active r)
               (set_row_state NeedsReauthState now) ;;
    do! _ <- match observation with
             | Some obs => append_auth_event_tx (in_now inp 1) id obs (Some expected_version) (0 <? n)%nat
             | None => mret tt
             end ;;
    if (0 <? n)%nat then
      do! _ <- clear_intent_tx id ;;
      do! _ <- append_audit_tx (k_audit_key K) (in_now inp 2) (ctx_record ctx (ctx_op ctx) id None) ;;
      mret (Some n)
    else mret (Some n)) ;;
  do! n <- mlift (ok_or changed NotFound) ;;
  mret (0 <? n)%nat).

Definition invalidate_if_version_reported (inp : Inputs) (id : string) (expected_version : Z)
    (ctx : AuditCtx) (observation : option AuthObservation) : Op bool :=
  do! incarnation <- credential_incarnation id ;;
  invalidate_in_incarnation inp id expected_version incarnation ctx observation.

Definition invalidate_if_version_audited (inp : Inputs) (id : string) (expected_version : Z)
    (ctx : AuditCtx) : Op bool :=
  invalidate_if_version_reported inp id expected_version ctx None.

Definition mark_stale_in_incarnation (inp : Inputs) (id : string) (expected_version : Z)
    (incarnation : string) (ctx : AuditCtx) (observation : AuthObservation) : Op bool :=
  with_self (fun K =>
  do! changed <- fenced_write_unless_transfer_key_protected id (
    do! matches <- credential_incarnation_matches id incarnation ;;
    if negb matches then mret None else
    do! n <- update_credential id
               (fun r => row_version_is (as_i64 expected_version) r && negb (cr_stale_pending r))
               mark_row_stale ;;
    do! _ <- append_auth_event_tx (in_now inp 0) id observation (Some expected_version) (0 <? n)%nat ;;
    if (0 <? n)%nat then
      do! _ <- append_audit_tx (k_audit_key K) (in_now inp 1) (ctx_record ctx (ctx_op ctx) id None) ;;
      mret (Some n)
    else mret (Some n)) ;;
  do! n <- mlift (ok_or changed NotFound) ;;
  mret (0 <? n)%nat).

Definition mark_stale_if_version_reported (inp : Inputs) (id : string) (expected_version : Z)
    (ctx : AuditCtx) (observation : AuthObservation) : Op bool :=
  do! incarnation <- credential_incarnation id ;;
  mark_stale_in_incarnation inp id expected_version incarnation ctx observation.

(** The shared tail of the two compound transitions: clear the intent, revoke the live
    handles, audit each half that changed something. *)
Definition revoke_tail (K : Keys) (inp : Inputs) (id : string) (ctx : AuditCtx) (state_rows : nat)
  : Tx InvalidateOutcome :=
  let state_changed := (0 <? state_rows)%nat in
  do! cleared <- clear_intent_tx id ;;
  let intent_cleared := (0 <? cleared)%nat in
  do! revoked <- revoke_handles_of id ;;
  do! _ <- (if state_changed || intent_cleared then
              do! _ <- append_audit_tx (k_audit_key K) (in_now inp 1)
                         (ctx_record ctx (ctx_op ctx) id None) ;; mret tt
            else mret tt) ;;
  do! _ <- (if (0 <? revoked)%nat then
              do! _ <- append_audit_tx (k_audit_key K) (in_now inp 2)
                         (ctx_record ctx RevokeHandle id None) ;; mret tt
            else mret tt) ;;
  mret {| io_state_changed := state_changed; io_intent_cleared := intent_cleared;
          io_handles_revoked := revoked |}.

Definition retire_and_revoke_all_audited (inp : Inputs) (id : string) (ctx : AuditCtx)
  : Op InvalidateOutcome :=
  with_self (fun K =>
  do! _ <- check_vault_transfer_key_writable id ;;
  let now := in_now inp 0 in
  fenced (
    do! n <- update_credential id (fun r => row_state_is Active r || row_state_is NeedsReauthState r)
               (set_row_state Retired now) ;;
    revoke_tail K inp id ctx n)).

Definition invalidate_and_revoke_all_audited (inp : Inputs) (id : string) (ctx : AuditCtx)
  : Op InvalidateOutcome :=
  with_self (fun K =>
  do! _ <- check_vault_transfer_key_writable id ;;
  let now := in_now inp 0 in
  fenced (
    do! n <- update_credential id
               (fun r => negb (row_state_is NeedsReauthState r || row_state_is CorruptState r))
               (set_row_state NeedsReauthState now) ;;
    revoke_tail K inp id ctx n)).

Definition reactivate_audited (inp : Inputs) (id : string) (ctx : AuditCtx) : Op bool :=
  with_self (fun K =>
  do! _ <- check_vault_transfer_key_writable id ;;
  if is_vault_transfer_id id then merr TransferKeyProtected else
  let now := in_now inp 0 in
  fenced (
    do! n <- update_credential id (fun r => row_state_is NeedsReauthState r || row_state_is Retired r)
               (set_row_state Active now) ;;
    if (0 <? n)%nat then
      do! _ <- append_audit_tx (k_audit_key K) (in_now inp 1) (ctx_record ctx (ctx_op ctx) id None) ;;
      mret true
    else mret false)).

(** ** Removal *)

Definition remove_audited (inp : Inputs) (id : string) (ctx : AuditCtx) : Op nat :=
  with_self (fun K =>
  do! _ <- check_vault_transfer_key_writable id ;;
  do! out <- fenced (
    do! categories <- query (fun d =>
      size (filter (fun p : string * string => p.1 = id) (credential_categories d))) ;;
    do! n <- delete_credential id ;;
    if (0 <? n)%nat then
      do! _ <- clear_intent_tx id ;;
      do! live <- query (fun d => size (live_handles id (handles d))) ;;
      do! _ <- exec (with_handles (filter (fun kv => h_credential_id kv.2 <> id))) ;;
      do! _ <- exec (with_credential_categories (filter (fun p => p.1 <> id))) ;;
      do! _ <- bump_generation_times categories ;;
      do! sv <- query db_schema_version ;;
      do! _ <- (if 16 <=? sv then exec (with_credential_plan_tiers (delete id)) else mret tt) ;;
      do! _ <- (if 15 <=? sv
                then exec (with_credential_provider_ids (filter (fun p => p.1 <> id))) else mret tt) ;;
      do! _ <- exec (with_auth_events (filter (fun e => ev_credential_id e <> id))) ;;
      do! _ <- (if 23 <=? sv
                then exec (with_remote_issue_seen (filter (fun e => is_credential_id e <> id)))
                else mret tt) ;;
      do! _ <- append_audit_tx (k_audit_key K) (in_now inp 0) (ctx_record ctx (ctx_op ctx) id None) ;;
      mret (n, live)
    else mret (n, 0%nat)) ;;
  let '(removed, live) := out in
  if (removed =? 0)%nat then merr NotFound else mret live).

(** ** Diagnostic events (unfenced) *)

Definition record_auth_event (inp : Inputs) (id : string) (observation : AuthObservation)
    (version : option Z) : Op unit :=
  unfenced (append_auth_event_tx (in_now inp 0) id observation version false).

(** [record_stale_refresh_deferred]: at most one row per subject and version. *)
Definition stale_refresh_deferred_tx (ts : Z) (subject : string) (version : Z) : Tx bool :=
  do! present <- query (fun d => existsb (fun e =>
    bool_decide (ev_credential_id e = subject) &&
    bool_decide (ev_kind e = event_kind_as_str EvStaleRefreshDeferred) &&
    bool_decide (ev_record_version e = Some (as_i64 version))) (auth_events d)) ;;
  do! _ <- (if present then mret tt else
    exec (with_auth_events (fun rows => rows ++
      [{| ev_ts_ms := ts; ev_credential_id := subject;
          ev_kind := event_kind_as_str EvStaleRefreshDeferred; ev_provider_status := None;
          ev_detail := None; ev_reporter_source := None;
          ev_record_version := Some (as_i64 version); ev_applied := false;
          ev_principal_kind := None; ev_principal_id := None |}]))) ;;
  do! _ <- trim_auth_events_tx subject ;;
  mret (negb present).

Definition record_stale_refresh_deferred (inp : Inputs) (id : string) (version : Z) : Op bool :=
  unfenced (stale_refresh_deferred_tx (in_now inp 0) (credential_auth_subject id) version).

(** ** The refresh intent log *)

Definition has_refresh_intent (id : string) : Op bool :=
  unfenced (query (fun d => bool_decide (is_Some (refresh_intent d !! id)))).

Definition open_intent (inp : Inputs) (id : string) (version : Z) (old_refresh_hash : string)
  : Op unit :=
  with_epoch (fun epoch =>
  let now := in_now inp 0 in
  fenced (exec (with_refresh_intent (insert id
    {| ri_credential_id := id; ri_record_version := as_i64 version;
       ri_old_refresh_hash := old_refresh_hash; ri_lease_epoch := as_i64 epoch;
       ri_started_at_ms := now |})))).

Definition commit_refresh (inp : Inputs) (id : string) (expected_version : Z)
    (new_record : VaultRecord) : Op Z :=
  with_self (fun K =>
  let next_version := u64_saturating_add expected_version 1 in
  let new_record := set_version next_version new_record in
  do! blob <- mlift (seal_record K (in_rnd inp 0) id new_record) ;;
  let key_id_hex := key_id_to_hex (k_key_id K) in
  let now := in_now inp 0 in
  let payload_hash_hex := hex32 (payload_fingerprint (k_audit_key K) (payload new_record)) in
  do! changed <- fenced (
    do! n <- update_credential id
               (fun r => row_version_is (as_i64 expected_version) r && row_state_is Active r)
               (rewrite_row (as_i64 next_version) key_id_hex blob now) ;;
    if (0 <? n)%nat then
      do! _ <- clear_intent_tx id ;;
      do! _ <- append_audit_tx (k_audit_key K) (in_now inp 1)
                 {| rec_op := RefreshCommit; rec_credential_id := Some id;
                    rec_payload_hash := Some payload_hash_hex; rec_actor := "vault";
                    rec_alarm := None |} ;;
      mret n
    else mret n) ;;
  if (changed =? 0)%nat then merr CasMismatch else mret next_version).

Definition row_to_intent (i : RefreshIntent) : RefreshIntent :=
  {| ri_credential_id := ri_credential_id i; ri_record_version := as_u64 (ri_record_version i);
     ri_old_refresh_hash := ri_old_refresh_hash i; ri_lease_epoch := as_u64 (ri_lease_epoch i);
     ri_started_at_ms := ri_started_at_ms i |}.

Definition read_intent (id : string) : Op (option RefreshIntent) :=
  unfenced (query (fun d => row_to_intent <$> refresh_intent d !! id)).

(** [ORDER BY credential_id]. *)
Definition intent_le (a b : RefreshIntent) : Prop :=
  Is_true (String.leb (ri_credential_id a) (ri_credential_id b)).

Definition list_intents : Op (list RefreshIntent) :=
  unfenced (query (fun d =>
    merge_sort intent_le (row_to_intent <$> (map_to_list (refresh_intent d)).*2))).

Definition clear_intent (id : string) : Op unit :=
  fenced (do! _ <- clear_intent_tx id ;; mret tt).

(** ** Capability handles *)

Definition resolve_handle (raw_handle : string) : Op string :=
  let h := handle_hash raw_handle in
  do! found <- unfenced (query (fun d =>
    match handles d !! h with
    | Some r => if negb (h_revoked r) then Some (h_credential_id r) else None
    | None => None
    end)) ;;
  match found with
  | Some id => if negb (is_deposit_key id) then mret id else merr NotFound
  | None => merr NotFound
  end.

Definition resolve_handle_with_incarnation (raw_handle : string) : Op (string * string) :=
  let h := handle_hash raw_handle in
  do! found <- unfenced (query (fun d =>
    match handles d !! h with
    | Some r =>
        if negb (h_revoked r) then
          match credentials d !! h_credential_id r with
          | Some c => Some (h_credential_id r, cr_incarnation c)
          | None => None
          end
        else None
    | None => None
    end)) ;;
  match found with
  | Some (id, inc) => if negb (is_deposit_key id) then mret (id, inc) else merr NotFound
  | None => merr NotFound
  end.

Definition put_handle_hash (inp : Inputs) (handle_hash_hex id : string) (ctx : AuditCtx) : Op unit :=
  with_self (fun K =>
  if is_deposit_key id then merr NotFound else
  if is_vault_transfer_id id then merr TransferKeyReserved else
  let now := in_now inp 0 in
  fenced (
    do! present <- query (fun d => bool_decide (is_Some (handles d !! handle_hash_hex))) ;;
    if present then merr (Sql "UNIQUE constraint failed: handles.handle_hash") else
    do! _ <- exec (with_handles (insert handle_hash_hex
               {| h_credential_id := id; h_created_at_ms := now; h_revoked := false |})) ;;
    do! _ <- append_audit_tx (k_audit_key K) (in_now inp 1)
               (ctx_record ctx MintHandle id (Some handle_hash_hex)) ;;
    mret tt)).

Definition revoke_handle_by_hash_audited (inp : Inputs) (h : string) (ctx : AuditCtx)
  : Op (option string) :=
  with_self (fun K =>
  if negb (String.length h =? 64)%nat || negb (str_forallb is_lower_hex_char h)
  then merr (EncodeError "expected 64 lowercase hex handle hash") else
  fenced (
    do! owner <- query (fun d => h_credential_id <$> handles d !! h) ;;
    do! changed <- (fun d =>
      match handles d !! h with
      | Some r => if h_revoked r then (Ok 0%nat, d)
                  else (Ok 1%nat, with_handles (insert h (revoked_row r)) d)
      | None => (Ok 0%nat, d)
      end) ;;
    if (changed =? 0)%nat then mret None else
    do! _ <- append_audit_tx (k_audit_key K) (in_now inp 0)
               {| rec_op := RevokeHandle; rec_credential_id := owner; rec_payload_hash := Some h;
                  rec_actor := ctx_actor ctx; rec_alarm := ctx_alarm ctx |} ;;
    mret owner)).

Definition revoke_handle (inp : Inputs) (raw_handle : string) (ctx : AuditCtx) : Op (option string) :=
  revoke_handle_by_hash_audited inp (handle_hash raw_handle) ctx.

Definition revoke_all_handles (inp : Inputs) (id : string) (ctx : AuditCtx) : Op nat :=
  with_self (fun K =>
  fenced (
    do! n <- revoke_handles_of id ;;
    if (n =? 0)%nat then mret 0%nat else
    do! _ <- append_audit_tx (k_audit_key K) (in_now inp 0) (ctx_record ctx RevokeHandle id None) ;;
    mret n)).

(** ** Audit entries for key use *)

Definition append_audit_op (inp : Inputs) (r : AuditRecord) : Op AuditEntry :=
  with_self (fun K => fenced (append_audit_tx (k_audit_key K) (in_now inp 0) r)).

Definition append_key_use_audit (inp : Inputs) (op : AuditOp) (id : string) (version : Z)
    (incarnation : string) (ph : bytes) (actor : string) : Op AuditEntry :=
  with_self (fun K =>
  do! out <- fenced (
    do! current <- query (fun d => credentials d !! id) ;;
    match current with
    | Some row =>
        if bool_decide (cr_incarnation row = incarnation) then
          if negb (bool_decide (cr_record_version row = as_i64 version))
          then mret (Err CasMismatch)
          else
            do! e <- append_audit_tx (k_audit_key K) (in_now inp 0)
                       {| rec_op := op; rec_credential_id := Some id;
                          rec_payload_hash := Some (hex32 ph); rec_actor := actor;
                          rec_alarm := None |} ;;
            mret (Ok e)
        else mret (Err NotFound)
    | None => mret (Err NotFound)
    end) ;;
  mlift out).

Definition append_signature_audit (inp : Inputs) (id : string) (version : Z) (incarnation : string)
    (signed_payload : bytes) (actor : string) : Op AuditEntry :=
  append_key_use_audit inp Sign id version incarnation (payload_sha256 signed_payload) actor.

Definition append_seal_audit (inp : Inputs) (id : string) (version : Z) (incarnation : string)
    (sealed_plaintext : bytes) (actor : string) : Op AuditEntry :=
  with_self (fun K =>
  append_key_use_audit inp Seal id version incarnation
    (payload_fingerprint (k_audit_key K) sealed_plaintext) actor).

(** ** Held plan observations (unfenced)

    [identity_json] and [identity_of_json] stand for [serde_json] on [RecordIdentity]. *)
Definition hold_detected_plan (identity_json : RecordIdentity -> result string string)
    (id : string) (version : Z) (token_hash : string) (ident : RecordIdentity) (plan : DetectedPlan)
  : Op unit :=
  do! json <- mlift (map_err EncodeError (identity_json ident)) ;;
  unfenced (exec (fun d =>
    match credentials d !! id with
    | Some row =>
        if row_version_is (as_i64 version) row then
          let held := {| hp_record_version := cr_record_version row; hp_token_hash := token_hash;
                         hp_identity := json; hp_plan := plan |} in
          match held_detected_plans d !! id with
          | Some old =>
              if hp_record_version old <? hp_record_version held
              then with_held_detected_plans (insert id held) d else d
          | None => with_held_detected_plans (insert id held) d
          end
        else d
    | None => d
    end)).

Definition held_detected_plan (identity_of_json : string -> option RecordIdentity)
    (id : string) (record : VaultRecord) : Op (option DetectedPlan) :=
  unfenced (
    do! held <- query (fun d => held_detected_plans d !! id) ;;
    match held with
    | None => mret None
    | Some h =>
        (** [row.get::<_, u64>]: a negative column is an error. *)
        if hp_record_version h <? 0 then merr (Sql "Integer out of range") else
        if bool_decide (hp_record_version h = record_version record) &&
           match oauth record with
           | Some o => bool_decide (hp_token_hash h = refresh_token_hash (access_token o))
           | None => false
           end &&
           bool_decide (identity_of_json (hp_identity h) = Some (identity record))
        then mret (Some (hp_plan h))
        else
          do! _ <- exec (fun d =>
            if bool_decide (hp_record_version h = as_i64 (record_version record)) ||
               negb (match credentials d !! id with
                     | Some row => bool_decide (cr_record_version row = hp_record_version h)
                     | None => false
                     end)
            then with_held_detected_plans (delete id) d else d) ;;
          mret None
    end).

(** ** GitHub App permissions (unfenced, best effort)

    A [BTreeMap] is its bindings in key order; [json] and [of_json] are [serde_json]. *)
Definition permissions_minus (a b : list (string * string)) : list string :=
  merge_sort (fun x y => Is_true (String.leb x y)) (remove_dups
    (map (fun p => (fst p ++ ":" ++ snd p)%string) (filter (fun p => p ∉ b) a))).

Definition github_app_permissions_change_detail (previous current : list (string * string)) : string :=
  ("added=[" ++ String.concat "," (permissions_minus current previous) ++ "]; removed=[" ++
   String.concat "," (permissions_minus previous current) ++ "]")%string.

Definition observe_permissions_tx (of_json : string -> option (list (string * string))) (ts : Z)
    (id : string) (version : Z) (permissions : list (string * string)) (current_json : string) : Tx unit :=
  do! previous <- query (fun d =>
    match credentials d !! id with
    | Some row => if row_version_is (as_i64 version) row then Some (cr_last_github_app_permissions row) else None
    | None => None
    end) ;;
  match previous with
  | None => mret tt
  | Some previous_json =>
      do! updated <- update_credential id (row_version_is (as_i64 version)) (set_permissions current_json) ;;
      if (0 <? updated)%nat then
        match previous_json ≫= of_json with
        | Some prev =>
            if bool_decide (prev = permissions) then mret tt else
            append_auth_event_tx ts id
              {| obs_kind := event_kind_as_str EvGithubAppPermissionsChanged; obs_provider_status := None;
                 obs_detail := Some (github_app_permissions_change_detail prev permissions);
                 obs_reporter_source := None; obs_principal := None |} (Some version) true
        | None => mret tt
        end
      else mret tt
  end.

(** The result is dropped; only the commit signal remains. *)
Definition observe_github_app_permissions (inp : Inputs)
    (json : list (string * string) -> option string) (of_json : string -> option (list (string * string)))
    (id : string) (version : Z) (permissions : list (string * string)) : Op unit :=
  match json permissions with
  | None => mret tt
  | Some current_json =>
      do! _ <- mtry (unfenced_signalled
        (observe_permissions_tx of_json (in_now inp 0) id version permissions current_json)) ;;
      mret tt
  end.

(** ** Master-key rotation *)

Definition AUDIT_KEY_SECRET_NAME : string := "__vault_audit_key__".
Definition AUDIT_KEY_RECORD_VERSION : Z := 0.
Definition audit_binding : RecordBinding :=
  {| rb_credential_id := AUDIT_KEY_SECRET_NAME; rb_record_version := AUDIT_KEY_RECORD_VERSION |}.

(** The loop over the snapshot of [credentials]; [i] counts the nonces drawn. *)
Fixpoint rotate_rows (old_key new_key : MasterKey) (rnd : nat -> option bytes) (i : nat)
    (rows : list (string * CredRow)) : Tx (list string) :=
  match rows with
  | [] => mret []
  | (id, row) :: rest =>
      let binding := {| rb_credential_id := id; rb_record_version := as_u64 (cr_record_version row) |} in
      match open old_key (cr_envelope row) binding with
      | Err _ =>
          do! _ <- update_credential id (fun _ => true) (set_state_only (state_as_str CorruptState)) ;;
          do! q <- rotate_rows old_key new_key rnd i rest ;;
          mret (id :: q)
      | Ok plaintext =>
          do! new_blob <- mlift (map_err (fun _ => Sql "re-seal under new key failed")
                                   (seal (rnd i) new_key plaintext binding)) ;;
          do! _ <- update_credential id (fun _ => true)
                     (reseal_row (key_id_to_hex (key_id new_key)) new_blob) ;;
          rotate_rows old_key new_key rnd (i + 1) rest
      end
  end.

Definition ascii_is_alphanumeric (c : ascii) : bool :=
  let n := Z.of_N (N_of_ascii c) in
  ((48 <=? n) && (n <=? 57)) || ((65 <=? n) && (n <=? 90)) || ((97 <=? n) && (n <=? 122)).

Inductive ValidationError := InvalidParams | LimitExceeded.

Definition MAX_SECRET_NAME_BYTES : nat := 64.

Definition validate_name (name : string) : result unit ValidationError :=
  match name with
  | EmptyString => Err InvalidParams
  | String c0 _ =>
      if negb (ascii_is_alphanumeric c0) ||
         negb (str_forallb (fun c => ascii_is_alphanumeric c || str_contains_char c "._-") name)
      then Err InvalidParams
      else if (MAX_SECRET_NAME_BYTES <? String.length name)%nat then Err LimitExceeded
      else Ok tt
  end.

Definition record_binding (kind incarnation name : string) : result string ValidationError :=
  let? _ := validate_name name in
  if negb (bool_decide (kind = "agent_api_key") || bool_decide (kind = "site_login")) ||
     negb (String.length incarnation =? 32)%nat || negb (str_forallb is_lower_hex_char incarnation)
  then Err InvalidParams
  else Ok ("secret|" ++ kind ++ "|" ++ incarnation ++ "|" ++ name)%string.

Definition set_agent_secret (name : string) (upd : AgentSecretRow -> AgentSecretRow) : Tx unit :=
  exec (with_agent_secrets (alter upd name)).

Definition set_secret_seal (kid : string) (blob : bytes) (r : AgentSecretRow) : AgentSecretRow :=
  {| as_kind := as_kind r; as_incarnation := as_incarnation r; as_state := as_state r;
     as_host := as_host r; as_path_prefix := as_path_prefix r; as_location := as_location r;
     as_origin := as_origin r; as_record_version := as_record_version r;
     as_key_id := kid; as_envelope := blob; as_created_at_ms := as_created_at_ms r |}.
Definition corrupt_secret (r : AgentSecretRow) : AgentSecretRow :=
  {| as_kind := as_kind r; as_incarnation := as_incarnation r; as_state := "corrupt";
     as_host := as_host r; as_path_prefix := as_path_prefix r; as_location := as_location r;
     as_origin := as_origin r; as_record_version := as_record_version r;
     as_key_id := as_key_id r; as_envelope := as_envelope r; as_created_at_ms := as_created_at_ms r |}.

Fixpoint rotate_agent_rows (old_key new_key : MasterKey) (rnd : nat -> option bytes) (i : nat)
    (rows : list (string * AgentSecretRow)) : Tx (list string) :=
  match rows with
  | [] => mret []
  | (name, row) :: rest =>
      let id := record_binding (as_kind row) (as_incarnation row) name in
      let opened :=
        match id with
        | Ok id => match open old_key (as_envelope row)
                           {| rb_credential_id := id; rb_record_version := as_record_version row |} with
                   | Ok body => Some (id, body)
                   | Err _ => None
                   end
        | Err _ => None
        end in
      match opened with
      | Some (id, body) =>
          do! new_blob <- mlift (map_err (fun _ => Sql "secret re-seal failed")
            (seal (rnd i) new_key body
               {| rb_credential_id := id; rb_record_version := as_record_version row |})) ;;
          do! _ <- set_agent_secret name (fun r =>
            set_secret_seal (key_id_to_hex (key_id new_key)) new_blob r) ;;
          rotate_agent_rows old_key new_key rnd (i + 1) rest
      | None =>
          do! _ <- set_agent_secret name corrupt_secret ;;
          do! q <- rotate_agent_rows old_key new_key rnd i rest ;;
          mret (("secret|" ++ name)%string :: q)
      end
  end.

Definition rotate_agent_secrets_tx (old_key new_key : MasterKey) (rnd : nat -> option bytes)
  : Tx (list string) :=
  do! rows <- query (fun d => map_to_list (agent_secrets d)) ;;
  (** [row.get::<_, u64>(3)]: a negative column is an error. *)
  if existsb (fun r => as_record_version r.2 <? 0) rows then merr (Sql "Integer out of range")
  else rotate_agent_rows old_key new_key rnd 0 rows.

(** [rotate_master_key]: one transaction, then the in-memory keys are swapped. Nonce 0
    seals the audit key; [rnd_agent] supplies those of the agent-secret loop. *)
Definition rotate_master_key (inp : Inputs) (rnd_agent : nat -> option bytes) (new_key : MasterKey)
  : Op (list string) :=
  fun s => (
    let old_key := es_key s in
    let new_key_id_hex := key_id_to_hex (key_id new_key) in
    do! new_audit_envelope <- mlift (map_err DecryptError
          (seal (in_rnd inp 0) new_key (es_audit_key s) audit_binding)) ;;
    do! quarantined <- fenced (
      do! rows <- query (fun d => map_to_list (credentials d)) ;;
      do! q <- rotate_rows old_key new_key (in_rnd inp) 1 rows ;;
      do! qa <- rotate_agent_secrets_tx old_key new_key rnd_agent ;;
      do! _ <- exec (with_vault_secrets (alter (fun _ =>
                 {| sec_key_id := new_key_id_hex; sec_envelope := new_audit_envelope |})
                 AUDIT_KEY_SECRET_NAME)) ;;
      do! _ <- append_audit_tx (es_audit_key s) (in_now inp 0)
                 {| rec_op := RotateMasterKey; rec_credential_id := None; rec_payload_hash := None;
                    rec_actor := "offline-cli"; rec_alarm := Some AdminWrite |} ;;
      mret (q ++ qa)) ;;
    fun s' => (Ok quarantined,
      {| es_conn := es_conn s'; es_key := new_key; es_key_id := key_id new_key;
         es_audit_key := es_audit_key s'; es_fenced_out := es_fenced_out s';
         es_writes := es_writes s' |})) s.

(** ** The audit key *)

Definition store_is_nonempty (d : Db) : bool :=
  let flow_non_empty := (28 <=? db_schema_version d) && negb (bool_decide (secret_flow_grants (secrets d) = ∅)) in
  (if 27 <=? db_schema_version d then
     negb (bool_decide (credentials d = ∅)) || negb (bool_decide (audit_log d = [])) ||
     negb (bool_decide (agent_secrets d = ∅)) || negb (bool_decide (secret_phone_keys (secrets d) = ∅)) ||
     negb (bool_decide (secret_phone_observations (secrets d) = ∅)) ||
     negb (bool_decide (secret_pending_requests (secrets d) = ∅)) ||
     negb (bool_decide (secret_grants (secrets d) = ∅)) ||
     negb (bool_decide (secret_deposit_tombstones (secrets d) = ∅))
   else negb (bool_decide (credentials d = ∅)) || negb (bool_decide (audit_log d = []))) ||
  flow_non_empty.

Definition conn_call {A} (f : Tx A) : M Conn StoreOpError A :=
  fun c => let '(out, c') := with_conn f c in (map_err from_store_error out, c').
Definition conn_call_fenced {A} (f : Tx A) : M Conn StoreOpError A :=
  fun c => let '(out, c') := with_conn_fenced f c in (map_err from_store_error out, c').

(** [load_or_create_audit_key], before the store exists; [rnd_key] is what
    [generate_audit_key] drew. *)
Definition load_or_create_audit_key (key : MasterKey) (rnd_key rnd_nonce : option bytes)
  : M Conn StoreOpError bytes :=
  do! existing <- conn_call (query (fun d => sec_envelope <$> vault_secrets d !! AUDIT_KEY_SECRET_NAME)) ;;
  match existing with
  | Some blob =>
      do! plaintext <- mlift (map_err DecryptError (open key blob audit_binding)) ;;
      if (length plaintext =? 32)%nat then mret plaintext
      else merr (CorruptVault "audit key is not 32 bytes")
  | None =>
      do! non_empty <- conn_call (query store_is_nonempty) ;;
      if non_empty : bool
      then merr (CorruptVault "audit key missing on a non-empty vault (refusing to regenerate)") else
      do! audit_key <- mlift (ok_or rnd_key (StoreFailure "csprng")) ;;
      do! blob <- mlift (map_err DecryptError (seal rnd_nonce key audit_key audit_binding)) ;;
      do! _ <- conn_call_fenced (
        do! present <- query (fun d => bool_decide (is_Some (vault_secrets d !! AUDIT_KEY_SECRET_NAME))) ;;
        if present then merr (Sql "UNIQUE constraint failed: vault_secrets.name") else
        exec (with_vault_secrets (insert AUDIT_KEY_SECRET_NAME
          {| sec_key_id := key_id_to_hex (key_id key); sec_envelope := blob |}))) ;;
      mret audit_key
  end.

(** [EncryptedStore::open], without the enrollment sweep, which touches none of the
    tables modelled here. *)
Definition open_store (key : MasterKey) (rnd_key rnd_nonce : option bytes) (c : Conn)
  : result (EncryptedStore Conn) StoreOpError * Conn :=
  let '(out, c') := load_or_create_audit_key key rnd_key rnd_nonce c in
  (let? ak := out in
   Ok {| es_conn := c'; es_key := key; es_key_id := key_id key; es_audit_key := ak;
         es_fenced_out := false; es_writes := 0 |}, c').

(** ** The audit chain of the store *)

Definition read_audit_op (limit : option nat) : Op (list AuditEntry) :=
  unfenced (query (fun d => read_audit limit (audit_log d))).

Definition verify_audit_chain : Op (option Z) :=
  with_self (fun K =>
  do! entries <- read_audit_op None ;; mret (verify_chain (k_audit_key K) entries)).
End Operations.
