(* ===== verification/TxLogic.v ===== *)
(** * Reasoning about transactions by preconditions

    [wp m Q d]: if the transaction body [m] succeeds on the database [d], its result and
    the database it leaves satisfy [Q]; a body that fails is rolled back by
    [Database.fenced_write], so nothing is owed of it. The rules follow the statements of
    [Database]; [wp_go] runs a body statement by statement and leaves the facts about its
    queries and guards in the context. [fenced_wp] carries a body's postcondition to the
    store operation that runs it. [runs m Q d] is the total counterpart: the body
    succeeds as well. *)

From stdpp Require Import gmap.
From S2P Require Import Prelude Text Crypto Record Envelope AuditLog Database Store.

Definition wp {A} (m : Tx A) (Q : A -> Db -> Prop) (d : Db) : Prop :=
  match m d with (Ok a, d') => Q a d' | (Err _, _) => True end.

Section Rules.
Context {A B : Type}.

Lemma wp_ret (a : A) Q d : Q a d -> wp (mret a) Q d.
Proof. done. Qed.
Lemma wp_err e (Q : A -> Db -> Prop) d : wp (merr e) Q d.
Proof. done. Qed.
Lemma wp_query (f : Db -> A) Q d : Q (f d) d -> wp (query f) Q d.
Proof. done. Qed.
Lemma wp_exec f (Q : unit -> Db -> Prop) d : Q tt (f d) -> wp (exec f) Q d.
Proof. done. Qed.
Lemma wp_lift (r : result A SqlError) Q d : (forall a, r = Ok a -> Q a d) -> wp (mlift r) Q d.
Proof. unfold wp, mlift. destruct r; auto. Qed.
Lemma wp_bind (m : Tx A) (k : A -> Tx B) Q d : wp m (fun a => wp (k a) Q) d -> wp (mbind m k) Q d.
Proof. unfold wp, mbind. by destruct (m d) as [[a|e] d1]. Qed.
Lemma wp_mono (m : Tx A) (Q Q' : A -> Db -> Prop) d :
  wp m Q d -> (forall a d', Q a d' -> Q' a d') -> wp m Q' d.
Proof. unfold wp. destruct (m d) as [[a|e] d1]; auto. Qed.
Lemma wp_rel R (m : Tx A) Q d : tx_rel R m -> (forall a d', R d d' -> Q a d') -> wp m Q d.
Proof. unfold wp. intros Hm HQ. destruct (m d) as [[a|e] d1] eqn:E; [|done]. apply HQ. by eapply Hm. Qed.
Lemma wp_run (m : Tx A) Q d a d' : wp m Q d -> m d = (Ok a, d') -> Q a d'.
Proof. unfold wp. intros H E. by rewrite E in H. Qed.
Lemma wp_intro (m : Tx A) Q d : (forall a d', m d = (Ok a, d') -> Q a d') -> wp m Q d.
Proof. unfold wp. intros H. destruct (m d) as [[a|e] d1] eqn:E; [|done]. by apply H. Qed.

(** A preserved predicate, as the preorder [keeps P] of the relational rules. *)
Lemma wp_tx_rel (R : Db -> Db -> Prop) (m : Tx A) : (forall d, wp m (fun _ => R d) d) -> tx_rel R m.
Proof. intros Hm d a d' E. by apply (wp_run _ _ _ _ _ (Hm d) E). Qed.
End Rules.

(** Total correctness: the body succeeds, and what it leaves satisfies [Q]. *)
Definition runs {A} (m : Tx A) (Q : A -> Db -> Prop) (d : Db) : Prop :=
  match m d with (Ok a, d') => Q a d' | (Err _, _) => False end.

Section Total.
Context {A B : Type}.

Lemma runs_ret (a : A) (Q : A -> Db -> Prop) d : Q a d -> runs (mret a) Q d.
Proof. done. Qed.
Lemma runs_query (f : Db -> A) (Q : A -> Db -> Prop) d : Q (f d) d -> runs (query f) Q d.
Proof. done. Qed.
Lemma runs_exec f (Q : unit -> Db -> Prop) d : Q tt (f d) -> runs (exec f) Q d.
Proof. done. Qed.
Lemma runs_lift (r : result A SqlError) (Q : A -> Db -> Prop) a d : r = Ok a -> Q a d -> runs (mlift r) Q d.
Proof. by intros ->. Qed.
Lemma runs_bind (m : Tx A) (k : A -> Tx B) Q d : runs m (fun a => runs (k a) Q) d -> runs (mbind m k) Q d.
Proof. unfold runs, mbind. by destruct (m d) as [[a|e] d1]. Qed.
Lemma runs_mono (m : Tx A) (Q Q' : A -> Db -> Prop) d :
  runs m Q d -> (forall a d', Q a d' -> Q' a d') -> runs m Q' d.
Proof. unfold runs. destruct (m d) as [[a|e] d1]; auto. Qed.
End Total.

(** The rows [append_secret_auth_event_tx] leaves. *)
Definition events_after (ts : Z) (subject : string) (obs : AuthObservation) (version : option Z)
    (applied : bool) (rows : list AuthEventRow) : list AuthEventRow :=
  rev (trim_newest subject AUTH_EVENTS_PER_CREDENTIAL (rev (rows ++
    [{| ev_ts_ms := ts; ev_credential_id := subject; ev_kind := obs_kind obs;
        ev_provider_status := obs_provider_status obs; ev_detail := obs_detail obs;
        ev_reporter_source := reporter_source_as_str <$> obs_reporter_source obs;
        ev_record_version := as_i64 <$> version; ev_applied := applied;
        ev_principal_kind := principal_kind <$> obs_principal obs;
        ev_principal_id := obs_principal obs ≫= principal_id |}]))).

Lemma wp_event ts subject obs v applied (Q : unit -> Db -> Prop) d :
  Q tt (with_auth_events (events_after ts subject obs v applied) d) ->
  wp (append_secret_auth_event_tx ts subject obs v applied) Q d.
Proof. done. Qed.

Lemma wp_audit `{Crypto} ak ts r (Q : AuditEntry -> Db -> Prop) d :
  Q (append_entry ak ts (audit_log d) r) (with_audit_log (append_audit ak ts r) d) ->
  wp (append_audit_tx ak ts r) Q d.
Proof. done. Qed.

Lemma runs_event ts subject obs v applied (Q : unit -> Db -> Prop) d :
  Q tt (with_auth_events (events_after ts subject obs v applied) d) ->
  runs (append_secret_auth_event_tx ts subject obs v applied) Q d.
Proof. done. Qed.

Lemma runs_audit `{Crypto} ak ts r (Q : AuditEntry -> Db -> Prop) d :
  Q (append_entry ak ts (audit_log d) r) (with_audit_log (append_audit ak ts r) d) ->
  runs (append_audit_tx ak ts r) Q d.
Proof. done. Qed.

Lemma wp_bump (Q : unit -> Db -> Prop) d :
  Q tt (with_grants_generation (Z.add 1) d) -> wp bump_grants_generation_tx Q d.
Proof. done. Qed.

(** Run the body in the goal. *)
Ltac wp_step :=
  lazymatch goal with
  | |- wp (mbind _ _) _ _ => apply wp_bind
  | |- wp (mret _) _ _ => apply wp_ret
  | |- wp (merr _) _ _ => exact I
  | |- wp (query _) _ _ => apply wp_query
  | |- wp (exec _) _ _ => apply wp_exec
  | |- wp (mlift _) _ _ => apply wp_lift; intros ? ?
  | |- wp (append_secret_auth_event_tx _ _ _ _ _) _ _ => apply wp_event
  | |- wp (append_audit_tx _ _ _) _ _ => apply wp_audit
  | |- wp bump_grants_generation_tx _ _ => apply wp_bump
  | |- wp (match ?x with _ => _ end) _ _ => destruct x eqn:?; try discriminate
  end; cbv beta zeta.
Ltac wp_go := repeat wp_step.

Ltac runs_step :=
  lazymatch goal with
  | |- runs (mbind _ _) _ _ => apply runs_bind
  | |- runs (mret _) _ _ => apply runs_ret
  | |- runs (query _) _ _ => apply runs_query
  | |- runs (exec _) _ _ => apply runs_exec
  | |- runs (append_secret_auth_event_tx _ _ _ _ _) _ _ => apply runs_event
  | |- runs (append_audit_tx _ _ _) _ _ => apply runs_audit
  end; cbv beta zeta.

(** ** From a body to the operation *)

Section Ops.
Context {Conn : Type} `{L : SqliteStoreLaws Conn}.

Lemma fenced_wp {A} (f : Tx A) (Q : A -> Db -> Prop) (s s' : EncryptedStore Conn) a :
  wp f Q (es_db s) -> fenced f s = (Ok a, s') -> Q a (es_db s').
Proof.
  unfold fenced, fenced_write. destruct (with_conn_fenced f (es_conn s)) as [[x|e] c] eqn:E; [|done].
  intros Hw [= <- <-]. apply fenced_commits in E. by eapply wp_run.
Qed.

(** With the lease and a working backend the operation succeeds when its body does. *)
Lemma fenced_total {A} (f : Tx A) (Q : A -> Db -> Prop) (s : EncryptedStore Conn) :
  conn_lease (es_conn s) = true -> conn_healthy (es_conn s) = true -> runs f Q (es_db s) ->
  exists a s', fenced f s = (Ok a, s') /\ Q a (es_db s') /\
    conn_lease (es_conn s') = true /\ conn_healthy (es_conn s') = true /\ keys_of s' = keys_of s.
Proof.
  intros Hl Hh Hr. unfold fenced, fenced_write. destruct (fenced_runs f _ Hl Hh) as (c & E & Hl' & Hh').
  unfold runs, es_db in Hr. destruct (f (conn_db (es_conn s))) as [[a|e] d'] eqn:Ef; [|done].
  rewrite E. cbn in *. do 2 eexists. split_and!; [reflexivity| |done|done|done].
  apply fenced_commits in E. rewrite Ef in E. injection E as ->. done.
Qed.
End Ops.
