(* ===== verification/Secrets.v ===== *)
(** * Agent secrets: formats ([agent_secret.rs] and its submodules)

    The sealed body of a secret, which carries its release scope next to the material;
    the validation of scopes, targets and material; request ids (ULIDs); one-time codes.
    HMAC over three hashes, the [url] crate and base64 are the class [SecretExt]. *)

From stdpp Require Import gmap sorting.
From S2P Require Import Prelude Text Crypto Record CredentialId Catalog Envelope AuditLog Database Store Json.

(** ** Errors *)

Inductive SecretError :=
| SeInvalidParams | SeLimitExceeded | SeNotFound | SePairingUnavailable | SePhoneNotRegistered
| SePhoneKeyConflict | SeDepositConflict | SeNameExists | SeSetupIncomplete | SeApprovalInvalid
| SePendingLimit | SeStoreError.
#[global] Instance SecretError_eq_dec : EqDecision SecretError.
Proof. solve_decision. Defined.

Definition secret_error_code (e : SecretError) : string :=
  match e with
  | SeInvalidParams => "invalid_params"
  | SeLimitExceeded => "limit_exceeded"
  | SeNotFound => "not_found"
  | SePairingUnavailable => "pairing_unavailable"
  | SePhoneNotRegistered => "phone_not_registered"
  | SePhoneKeyConflict => "phone_key_conflict"
  | SeDepositConflict => "deposit_conflict"
  | SeNameExists => "name_exists"
  | SeSetupIncomplete => "secret_setup_incomplete"
  | SeApprovalInvalid => "approval_invalid"
  | SePendingLimit => "pending_limit"
  | SeStoreError => "store_error"
  end.

Definition secret_error_class (e : SecretError) : string :=
  match e with
  | SeLimitExceeded => "context_overflow"
  | SePairingUnavailable | SePendingLimit | SeStoreError => "transient"
  | _ => "permanent"
  end.

Definition secret_error_body (e : SecretError) : Value :=
  jobj [("error", jobj [("code", JStr (secret_error_code e)); ("class", JStr (secret_error_class e))])].

(** [impl From<ValidationError> for SecretError]. *)
Definition secret_of_validation (e : ValidationError) : SecretError :=
  match e with InvalidParams => SeInvalidParams | LimitExceeded => SeLimitExceeded end.

Definition validation_wire_code (e : ValidationError) : string :=
  match e with InvalidParams => "invalid_params" | LimitExceeded => "limit_exceeded" end.

(** ** What is called in other crates *)

(** What the [url] crate parses a URL into. *)
Record UrlParts := {
  url_scheme : string;
  url_host : option string;
  url_path : string;
  url_username : string;
  url_password : option string;
  url_port : option Z;
  url_fragment : option string;
  url_query_pairs : list (string * string);
}.

Class SecretExt := {
  (** [Url::parse]. *)
  url_parse : string -> option UrlParts;
  (** [Hmac::<Sha1>] and [Hmac::<Sha512>] of a whole message under a key, which is
      accepted at any length. *)
  hmac_sha1 : bytes -> bytes -> bytes;
  hmac_sha512 : bytes -> bytes -> bytes;
  (** [URL_SAFE_NO_PAD]. *)
  b64url_encode : bytes -> string;
  b64url_decode : string -> option bytes;
  (** [p256::PublicKey::from_sec1_bytes(..).is_ok()]. *)
  p256_key_ok : bytes -> bool;
  (** [VerifyingKey::from_sec1_bytes], [Signature::from_der] and [verify], all succeeding:
      public key, message, signature. *)
  ecdsa_verify : bytes -> bytes -> bytes -> bool;
}.

(** Digest lengths of the three hashes, and base64 as a round trip. *)
Class SecretExtLaws (X : SecretExt) : Prop := {
  hmac_sha1_length k m : length (hmac_sha1 k m) = 20%nat;
  hmac_sha512_length k m : length (hmac_sha512 k m) = 64%nat;
  b64url_roundtrip bs : b64url_decode (b64url_encode bs) = Some bs;
}.

(** ** Scope, material and the sealed body *)

Definition DEPOSIT_KEY_ID : string := "kem:secret-deposit:1".
Definition DEPOSIT_INFO : bytes := str_bytes "cortexkit/claustrum/secret-deposit/v1".
Definition DEPOSIT_AAD_TAG : bytes := str_bytes "ck-secret-deposit-aad/v1".
Definition DEPOSIT_PLAINTEXT_TAG : bytes := str_bytes "ck-secret-deposit-plaintext/v1".
Definition SEALED_BODY_TAG : bytes := str_bytes "ck-secret-sealed-body/v1".
Definition USE_ENVELOPE_TAG : string := "ck-secret-use-envelope/v1".
Definition SECRET_RECORD_VERSION : Z := 1.

Inductive SecretScope :=
| ApiKeyScope (host : string) (path_prefix : option string) (location : string)
| SiteLoginScope (origin : string).
#[global] Instance SecretScope_eq_dec : EqDecision SecretScope.
Proof. solve_decision. Defined.

Definition scope_kind (s : SecretScope) : string :=
  match s with ApiKeyScope _ _ _ => "agent_api_key" | SiteLoginScope _ => "site_login" end.

Definition push_field (out field : bytes) : bytes := out ++ length_prefixed 8 field.

(** [SecretScope::encode_fields], as what it appends. *)
Definition scope_encode_fields (s : SecretScope) : result bytes ValidationError :=
  match s with
  | ApiKeyScope host path_prefix location =>
      if str_is_empty location then Err InvalidParams else
      let out := push_field [] (str_bytes host) in
      let out := push_field out (str_bytes (default "" path_prefix)) in
      Ok (push_field out (str_bytes location))
  | SiteLoginScope origin => Ok (push_field [] (str_bytes origin))
  end.

Inductive SecretMaterial :=
| ApiKeyMaterial (key : bytes)
| SiteLoginMaterial (username password : string) (otpauth : option string).
#[global] Instance SecretMaterial_eq_dec : EqDecision SecretMaterial.
Proof. solve_decision. Defined.

Definition material_encode_fields (m : SecretMaterial) : bytes :=
  match m with
  | ApiKeyMaterial key => push_field [] key
  | SiteLoginMaterial username password otpauth =>
      let out := push_field [] (str_bytes username) in
      let out := push_field out (str_bytes password) in
      push_field out (str_bytes (default "" otpauth))
  end.

Definition material_matches (m : SecretMaterial) (s : SecretScope) : bool :=
  match m, s with
  | ApiKeyMaterial _, ApiKeyScope _ _ _ | SiteLoginMaterial _ _ _, SiteLoginScope _ => true
  | _, _ => false
  end.

Definition deposit_aad (deposit_id member_id name : string) (s : SecretScope) : result bytes ValidationError :=
  let? _ := validate_name name in
  let out := fold_left push_field
    [DEPOSIT_AAD_TAG; str_bytes deposit_id; str_bytes member_id; str_bytes name; str_bytes (scope_kind s)] [] in
  let? fields := scope_encode_fields s in
  Ok (out ++ fields).

Definition deposit_plaintext (m : SecretMaterial) : bytes :=
  push_field [] DEPOSIT_PLAINTEXT_TAG ++ material_encode_fields m.

Definition sealed_body (s : SecretScope) (m : SecretMaterial) : result bytes ValidationError :=
  if negb (material_matches m s) then Err InvalidParams else
  let out := push_field [] SEALED_BODY_TAG in
  let out := push_field out (str_bytes (scope_kind s)) in
  let? fields := scope_encode_fields s in
  Ok (out ++ fields ++ material_encode_fields m).

(** The [Fields] reader: each step returns what it read and the rest. *)
Definition u64_of_le (bs : bytes) : Z := fold_right (fun b acc => Z_of_byte b + 256 * acc) 0 bs.

Definition fields_next (bs : bytes) : result (bytes * bytes) ValidationError :=
  if (length bs <? 8)%nat then Err InvalidParams else
  let len := u64_of_le (take 8 bs) in
  let rest := drop 8 bs in
  if len <=? Z.of_nat (length rest)
  then Ok (take (Z.to_nat len) rest, drop (Z.to_nat len) rest) else Err InvalidParams.

Definition fields_expect (expected bs : bytes) : result bytes ValidationError :=
  let? (value, rest) := fields_next bs in
  if bool_decide (value = expected) then Ok rest else Err InvalidParams.

Definition fields_text (bs : bytes) : result (string * bytes) ValidationError :=
  let? (value, rest) := fields_next bs in
  if utf8_valid value then Ok (String.string_of_list_byte value, rest) else Err InvalidParams.

Definition fields_material (kind : string) (bs : bytes) : result (SecretMaterial * bytes) ValidationError :=
  if bool_decide (kind = "agent_api_key") then
    let? (key, rest) := fields_next bs in Ok (ApiKeyMaterial key, rest)
  else if bool_decide (kind = "site_login") then
    let? (username, rest) := fields_text bs in
    let? (password, rest) := fields_text rest in
    let? (uri, rest) := fields_text rest in
    Ok (SiteLoginMaterial username password (if str_is_empty uri then None else Some uri), rest)
  else Err InvalidParams.

Definition fields_end (bs : bytes) : result unit ValidationError :=
  match bs with [] => Ok tt | _ => Err InvalidParams end.

(** [bytes.starts_with(p)] and what follows it. *)
Definition strip_bytes (p bs : bytes) : option bytes :=
  if bool_decide (take (length p) bs = p) then Some (drop (length p) bs) else None.

Definition decode_deposit_plaintext (kind : string) (bs : bytes) : result SecretMaterial ValidationError :=
  let? rest := fields_expect DEPOSIT_PLAINTEXT_TAG bs in
  let? (material, rest) := fields_material kind rest in
  let? _ := fields_end rest in
  Ok material.

Section Sealing.
Context `{C : Crypto}.

(** [agent_secret::seal]. *)
Definition secret_seal (rnd : option bytes) (key : MasterKey) (incarnation name : string)
    (s : SecretScope) (m : SecretMaterial) : result bytes ValidationError :=
  let? id := record_binding (scope_kind s) incarnation name in
  let? body := sealed_body s m in
  map_err (fun _ => InvalidParams)
    (seal rnd key body {| rb_credential_id := id; rb_record_version := SECRET_RECORD_VERSION |}).

(** [agent_secret::open]: the authenticated scope is compared before material is read. *)
Definition secret_open (key : MasterKey) (incarnation name : string) (s : SecretScope) (blob : bytes)
  : result SecretMaterial ValidationError :=
  let? id := record_binding (scope_kind s) incarnation name in
  let? body := map_err (fun _ => InvalidParams)
    (open key blob {| rb_credential_id := id; rb_record_version := SECRET_RECORD_VERSION |}) in
  let? rest := fields_expect SEALED_BODY_TAG body in
  let? rest := fields_expect (str_bytes (scope_kind s)) rest in
  let? expected := scope_encode_fields s in
  let? rest := ok_or (strip_bytes expected rest) InvalidParams in
  let? (material, rest) := fields_material (scope_kind s) rest in
  let? _ := fields_end rest in
  Ok material.

Definition deposit_digest (deposit_id : string) (enc ciphertext aad : bytes) : bytes :=
  sha256 (fold_left push_field [str_bytes deposit_id; enc; ciphertext; aad] []).
End Sealing.

(** ** Validation ([agent_secret_validation.rs]) *)

Definition MAX_SECRET_HOST_BYTES : nat := 253.
Definition MAX_SECRET_PATH_PREFIX_BYTES : nat := 1024.
Definition MAX_SECRET_HEADER_BYTES : nat := 64.
Definition MAX_SECRET_QUERY_BYTES : nat := 64.
Definition MAX_SECRET_POINTER_BYTES : nat := 256.
Definition MAX_SECRET_USERNAME_BYTES : nat := 256.
Definition MAX_SECRET_PASSWORD_BYTES : nat := 1024.
Definition MAX_SECRET_API_KEY_BYTES : nat := 8192.
Definition MIN_SECRET_TOTP_PERIOD : Z := 15.
Definition MAX_SECRET_TOTP_PERIOD : Z := 120.

(** One decimal group of an IPv4 address: one to three digits, no leading zero. *)
Definition ipv4_octet (s : string) : bool :=
  str_forallb is_ascii_digit s && (1 <=? String.length s)%nat && (String.length s <=? 3)%nat &&
  negb (str_starts_with "0" s && (1 <? String.length s)%nat) &&
  is_some (parse_digits 255 0 s).

(** [host.parse::<Ipv4Addr>().is_ok()]. *)
Definition is_ipv4 (host : string) : bool :=
  let groups := split_list "." host in (length groups =? 4)%nat && forallb ipv4_octet groups.

Definition valid_label (label : string) : bool :=
  negb (str_is_empty label) && negb (str_starts_with "-" label) && negb (ends_with "-" label) &&
  str_forallb label_char label.

(** [validate_host]. Of [parse::<IpAddr>] only the IPv4 arm is kept: an IPv6 address has a
    colon, which no label admits, and the two tests refuse with the same error. *)
Definition validate_host (host : string) : result unit ValidationError :=
  if str_is_empty host || ends_with "." host || is_ipv4 host || negb (forallb valid_label (split_list "." host))
  then Err InvalidParams
  else if (MAX_SECRET_HOST_BYTES <? String.length host)%nat then Err LimitExceeded
  else Ok tt.

Definition canonical_origin (origin : string) : result string ValidationError :=
  let? authority := ok_or (strip_prefix "https://" origin) InvalidParams in
  let host := default authority (strip_suffix ":443" authority) in
  let? _ := validate_host host in
  Ok ("https://" ++ host)%string.

(** [u8::from_str_radix(pair, 16)]: a plus sign may stand first. *)
Definition from_str_radix16 (a b : ascii) : option Z :=
  match to_digit16 a, to_digit16 b with
  | Some hi, Some lo => Some (hi * 16 + lo)
  | None, Some lo => if Ascii.eqb a "+" then Some lo else None
  | _, None => None
  end.

(** The percent-decoding loop of [validate_path]; what it escapes must be visible and no
    separator. *)
Fixpoint percent_decode (s : string) : result string ValidationError :=
  match s with
  | EmptyString => Ok ""
  | String c rest =>
      if Ascii.eqb c "%" then
        match rest with
        | String a (String b r) =>
            match from_str_radix16 a b with
            | Some n =>
                let d := ascii_of_N (Z.to_N n) in
                if str_contains_char d "/.%\;" || negb (is_visible d) then Err InvalidParams else
                let? t := percent_decode r in Ok (String d t)
            | None => Err InvalidParams
            end
        | _ => Err InvalidParams
        end
      else let? t := percent_decode rest in Ok (String c t)
  end.

Definition path_char (c : ascii) : bool :=
  ascii_is_alphanumeric c || str_contains_char c "-._~!$&'()*+,;=:@/%".

(** A segment is a dot segment by what stands before its first semicolon. *)
Definition dot_segment (segment : string) : bool :=
  let head := (split_on ";" segment).1 in bool_decide (head = ".") || bool_decide (head = "..").

Definition validate_path (path : string) : result unit ValidationError :=
  if negb (str_starts_with "/" path) || str_contains "//" path || negb (str_forallb path_char path)
  then Err InvalidParams else
  let? decoded := percent_decode path in
  if existsb dot_segment (split_list "/" decoded) then Err InvalidParams else Ok tt.

Fixpoint pointer_escapes_ok (s : string) : bool :=
  match s with
  | EmptyString => true
  | String "~" r =>
      match r with
      | String c r' => (Ascii.eqb c "0" || Ascii.eqb c "1") && pointer_escapes_ok r'
      | EmptyString => false
      end
  | String _ r => pointer_escapes_ok r
  end.

Definition header_char (c : ascii) : bool := ascii_is_alphanumeric c || str_contains_char c "!#$%&'*+-.^_`|~".

Definition validate_location (location : string) : result unit ValidationError :=
  if bool_decide (location = "authorization_bearer") then Ok tt else
  let? (kind, value) := ok_or (split_once ":" location) InvalidParams in
  if str_is_empty value then Err InvalidParams else
  if bool_decide (kind = "header") then
    if negb (str_forallb header_char value) ||
       existsb (fun h => bool_decide (str_lower value = h)) ["host"; "cookie"; "content-length"; "authorization"]
    then Err InvalidParams
    else if (MAX_SECRET_HEADER_BYTES <? String.length value)%nat then Err LimitExceeded else Ok tt
  else if bool_decide (kind = "query") then
    if negb (str_forallb (fun c => ascii_is_alphanumeric c || str_contains_char c "._-") value)
    then Err InvalidParams
    else if (MAX_SECRET_QUERY_BYTES <? String.length value)%nat then Err LimitExceeded else Ok tt
  else if bool_decide (kind = "json_pointer") then
    if negb (str_starts_with "/" value) || negb (str_forallb is_visible value) then Err InvalidParams
    else if negb (pointer_escapes_ok value) then Err InvalidParams
    else if (MAX_SECRET_POINTER_BYTES <? String.length value)%nat then Err LimitExceeded else Ok tt
  else Err InvalidParams.

Definition validate_scope (s : SecretScope) : result unit ValidationError :=
  match s with
  | ApiKeyScope host path_prefix location =>
      let? _ := validate_host host in
      let? _ := match path_prefix with
                | Some prefix =>
                    let? _ := validate_path prefix in
                    if ends_with "/" prefix then Err InvalidParams
                    else if (MAX_SECRET_PATH_PREFIX_BYTES <? String.length prefix)%nat then Err LimitExceeded
                    else Ok tt
                | None => Ok tt
                end in
      validate_location location
  | SiteLoginScope origin => let? _ := canonical_origin origin in Ok tt
  end.

Section Validated.
Context `{C : Crypto} `{X : SecretExt}.

Definition validate_phone_approval_key (bs : bytes) : result unit ValidationError :=
  if negb (length bs =? 65)%nat || negb (bool_decide (head bs = Some x04)) then Err InvalidParams
  else if p256_key_ok bs then Ok tt else Err InvalidParams.

Definition is_base32_char (c : ascii) : bool := is_ascii_uppercase c || (50 <=? ascii_Z c) && (ascii_Z c <=? 55).

(** One query pair of an [otpauth] URI: accepted or not. *)
Definition otpauth_pair_ok (key value : string) : bool :=
  if bool_decide (key = "secret") then
    let unpadded := trim_end "=" value in
    negb (str_is_empty unpadded) && str_forallb is_base32_char unpadded &&
    existsb (Nat.eqb (String.length unpadded mod 8)) [0; 2; 4; 5; 7]%nat
  else if bool_decide (key = "algorithm") then
    existsb (fun a => bool_decide (value = a)) ["SHA1"; "SHA256"; "SHA512"]
  else if bool_decide (key = "digits") then existsb (fun a => bool_decide (value = a)) ["6"; "8"]
  else if bool_decide (key = "period") then
    match parse_unsigned u64_max value with
    | Some period => (MIN_SECRET_TOTP_PERIOD <=? period) && (period <=? MAX_SECRET_TOTP_PERIOD)
    | None => false
    end
  else bool_decide (key = "issuer").

(** The loop over the pairs: the keys seen so far must be distinct. *)
Fixpoint otpauth_pairs_ok (seen : list string) (pairs : list (string * string)) : bool :=
  match pairs with
  | [] => true
  | (key, value) :: rest =>
      negb (bool_decide (key ∈ seen)) && otpauth_pair_ok key value && otpauth_pairs_ok (key :: seen) rest
  end.

Definition validate_otpauth (uri : string) : result unit ValidationError :=
  let? url := ok_or (url_parse uri) InvalidParams in
  if negb (bool_decide (url_scheme url = "otpauth")) || negb (bool_decide (url_host url = Some "totp")) ||
     (String.length (url_path url) <=? 1)%nat || negb (str_is_empty (url_username url)) ||
     is_some (url_password url) || is_some (url_port url) || is_some (url_fragment url)
  then Err InvalidParams
  else if negb (otpauth_pairs_ok [] (url_query_pairs url)) then Err InvalidParams
  else if negb (bool_decide ("secret" ∈ map fst (url_query_pairs url))) then Err InvalidParams
  else Ok tt.

Definition validate_material (m : SecretMaterial) : result unit ValidationError :=
  match m with
  | ApiKeyMaterial key =>
      if bool_decide (key = []) then Err InvalidParams
      else if (MAX_SECRET_API_KEY_BYTES <? length key)%nat then Err LimitExceeded else Ok tt
  | SiteLoginMaterial username password otpauth =>
      if (MAX_SECRET_USERNAME_BYTES <? String.length username)%nat ||
         (MAX_SECRET_PASSWORD_BYTES <? String.length password)%nat then Err LimitExceeded else
      match otpauth with Some uri => validate_otpauth uri | None => Ok tt end
  end.

Record SecretPut := {
  put_kind : string;
  put_name : string;
  put_host : option string;
  put_path_prefix : option string;
  put_location : option string;
  put_origin : option string;
  put_material_b64url : string;
}.

Definition base64_url_no_pad (text : string) : result bytes ValidationError :=
  let? bs := ok_or (b64url_decode text) InvalidParams in
  if bool_decide (b64url_encode bs = text) then Ok bs else Err InvalidParams.

Definition scope_and_material (put : SecretPut) : result (SecretScope * SecretMaterial) ValidationError :=
  let? scope :=
    match put_host put, put_location put, put_origin put with
    | Some host, Some location, None =>
        if bool_decide (put_kind put = "agent_api_key")
        then Ok (ApiKeyScope host (put_path_prefix put) location) else Err InvalidParams
    | None, None, Some origin =>
        if bool_decide (put_kind put = "site_login") && negb (is_some (put_path_prefix put))
        then Ok (SiteLoginScope origin) else Err InvalidParams
    | _, _, _ => Err InvalidParams
    end in
  let? _ := validate_scope scope in
  let? bs := base64_url_no_pad (put_material_b64url put) in
  let? material := decode_deposit_plaintext (scope_kind scope) bs in
  let? _ := validate_material material in
  Ok (scope, material).

(** ** One-time codes ([agent_secret_totp.rs]) *)

(** The base32 decoder: [acc] and [bits] are [u32] variables of the loop. *)
Fixpoint base32_decode (acc bits : Z) (s : string) : result bytes ValidationError :=
  match s with
  | EmptyString => Ok []
  | String c r =>
      let? n :=
        (if is_ascii_uppercase c then Ok (ascii_Z c - 65)
         else if (50 <=? ascii_Z c) && (ascii_Z c <=? 55) then Ok (ascii_Z c - 50 + 26)
         else Err InvalidParams) in
      let acc := Z.lor (Z.shiftl acc 5 mod 2 ^ 32) n in
      let bits := bits + 5 in
      if 8 <=? bits then
        let bits := bits - 8 in
        let? rest := base32_decode acc bits r in
        Ok (byte_of_Z (Z.shiftr acc bits) :: rest)
      else base32_decode acc bits r
  end.

Definition pair_get (k : string) (pairs : list (string * string)) : option string :=
  snd <$> find (fun kv => String.eqb k kv.1) (rev pairs).

(** [{:0width$}] of a value below [10 ^ width]. *)
Fixpoint fixed_decimal (width : nat) (z : Z) (acc : string) : string :=
  match width with
  | O => acc
  | S w => fixed_decimal w (z / 10) (String (ascii_of_N (Z.to_N (48 + z mod 10))) acc)
  end.

(** RFC 4226 truncation of the digest, which is indexed: [None] is a panic. *)
Definition truncate_hash (hash : bytes) : option Z :=
  match hash !! (length hash - 1)%nat with
  | None => None
  | Some last =>
      let offset := Z.to_nat (Z.land (Z_of_byte last) 15) in
      match slice offset (offset + 4) hash with
      | None => None
      | Some four => Some (Z.land (u64_of_le (rev four)) 0x7fffffff)
      end
  end.

(** [totp], with [None] standing for a panic. *)
Definition totp_checked (uri : string) (now_ms : Z) : option (result string ValidationError) :=
  match validate_otpauth uri with
  | Err e => Some (Err e)
  | Ok _ =>
  match url_parse uri with
  | None => Some (Err InvalidParams)
  | Some url =>
  let pairs := url_query_pairs url in
  match pair_get "secret" pairs with
  | None => Some (Err InvalidParams)
  | Some encoded =>
  match base32_decode 0 0 (trim_end "=" encoded) with
  | Err e => Some (Err e)
  | Ok seed =>
  match (match pair_get "period" pairs with None => Some 30 | Some s => parse_unsigned u64_max s end) with
  | None => Some (Err InvalidParams)
  | Some period =>
  let digits := if bool_decide (pair_get "digits" pairs = Some "8") then 8%nat else 6%nat in
  if now_ms <? 0 then Some (Err InvalidParams) else
  if period =? 0 then None else
  let counter := rev (le_bytes 8 (now_ms / 1000 / period)) in
  let algorithm := default "SHA1" (pair_get "algorithm" pairs) in
  match (if bool_decide (algorithm = "SHA1") then Some (hmac_sha1 seed counter)
         else if bool_decide (algorithm = "SHA256") then Some (hmac_sha256 seed counter)
         else if bool_decide (algorithm = "SHA512") then Some (hmac_sha512 seed counter)
         else None) with
  | None => Some (Err InvalidParams)
  | Some hash =>
  match truncate_hash hash with
  | None => None
  | Some code => Some (Ok (fixed_decimal digits (code mod 10 ^ Z.of_nat digits) ""))
  end end end end end end end.

(** [totp] for callers; [totp_total] shows the default is never taken. *)
Definition totp (uri : string) (now_ms : Z) : result string ValidationError :=
  default (Err InvalidParams) (totp_checked uri now_ms).
End Validated.

(** ** Use calls ([agent_secret_use.rs]) *)

Definition SECRET_PENDING_LIFETIME_LIMIT_MS : Z := 600000.
Definition MAX_SECRET_PENDING_PER_SCOPE : nat := 8.
Definition MAX_SECRET_PENDING_TOTAL : nat := 64.
Definition FLOW_SECRET_PENDING_LIFETIME_LIMIT_MS : Z := 86400000.
Definition MAX_FLOW_SECRET_PENDING_PER_INSTALL : nat := 16.
Definition MAX_FLOW_SECRET_PENDING_TOTAL : nat := 256.

Inductive SecretSender := Aft | Cerebellum | Basal.
#[global] Instance SecretSender_eq_dec : EqDecision SecretSender.
Proof. solve_decision. Defined.

Definition sender_module (s : SecretSender) : string :=
  match s with Aft => "aft" | Cerebellum => "cerebellum" | Basal => "basal" end.
Definition sender_actor (s : SecretSender) : string :=
  match s with Aft => "reserved:aft" | Cerebellum => "reserved:cerebellum" | Basal => "reserved:basal" end.

Definition sender_admits (s : SecretSender) (scope : SecretScope) : bool :=
  match s, scope with
  | Aft, ApiKeyScope _ _ _ | Cerebellum, SiteLoginScope _ | Basal, _ => true
  | _, _ => false
  end.

Record AskingScope := { sc_owner : string; sc_kind : string; sc_ref : string; sc_epoch : Z }.

Inductive UseTarget :=
| ApiKeyTarget (scheme host : string) (port : Z) (path : string)
| SiteLoginTarget (origin : string).

Record FlowIdentity := { flow_id : string; flow_version : Z; flow_code_hash : string; flow_install_id : string }.
#[global] Instance FlowIdentity_eq_dec : EqDecision FlowIdentity.
Proof. solve_decision. Defined.

Record SecretUse := {
  su_name : string;
  su_sender : SecretSender;
  su_scope : AskingScope;
  su_worker_parent : option AskingScope;
  su_coverage : string;
  su_agent_id : option string;
  su_target : UseTarget;
}.

Record SecretFlowApproval := {
  fa_name : string;
  fa_flow : FlowIdentity;
  fa_target : UseTarget;
  fa_methods : option (list string);
}.

Record SecretFlowUse := {
  fu_name : string;
  fu_flow : FlowIdentity;
  fu_target : UseTarget;
  fu_method : option string;
}.

Definition origin_parts (origin : string) : result (string * string * Z) ValidationError :=
  let? (scheme, authority) := ok_or (split_once "://" origin) InvalidParams in
  if str_is_empty scheme || negb (str_forallb is_ascii_lowercase scheme) then Err InvalidParams else
  let? (host, port) :=
    match split_once ":" authority with
    | Some (host, port) => let? p := ok_or (parse_unsigned 65535 port) InvalidParams in Ok (host, p)
    | None => Ok (authority, if bool_decide (scheme = "https") then 443 else 80)
    end in
  let? _ := validate_host host in
  Ok (scheme, host, port).

Definition target_validate (t : UseTarget) : result unit ValidationError :=
  match t with
  | ApiKeyTarget scheme host _ path =>
      if str_is_empty scheme ||
         negb (str_forallb (fun c => is_ascii_lowercase c || is_ascii_digit c || str_contains_char c "+-.") scheme)
      then Err InvalidParams else
      let? _ := validate_host host in
      validate_path path
  | SiteLoginTarget origin => let? _ := origin_parts origin in Ok tt
  end.

(** [UseTarget::matches]: https on its port, the same host, and a path at or below the
    prefix; for a login, the same origin. *)
Definition target_matches (t : UseTarget) (s : SecretScope) : bool :=
  match t, s with
  | ApiKeyTarget scheme host port path, ApiKeyScope expected path_prefix _ =>
      bool_decide (scheme = "https") && (port =? 443) && bool_decide (host = expected) &&
      match path_prefix with
      | None => true
      | Some prefix =>
          bool_decide (path = prefix) ||
          match strip_prefix prefix path with Some rest => str_starts_with "/" rest | None => false end
      end
  | SiteLoginTarget origin, SiteLoginScope expected =>
      match origin_parts origin with
      | Ok (scheme, host, port) =>
          bool_decide (scheme = "https") && (port =? 443) &&
          match canonical_origin expected with
          | Ok canonical => bool_decide (canonical = "https://" ++ host)%string
          | Err _ => false
          end
      | Err _ => false
      end
  | _, _ => false
  end.

(** *** Request ids: canonical ULIDs *)

Definition ULID_ALPHABET : string := "0123456789ABCDEFGHJKMNPQRSTVWXYZ".
Definition ulid_char (n : Z) : ascii := default "0"%char (String.get (Z.to_nat n) ULID_ALPHABET).

(** The random bytes under the time, most significant first. *)
Fixpoint ulid_or (value : Z) (i : nat) (random : bytes) : Z :=
  match random with
  | [] => value
  | b :: r => ulid_or (Z.lor value (Z.shiftl (Z_of_byte b) (8 * (9 - Z.of_nat i)))) (S i) r
  end.

(** The loop over the text from its end. *)
Fixpoint ulid_text (n : nat) (value : Z) (acc : string) : string :=
  match n with
  | O => acc
  | S n => ulid_text n (Z.shiftr value 5) (String (ulid_char (Z.land value 31)) acc)
  end.

(** [request_id]: [rnd] is what [getrandom] filled ten bytes with. *)
Definition request_id (rnd : option bytes) (now_ms : Z) : result string ValidationError :=
  if now_ms <? 0 then Err InvalidParams
  else if Z.shiftl 1 48 <=? now_ms then Err InvalidParams else
  let? random := ok_or rnd InvalidParams in
  Ok (ulid_text 26 (ulid_or (Z.shiftl now_ms 80) 0 random) "").

(** ** Statements and envelopes ([agent_secret_approval.rs]) *)

Definition MAX_ENVELOPE_ITEMS : nat := 16.
Definition SECRET_ISSUE_SKEW_LIMIT_MS : Z := 120000.
Definition MAX_SECRET_JSON_INTEGER : Z := Z.shiftl 1 53 - 1.
Definition USE_STATEMENT : string := "ck-secret-use-statement/v1".
Definition USE_STATEMENT_V2 : string := "ck-secret-use-statement/v2".
Definition FLOW_STATEMENT : string := "ck-secret-flow-statement/v1".
Definition FLOW_STATEMENT_V2 : string := "ck-secret-flow-statement/v2".
Definition DELETE_STATEMENT : string := "ck-secret-delete-statement/v1".

(** The ["use"] member of a statement. *)
Definition use_scope (s : SecretScope) : Value :=
  match s with
  | ApiKeyScope host path_prefix location =>
      jobj [("host", JStr host); ("path_prefix", JStr (default "" path_prefix)); ("location", JStr location)]
  | SiteLoginScope origin => jobj [("origin", JStr origin)]
  end.

Definition secret_ref (name kind incarnation : string) : Value :=
  jobj [("name", JStr name); ("kind", JStr kind); ("incarnation", JStr incarnation)].

Definition durations_for (coverage : string) : list string :=
  if bool_decide (coverage = "agent_and_workers") then ["permanent"] else ["once"; "hour"; "session"; "permanent"].

Definition approval_statement (id member incarnation : string) (call : SecretUse) (s : SecretScope) (expiry : Z)
  : Value :=
  jobj [("v", JStr USE_STATEMENT); ("request_id", JStr id); ("member_id", JStr member);
        ("scope", jobj [("owner", JStr (sc_owner (su_scope call))); ("kind", JStr (sc_kind (su_scope call)));
                        ("ref", JStr (sc_ref (su_scope call))); ("epoch", JNum (sc_epoch (su_scope call)))]);
        ("agent_id", jopt (su_agent_id call)); ("coverage", JStr (su_coverage call));
        ("secret", secret_ref (su_name call) (scope_kind s) incarnation); ("use", use_scope s);
        ("durations", JArr (map JStr (durations_for (su_coverage call))));
        ("request_expires_at_ms", JNum expiry)].

Definition approval_statement_for_asker (id member incarnation : string) (call : SecretUse) (s : SecretScope)
    (expiry : Z) (asking_member : string) : Value :=
  let statement := approval_statement id member incarnation call s expiry in
  if str_is_empty asking_member then statement
  else jset "v" (JStr USE_STATEMENT_V2) (jset "asking_member_id" (JStr asking_member) statement).

Definition flow_validate (f : FlowIdentity) : result unit ValidationError :=
  let len_ok s := ((1 <=? String.length s) && (String.length s <=? 256))%nat in
  if negb (len_ok (flow_id f)) || negb (str_forallb is_printable (flow_id f)) ||
     negb ((1 <=? flow_version f) && (flow_version f <=? MAX_SECRET_JSON_INTEGER)) ||
     negb (String.length (flow_code_hash f) =? 64)%nat || negb (str_forallb is_lower_hex_char (flow_code_hash f)) ||
     negb (len_ok (flow_install_id f)) || negb (str_forallb is_printable (flow_install_id f))
  then Err InvalidParams else Ok tt.

(** [methods.sort()]; a repeated method is refused. *)
Definition sorted_flow_methods (methods : list string) : result (list string) ValidationError :=
  if bool_decide (methods = []) ||
     existsb (fun m => negb ((1 <=? String.length m) && (String.length m <=? 16))%nat ||
                       negb (str_forallb is_ascii_uppercase m)) methods
  then Err InvalidParams else
  let sorted := merge_sort string_le methods in
  if existsb (fun p => bool_decide (p.1 = p.2)) (combine sorted (tail sorted)) then Err InvalidParams else Ok sorted.

Definition validate_flow_methods (t : UseTarget) (methods : option (list string))
  : result (option (list string)) ValidationError :=
  match t, methods with
  | ApiKeyTarget _ _ _ _, Some ms => let? sorted := sorted_flow_methods ms in Ok (Some sorted)
  | SiteLoginTarget _, None => Ok None
  | _, _ => Err InvalidParams
  end.

Definition flow_identity_encodes_unchanged (f : FlowIdentity) : result unit ValidationError :=
  let? _ := flow_validate f in
  if existsb (fun t => bool_decide (flow_id f = t)) [FLOW_STATEMENT; USE_STATEMENT]
  then Err InvalidParams else Ok tt.

Definition flow_value (f : FlowIdentity) : Value :=
  jobj [("flow_id", JStr (flow_id f)); ("version", JNum (flow_version f));
        ("code_hash", JStr (flow_code_hash f)); ("install_id", JStr (flow_install_id f))].

Definition flow_approval_statement (id member incarnation name : string) (f : FlowIdentity) (s : SecretScope)
    (methods : option (list string)) (expiry : Z) : result Value ValidationError :=
  let? _ := flow_validate f in
  let? _ := flow_identity_encodes_unchanged f in
  let? use :=
    match s, methods with
    | ApiKeyScope host path_prefix location, Some ms =>
        let? sorted := sorted_flow_methods ms in
        Ok (jobj [("host", JStr host); ("path_prefix", JStr (default "" path_prefix));
                  ("location", JStr location); ("methods", JArr (map JStr sorted))])
    | SiteLoginScope origin, None => Ok (jobj [("origin", JStr origin)])
    | _, _ => Err InvalidParams
    end in
  Ok (jobj [("v", JStr FLOW_STATEMENT); ("request_id", JStr id); ("member_id", JStr member);
            ("flow", flow_value f); ("secret", secret_ref name (scope_kind s) incarnation); ("use", use);
            ("durations", JArr [JStr "version"]); ("request_expires_at_ms", JNum expiry)]).

Definition flow_id_is_v2_statement_tag (id : string) : bool :=
  bool_decide (id = USE_STATEMENT_V2) || bool_decide (id = FLOW_STATEMENT_V2).

Definition flow_approval_statement_for_asker (id member incarnation name : string) (f : FlowIdentity)
    (s : SecretScope) (methods : option (list string)) (expiry : Z) (asking_member : string)
  : result Value ValidationError :=
  if str_is_empty asking_member then flow_approval_statement id member incarnation name f s methods expiry
  else if flow_id_is_v2_statement_tag (flow_id f) then Err InvalidParams else
  let? statement := flow_approval_statement id member incarnation name f s methods expiry in
  Ok (jset "v" (JStr FLOW_STATEMENT_V2) (jset "asking_member_id" (JStr asking_member) statement)).

Definition delete_statement (id member name kind incarnation : string) (expiry : Z) : Value :=
  jobj [("v", JStr DELETE_STATEMENT); ("request_id", JStr id); ("member_id", JStr member);
        ("secret", secret_ref name kind incarnation); ("request_expires_at_ms", JNum expiry)].

Record ApprovalItem := { ai_request_id : string; ai_statement_sha256 : string }.

Record ApprovalEnvelope := {
  ae_v : string;
  ae_items : list ApprovalItem;
  ae_decision : string;
  ae_duration : string;
  ae_grant_expires_at_ms : Z;
  ae_device_fingerprint : string;
  ae_issued_at_ms : Z;
}.

(** [serde_json::to_value] of an item and of an envelope. *)
Definition item_value (i : ApprovalItem) : Value :=
  jobj [("request_id", JStr (ai_request_id i)); ("statement_sha256", JStr (ai_statement_sha256 i))].

Definition envelope_value (e : ApprovalEnvelope) : Value :=
  jobj [("v", JStr (ae_v e)); ("items", JArr (map item_value (ae_items e)));
        ("decision", JStr (ae_decision e)); ("duration", JStr (ae_duration e));
        ("grant_expires_at_ms", JNum (ae_grant_expires_at_ms e));
        ("device_fingerprint", JStr (ae_device_fingerprint e)); ("issued_at_ms", JNum (ae_issued_at_ms e))].

(** The derived [Deserialize] of the envelope, with unknown and repeated members refused:
    [serde] reads the text itself, so this is the crate's. *)
Class EnvelopeReader := { envelope_from_slice : bytes -> option ApprovalEnvelope }.

Section Envelopes.
Context `{C : Crypto} `{X : SecretExt} `{J : JsonCodec} `{R : EnvelopeReader}.

Definition envelope_items_carry_only_their_two_keys (bs : bytes) : bool :=
  match json_from_slice bs with
  | None => false
  | Some parsed =>
      match jget "items" parsed with
      | Some (JArr items) =>
          forallb (fun item =>
            let text k := match jget k item with Some (JStr s) => s | _ => "" end in
            bool_decide (item_value {| ai_request_id := text "request_id";
                                       ai_statement_sha256 := text "statement_sha256" |} = item)) items
      | _ => false
      end
  end.

Definition canonical_bytes (e : ApprovalEnvelope) : bytes := json_to_vec (envelope_value e).

Definition ulid_shaped (id : string) : bool :=
  (String.length id =? 26)%nat &&
  match id with String c _ => ascii_Z c <=? 55 | EmptyString => false end &&
  str_forallb (fun c => str_contains_char c ULID_ALPHABET) id.

Definition item_ok (i : ApprovalItem) : bool :=
  ulid_shaped (ai_request_id i) && (String.length (ai_statement_sha256 i) =? 64)%nat &&
  str_forallb is_lower_hex_char (ai_statement_sha256 i).

Definition one_of (s : string) (l : list string) : bool := existsb (fun t => bool_decide (s = t)) l.

(** [ApprovalEnvelope::verify]. *)
Definition envelope_verify (bs signature public_key : bytes) (fingerprint : string)
  : result ApprovalEnvelope SecretError :=
  let? e := ok_or (envelope_from_slice bs) SeApprovalInvalid in
  if negb (bool_decide (ae_v e = USE_ENVELOPE_TAG)) || bool_decide (ae_items e = []) ||
     (MAX_ENVELOPE_ITEMS <? length (ae_items e))%nat ||
     negb (bool_decide (ae_device_fingerprint e = fingerprint)) ||
     (MAX_SECRET_JSON_INTEGER <? ae_issued_at_ms e) || (MAX_SECRET_JSON_INTEGER <? ae_grant_expires_at_ms e) ||
     negb (one_of (ae_decision e) ["allow"; "delete"]) ||
     negb (one_of (ae_duration e) ["once"; "hour"; "session"; "permanent"; "none"; "version"]) ||
     (bool_decide (ae_duration e = "version") &&
      (negb (bool_decide (ae_decision e = "allow")) || negb (ae_grant_expires_at_ms e =? 0))) ||
     negb (forallb item_ok (ae_items e)) || negb (bool_decide (NoDup (map ai_request_id (ae_items e)))) ||
     negb (envelope_items_carry_only_their_two_keys bs) ||
     negb (bool_decide (canonical_bytes e = bs))
  then Err SeApprovalInvalid
  else if ecdsa_verify public_key bs signature then Ok e else Err SeApprovalInvalid.
End Envelopes.

(** ** A concrete instance

    Addresses of the form [scheme://host/path?key=value], hex for base64, checksums for the
    hashes and signatures, and the envelope read off its JSON value. *)

Module ToySecretExt.
Definition url (s : string) : option UrlParts :=
  match split_once "://" s with
  | Some (scheme, rest) =>
      let '(before, query) := match split_once "?" rest with Some x => x | None => (rest, "") end in
      let '(host, path) := match split_once "/" before with
                           | Some (h, p) => (h, ("/" ++ p)%string)
                           | None => (before, "/")
                           end in
      Some {| url_scheme := scheme; url_host := Some host; url_path := path; url_username := "";
              url_password := None; url_port := None; url_fragment := None;
              url_query_pairs := match split_once "=" query with Some kv => [kv] | None => [] end |}
  | None => None
  end.

#[export] Instance toy_secret_ext : SecretExt := {|
  url_parse := url;
  hmac_sha1 k m := take 20 (Toy.digest (length_prefixed 8 k ++ m));
  hmac_sha512 k m := let h := Toy.digest (length_prefixed 8 k ++ m) in h ++ h;
  b64url_encode := hex;
  b64url_decode := from_hex_pairs;
  p256_key_ok k := (length k =? 65)%nat;
  ecdsa_verify k m sig := bool_decide (sig = Toy.digest (k ++ m));
|}.

#[export] Instance toy_secret_ext_laws : SecretExtLaws toy_secret_ext.
Proof.
  split; cbn -[le_bytes]; intros; unfold Toy.digest.
  - rewrite length_take, length_le_bytes. done.
  - rewrite length_app, length_le_bytes. done.
  - apply from_hex_pairs_hex.
Qed.

Definition item_of (v : Value) : option ApprovalItem :=
  match jget "request_id" v, jget "statement_sha256" v with
  | Some (JStr id), Some (JStr h) => Some {| ai_request_id := id; ai_statement_sha256 := h |}
  | _, _ => None
  end.

Definition envelope_of (v : Value) : option ApprovalEnvelope :=
  match jget "v" v, jget "items" v, jget "decision" v, jget "duration" v, jget "grant_expires_at_ms" v,
        jget "device_fingerprint" v, jget "issued_at_ms" v with
  | Some (JStr tag), Some (JArr items), Some (JStr decision), Some (JStr duration), Some (JNum expiry),
    Some (JStr fp), Some (JNum issued) =>
      Some {| ae_v := tag; ae_items := omap item_of items; ae_decision := decision; ae_duration := duration;
              ae_grant_expires_at_ms := expiry; ae_device_fingerprint := fp; ae_issued_at_ms := issued |}
  | _, _, _, _, _, _, _ => None
  end.

#[export] Instance toy_reader `{JsonCodec} : EnvelopeReader :=
  {| envelope_from_slice bs := json_from_slice bs ≫= envelope_of |}.
End ToySecretExt.
