(* ===== verification/SecretCodec.v ===== *)
(** * The sealed form of a secret, and the codes derived from it

    Round trips of the length-prefixed fields ([agent_secret.rs]): what a sealed secret or
    a deposit plaintext decodes to, and that the scope is bound to the material. *)

From stdpp Require Import gmap.
From S2P Require Import Prelude Text Crypto Json Record CredentialId Catalog Envelope Database Store Secrets.

(** ** Fields *)

Lemma Z_of_byte_range b : 0 <= Z_of_byte b < 256.
Proof. destruct b; cbn; lia. Qed.

Lemma le_bytes_u64 bs : le_bytes (length bs) (u64_of_le bs) = bs.
Proof.
  induction bs as [|b bs IH]; [done|]. cbn [length le_bytes u64_of_le fold_right].
  change (fold_right _ 0 bs) with (u64_of_le bs). pose proof (Z_of_byte_range b).
  replace ((Z_of_byte b + 256 * u64_of_le bs) / 256) with (u64_of_le bs)
    by (symmetry; rewrite Z.mul_comm, Z.div_add by lia; rewrite Z.div_small; lia).
  rewrite IH. f_equal. rewrite <- (byte_of_Z_of_byte b) at 2. unfold byte_of_Z.
  by rewrite Z.mul_comm, Z_mod_plus_full.
Qed.

Lemma u64_of_le_range bs : 0 <= u64_of_le bs < 256 ^ Z.of_nat (length bs).
Proof.
  induction bs as [|b bs IH]; [cbn; lia|]. cbn [length u64_of_le fold_right].
  change (fold_right _ 0 bs) with (u64_of_le bs). pose proof (Z_of_byte_range b).
  rewrite Nat2Z.inj_succ, Z.pow_succ_r by lia. lia.
Qed.

Lemma u64_of_le_bytes n z : 0 <= z < 256 ^ Z.of_nat n -> u64_of_le (le_bytes n z) = z.
Proof.
  intros Hz. pose proof (u64_of_le_range (le_bytes n z)) as Hr. rewrite length_le_bytes in Hr.
  apply (le_bytes_inj n); [done|done|]. rewrite <- (length_le_bytes n z) at 1. apply le_bytes_u64.
Qed.

(** A field fits its eight-byte length. *)
Definition field_ok (f : bytes) : Prop := Z.of_nat (length f) < 256 ^ 8.

Lemma fields_next_app f r : field_ok f -> fields_next (length_prefixed 8 f ++ r) = Ok (f, r).
Proof.
  intros Hf. unfold field_ok in Hf. unfold fields_next, length_prefixed.
  set (n := Z.of_nat (length f)) in *. pose proof (length_le_bytes 8 n) as Hl.
  rewrite <- app_assoc.
  assert (take 8 (le_bytes 8 n ++ f ++ r) = le_bytes 8 n) as -> by (rewrite <- Hl at 1; apply take_app_length).
  assert (drop 8 (le_bytes 8 n ++ f ++ r) = f ++ r) as -> by (rewrite <- Hl at 1; apply drop_app_length).
  rewrite u64_of_le_bytes by lia. replace (length (le_bytes 8 n ++ f ++ r) <? 8)%nat with false
    by (symmetry; apply Nat.ltb_ge; rewrite length_app; lia).
  replace (n <=? Z.of_nat (length (f ++ r))) with true by (symmetry; apply Z.leb_le; rewrite length_app; lia).
  unfold n. by rewrite Nat2Z.id, take_app_length, drop_app_length.
Qed.

Lemma fields_next_inv bs f r : fields_next bs = Ok (f, r) -> bs = length_prefixed 8 f ++ r /\ field_ok f.
Proof.
  unfold fields_next. destruct (length bs <? 8)%nat eqn:E; [done|]. apply Nat.ltb_ge in E.
  destruct (u64_of_le (take 8 bs) <=? _) eqn:El; [|done]. apply Z.leb_le in El.
  pose proof (u64_of_le_range (take 8 bs)) as Hr. rewrite length_take, Nat.min_l in Hr by done. intros [= <- <-].
  assert (length (take (Z.to_nat (u64_of_le (take 8 bs))) (drop 8 bs)) = Z.to_nat (u64_of_le (take 8 bs))) as Hlen
    by (rewrite length_take; lia).
  split; [|unfold field_ok; rewrite Hlen; cbn in *; lia].
  unfold length_prefixed. rewrite Hlen, Z2Nat.id by lia. rewrite <- app_assoc, take_drop.
  rewrite <- (take_drop 8 bs) at 1. f_equal. rewrite <- (le_bytes_u64 (take 8 bs)) at 1.
  by rewrite length_take, Nat.min_l.
Qed.

Lemma fields_expect_iff expected bs r :
  field_ok expected -> fields_expect expected bs = Ok r <-> bs = length_prefixed 8 expected ++ r.
Proof.
  intros Hf. unfold fields_expect. split.
  - destruct (fields_next bs) as [[v x]|] eqn:E; [|done]. cbn. case_bool_decide; [|done]. intros [= <-]. subst v.
    by apply fields_next_inv in E as [].
  - intros ->. rewrite fields_next_app by done. cbn. by rewrite bool_decide_true.
Qed.

Lemma str_bytes_of bs : str_bytes (String.string_of_list_byte bs) = bs.
Proof. apply String.list_byte_of_string_of_list_byte. Qed.

Lemma of_str_bytes s : String.string_of_list_byte (str_bytes s) = s.
Proof. apply String.string_of_list_byte_of_string. Qed.

(** Text a field can carry and the reader accepts. *)
Definition text_ok (s : string) : Prop := field_ok (str_bytes s) /\ utf8_valid (str_bytes s) = true.

Lemma fields_text_iff s bs r : fields_text bs = Ok (s, r) <-> bs = length_prefixed 8 (str_bytes s) ++ r /\ text_ok s.
Proof.
  unfold fields_text, text_ok. split.
  - destruct (fields_next bs) as [[v x]|] eqn:E; [|done]. cbn. destruct (utf8_valid v) eqn:Ev; [|done].
    intros [= <- <-]. rewrite str_bytes_of. by apply fields_next_inv in E as [].
  - intros [-> [Hf Hu]]. rewrite fields_next_app by done. cbn. by rewrite Hu, of_str_bytes.
Qed.

(** ** Material *)

(** What the reader can return: text that is UTF-8, and an absent [otpauth] rather than
    an empty one. *)
Definition material_ok (m : SecretMaterial) : Prop :=
  match m with
  | ApiKeyMaterial key => field_ok key
  | SiteLoginMaterial username password otpauth =>
      text_ok username /\ text_ok password /\ text_ok (default "" otpauth) /\ otpauth <> Some ""
  end.

Definition material_kind (m : SecretMaterial) : string :=
  match m with ApiKeyMaterial _ => "agent_api_key" | SiteLoginMaterial _ _ _ => "site_login" end.

Lemma push_nil f : push_field [] f = length_prefixed 8 f.
Proof. done. Qed.

Lemma otp_field u : default "" (if str_is_empty u then None else Some u) = u.
Proof. by destruct u. Qed.

(** The material reader reads exactly what the writer writes. *)
Lemma fields_material_iff kind bs m r :
  fields_material kind bs = Ok (m, r) <->
  bs = material_encode_fields m ++ r /\ material_ok m /\ kind = material_kind m.
Proof.
  unfold fields_material. split.
  - case_bool_decide as Ek.
    { destruct (fields_next bs) as [[key x]|] eqn:E; [|done]. cbn. intros [= <- <-].
      by apply fields_next_inv in E as []. }
    case_bool_decide as Ek'; [|done].
    destruct (fields_text bs) as [[u r1]|] eqn:E1; [|done]. cbn.
    destruct (fields_text r1) as [[p r2]|] eqn:E2; [|done]. cbn.
    destruct (fields_text r2) as [[o r3]|] eqn:E3; [|done]. cbn. intros [= <- <-].
    apply fields_text_iff in E1 as [-> H1], E2 as [-> H2], E3 as [-> H3].
    split_and!; [|split_and!|]; auto.
    + cbn [material_encode_fields]. unfold push_field. rewrite otp_field. by rewrite <- !app_assoc.
    + by rewrite otp_field.
    + by destruct o.
  - intros (-> & Hm & ->). destruct m as [key|u p o]; cbn [material_kind material_encode_fields] in *.
    + rewrite bool_decide_true by done. rewrite push_nil, fields_next_app by done. done.
    + rewrite bool_decide_false, bool_decide_true by done. destruct Hm as (H1 & H2 & H3 & H4).
      unfold push_field. rewrite <- !app_assoc. cbn [app].
      assert (forall s x, text_ok s -> fields_text (length_prefixed 8 (str_bytes s) ++ x) = Ok (s, x)) as Ht
        by (intros s x Hs; by apply fields_text_iff).
      do 3 (rewrite Ht by done; cbn -[fields_text length_prefixed str_bytes]).
      by destruct o as [[|]|].
Qed.

(** A deposit's plaintext decodes to the material it was written from, and to no other. *)
Lemma decode_deposit_iff kind bs m :
  decode_deposit_plaintext kind bs = Ok m <-> bs = deposit_plaintext m /\ material_ok m /\ kind = material_kind m.
Proof.
  unfold decode_deposit_plaintext, deposit_plaintext. rewrite push_nil. split.
  - destruct (fields_expect _ _) as [rest|] eqn:E; [|done]. cbn. apply fields_expect_iff in E as ->; [|by vm_compute].
    destruct (fields_material kind rest) as [[x r]|] eqn:Em; [|done]. cbn.
    apply fields_material_iff in Em as (-> & ? & ?). destruct r; [|done]. cbn. intros [= <-]. by rewrite app_nil_r.
  - intros (-> & Hm & Hk).
    replace (fields_expect _ _) with (Ok (E := ValidationError) (material_encode_fields m))
      by (symmetry; apply fields_expect_iff; [by vm_compute|done]). cbn.
    replace (fields_material _ _) with (Ok (E := ValidationError) (m, @nil byte)); [done|].
    symmetry. apply fields_material_iff. by rewrite app_nil_r.
Qed.

(** ** The sealed secret *)

(** The kinds agree, the scope encodes, and the text of the scope fits. *)
Lemma sealed_body_fields s m body :
  sealed_body s m = Ok body <->
  material_kind m = scope_kind s /\ exists fields, scope_encode_fields s = Ok fields /\
    body = length_prefixed 8 SEALED_BODY_TAG ++ length_prefixed 8 (str_bytes (scope_kind s)) ++ fields ++
           material_encode_fields m.
Proof.
  unfold sealed_body, push_field. cbv zeta. rewrite app_nil_l.
  generalize (length_prefixed 8 SEALED_BODY_TAG), (length_prefixed 8 (str_bytes (scope_kind s))). intros tag kind.
  assert (material_matches m s = true <-> material_kind m = scope_kind s) as Hk by (by destruct m, s).
  split.
  - destruct (material_matches m s); [|done]. destruct (scope_encode_fields s) as [f|]; [|done].
    intros [= <-]. split; [by apply Hk|]. exists f. by rewrite <- app_assoc.
  - intros [->%Hk (f & -> & ->)]. cbv beta iota delta [negb]. by rewrite <- app_assoc.
Qed.

Lemma kind_field_ok s : field_ok (str_bytes (scope_kind s)).
Proof. destruct s; by vm_compute. Qed.

Lemma strip_bytes_iff p bs r : strip_bytes p bs = Some r <-> bs = p ++ r.
Proof.
  unfold strip_bytes. split.
  - case_bool_decide as E; [|done]. intros [= <-]. rewrite <- E at 1. by rewrite take_drop.
  - intros ->. by rewrite take_app_length, bool_decide_true, drop_app_length.
Qed.

Section SealedSecret.
Context `{C : Crypto} `{!CryptoLaws C}.

(** What follows the seal: the reader accepts exactly the bodies the writer makes. *)
Definition body_opens (s : SecretScope) (body : bytes) : result SecretMaterial ValidationError :=
  let? rest := fields_expect SEALED_BODY_TAG body in
  let? rest := fields_expect (str_bytes (scope_kind s)) rest in
  let? expected := scope_encode_fields s in
  let? rest := ok_or (strip_bytes expected rest) InvalidParams in
  let? (material, rest) := fields_material (scope_kind s) rest in
  let? _ := fields_end rest in
  Ok material.

Lemma body_opens_iff s body m : body_opens s body = Ok m <-> sealed_body s m = Ok body /\ material_ok m.
Proof.
  unfold body_opens. rewrite sealed_body_fields. split.
  - destruct (fields_expect SEALED_BODY_TAG body) as [r1|] eqn:E1; [|done]. cbn [ok_or].
    apply fields_expect_iff in E1 as ->; [|by vm_compute]. cbv beta iota.
    destruct (fields_expect _ r1) as [r2|] eqn:E2; [|done]. apply fields_expect_iff in E2 as ->; [|apply kind_field_ok].
    destruct (scope_encode_fields s) as [f|] eqn:Es; [|done].
    destruct (strip_bytes f r2) as [r3|] eqn:E3; [|done]. apply strip_bytes_iff in E3 as ->. cbn [ok_or].
    destruct (fields_material _ r3) as [[x r4]|] eqn:E4; [|done]. apply fields_material_iff in E4 as (-> & ? & ?).
    destruct r4; [|done]. cbn. intros [= <-]. split; [|done]. split; [done|]. exists f. by rewrite app_nil_r.
  - intros [[Hk (f & Es & ->)] Hm].
    replace (fields_expect SEALED_BODY_TAG _) with
      (Ok (E := ValidationError) (length_prefixed 8 (str_bytes (scope_kind s)) ++ f ++ material_encode_fields m))
      by (symmetry; by apply fields_expect_iff; [vm_compute|]).
    cbv beta iota. replace (fields_expect _ _) with (Ok (E := ValidationError) (f ++ material_encode_fields m))
      by (symmetry; by apply fields_expect_iff; [apply kind_field_ok|]). rewrite Es.
    replace (strip_bytes _ _) with (Some (material_encode_fields m)) by (symmetry; by apply strip_bytes_iff). cbn [ok_or].
    replace (fields_material _ _) with (Ok (E := ValidationError) (m, @nil byte)); [done|].
    symmetry. apply fields_material_iff. by rewrite app_nil_r.
Qed.

Lemma secret_open_body key incarnation name s blob :
  secret_open key incarnation name s blob =
    (let? id := record_binding (scope_kind s) incarnation name in
     let? body := map_err (fun _ => InvalidParams)
       (open key blob {| rb_credential_id := id; rb_record_version := SECRET_RECORD_VERSION |}) in
     body_opens s body).
Proof. done. Qed.

(** A stored secret opens to exactly what was sealed: under a key, an incarnation, a name
    and a scope, a blob opens to [m] if and only if it is a sealing of [m] under all four
    and [m] is material the format can carry (fields below 2^64 bytes, UTF-8 text, no
    empty [otpauth]). *)
Theorem secret_open_iff_sealed key incarnation name s blob m :
  secret_open key incarnation name s blob = Ok m <->
  material_ok m /\ exists nonce, length nonce = NONCE_LEN /\
    secret_seal (Some nonce) key incarnation name s m = Ok blob.
Proof.
  rewrite secret_open_body. unfold secret_seal. destruct (record_binding _ _ _) as [id|e].
  2:{ split; [done|]. by intros (_ & ? & _ & ?). }
  set (b := {| rb_credential_id := id; rb_record_version := SECRET_RECORD_VERSION |}). split.
  - destruct (open key blob b) as [body|] eqn:Eo; [|done]. intros [Hs Hm]%body_opens_iff. split; [done|].
    apply open_inv_sealed in Eo as (nonce & Hn & Hb). exists nonce. split; [done|]. rewrite Hs.
    change (map_err (fun _ => InvalidParams) (seal (Some nonce) key body b) = Ok blob). by rewrite Hb.
  - intros (Hm & nonce & Hn & Hs). destruct (sealed_body s m) as [body|] eqn:Eb; [|done].
    change (map_err (fun _ => InvalidParams) (seal (Some nonce) key body b) = Ok blob) in Hs.
    destruct (seal (Some nonce) key body b) as [x|] eqn:Ex; [|done]. injection Hs as ->.
    rewrite (open_sealed nonce key body b blob Hn Ex).
    change (body_opens s body = Ok m). by apply body_opens_iff.
Qed.

(** The text of a scope, as far as it is bound: an absent and an empty path prefix are the
    same bytes. *)
Definition scope_text (s : SecretScope) : list string :=
  match s with
  | ApiKeyScope host path_prefix location => [host; default "" path_prefix; location]
  | SiteLoginScope origin => [origin]
  end.
Definition scope_fits (s : SecretScope) : Prop := Forall (fun t => field_ok (str_bytes t)) (scope_text s).

Lemma fields_app_inj l l' r r' : length l = length l' ->
  Forall (fun t => field_ok (str_bytes t)) l -> Forall (fun t => field_ok (str_bytes t)) l' ->
  concat (map (fun t => length_prefixed 8 (str_bytes t)) l) ++ r =
  concat (map (fun t => length_prefixed 8 (str_bytes t)) l') ++ r' -> l = l' /\ r = r'.
Proof.
  revert l'. induction l as [|t l IH]; intros [|t' l'] Hl H H'; try done. cbn [map concat].
  rewrite <- !app_assoc. apply Forall_cons in H as [Ht H], H' as [Ht' H']. intros E.
  apply length_prefixed_app_inj in E as [E1 E2]; [|done..].
  apply IH in E2 as [-> ->]; [|by injection Hl|done|done]. split; [|done]. f_equal.
  by rewrite <- (of_str_bytes t), E1, of_str_bytes.
Qed.

Lemma scope_fields_text s fields : scope_encode_fields s = Ok fields ->
  fields = concat (map (fun t => length_prefixed 8 (str_bytes t)) (scope_text s)).
Proof.
  destruct s as [h p l|o]; cbn [scope_encode_fields scope_text map concat]; unfold push_field; rewrite ?app_nil_l, ?app_nil_r.
  - destruct (str_is_empty l); [done|]. cbv zeta. rewrite ?app_nil_l.
    generalize (length_prefixed 8 (str_bytes h)), (length_prefixed 8 (str_bytes (default "" p))), (length_prefixed 8 (str_bytes l)).
    intros x y z [= <-]. by rewrite <- app_assoc.
  - generalize (length_prefixed 8 (str_bytes o)). by intros x [= <-].
Qed.

(** The scope is sealed with the material: under one key, incarnation and name, a blob
    opens under at most one scope of a kind and to one material, so changing a host, path
    prefix, location or origin column of a row makes it unreadable. *)
Theorem sealed_scope_is_unique key incarnation name s s' blob m m' :
  scope_kind s = scope_kind s' -> scope_fits s -> scope_fits s' ->
  secret_open key incarnation name s blob = Ok m -> secret_open key incarnation name s' blob = Ok m' ->
  scope_text s = scope_text s' /\ m = m'.
Proof.
  intros Hk Hf Hf'. rewrite !secret_open_body, <- Hk. destruct (record_binding _ _ _) as [id|e]; [|done].
  destruct (open _ _ _) as [body|]; [|done]. cbn [map_err].
  intros [Hb Hm]%body_opens_iff [Hb' Hm']%body_opens_iff.
  apply sealed_body_fields in Hb as [K1 (f & Ef & ->)], Hb' as [K2 (f' & Ef' & E)].
  rewrite <- Hk in E. apply app_inv_head, app_inv_head in E.
  apply scope_fields_text in Ef as ->, Ef' as ->.
  apply fields_app_inj in E as [Et Em]; [|by destruct s, s'|done|done]. split; [done|].
  assert (fields_material (material_kind m) (material_encode_fields m ++ []) = Ok (m, [])) as E1
    by (by apply fields_material_iff).
  assert (fields_material (material_kind m) (material_encode_fields m ++ []) = Ok (m', [])) as E2
    by (rewrite Em; apply fields_material_iff; split_and!; congruence).
  congruence.
Qed.
End SealedSecret.

(** ** Where a secret may be sent *)

(** Dot segments, resolved as RFC 3986 does: a reference the source only refuses. *)
Fixpoint resolve_dots (done : list string) (segments : list string) : list string :=
  match segments with
  | [] => rev done
  | s :: rest =>
      if bool_decide (s = ".") then resolve_dots done rest
      else if bool_decide (s = "..") then resolve_dots (tail done) rest
      else resolve_dots (s :: done) rest
  end.

Lemma resolve_dots_none done segments :
  Forall (fun s => s <> "." /\ s <> "..") segments -> resolve_dots done segments = rev done ++ segments.
Proof.
  intros H. revert done. induction H as [|s l [H1 H2] _ IH]; intros acc; cbn; [by rewrite app_nil_r|].
  rewrite !bool_decide_false by done. rewrite IH. cbn. by rewrite <- app_assoc.
Qed.

Lemma split_on_extend c s t h l : split_on c s = (h, l) ->
  split_list c (s ++ String c t) = (h :: l) ++ split_list c t.
Proof.
  revert h l. induction s as [|d s IH]; intros h l.
  - intros [= <- <-]. unfold split_list. change ("" ++ String c t)%string with (String c t). cbn [split_on].
    destruct (split_on c t).    by rewrite Ascii.eqb_refl.
  - change (String d s ++ String c t)%string with (String d (s ++ String c t)).
    cbn [split_on]. destruct (split_on c s) as [h' l'] eqn:E. intros Eh. specialize (IH _ _ eq_refl).
    unfold split_list in *. cbn [split_on]. destruct (split_on c (s ++ String c t)) as [h2 l2].
    destruct (Ascii.eqb c d); injection Eh as <- <-; [by rewrite IH|]. cbn in *. by injection IH as -> ->.
Qed.

(** Decoding distributes over a cut that does not split an escape. *)
Lemma percent_decode_app n a b a' ab' : (String.length a <= n)%nat ->
  percent_decode a = Ok a' -> percent_decode (a ++ b) = Ok ab' ->
  exists b', percent_decode b = Ok b' /\ ab' = (a' ++ b')%string.
Proof.
  revert a a' ab'. induction n as [|n IH]; intros [|c a] a' ab' Hn; try (cbn in Hn; lia);
    try (intros [= <-] Hb; by exists ab').
  change (String c a ++ b)%string with (String c (a ++ b)). cbn [percent_decode]. cbn in Hn. destruct (Ascii.eqb c "%").
  - destruct a as [|x [|y r]]; try done. change (String x (String y r) ++ b)%string with (String x (String y (r ++ b))).
    cbv beta iota zeta. destruct (from_str_radix16 x y) as [z|]; [|done].
    destruct (_ || _); [done|]. destruct (percent_decode r) as [r'|] eqn:Er; [|done]. intros [= <-].
    destruct (percent_decode (r ++ b)) as [rb'|] eqn:Erb; [|done]. intros [= <-].
    destruct (IH r r' rb') as (b' & ? & ->); [cbn in Hn; lia|done|done|]. by exists b'.
  - destruct (percent_decode a) as [r'|] eqn:Er; [|done]. intros [= <-].
    destruct (percent_decode (a ++ b)) as [rb'|] eqn:Erb; [|done]. intros [= <-].
    destruct (IH a r' rb') as (b' & ? & ->); [lia|done|done|]. by exists b'.
Qed.

Lemma strip_prefix_app p s r : strip_prefix p s = Some r -> s = (p ++ r)%string.
Proof.
  revert s. induction p as [|a p IH]; intros [|b s]; cbn; try done; try (by intros [= <-]).
  destruct (Ascii.eqb_spec a b) as [->|]; [|done]. intros H. by rewrite (IH _ H).
Qed.

Lemma validate_path_ok path : validate_path path = Ok tt ->
  exists decoded, percent_decode path = Ok decoded /\
    Forall (fun s => s <> "." /\ s <> "..") (split_list "/" decoded).
Proof.
  unfold validate_path. destruct (_ || _); [done|]. destruct (percent_decode path) as [decoded|]; [|done].
  destruct (existsb _ _) eqn:E; [done|]. intros _. exists decoded. split; [done|].
  apply list.Forall_forall. intros s Hs. apply not_true_iff_false in E. rewrite existsb_exists in E.
  split; intros ->; apply E; [exists "."|exists ".."]; (split; [by apply list_elem_of_In|done]).
Qed.

(** C33: an API key with a path prefix is only released for a target below it: the target is
    https on port 443 of exactly the scope's host, and the segments of the decoded path
    extend those of the decoded prefix and contain no dot segment, so resolving dots as a
    server may leaves the path where it is. *)
Theorem target_stays_below_prefix scheme host port path expected prefix location :
  validate_scope (ApiKeyScope expected (Some prefix) location) = Ok tt ->
  target_validate (ApiKeyTarget scheme host port path) = Ok tt ->
  target_matches (ApiKeyTarget scheme host port path) (ApiKeyScope expected (Some prefix) location) = true ->
  scheme = "https" /\ port = 443 /\ host = expected /\
  exists p q more, percent_decode prefix = Ok p /\ percent_decode path = Ok q /\
    split_list "/" q = split_list "/" p ++ more /\
    resolve_dots [] (split_list "/" q) = split_list "/" q.
Proof.
  intros Hs Ht Hm. cbn [target_matches] in Hm.
  apply andb_true_iff in Hm as [Hm Hp]. bool_hyps. split_and!; [done|lia|done|].
  assert (validate_path prefix = Ok tt) as (p & Ep & _)%validate_path_ok.
  { cbn in Hs. destruct (validate_host expected); [|done]. by destruct (validate_path prefix) as [[]|]. }
  assert (validate_path path = Ok tt) as (q & Eq & Hq)%validate_path_ok.
  { cbn in Ht. destruct (_ || _); [done|]. by destruct (validate_host host). }
  assert (exists more, split_list "/" q = split_list "/" p ++ more) as [more Hmore].
  { apply orb_true_iff in Hp as [?|Hp]; bool_hyps; [subst path; exists []; rewrite app_nil_r; congruence|].
    destruct (strip_prefix prefix path) as [rest|] eqn:Er; [|done]. apply strip_prefix_app in Er as ->.
    destruct (percent_decode_app _ prefix rest p q (le_n _) Ep Eq) as (r' & Hr & ->).
    destruct rest as [|c rest]; [done|].
    assert (c = "/"%char) as -> by (unfold str_starts_with, String.prefix in Hp; by destruct (ascii_dec "/" c)).
    cbn in Hr. destruct (percent_decode rest) as [x|]; [|done]. injection Hr as <-.
    unfold split_list at 2. destruct (split_on "/" p) as [h l] eqn:El. exists (split_list "/" x).
    by apply split_on_extend. }
  exists p, q, more. split_and!; [done|done|done|]. by rewrite resolve_dots_none.
Qed.

(** ** One-time codes *)

Section Totp.
Context `{C : Crypto} `{!CryptoLaws C} `{X : SecretExt} `{!SecretExtLaws X}.

(** The digest is at least 20 bytes, so the offset of RFC 4226 stays inside it. *)
Lemma truncate_total hash : (20 <= length hash)%nat -> exists z, truncate_hash hash = Some z /\ 0 <= z < 2 ^ 31.
Proof.
  intros Hl. unfold truncate_hash. destruct (lookup_lt_is_Some_2 hash (length hash - 1)) as [b ->]; [lia|].
  assert (Z.land (Z_of_byte b) 15 = Z_of_byte b mod 2 ^ 4) as ->
    by (change 15 with (Z.ones 4); by rewrite Z.land_ones).
  set (o := Z.to_nat _). assert (o < 16)%nat as Ho by (unfold o; pose proof (Z.mod_pos_bound (Z_of_byte b) (2 ^ 4)); lia).
  clearbody o. rewrite slice_in_range by lia.
  eexists. split; [done|]. change 0x7fffffff with (Z.ones 31). rewrite Z.land_ones by lia. apply Z.mod_pos_bound. lia.
Qed.

Lemma length_fixed_decimal w z acc : String.length (fixed_decimal w z acc) = (w + String.length acc)%nat.
Proof. revert z acc. induction w as [|w IH]; intros z acc; cbn; [done|]. rewrite IH. cbn. lia. Qed.

Lemma fixed_decimal_digits w z acc : str_forallb is_ascii_digit acc = true -> 0 <= z ->
  str_forallb is_ascii_digit (fixed_decimal w z acc) = true.
Proof.
  revert z acc. induction w as [|w IH]; intros z acc Ha Hz; cbn [fixed_decimal]; [done|].
  apply IH; [|apply Z.div_pos; lia]. cbn [str_forallb]. rewrite Ha, andb_true_r.
  pose proof (Z.mod_pos_bound z 10). assert (exists n : nat, (n < 10)%nat /\ z mod 10 = Z.of_nat n) as (n & Hn & ->)
    by (exists (Z.to_nat (z mod 10)); lia).
  do 10 (destruct n as [|n]; [done|]). lia.
Qed.

Lemma otpauth_period seen pairs k v :
  otpauth_pairs_ok seen pairs = true -> (k, v) ∈ pairs -> otpauth_pair_ok k v = true.
Proof.
  revert seen. induction pairs as [|[k' v'] pairs IH]; intros seen H Hin; [by apply not_elem_of_nil in Hin|].
  cbn in H. bool_hyps. apply elem_of_cons in Hin as [[= -> ->]|Hin]; [done|by eapply IH].
Qed.

Lemma pair_get_elem k pairs v : pair_get k pairs = Some v -> (k, v) ∈ pairs.
Proof.
  unfold pair_get. destruct (find _ _) as [[k' v']|] eqn:E; [|done]. intros [= <-].
  apply find_some in E as [Hin Ek]. apply String.eqb_eq in Ek. cbn in Ek. subst k'.
  apply in_rev in Hin. by apply list_elem_of_In.
Qed.

(** Computing a one-time code never panics, whatever the stored URI and clock: the period
    is never zero and the truncation never leaves the digest. A code is six or eight
    decimal digits. *)
Theorem totp_never_panics uri now :
  exists r, totp_checked uri now = Some r /\ totp uri now = r /\
    forall code, r = Ok code ->
      (String.length code = 6 \/ String.length code = 8)%nat /\ str_forallb is_ascii_digit code = true.
Proof.
  assert (exists r, totp_checked uri now = Some r /\ forall code, r = Ok code ->
      (String.length code = 6 \/ String.length code = 8)%nat /\ str_forallb is_ascii_digit code = true) as (r & E & Hr);
    [|exists r; unfold totp; by rewrite E].
  unfold totp_checked. destruct (validate_otpauth uri) as [[]|e] eqn:Ev; [|by eexists].
  unfold validate_otpauth in Ev. destruct (url_parse uri) as [url|]; [|done]. cbn [ok_or] in Ev.
  destruct (_ || _); [done|]. destruct (otpauth_pairs_ok [] _) eqn:Ep; [|done]. clear Ev.
  destruct (pair_get "secret" _) as [enc|]; [|by eexists]. destruct (base32_decode _ _ _) as [seed|]; [|by eexists].
  destruct (match pair_get "period" (url_query_pairs url) with None => Some 30 | Some s => parse_unsigned u64_max s end)
    as [period|] eqn:Eper; [|by eexists].
  destruct (now <? 0); [by eexists|]. destruct (period =? 0) eqn:Ez.
  { exfalso. apply Z.eqb_eq in Ez as ->. destruct (pair_get "period" _) as [v|] eqn:Eg; [|done].
    apply pair_get_elem in Eg. apply (otpauth_period _ _ _ _ Ep) in Eg. unfold otpauth_pair_ok in Eg. cbn in Eg.
    by rewrite Eper in Eg. }
  match goal with |- context [match ?h with Some _ => _ | None => Some (Err InvalidParams) end] => destruct h as [hash|] eqn:Eh end;
    [|by eexists].
  assert (20 <= length hash)%nat as Hl.
  { destruct (bool_decide _); [injection Eh as <-; rewrite hmac_sha1_length; lia|].
    destruct (bool_decide _); [injection Eh as <-; rewrite hmac_length; lia|].
    destruct (bool_decide _); [injection Eh as <-; rewrite hmac_sha512_length; lia|done]. }
  destruct (truncate_total hash Hl) as (z & -> & Hz). eexists. split; [done|]. intros code [= <-].
  rewrite length_fixed_decimal. split; [destruct (bool_decide (pair_get "digits" _ = _)); [by right|by left]|].
  apply fixed_decimal_digits; [done|]. apply Z.mod_pos_bound. destruct (bool_decide _); cbn; lia.
Qed.
End Totp.

(** ** Request ids *)

Lemma ulid_or_high value i random : (i + length random <= 10)%nat ->
  Z.shiftr (ulid_or value i random) 80 = Z.shiftr value 80.
Proof.
  revert value i. induction random as [|b r IH]; intros value i Hi; [done|]. cbn [ulid_or]. cbn in Hi.
  rewrite IH by lia. rewrite Z.shiftr_lor.
  replace (Z.shiftr (Z.shiftl (Z_of_byte b) (8 * (9 - Z.of_nat i))) 80) with 0; [apply Z.lor_0_r|].
  symmetry. rewrite Z.shiftr_div_pow2, Z.shiftl_mul_pow2 by lia. apply Z.div_small.
  pose proof (Z_of_byte_range b). split; [apply Z.mul_nonneg_nonneg; [lia|apply Z.pow_nonneg; lia]|].
  apply Z.lt_le_trans with (256 * 2 ^ (8 * (9 - Z.of_nat i))); [apply Z.mul_lt_mono_pos_r; [apply Z.pow_pos_nonneg|]; lia|].
  change 256 with (2 ^ 8). rewrite <- Z.pow_add_r by lia. apply Z.pow_le_mono_r; lia.
Qed.

Lemma ulid_char_known n : 0 <= n < 32 -> str_contains_char (ulid_char n) ULID_ALPHABET = true.
Proof.
  intros Hn. assert (exists k : nat, (k < 32)%nat /\ n = Z.of_nat k) as (k & Hk & ->) by (exists (Z.to_nat n); lia).
  do 32 (destruct k as [|k]; [done|]). lia.
Qed.

Lemma ulid_char_first n : 0 <= n < 8 -> ascii_Z (ulid_char n) <= 55.
Proof.
  intros Hn. assert (exists k : nat, (k < 8)%nat /\ n = Z.of_nat k) as (k & Hk & ->) by (exists (Z.to_nat n); lia).
  do 8 (destruct k as [|k]; [vm_compute; congruence|]). lia.
Qed.

Lemma ulid_text_known n value acc :
  str_forallb (fun c => str_contains_char c ULID_ALPHABET) acc = true ->
  str_forallb (fun c => str_contains_char c ULID_ALPHABET) (ulid_text n value acc) = true /\
  String.length (ulid_text n value acc) = (n + String.length acc)%nat.
Proof.
  revert value acc. induction n as [|n IH]; intros value acc Ha; cbn [ulid_text]; [done|].
  destruct (IH (Z.shiftr value 5) (String (ulid_char (Z.land value 31)) acc)) as [H1 H2].
  - cbn [str_forallb]. rewrite Ha, andb_true_r. apply ulid_char_known.
    change 31 with (Z.ones 5). rewrite Z.land_ones by lia. apply Z.mod_pos_bound. lia.
  - split; [done|]. rewrite H2. cbn [String.length]. lia.
Qed.

(** The first character of the text is the highest five bits. *)
Lemma ulid_text_first n value acc : 0 <= value < 2 ^ (5 * Z.of_nat n + 3) ->
  exists rest, ulid_text (S n) value acc = String (ulid_char (Z.shiftr value (5 * Z.of_nat n))) rest /\
               0 <= Z.shiftr value (5 * Z.of_nat n) < 8.
Proof.
  revert value acc. induction n as [|n IH]; intros value acc Hv.
  - exists acc. cbn [ulid_text]. change (5 * Z.of_nat 0) with 0. rewrite Z.shiftr_0_r.
    replace (Z.land value 31) with value; [cbn in Hv; split; [done|lia]|].
    change 31 with (Z.ones 5). rewrite Z.land_ones by lia. symmetry. apply Z.mod_small. cbn in Hv. lia.
  - change (ulid_text (S (S n)) value acc) with (ulid_text (S n) (Z.shiftr value 5) (String (ulid_char (Z.land value 31)) acc)).
    destruct (IH (Z.shiftr value 5) (String (ulid_char (Z.land value 31)) acc)) as (rest & -> & Hr).
    + rewrite Z.shiftr_div_pow2 by lia. split; [apply Z.div_pos; lia|]. apply Z.div_lt_upper_bound; [lia|].
      rewrite <- Z.pow_add_r by lia. replace (5 + (5 * Z.of_nat n + 3)) with (5 * Z.of_nat (S n) + 3) by lia. lia.
    + rewrite Z.shiftr_shiftr in * by lia. replace (5 + 5 * Z.of_nat n) with (5 * Z.of_nat (S n)) in * by lia. by exists rest.
Qed.

(** C39: a request id the store makes from ten random bytes is a canonical ULID, the only form
    of id an approval envelope may name. *)
Theorem request_id_is_ulid rnd now id :
  length rnd = 10%nat -> request_id (Some rnd) now = Ok id -> ulid_shaped id = true.
Proof.
  intros Hl. unfold request_id. destruct (now <? 0) eqn:E1; [done|]. destruct (Z.shiftl 1 48 <=? now) eqn:E2; [done|].
  cbn [ok_or]. set (value := ulid_or _ _ _).
  enough (ulid_shaped (ulid_text 26 value "") = true) as Hs by (intros Hid; injection Hid as <-; exact Hs).
  assert (Z.shiftr value 80 = now) as Hv.
  { unfold value. rewrite ulid_or_high by lia. rewrite Z.shiftr_shiftl_l by lia. apply Z.shiftl_0_r. }
  assert (0 <= value < 2 ^ (5 * Z.of_nat 25 + 3)) as Hr.
  { change (Z.shiftl 1 48) with (2 ^ 48) in E2. rewrite Z.shiftr_div_pow2 in Hv by lia.
    change (5 * Z.of_nat 25 + 3) with (80 + 48). rewrite Z.pow_add_r by lia.
    pose proof (Z.div_mod value (2 ^ 80)). pose proof (Z.mod_pos_bound value (2 ^ 80)). lia. }
  clearbody value. destruct (ulid_text_known 26 value "" eq_refl) as [Hk Hlen].
  destruct (ulid_text_first 25 value "" Hr) as (rest & E & Hf). unfold ulid_shaped.
  rewrite Hlen, Hk, E. cbn [Nat.eqb Nat.add String.length andb]. rewrite andb_true_r. apply Z.leb_le, ulid_char_first, Hf.
Qed.
