(* ===== verification/AdminGate.v ===== *)
(** * The admin gate ([admin_auth.rs], [admin_surface.rs])

    An administrative call reaches the running daemon over a route. Two gates stand before
    it: the route must be bound by a direct caller, and the call must carry a MAC over its
    exact bytes under a key derived from the master key, with a nonce the daemon issued on
    that route. A nonce lives thirty seconds, belongs to one binding, and is claimed by the
    call it admits. [challenge_as] issues a nonce; [claim] is what [execute_as] does before
    it parses the call; [gate_step] and [run_gate] put them in histories with binding,
    rebinding and the end of a route.

    The theorems: a tag fits one transcript only, unless the MAC collides on two; every
    admitted call carried a valid tag for a live nonce of its own direct binding, and nonces
    are claimed at most as often as they were issued; the counter of outstanding nonces is
    exact and bounded; and a challenge that was answered admits its caller whatever other
    routes do. *)

From stdpp Require Import gmap.
From S2P Require Import Prelude Text Crypto Secrets.

(** ** The transcript ([admin_auth.rs]) *)

Definition ADMIN_MAC_KEY_DOMAIN : bytes := str_bytes "cortexkit-credentials/admin-mac-key/v1".
Definition ADMIN_OP_DOMAIN : bytes := (str_bytes "cortexkit-credentials/admin-op/v1" ++ [x00])%list.
Definition ADMIN_NONCE_LEN : nat := 32.
Definition ADMIN_TAG_LEN : nat := 32.
Definition VAULT_ID_LEN : nat := 32.

Record TranscriptParts := { tp_vault_id : bytes; tp_key_id : bytes; tp_nonce : bytes; tp_op_body : bytes }.

(** [to_be_bytes] of a [u32]. *)
Definition be32 (z : Z) : bytes := rev (le_bytes 4 z).

(** What the MAC covers; [None] is the panic on a body of 4 GiB and more. *)
Definition transcript (p : TranscriptParts) : option bytes :=
  let n := Z.of_nat (length (tp_op_body p)) in
  if n <? 2 ^ 32
  then Some (ADMIN_OP_DOMAIN ++ tp_vault_id p ++ tp_key_id p ++ tp_nonce p ++ be32 n ++ tp_op_body p)%list
  else None.

Section Mac.
Context `{C : Crypto}.

Definition derive (k : MasterKey) : bytes := hmac_sha256 (mk_bytes k) ADMIN_MAC_KEY_DOMAIN.

Definition admin_mac (key : bytes) (p : TranscriptParts) : option bytes := hmac_sha256 key <$> transcript p.

Definition sign (key : bytes) (p : TranscriptParts) : option bytes := admin_mac key p.

(** [verify]: a tag of another length is refused before the MAC is computed. *)
Definition verify (key : bytes) (p : TranscriptParts) (tag : bytes) : option bool :=
  if negb (length tag =? ADMIN_TAG_LEN)%nat then Some false
  else (fun m => bool_decide (m = tag)) <$> admin_mac key p.

Definition vault_id_for_canonical_dir (dir : bytes) : bytes :=
  sha256 (str_bytes "cortexkit-credentials/vault-id/v1" ++ dir)%list.
End Mac.

(** ** The surface ([admin_surface.rs]) *)

(** Monotonic time in nanoseconds. *)
Definition NONCE_TTL : Z := 30 * 1000000000.
Definition MAX_OUTSTANDING_NONCES : Z := 128.
Definition MAX_OP_BODY_LEN : Z := Z.shiftl 1 20.

(** [decode_hex]: pairs of ASCII characters, read by [u8::from_str_radix]. *)
Fixpoint decode_pairs (s : string) : option bytes :=
  match s with
  | EmptyString => Some []
  | String a (String b r) =>
      match from_str_radix16 a b, decode_pairs r with
      | Some n, Some bs => Some (byte_of_Z n :: bs)
      | _, _ => None
      end
  | _ => None
  end.
Definition decode_hex (s : string) : option bytes :=
  if negb (str_forallb (fun c => ascii_Z c <? 128) s) || negb (Nat.even (String.length s)) then None
  else decode_pairs s.

Record Nonce := { nonce_bytes : bytes; nonce_issued : Z }.

(** The principal of a binding is a type of the protocol crate; the gate only asks whether
    it is [Direct]. *)
Class Principals := { Principal : Type; is_direct : Principal -> bool }.

Record BindState `{Principals} := {
  bs_epoch : Z; bs_principal : Principal; bs_harness : string; bs_nonce : option Nonce }.

Inductive AdminOutcome :=
  | Challenge (nonce_hex vault_id_hex key_id_hex : string)
  | Refused (reason : string).

Section Gate.
Context `{C : Crypto} `{PR : Principals}.

Record AdminSurface := {
  as_mac_key : bytes; as_vault_id : bytes; as_key_id : bytes;
  binds : gmap Z BindState;
  outstanding_nonces : Z;
}.

Definition admin_new (mac_key vault_id key_id : bytes) : AdminSurface :=
  {| as_mac_key := mac_key; as_vault_id := vault_id; as_key_id := key_id; binds := ∅; outstanding_nonces := 0 |}.

Definition set_gate (b : gmap Z BindState) (n : Z) (a : AdminSurface) : AdminSurface :=
  {| as_mac_key := as_mac_key a; as_vault_id := as_vault_id a; as_key_id := as_key_id a;
     binds := b; outstanding_nonces := n |}.

(** [AtomicU64::fetch_add] and [fetch_sub] wrap. *)
Definition add_outstanding (d : Z) (a : AdminSurface) : Z := (outstanding_nonces a + d) mod 2 ^ 64.

Definition set_nonce (n : option Nonce) (b : BindState) : BindState :=
  {| bs_epoch := bs_epoch b; bs_principal := bs_principal b; bs_harness := bs_harness b; bs_nonce := n |}.

(** The nonces a binding holds: none or one. *)
Definition held (b : option BindState) : Z :=
  match b with Some b => if is_some (bs_nonce b) then 1 else 0 | None => 0 end.

Definition record_bind_at (channel epoch : Z) (principal : Principal) (harness : string) (a : AdminSurface)
  : AdminSurface :=
  set_gate (<[channel := {| bs_epoch := epoch; bs_principal := principal; bs_harness := harness; bs_nonce := None |}]>
              (binds a))
    (add_outstanding (- held (binds a !! channel)) a) a.

Definition drop_bind (channel : Z) (a : AdminSurface) : AdminSurface :=
  set_gate (delete channel (binds a)) (add_outstanding (- held (binds a !! channel)) a) a.

(** [issued.elapsed()] saturates at zero. *)
Definition expired (now : Z) (n : Nonce) : bool := NONCE_TTL <? Z.max 0 (now - nonce_issued n).

Definition has_expired (now : Z) (b : BindState) : bool :=
  match bs_nonce b with Some n => expired now n | None => false end.

(** What a challenge reads: the clock when it looks at each channel's nonce, the clock when
    it issues its own, and the draw of the random source. *)
Record ChallengeInputs := { ci_now : Z -> Z; ci_issued : Z; ci_nonce : result bytes string }.

(** Drop the nonces that expired, wherever they are. *)
Definition sweep_nonces (now : Z -> Z) (a : AdminSurface) : AdminSurface :=
  let gone := filter (fun kb => has_expired (now kb.1) kb.2 = true) (binds a) in
  set_gate (map_imap (fun ch b => Some (if has_expired (now ch) b then set_nonce None b else b)) (binds a))
    (add_outstanding (- Z.of_nat (size gone)) a) a.

Definition not_direct : AdminOutcome := Refused "admin ops require a direct bind".
Definition other_bind : AdminOutcome := Refused "admin ops require the same direct bind".

Definition direct (p : option Principal) : bool := match p with Some p => is_direct p | None => false end.

Definition challenge_as (inp : ChallengeInputs) (channel epoch : Z) (principal : option Principal) (a : AdminSurface)
  : AdminOutcome * AdminSurface :=
  if negb (direct principal) then (not_direct, a) else
  match ci_nonce inp with
  | Err e => (Refused ("csprng: " ++ e), a)
  | Ok nonce =>
      let a := sweep_nonces (ci_now inp) a in
      match binds a !! channel with
      | None => (not_direct, a)
      | Some state =>
          if negb (bs_epoch state =? epoch) || negb (is_direct (bs_principal state)) then (other_bind, a) else
          let fresh := negb (is_some (bs_nonce state)) in
          if fresh && (MAX_OUTSTANDING_NONCES <=? outstanding_nonces a)
          then (Refused "admin challenge capacity reached", a) else
          (Challenge (hex nonce) (hex (as_vault_id a)) (key_id_to_hex (as_key_id a)),
           set_gate (<[channel := set_nonce (Some {| nonce_bytes := nonce; nonce_issued := ci_issued inp |}) state]>
                       (binds a))
             (if fresh then add_outstanding 1 a else outstanding_nonces a) a)
      end
  end.

Definition parts_for (a : AdminSurface) (n : Nonce) (body : bytes) : TranscriptParts :=
  {| tp_vault_id := as_vault_id a; tp_key_id := as_key_id a; tp_nonce := nonce_bytes n; tp_op_body := body |}.

(** [execute_as] up to the claim of the nonce: the bytes claimed, a refusal, or a panic. *)
Definition claim (now channel epoch : Z) (principal : option Principal) (body : bytes) (tag_hex : string)
    (a : AdminSurface) : option (result bytes AdminOutcome) * AdminSurface :=
  if negb (direct principal) then (Some (Err not_direct), a) else
  if MAX_OP_BODY_LEN <? Z.of_nat (length body) then (Some (Err (Refused "admin op body too large")), a) else
  match decode_hex tag_hex with
  | None => (Some (Err (Refused "malformed auth tag")), a)
  | Some tag =>
      match binds a !! channel with
      | None => (Some (Err not_direct), a)
      | Some state =>
          if negb (bs_epoch state =? epoch) || negb (is_direct (bs_principal state))
          then (Some (Err other_bind), a) else
          match bs_nonce state with
          | None => (Some (Err (Refused "no outstanding challenge")), a)
          | Some nonce =>
              let taken := set_gate (<[channel := set_nonce None state]> (binds a)) (add_outstanding (-1) a) a in
              if expired now nonce then (Some (Err (Refused "challenge expired")), taken) else
              match verify (as_mac_key a) (parts_for a nonce body) tag with
              | None => (None, a)
              | Some false => (Some (Err (Refused "auth failed")), a)
              | Some true => (Some (Ok (nonce_bytes nonce)), taken)
              end
          end
      end
  end.

(** ** Histories *)

Inductive GateEvent :=
  | GBind (channel epoch : Z) (principal : Principal) (harness : string)
  | GDrop (channel : Z)
  | GChallenge (inp : ChallengeInputs) (channel epoch : Z) (principal : option Principal)
  | GExecute (now channel epoch : Z) (principal : option Principal) (body : bytes) (tag_hex : string).

Definition gate_step (e : GateEvent) (a : AdminSurface) : AdminSurface :=
  match e with
  | GBind ch ep p h => record_bind_at ch ep p h a
  | GDrop ch => drop_bind ch a
  | GChallenge inp ch ep p => snd (challenge_as inp ch ep p a)
  | GExecute now ch ep p body tag => snd (claim now ch ep p body tag a)
  end.

Definition run_gate (es : list GateEvent) (a : AdminSurface) : AdminSurface := fold_left (fun a e => gate_step e a) es a.

(** The nonce an event issued, and the one it claimed. *)
Definition issued_by (e : GateEvent) (a : AdminSurface) : list bytes :=
  match e with
  | GChallenge inp ch ep p =>
      match fst (challenge_as inp ch ep p a), ci_nonce inp with
      | Challenge _ _ _, Ok n => [n]
      | _, _ => []
      end
  | _ => []
  end.
Definition claimed_by (e : GateEvent) (a : AdminSurface) : list bytes :=
  match e with
  | GExecute now ch ep p body tag =>
      match fst (claim now ch ep p body tag a) with Some (Ok n) => [n] | _ => [] end
  | _ => []
  end.

Fixpoint issued (es : list GateEvent) (a : AdminSurface) : list bytes :=
  match es with [] => [] | e :: es => issued_by e a ++ issued es (gate_step e a) end.
Fixpoint claimed (es : list GateEvent) (a : AdminSurface) : list bytes :=
  match es with [] => [] | e :: es => claimed_by e a ++ claimed es (gate_step e a) end.

(** The nonces on hand, in some order. *)
Definition nonce_of (b : BindState) : list bytes := match bs_nonce b with Some n => [nonce_bytes n] | None => [] end.
Definition on_hand (m : gmap Z BindState) : list bytes := map_to_list m ≫= (fun kb => nonce_of kb.2).
End Gate.

(** ** Counting the nonces on hand *)

Section Counting.
Context `{C : Crypto} `{PR : Principals}.
Implicit Types (m : gmap Z BindState) (a : AdminSurface).

Definition nonce_at (o : option BindState) : list bytes := match o with Some b => nonce_of b | None => [] end.

Lemma held_length o : held o = Z.of_nat (length (nonce_at o)).
Proof. destruct o as [[ep p h [n|]]|]; done. Qed.

Lemma on_hand_insert ch b m : m !! ch = None -> on_hand (<[ch := b]> m) ≡ₚ nonce_of b ++ on_hand m.
Proof. intros H. unfold on_hand. by rewrite map_to_list_insert by done. Qed.

Lemma on_hand_replace ch b m : on_hand (<[ch := b]> m) ≡ₚ nonce_of b ++ on_hand (delete ch m).
Proof. rewrite <- insert_delete_eq. apply on_hand_insert, lookup_delete_eq. Qed.

Lemma on_hand_split ch m : on_hand m ≡ₚ nonce_at (m !! ch) ++ on_hand (delete ch m).
Proof.
  destruct (m !! ch) as [b|] eqn:E; [|by rewrite delete_id].
  rewrite <- (insert_id m ch b) at 1 by done. apply on_hand_replace.
Qed.

(** The sweep drops exactly the expired nonces, and counts them. *)
Lemma on_hand_sweep now m :
  exists gone, on_hand m ≡ₚ gone ++
    on_hand (map_imap (fun ch b => Some (if has_expired (now ch) b then set_nonce None b else b)) m) /\
    length gone = size (filter (fun kb : Z * BindState => has_expired (now kb.1) kb.2 = true) m).
Proof.
  induction m as [|ch b m Hm (gone & IH & Hl)] using map_ind.
  { exists []. by rewrite map_imap_empty, map_filter_empty, map_size_empty. }
  set (f := fun ch b => Some (if has_expired (now ch) b then set_nonce None b else b)) in *.
  assert (map_imap f m !! ch = None) as Hn by (by rewrite map_lookup_imap, Hm).
  rewrite (map_imap_insert_Some f ch b m (if has_expired (now ch) b then set_nonce None b else b)) by done.
  destruct (has_expired (now ch) b) eqn:Ee.
  - exists (nonce_of b ++ gone). split.
    + rewrite (on_hand_insert ch b m), (on_hand_insert ch _ (map_imap f m)), IH by done.
      by rewrite <- app_assoc.
    + rewrite map_filter_insert_True by done.
      rewrite map_size_insert_None by (apply map_lookup_filter_None; by left). rewrite length_app, Hl.
      unfold has_expired, nonce_of in *. by destruct (bs_nonce b).
  - exists gone. rewrite map_filter_insert_False by (cbn; congruence). rewrite delete_id by done. split; [|done].
    rewrite (on_hand_insert ch b m), (on_hand_insert ch _ (map_imap f m)), IH by done. apply Permutation_app_swap_app.
Qed.

(** The counter is exact and within its limit, and the identities have their lengths. *)
Definition gate_ok a : Prop :=
  outstanding_nonces a = Z.of_nat (length (on_hand (binds a))) /\ outstanding_nonces a <= MAX_OUTSTANDING_NONCES /\
  length (as_vault_id a) = VAULT_ID_LEN /\ length (as_key_id a) = KEY_ID_LEN /\
  Forall (fun n => length n = ADMIN_NONCE_LEN) (on_hand (binds a)).

(** An array of 32 bytes was drawn. *)
Definition event_ok (e : GateEvent) : Prop :=
  match e with
  | GChallenge inp _ _ _ => match ci_nonce inp with Ok n => length n = ADMIN_NONCE_LEN | Err _ => True end
  | _ => True
  end.

(** What a step does to the nonces: those on hand and issued are claimed, gone or kept. *)
Definition nonce_flow (ins outs : list bytes) a a' : Prop :=
  (exists gone, ins ++ on_hand (binds a) ≡ₚ outs ++ gone ++ on_hand (binds a')) /\ gate_ok a'.

Lemma nonce_flow_lose a m ins gone d :
  gate_ok a -> on_hand (binds a) ≡ₚ gone ++ ins ++ on_hand m -> d = - Z.of_nat (length (gone ++ ins)) ->
  nonce_flow [] ins a (set_gate m (add_outstanding d a) a).
Proof.
  intros (Hc & Hmax & Hv & Hk & Hf) Hp ->. split.
  { exists gone. cbn. rewrite Hp. by rewrite !app_assoc, (Permutation_app_comm gone ins). }
  pose proof (Permutation_length Hp) as Hl. rewrite !length_app in Hl. cbn.
  split_and!; cbn; [|unfold add_outstanding|done..|].
  - unfold add_outstanding. rewrite Hc, length_app. rewrite Z.mod_small; [lia|].
    unfold MAX_OUTSTANDING_NONCES in Hmax. lia.
  - rewrite Z.mod_small; rewrite length_app; unfold MAX_OUTSTANDING_NONCES in *; lia.
  - rewrite Hp in Hf. by rewrite !Forall_app in Hf; destruct Hf as (_ & _ & ?).
Qed.
Lemma nonce_flow_id a : gate_ok a -> nonce_flow [] [] a a.
Proof. intros H. split; [by exists []|done]. Qed.

Lemma nonce_flow_after a a1 a2 ins outs :
  nonce_flow [] [] a a1 -> nonce_flow ins outs a1 a2 -> nonce_flow ins outs a a2.
Proof.
  intros [[g1 E1] _] [[g2 E2] Hok]. split; [|done]. exists (g1 ++ g2). cbn in E1.
  rewrite E1, (Permutation_app_swap_app ins), E2, <- app_assoc. apply Permutation_app_swap_app.
Qed.

Lemma sweep_flow now a : gate_ok a -> nonce_flow [] [] a (sweep_nonces now a).
Proof.
  intros H. destruct (on_hand_sweep now (binds a)) as (gone & E & Hl).
  eapply nonce_flow_lose; [done|exact E|]. by rewrite app_nil_r, Hl.
Qed.

Lemma put_nonce_flow a ch state n issued :
  gate_ok a -> binds a !! ch = Some state -> length n = ADMIN_NONCE_LEN ->
  negb (is_some (bs_nonce state)) && (MAX_OUTSTANDING_NONCES <=? outstanding_nonces a) = false ->
  nonce_flow [n] [] a
    (set_gate (<[ch := set_nonce (Some {| nonce_bytes := n; nonce_issued := issued |}) state]> (binds a))
       (if negb (is_some (bs_nonce state)) then add_outstanding 1 a else outstanding_nonces a) a).
Proof.
  intros (Hc & Hmax & Hv & Hk & Hf) E Hn Hcap.
  set (b := set_nonce (Some {| nonce_bytes := n; nonce_issued := issued |}) state).
  pose proof (on_hand_split ch (binds a)) as Hs. rewrite E in Hs. cbn [nonce_at] in Hs.
  pose proof (on_hand_replace ch b (binds a)) as Hr. change (nonce_of b) with [n] in Hr.
  pose proof (Permutation_length Hs) as L1. pose proof (Permutation_length Hr) as L2.
  rewrite length_app in L1, L2. cbn in L2. split; [|split_and!; cbn; [..|done|done|]].
  - exists (nonce_of state). cbn. rewrite Hs, Hr. cbn. by rewrite Permutation_middle.
  - unfold nonce_of in L1. destruct (bs_nonce state); cbn in *; [lia|].
    apply Z.leb_gt in Hcap. unfold add_outstanding, MAX_OUTSTANDING_NONCES in *. rewrite Z.mod_small; lia.
  - destruct (bs_nonce state); cbn in *; [lia|].
    apply Z.leb_gt in Hcap. unfold add_outstanding, MAX_OUTSTANDING_NONCES in *. rewrite Z.mod_small; lia.
  - rewrite Hr. rewrite Hs, Forall_app in Hf. cbn. constructor; [done|]. by destruct Hf.
Qed.

Lemma challenge_flow inp ch ep p a :
  gate_ok a -> event_ok (GChallenge inp ch ep p) ->
  nonce_flow (issued_by (GChallenge inp ch ep p) a) [] a (snd (challenge_as inp ch ep p a)).
Proof.
  intros H He. cbn in He. unfold issued_by. unfold challenge_as.
  destruct (negb (direct p)); [by apply nonce_flow_id|]. destruct (ci_nonce inp) as [n|]; [|by apply nonce_flow_id].
  pose proof (sweep_flow (ci_now inp) a H) as Hs. destruct (Hs) as [_ H1].
  set (a1 := sweep_nonces (ci_now inp) a) in *.
  destruct (binds a1 !! ch) as [state|] eqn:E; [|done].
  destruct (negb (bs_epoch state =? ep) || negb (is_direct (bs_principal state))); [done|].
  destruct (negb (is_some (bs_nonce state)) && (MAX_OUTSTANDING_NONCES <=? outstanding_nonces a1)) eqn:Ec; [done|].
  cbn [fst snd]. eapply nonce_flow_after; [exact Hs|]. by apply put_nonce_flow.
Qed.

Lemma take_nonce_flow a ch state n outs :
  gate_ok a -> binds a !! ch = Some state -> bs_nonce state = Some n -> outs = [] \/ outs = [nonce_bytes n] ->
  nonce_flow [] outs a (set_gate (<[ch := set_nonce None state]> (binds a)) (add_outstanding (-1) a) a).
Proof.
  intros H E En Ho. pose proof (on_hand_split ch (binds a)) as Hs. rewrite E in Hs. cbn [nonce_at] in Hs.
  unfold nonce_of in Hs. rewrite En in Hs.
  assert (on_hand (<[ch := set_nonce None state]> (binds a)) ≡ₚ on_hand (delete ch (binds a))) as Hr
    by apply on_hand_replace.
  destruct Ho as [->| ->].
  - eapply (nonce_flow_lose a _ [] [nonce_bytes n]); [done|by rewrite Hs, Hr|done].
  - eapply (nonce_flow_lose a _ [nonce_bytes n] []); [done|by rewrite Hs, Hr|done].
Qed.

Lemma claim_flow now ch ep p body tag a :
  gate_ok a ->
  nonce_flow [] (claimed_by (GExecute now ch ep p body tag) a) a (snd (claim now ch ep p body tag a)).
Proof.
  intros H. unfold claimed_by, claim. destruct (negb (direct p)); [by apply nonce_flow_id|].
  destruct (_ <? _); [by apply nonce_flow_id|]. destruct (decode_hex tag) as [t|]; [|by apply nonce_flow_id].
  destruct (binds a !! ch) as [state|] eqn:E; [|by apply nonce_flow_id].
  destruct (_ || _); [by apply nonce_flow_id|]. destruct (bs_nonce state) as [n|] eqn:En; [|by apply nonce_flow_id].
  destruct (expired now n); [by eapply take_nonce_flow; eauto|].
  destruct (verify _ _ _) as [[]|]; [by eapply take_nonce_flow; eauto|by apply nonce_flow_id..].
Qed.

Lemma gate_step_flow e a :
  gate_ok a -> event_ok e -> nonce_flow (issued_by e a) (claimed_by e a) a (gate_step e a).
Proof.
  intros H He. destruct e as [ch ep p h|ch|inp ch ep p|now ch ep p body tag]; cbn [gate_step].
  - eapply (nonce_flow_lose a _ [] (nonce_at (binds a !! ch))); [done| |by rewrite app_nil_r, held_length].
    cbn. rewrite (on_hand_split ch), on_hand_replace. done.
  - eapply (nonce_flow_lose a _ [] (nonce_at (binds a !! ch))); [done| |by rewrite app_nil_r, held_length].
    cbn. by rewrite (on_hand_split ch).
  - by apply challenge_flow.
  - by apply claim_flow.
Qed.

Lemma run_gate_flow es a :
  gate_ok a -> Forall event_ok es ->
  claimed es a ++ on_hand (binds (run_gate es a)) ⊆+ issued es a ++ on_hand (binds a) /\ gate_ok (run_gate es a).
Proof.
  intros H Hes. revert a H. induction Hes as [|e es He _ IH]; intros a H; [done|].
  destruct (gate_step_flow e a H He) as [[gone E] H1]. destruct (IH _ H1) as [Hs H2]. split; [|exact H2].
  cbn [claimed issued]. change (run_gate (e :: es) a) with (run_gate es (gate_step e a)).
  rewrite <- !app_assoc. etrans; [apply submseteq_skips_l, Hs|].
  rewrite (Permutation_app_swap_app (claimed_by e a)), (Permutation_app_swap_app (issued_by e a)).
  apply submseteq_skips_l. rewrite E. apply submseteq_skips_l. apply submseteq_inserts_l. done.
Qed.
End Counting.

(** ** Tags and transcripts *)

Section Authority.
Context `{C : Crypto} `{L : !CryptoLaws C} `{PR : Principals}.
Implicit Types (a : AdminSurface) (b : BindState) (t : bytes).

Lemma decode_pairs_hex bs : decode_pairs (hex bs) = Some bs.
Proof. induction bs as [|b bs IH]; [done|]. rewrite hex_cons. cbn [decode_pairs]. rewrite IH. by destruct b. Qed.

Lemma decode_hex_hex bs : decode_hex (hex bs) = Some bs.
Proof.
  unfold decode_hex. rewrite decode_pairs_hex, length_hex.
  replace (Nat.even (2 * length bs)) with true by (symmetry; apply Nat.even_spec; by exists (length bs)).
  replace (str_forallb _ (hex bs)) with true; [done|]. symmetry.
  induction bs as [|b bs IH]; [done|]. rewrite hex_cons. cbn [str_forallb]. rewrite IH. by destruct b.
Qed.

(** The parts as the types of their fields have them. *)
Definition parts_ok (p : TranscriptParts) : Prop :=
  length (tp_vault_id p) = VAULT_ID_LEN /\ length (tp_key_id p) = KEY_ID_LEN /\ length (tp_nonce p) = ADMIN_NONCE_LEN.

(** The MAC under the key gives one tag to the different transcripts of these very parts. *)
Definition tag_collision (key : bytes) (p q : TranscriptParts) : Prop :=
  exists tp tq, transcript p = Some tp /\ transcript q = Some tq /\ tp <> tq /\
    hmac_sha256 key tp = hmac_sha256 key tq.

Lemma transcript_inj p q t :
  parts_ok p -> parts_ok q -> transcript p = Some t -> transcript q = Some t -> p = q.
Proof.
  destruct p as [v k n o], q as [v' k' n' o']. unfold parts_ok, transcript. cbn -[Z.pow be32 ADMIN_OP_DOMAIN app].
  intros (Hv & Hk & Hn) (Hv' & Hk' & Hn').
  destruct (_ <? _); [|done]. intros <-%(inj Some). destruct (_ <? _); [|done]. intros E%(inj Some).
  apply app_inv_head in E. symmetry in E. apply app_inj_1 in E as [-> E]; [|congruence].
  apply app_inj_1 in E as [-> E]; [|congruence]. apply app_inj_1 in E as [-> E]; [|congruence].
  apply app_inj_1 in E as [_ ->]; [done|]. unfold be32. by rewrite !length_rev, !length_le_bytes.
Qed.

Lemma verify_sound key p t : verify key p t = Some true -> admin_mac key p = Some t.
Proof.
  unfold verify. destruct (negb _); [done|]. destruct (admin_mac key p) as [m|]; [|done]. cbn.
  intros [= E]. apply bool_decide_eq_true in E. by subst.
Qed.

Lemma verify_complete key p t : admin_mac key p = Some t -> verify key p t = Some true.
Proof.
  unfold verify, admin_mac. intros E. rewrite E. destruct (transcript p); [|done]. injection E as <-.
  rewrite hmac_length. cbn. by rewrite bool_decide_true.
Qed.

Lemma same_tag key p q t :
  parts_ok p -> parts_ok q -> admin_mac key p = Some t -> admin_mac key q = Some t -> p = q \/ tag_collision key p q.
Proof.
  unfold admin_mac. intros Hp Hq Ep Eq.
  destruct (transcript p) as [tp|] eqn:Tp; [|done]. destruct (transcript q) as [tq|] eqn:Tq; [|done].
  injection Ep as Ep. injection Eq as Eq. destruct (decide (tp = tq)) as [->|Hne].
  - left. by eapply transcript_inj.
  - right. exists tp, tq. split_and!; [done..|congruence].
Qed.

(** What stands behind an admitted call. *)
Definition admitted now ch ep (principal : option Principal) body tag a (n : Nonce) t : Prop :=
  exists b, direct principal = true /\ binds a !! ch = Some b /\ bs_epoch b = ep /\
    is_direct (bs_principal b) = true /\ bs_nonce b = Some n /\ expired now n = false /\
    Z.of_nat (length body) <= MAX_OP_BODY_LEN /\ decode_hex tag = Some t /\
    admin_mac (as_mac_key a) (parts_for a n body) = Some t.

Lemma claim_admitted now ch ep p body tag a r a' :
  claim now ch ep p body tag a = (Some (Ok r), a') ->
  exists n t, admitted now ch ep p body tag a n t /\ nonce_bytes n = r.
Proof.
  unfold claim. destruct (direct p) eqn:Ed; [|done]. cbn [negb].
  destruct (_ <? _) eqn:El; [done|]. destruct (decode_hex tag) as [t|] eqn:Et; [|done].
  destruct (binds a !! ch) as [b|] eqn:Eb; [|done]. destruct (_ || _) eqn:Eg; [done|].
  destruct (bs_nonce b) as [n|] eqn:En; [|done]. destruct (expired now n) eqn:Ex; [done|].
  destruct (verify _ _ t) as [[]|] eqn:Ev; [|done..]. intros [= <- <-]. apply orb_false_iff in Eg as [E1 E2].
  apply negb_false_iff, Z.eqb_eq in E1. apply negb_false_iff in E2. apply Z.ltb_ge in El.
  exists n, t. split; [|done]. exists b. split_and!; auto. by apply verify_sound.
Qed.

Lemma admitted_on_hand now ch ep p body tag a n t :
  admitted now ch ep p body tag a n t -> nonce_bytes n ∈ on_hand (binds a).
Proof.
  intros (b & _ & Eb & _ & _ & En & _). rewrite (on_hand_split ch), Eb. cbn. unfold nonce_of. rewrite En.
  apply elem_of_app. left. set_solver.
Qed.

Lemma gate_parts_ok a n body : gate_ok a -> nonce_bytes n ∈ on_hand (binds a) -> parts_ok (parts_for a n body).
Proof. intros (_ & _ & Hv & Hk & Hf) Hn. rewrite Forall_forall in Hf. by repeat split; auto. Qed.

(** The keys and identities are fixed. *)
Definition identities a : bytes * bytes * bytes := (as_mac_key a, as_vault_id a, as_key_id a).

Lemma gate_step_identities e a : identities (gate_step e a) = identities a.
Proof.
  destruct e; cbn; [done|done|unfold challenge_as|unfold claim]; repeat (case_match; try done).
Qed.
Lemma run_gate_identities es a : identities (run_gate es a) = identities a.
Proof.
  revert a. induction es as [|e es IH]; intros a; [done|].
  change (run_gate (e :: es) a) with (run_gate es (gate_step e a)). by rewrite IH, gate_step_identities.
Qed.

(** The parts the gate checks for a call with this body and this nonce. *)
Definition served_parts a (nonce body : bytes) : TranscriptParts :=
  {| tp_vault_id := as_vault_id a; tp_key_id := as_key_id a; tp_nonce := nonce; tp_op_body := body |}.

(** C23: a call is admitted only on a route bound by a direct caller under the epoch of the
    request, within thirty seconds of the challenge issued on that very binding, and with a
    tag that is the MAC, under the gate's key, of this vault, this key, the binding's nonce
    and the exact bytes of the body. So a tag made over any parts whatever admits the call
    they name and no other, neither another vault nor another key, nonce or body, unless the
    MAC gives one tag to those parts and the parts served. *)
Theorem tag_admits_one_call now ch ep principal body tag a a' r :
  gate_ok a -> claim now ch ep principal body tag a = (Some (Ok r), a') ->
  (exists n t, admitted now ch ep principal body tag a n t /\ nonce_bytes n = r /\
     sign (as_mac_key a) (served_parts a r body) = Some t) /\
  forall parts, parts_ok parts -> sign (as_mac_key a) parts = decode_hex tag ->
    parts = served_parts a r body \/ tag_collision (as_mac_key a) parts (served_parts a r body).
Proof.
  intros Hok Hc. destruct (claim_admitted _ _ _ _ _ _ _ _ _ Hc) as (n & t & Ha & <-).
  pose proof (gate_parts_ok a n body Hok (admitted_on_hand _ _ _ _ _ _ _ _ _ Ha)) as Hq.
  destruct (Ha) as (b & _ & _ & _ & _ & _ & _ & _ & Et & Em). split; [by exists n, t|].
  intros parts Hp Hs. rewrite Et in Hs. by eapply same_tag.
Qed.

(** Without a nonce on hand twice, the claimed one is gone. *)
Lemma claimed_is_gone now ch ep principal body tag a r a' :
  gate_ok a -> NoDup (on_hand (binds a)) -> claim now ch ep principal body tag a = (Some (Ok r), a') ->
  gate_ok a' /\ r ∉ on_hand (binds a').
Proof.
  intros Hok Hnd Hc. destruct (claim_flow now ch ep principal body tag a Hok) as [[gone E] H'].
  unfold claimed_by in E. rewrite Hc in E, H'. cbn in E, H'. split; [done|]. intros Hin.
  rewrite E in Hnd. apply NoDup_cons in Hnd as [Hnot _]. apply Hnot, elem_of_app. by right.
Qed.

(** What a history of the routes claims was issued in it or on hand before. *)
Lemma claimed_later es a now ch ep principal body tag r :
  gate_ok a -> Forall event_ok es ->
  fst (claim now ch ep principal body tag (run_gate es a)) = Some (Ok r) -> r ∈ issued es a ++ on_hand (binds a).
Proof.
  intros Hok Hes Hc. destruct (run_gate_flow es a Hok Hes) as [Hsub _].
  destruct (claim _ _ _ _ _ _ (run_gate es a)) as [o a3] eqn:E. cbn in Hc. subst o.
  destruct (claim_admitted _ _ _ _ _ _ _ _ _ E) as (n & t & Ha & <-). eapply elem_of_submseteq; [|exact Hsub].
  apply elem_of_app. right. by eapply admitted_on_hand.
Qed.

(** C11: a call is accepted at most once. After a call was admitted, no history of the
    routes, however they bind, ask and call, admits a call on its nonce again, on any route,
    with any tag, for any body and at any time, unless the random source draws that nonce
    again; and none admits its tag again, unless so or the MAC gives that tag to both the
    call's own transcript and the different one of the later call. *)
Theorem replay_is_refused now ch ep principal body tag a r a' es now' ch' ep' principal' body' tag' r' :
  gate_ok a -> NoDup (on_hand (binds a)) -> Forall event_ok es ->
  claim now ch ep principal body tag a = (Some (Ok r), a') ->
  fst (claim now' ch' ep' principal' body' tag' (run_gate es a')) = Some (Ok r') ->
  (r' = r -> r ∈ issued es a') /\
  (decode_hex tag' = decode_hex tag ->
   r ∈ issued es a' \/ tag_collision (as_mac_key a) (served_parts a r body) (served_parts a r' body')).
Proof.
  intros Hok Hnd Hes Hc Hc'. destruct (claimed_is_gone _ _ _ _ _ _ _ _ _ Hok Hnd Hc) as [Hok' Hgone].
  assert (r' = r -> r ∈ issued es a') as Hfresh.
  { intros ->. by destruct (proj1 (elem_of_app _ _ _) (claimed_later _ _ _ _ _ _ _ _ _ Hok' Hes Hc')). }
  split; [exact Hfresh|]. intros Ht. destruct (run_gate_flow es a' Hok' Hes) as [_ Hok2]. set (a2 := run_gate es a') in *.
  destruct (claim now' ch' ep' principal' body' tag' a2) as [o a3] eqn:E2. cbn in Hc'. subst o.
  destruct (claim_admitted _ _ _ _ _ _ _ _ _ Hc) as (n & t & Ha & <-).
  destruct (claim_admitted _ _ _ _ _ _ _ _ _ E2) as (n' & t' & Ha' & <-).
  pose proof (gate_parts_ok a n body Hok (admitted_on_hand _ _ _ _ _ _ _ _ _ Ha)) as Hp.
  pose proof (gate_parts_ok a2 n' body' Hok2 (admitted_on_hand _ _ _ _ _ _ _ _ _ Ha')) as Hp'.
  assert (identities a2 = identities a) as Hid.
  { unfold a2. rewrite run_gate_identities. replace a' with (gate_step (GExecute now ch ep principal body tag) a)
      by (cbn; by rewrite Hc). apply gate_step_identities. }
  destruct (Ha) as (b & _ & _ & _ & _ & _ & _ & _ & Et & Em).
  destruct (Ha') as (b' & _ & _ & _ & _ & _ & _ & _ & Et' & Em').
  injection Hid as Hkey Hvid Hkid. assert (t' = t) as -> by congruence. unfold parts_for in *.
  rewrite Hkey, Hvid, Hkid in Em'. rewrite Hvid, Hkid in Hp'.
  destruct (same_tag _ _ _ _ Hp Hp' Em Em') as [Heq|]; [|by right]. left. apply Hfresh. by injection Heq.
Qed.

(** However routes bind, ask, call and leave, the counter of outstanding nonces is
    exactly the number of them on hand and never above 128, nonces are claimed at most as
    often as they were issued, and no call makes the gate panic. *)
Theorem gate_stays_bounded es a :
  gate_ok a -> Forall event_ok es ->
  gate_ok (run_gate es a) /\ claimed es a ⊆+ issued es a ++ on_hand (binds a) /\
  forall now ch ep principal body tag, fst (claim now ch ep principal body tag (run_gate es a)) <> None.
Proof.
  intros Hok Hes. destruct (run_gate_flow es a Hok Hes) as [Hs Hok2]. split_and!; [done| |].
  - etrans; [|exact Hs]. apply submseteq_inserts_r. done.
  - intros now ch ep principal body tag. unfold claim. repeat (case_match; try done).
    rename select (verify _ _ _ = None) into Hv. unfold verify, admin_mac, transcript, parts_for in Hv. cbn [tp_op_body] in Hv.
    rename select ((MAX_OP_BODY_LEN <? _) = false) into Hl. apply Z.ltb_ge in Hl. change MAX_OP_BODY_LEN with 1048576 in Hl.
    rewrite (proj2 (Z.ltb_lt _ (2 ^ 32))) in Hv by lia. by repeat case_match.
Qed.

(** An event of another route, which does not see this route's nonce expired. *)
Definition elsewhere (ch : Z) (n : Nonce) (e : GateEvent) : Prop :=
  match e with
  | GBind c _ _ _ | GDrop c | GExecute _ c _ _ _ _ => c <> ch
  | GChallenge inp c _ _ => c <> ch /\ expired (ci_now inp ch) n = false
  end.

Lemma sweep_keeps now a ch b n :
  binds a !! ch = Some b -> bs_nonce b = Some n -> expired (now ch) n = false ->
  binds (sweep_nonces now a) !! ch = Some b.
Proof. intros E En Hx. cbn. rewrite map_lookup_imap, E. cbn. unfold has_expired. by rewrite En, Hx. Qed.

Lemma elsewhere_keeps ch b n e a :
  elsewhere ch n e -> bs_nonce b = Some n -> binds a !! ch = Some b -> binds (gate_step e a) !! ch = Some b.
Proof.
  intros He En E. destruct e as [c ep p h|c|inp c ep p|now c ep p body tag]; cbn in *.
  - by rewrite lookup_insert_ne.
  - by rewrite lookup_delete_ne.
  - destruct He as [Hne Hx]. pose proof (sweep_keeps (ci_now inp) a ch b n E En Hx) as Hs. unfold challenge_as.
    repeat (case_match; cbn [snd]; try done); cbn [binds set_gate]; by rewrite lookup_insert_ne.
  - unfold claim. repeat (case_match; cbn [snd]; try done); cbn [binds set_gate]; by rewrite lookup_insert_ne.
Qed.

Lemma run_elsewhere ch b n es a :
  Forall (elsewhere ch n) es -> bs_nonce b = Some n -> binds a !! ch = Some b -> binds (run_gate es a) !! ch = Some b.
Proof.
  intros Hes En. revert a. induction Hes as [|e es He _ IH]; intros a E; [done|].
  apply (IH (gate_step e a)). by eapply elsewhere_keeps.
Qed.

(** C24: a challenge that was answered admits its caller: within thirty seconds, whatever the
    other routes do meanwhile (a flood of challenges cannot evict it), the call signed with
    the master key's derived key over exactly what the challenge named is admitted. *)
Theorem challenge_admits_its_caller inp ch ep p a a1 nonce_hex vault_hex key_hex nonce es now body vault kid tag :
  challenge_as inp ch ep (Some p) a = (Challenge nonce_hex vault_hex key_hex, a1) ->
  Forall (elsewhere ch {| nonce_bytes := nonce; nonce_issued := ci_issued inp |}) es ->
  now - ci_issued inp <= NONCE_TTL -> Z.of_nat (length body) <= MAX_OP_BODY_LEN ->
  decode_hex nonce_hex = Some nonce -> decode_hex vault_hex = Some vault -> decode_hex key_hex = Some kid ->
  sign (as_mac_key a) {| tp_vault_id := vault; tp_key_id := kid; tp_nonce := nonce; tp_op_body := body |} = Some tag ->
  fst (claim now ch ep (Some p) body (hex tag) (run_gate es a1)) = Some (Ok nonce).
Proof.
  unfold challenge_as. destruct (negb (direct (Some p))) eqn:Ed; [done|]. destruct (ci_nonce inp) as [n|]; [|done].
  set (a0 := sweep_nonces (ci_now inp) a). destruct (binds a0 !! ch) as [b|] eqn:Eb; [|done].
  destruct (_ || _) eqn:Eg; [done|]. destruct (_ && _); [done|]. intros [= <- <- <- Ea1] Hes Hnow Hbody.
  unfold key_id_to_hex. rewrite !decode_hex_hex. intros [= ->] [= <-] [= <-] Hs.
  set (nn := {| nonce_bytes := nonce; nonce_issued := ci_issued inp |}) in *.
  assert (binds (run_gate es a1) !! ch = Some (set_nonce (Some nn) b)) as Eb'.
  { eapply run_elsewhere; [done|done|]. subst a1. cbn. apply lookup_insert_eq. }
  assert (identities (run_gate es a1) = identities a) as Hid by (rewrite run_gate_identities; by subst a1).
  injection Hid as Hk Hv Hi. unfold claim. rewrite Ed, (proj2 (Z.ltb_ge _ _)), decode_hex_hex, Eb' by lia.
  cbn [bs_epoch bs_principal bs_nonce set_nonce]. rewrite Eg. unfold expired. cbn [nonce_issued nn].
  rewrite (proj2 (Z.ltb_ge _ _)) by (unfold NONCE_TTL in *; lia).
  unfold parts_for. rewrite Hk, Hv, Hi, (verify_complete _ _ tag) by exact Hs. done.
Qed.
End Authority.

(** ** A concrete gate *)

Module GateWitness.
Import Toy.
#[local] Instance two_callers : Principals := {| Principal := bool; is_direct b := b |}.

Definition operator : Principal := true.
Definition stranger : Principal := false.
Definition mac_key : bytes := derive {| mk_bytes := replicate 32 x07; mk_len := eq_refl |}.
Definition gate0 : AdminSurface := record_bind_at 5 1 operator "cli" (admin_new mac_key (replicate 32 x01) (replicate 8 x02)).
Definition nonce1 : bytes := replicate 32 x11.
Definition draw (at_ns : Z) (n : bytes) : ChallengeInputs := {| ci_now _ := at_ns; ci_issued := at_ns; ci_nonce := Ok n |}.
Abbreviation gate1 := (snd (challenge_as (draw 1000 nonce1) 5 1 (Some operator) gate0)).
Definition body1 : bytes := str_bytes "admin.status".
Definition parts1 : TranscriptParts :=
  {| tp_vault_id := replicate 32 x01; tp_key_id := replicate 8 x02; tp_nonce := nonce1; tp_op_body := body1 |}.
Definition tag1 : bytes := default [] (sign mac_key parts1).

Lemma gate0_ok : gate_ok gate0.
Proof. split_and!; [reflexivity|done|reflexivity..|]. constructor. Qed.

Lemma gate1_ok : gate_ok gate1.
Proof. split_and!; [reflexivity|vm_compute; discriminate|reflexivity..|]. vm_compute on_hand. by repeat constructor. Qed.

Lemma gate_bounded_witness :
  gate_ok (run_gate [GChallenge (draw 1000 nonce1) 5 1 (Some operator); GBind 6 1 operator ""] gate0).
Proof.
  apply (gate_stays_bounded [GChallenge (draw 1000 nonce1) 5 1 (Some operator); GBind 6 1 operator ""] gate0 gate0_ok).
  by repeat constructor.
Defined.

(** The operator's call is admitted, and its tag over the same parts is the one that admits it. *)
Lemma tag_witness :
  (exists n t, admitted 2000 5 1 (Some operator) body1 (hex tag1) gate1 n t /\ nonce_bytes n = nonce1 /\
     sign (as_mac_key gate1) (served_parts gate1 nonce1 body1) = Some t) /\
  (parts1 = served_parts gate1 nonce1 body1 \/ tag_collision (as_mac_key gate1) parts1 (served_parts gate1 nonce1 body1)).
Proof.
  assert (gate_ok gate1 /\ claim 2000 5 1 (Some operator) body1 (hex tag1) gate1 =
    (Some (Ok nonce1), snd (claim 2000 5 1 (Some operator) body1 (hex tag1) gate1))) as [Hok Hc].
  { split; [exact gate1_ok|vm_compute; reflexivity]. }
  destruct (tag_admits_one_call _ _ _ _ _ _ _ _ _ Hok Hc) as [Hadm Htag]. split; [exact Hadm|].
  apply Htag; [by repeat split|vm_compute; reflexivity].
Defined.

(** A random source that repeats itself lets a call be replayed, and only that. *)
Definition again : list GateEvent := [GChallenge (draw 3000 nonce1) 5 1 (Some operator)].
Abbreviation spent := (snd (claim 2000 5 1 (Some operator) body1 (hex tag1) gate1)).
Lemma replay_witness : nonce1 ∈ issued again spent.
Proof.
  apply (proj1 (replay_is_refused 2000 5 1 (Some operator) body1 (hex tag1) gate1 nonce1 spent again
           4000 5 1 (Some operator) body1 (hex tag1) nonce1 gate1_ok
           ltac:(apply NoDup_singleton) ltac:(by repeat constructor) ltac:(vm_compute; reflexivity)
           ltac:(vm_compute; reflexivity))).
  reflexivity.
Defined.

Lemma admits_witness :
  fst (claim 2000 5 1 (Some operator) body1 (hex tag1) (run_gate [GBind 6 1 stranger ""; GChallenge (draw 1500 nonce1) 6 1 (Some operator)] gate1))
  = Some (Ok nonce1).
Proof.
  apply (challenge_admits_its_caller (draw 1000 nonce1) 5 1 operator gate0 gate1 (hex nonce1) (hex (replicate 32 x01))
           (hex (replicate 8 x02)) nonce1 _ 2000 body1 (replicate 32 x01) (replicate 8 x02) tag1);
    try (vm_compute; reflexivity).
  - by repeat constructor.
  - vm_compute. discriminate.
  - vm_compute. discriminate.
Defined.
End GateWitness.
