(* ===== verification/SecretStore.v ===== *)
(** * Agent secrets: the store's operations
    ([store_secret_use.rs], [store_secret_flow.rs], [store_secret_approval.rs],
    [store_secret_phone.rs], [store_secret_operator.rs], [store_agent_secrets.rs])

    A secret is released to an agent or a flow under a grant; a grant comes from a request
    the user's phone signed. Each operation of the source is one definition here: reading
    and releasing, pending requests, approval and deletion by the phone, deposits,
    operator writes and the secret home. A transaction body is a [Tx]; [secret_fenced] and
    [secret_conn] run it and turn a failure into [SeStoreError], as the source does. *)

From stdpp Require Import gmap sorting.
From S2P Require Import Prelude Text Crypto Json Record CredentialId Catalog Envelope AuditLog Database Store TxLogic Secrets Kem.

(** What a call reads from outside: the readings of the [clock] closure, the reading of
    [now_ms()] for the audit entry at each position of the log, the one for diagnostics,
    and the successive draws of [getrandom]. *)
Record SecretInputs := {
  sx_clock : nat -> Z;
  sx_now : nat -> Z;
  sx_event_now : Z;
  sx_rnd : nat -> option bytes;
}.

(** ** Federation helpers ([federation.rs]) *)

Definition MEMBER_ID_PREFIX : string := "fed-computer:".
Definition SELF_MEMBER_SETTING : string := "federation.self_member".
Definition is_lower_hex_of_len (value : string) (len : nat) : bool :=
  (String.length value =? len)%nat && str_forallb is_lower_hex_char value.
Definition is_lower_hex_16_bytes (value : string) : bool := is_lower_hex_of_len value 32.
Definition valid_member_id (value : string) : bool :=
  match strip_prefix MEMBER_ID_PREFIX value with Some fp => is_lower_hex_16_bytes fp | None => false end.

(** ** Statements on the tables *)

Definition sql_range {A} : Tx A := merr (Sql "Integer out of range").

(** [u64::to_sql]: a value above [i64::MAX] does not fit the column. *)
Definition to_sql_u64 (z : Z) : Tx Z := if z <=? i64_max then mret z else sql_range.

Definition has_incarnation (inc : string) (r : AgentSecretRow) : bool := bool_decide (as_incarnation r = inc).

(** [INSERT INTO agent_secrets]: the primary key, [UNIQUE(incarnation)] and the checks. *)
Definition agent_secret_row_ok (r : AgentSecretRow) : bool :=
  (String.length (as_incarnation r) =? 32)%nat &&
  (bool_decide (as_kind r = "agent_api_key") && is_some (as_host r) &&
   match as_location r with Some l => negb (str_is_empty l) | None => false end && negb (is_some (as_origin r)) ||
   bool_decide (as_kind r = "site_login") && is_some (as_origin r) && negb (is_some (as_host r)) &&
   negb (is_some (as_path_prefix r)) && negb (is_some (as_location r))).

Definition insert_agent_secret (name : string) (r : AgentSecretRow) : Tx unit :=
  fun d =>
    if is_some (agent_secrets d !! name) then (Err (Sql "UNIQUE constraint failed: agent_secrets.name"), d)
    else if existsb (fun kv => has_incarnation (as_incarnation r) kv.2) (map_to_list (agent_secrets d))
    then (Err (Sql "UNIQUE constraint failed: agent_secrets.incarnation"), d)
    else if agent_secret_row_ok r then (Ok tt, with_agent_secrets (insert name r) d)
    else (Err (Sql "CHECK constraint failed: agent_secrets"), d).

Definition insert_request (id : string) (r : RequestRow) : Tx unit :=
  fun d =>
    if is_some (secret_pending_requests (secrets d) !! id)
    then (Err (Sql "UNIQUE constraint failed: secret_pending_requests.request_id"), d)
    else (Ok tt, with_requests (insert id r) d).

Definition one_of_coverage (c : string) : bool := one_of c ["scope"; "agent_and_workers"].
Definition one_of_duration (c : string) : bool := one_of c ["once"; "hour"; "session"; "permanent"].

Definition insert_secret_grant (id : string) (r : SecretGrantRow) : Tx unit :=
  fun d =>
    if is_some (secret_grants (secrets d) !! id)
    then (Err (Sql "UNIQUE constraint failed: secret_grants.grant_id"), d)
    else if one_of_coverage (sg_coverage r) && one_of_duration (sg_duration r)
    then (Ok tt, with_secret_grants (insert id r) d)
    else (Err (Sql "CHECK constraint failed: secret_grants"), d).

Definition insert_flow_grant (id : string) (r : FlowGrantRow) : Tx unit :=
  fun d =>
    if is_some (secret_flow_grants (secrets d) !! id)
    then (Err (Sql "UNIQUE constraint failed: secret_flow_grants.grant_id"), d)
    else if (1 <=? fg_flow_version r) && (fg_flow_version r <=? 9007199254740991)
    then (Ok tt, with_flow_grants (insert id r) d)
    else (Err (Sql "CHECK constraint failed: secret_flow_grants"), d).

(** [DELETE FROM t WHERE cond], on the rows of a table. *)
Definition drop_rows {K V} `{Countable K} (cond : K * V -> bool) (m : gmap K V) : gmap K V :=
  filter (fun kv => cond kv = false) m.

(** [UPDATE agent_secrets SET state='corrupt' WHERE .. AND state='active']. *)
Definition corrupt_active (cond : string -> AgentSecretRow -> bool) (d : Db) : Db :=
  with_agent_secrets (map_imap (fun name r =>
    Some (if cond name r && bool_decide (as_state r = "active") then corrupt_secret r else r))) d.

Section Operations.
Context `{C : Crypto} `{X : SecretExt} `{J : JsonCodec} {Conn : Type} `{SQ : SqliteStore Conn}.

Abbreviation Store := (EncryptedStore Conn).
Abbreviation SOp A := (M Store SecretError A).

(** [fenced_write(..).map_err(|_| SecretError::StoreError)], and the read on a connection. *)
Definition secret_fenced {A} (f : Tx A) : SOp A :=
  fun s => let '(out, s') := fenced_write f s in (map_err (fun _ => SeStoreError) out, s').
Definition secret_conn {A} (f : Tx A) : SOp A :=
  fun s => let '(out, c) := with_conn f (es_conn s) in
           (map_err (fun _ => SeStoreError) out, set_conn c false 0 s).

(** [let _ = ..]: a best-effort write. *)
Definition best_effort {A} (m : SOp A) : SOp unit := fun s => (Ok tt, snd (m s)).

Definition with_keys {A} (f : Keys -> SOp A) : SOp A := fun s => f (keys_of s) s.

(** ** Audit and diagnostics *)

(** [append_audit_tx] at the time read for this position of the log. *)
Definition audit_now (ak : bytes) (now : nat -> Z) (r : AuditRecord) : Tx unit :=
  fun d => (do! _ <- append_audit_tx ak (now (length (audit_log d))) r ;; mret tt) d.

(** [phone::audit]: the hash covers the length-prefixed fields. *)
Definition secret_audit (ak : bytes) (now : nat -> Z) (op : AuditOp) (target : option string) (actor : string)
    (fields : list bytes) : Tx unit :=
  audit_now ak now {| rec_op := op; rec_credential_id := target;
    rec_payload_hash := Some (hex (payload_sha256 (fold_left push_field fields [])));
    rec_actor := actor; rec_alarm := None |}.

Definition envelope_audit (ak : bytes) (now : nat -> Z) (op : AuditOp) (name actor hash : string) : Tx unit :=
  audit_now ak now {| rec_op := op; rec_credential_id := Some ("secret|" ++ name)%string;
    rec_payload_hash := Some hash; rec_actor := actor; rec_alarm := None |}.

Definition secret_subject (name : option string) : string :=
  match name with Some n => ("secret|" ++ n)%string | None => "secret-use|unaddressed" end.

Definition refusal_event (ts : Z) (subject detail : string) (p : AuthEventPrincipal) : Tx unit :=
  append_secret_auth_event_tx ts subject
    {| obs_kind := event_kind_as_str EvSecretUseRefusal; obs_provider_status := None; obs_detail := Some detail;
       obs_reporter_source := None; obs_principal := Some p |} None false.

Definition record_secret_use_refusal (inp : SecretInputs) (sender : SecretSender) (name : option string)
    (detail : string) : SOp unit :=
  best_effort (secret_conn
    (refusal_event (sx_event_now inp) (secret_subject name) detail (PReserved (sender_module sender)))).

Definition record_member_secret_refusal (inp : SecretInputs) (member subject detail : string) : SOp unit :=
  best_effort (secret_conn (refusal_event (sx_event_now inp) subject detail (PMember member))).

(** [record_secret_forward]: a release is written once per subject and sender. *)
Definition forward_tx (ts : Z) (subject : string) (principal : AuthEventPrincipal) (outcome : string) : Tx unit :=
  if bool_decide (outcome = "released") then
    do! present <- query (fun d => existsb (fun e =>
      bool_decide (ev_credential_id e = subject) &&
      bool_decide (ev_kind e = event_kind_as_str EvSecretForward) && bool_decide (ev_detail e = Some outcome) &&
      bool_decide (ev_principal_kind e = Some (principal_kind principal)) &&
      bool_decide (ev_principal_id e = principal_id principal)) (auth_events d)) ;;
    do! _ <- (if present then mret tt else exec (with_auth_events (fun rows => rows ++
      [{| ev_ts_ms := ts; ev_credential_id := subject;
          ev_kind := event_kind_as_str EvSecretForward; ev_provider_status := None;
          ev_detail := Some outcome; ev_reporter_source := None; ev_record_version := None;
          ev_applied := false; ev_principal_kind := Some (principal_kind principal);
          ev_principal_id := principal_id principal |}]))) ;;
    trim_auth_events_tx subject
  else append_secret_auth_event_tx ts subject
    {| obs_kind := event_kind_as_str EvSecretForward; obs_provider_status := None;
       obs_detail := Some outcome; obs_reporter_source := None; obs_principal := Some principal |} None false.

Definition record_secret_forward (inp : SecretInputs) (sender : SecretSender) (name : option string)
    (outcome : string) : SOp unit :=
  best_effort (secret_conn
    (forward_tx (sx_event_now inp) (secret_subject name) (PReserved (sender_module sender)) outcome)).

(** ** Expiry *)

Definition sweep_release_receipts (now : Z) : Tx unit :=
  exec (with_release_receipts (drop_rows (fun kv => rc_expires_at_ms kv.2 <=? now))).

Definition grant_expired (now : Z) (g : SecretGrantRow) : bool :=
  negb (bool_decide (sg_duration g = "permanent")) && (sg_expires_at_ms g <=? now).

(** A grant answers while it is permanent or not yet expired. *)
Definition grant_unexpired (now : Z) (g : SecretGrantRow) : bool :=
  bool_decide (sg_duration g = "permanent") || (now <? sg_expires_at_ms g).

Fixpoint sweep_grants (ak : bytes) (ts : nat -> Z) (expired : list (string * SecretGrantRow)) : Tx unit :=
  match expired with
  | [] => mret tt
  | (id, g) :: rest =>
      do! _ <- exec (with_secret_grants (delete id)) ;;
      do! _ <- secret_audit ak ts SecretGrantExpire (Some ("secret|" ++ sg_secret_name g)%string) "vault"
                 [str_bytes id; str_bytes (sg_incarnation g); le_bytes 8 (sg_expires_at_ms g)] ;;
      sweep_grants ak ts rest
  end.

(** [sweep]: the expiry column is read as [u64]. *)
Definition sweep (ak : bytes) (ts : nat -> Z) (now : Z) : Tx unit :=
  do! expired <- query (fun d =>
    List.filter (fun kv => grant_expired now kv.2) (map_to_list (secret_grants (secrets d)))) ;;
  if existsb (fun kv => sg_expires_at_ms kv.2 <? 0) expired then sql_range else
  do! _ <- sweep_grants ak ts expired ;;
  sweep_release_receipts now.

Definition self_member (d : Db) : result string SecretError :=
  match settings d !! SELF_MEMBER_SETTING with
  | Some (m, _) => if valid_member_id m then Ok m else Err SeSetupIncomplete
  | None => Err SeSetupIncomplete
  end.

(** ** The record behind a name *)

Record SecretRecord := { sr_incarnation : string; sr_scope : SecretScope; sr_material : SecretMaterial }.

Record Refusal := { rf_detail : string; rf_addressed : bool }.

(** The scope the plaintext columns spell, if they spell one. *)
Definition scope_of_columns (r : AgentSecretRow) : option SecretScope :=
  match as_host r, as_location r, as_origin r with
  | Some host, Some location, None =>
      if bool_decide (as_kind r = "agent_api_key")
      then Some (ApiKeyScope host (as_path_prefix r) location) else None
  | None, None, Some origin =>
      if bool_decide (as_kind r = "site_login") then Some (SiteLoginScope origin) else None
  | _, _, _ => None
  end.

Definition check_secret_target (key : MasterKey) (name : string) (sender : SecretSender) (target : UseTarget)
    (d : Db) : result SecretRecord Refusal :=
  match agent_secrets d !! name with
  | None => Err {| rf_detail := "unknown_name"; rf_addressed := false |}
  | Some row =>
      let refused detail := Err {| rf_detail := detail; rf_addressed := true |} in
      if negb (bool_decide (as_state row = "active")) then refused "corrupt" else
      match scope_of_columns row with
      | None => refused "sealed_scope"
      | Some scope =>
          match secret_open key (as_incarnation row) name scope (as_envelope row) with
          | Err _ => refused "sealed_scope"
          | Ok material =>
              if negb (sender_admits sender scope) then refused "kind"
              else if negb (target_matches target scope) then refused "target"
              else Ok {| sr_incarnation := as_incarnation row; sr_scope := scope; sr_material := material |}
          end
      end
  end.

(** ** Grants for agents *)

Definition LOCAL_ASKING_MEMBER : string := "".

(** The grant row that answers a call, as [choose_grant] reads it. *)
Definition scope_equal (s : AskingScope) (g : SecretGrantRow) : bool :=
  bool_decide (sc_owner s = sg_scope_owner g) && bool_decide (sc_kind s = sg_scope_kind g) &&
  bool_decide (sc_ref s = sg_scope_ref g).

Definition grant_covers (call : SecretUse) (g : SecretGrantRow) : bool :=
  bool_decide (sg_coverage g = "scope") && scope_equal (su_scope call) g ||
  bool_decide (sg_coverage g = "agent_and_workers") && bool_decide (sg_scope_kind g = "head") &&
  (scope_equal (su_scope call) g ||
   match su_worker_parent call with Some p => scope_equal p g | None => false end).

Definition grant_candidate (name asking_member incarnation : string) (now : Z) (g : SecretGrantRow) : bool :=
  bool_decide (sg_incarnation g = incarnation) && bool_decide (sg_secret_name g = name) &&
  grant_unexpired now g && bool_decide (sg_asking_member_id g = asking_member).

(** [ORDER BY (duration='once'), (duration='permanent') DESC, expiry DESC (but for once),
    granted_at_ms, grant_id]: the lexicographic order of these keys. *)
Definition grant_sort_key (g : SecretGrantRow) : list Z :=
  [ (if bool_decide (sg_duration g = "once") then 1 else 0);
    (if bool_decide (sg_duration g = "permanent") then 0 else 1);
    (if bool_decide (sg_duration g = "once") then 0 else - sg_expires_at_ms g);
    sg_granted_at_ms g ].

Fixpoint keys_leb (a b : list Z) (tie : bool) : bool :=
  match a, b with
  | x :: a', y :: b' => if x =? y then keys_leb a' b' tie else x <? y
  | _, _ => tie
  end.

Definition grant_before (a b : string * SecretGrantRow) : Prop :=
  Is_true (keys_leb (grant_sort_key a.2) (grant_sort_key b.2) (String.leb a.1 b.1)).
#[global] Instance grant_before_dec : RelDecision grant_before.
Proof. intros a b. unfold grant_before. apply _. Defined.

Definition choose_grant (call : SecretUse) (asking_member incarnation : string) (now : Z) (d : Db)
  : option (string * SecretGrantRow) :=
  find (fun kv => grant_covers call kv.2)
    (merge_sort grant_before (List.filter (fun kv => grant_candidate (su_name call) asking_member incarnation now kv.2)
      (map_to_list (secret_grants (secrets d))))).

(** ** Replies *)

Record SecretUseOutcome := { so_reply : Value; so_last_use : option (string * Z) }.

Definition release (r : SecretRecord) (now : Z) : result Value SecretError :=
  match sr_scope r, sr_material r with
  | ApiKeyScope _ _ location, ApiKeyMaterial key =>
      Ok (jobj [("status", JStr "released"); ("kind", JStr "agent_api_key");
                ("key_b64url", JStr (b64url_encode key)); ("location", JStr location)])
  | SiteLoginScope _, SiteLoginMaterial username password otpauth =>
      let reply := jobj [("status", JStr "released"); ("kind", JStr "site_login");
                         ("username", JStr username); ("password", JStr password)] in
      match otpauth with
      | Some uri =>
          match totp uri now with
          | Ok code => Ok (jset "totp" (JStr code) reply)
          | Err _ => Err SeStoreError
          end
      | None => Ok reply
      end
  | _, _ => Err SeStoreError
  end.

Definition approval_required (id : string) (statement : bytes) (expiry : Z) : Value :=
  jobj [("status", JStr "approval_required"); ("request_id", JStr id);
        ("statement_b64url", JStr (b64url_encode statement)); ("expires_at_ms", JNum expiry)].

Definition approval_reply (id : string) (statement : bytes) (expiry : Z) : SecretUseOutcome :=
  {| so_reply := approval_required id statement expiry; so_last_use := None |}.

(** ** Pending requests *)

(** [DELETE .. WHERE consumed!=0 OR request_expires_at_ms<=now OR member_id!=member]. *)
Definition request_stale (now : Z) (member : string) (r : RequestRow) : bool :=
  rq_consumed r || (rq_expires_at_ms r <=? now) || negb (bool_decide (rq_member_id r = member)).

Definition drop_stale_requests (now : Z) (member : string) : Tx unit :=
  exec (with_requests (drop_rows (fun kv => request_stale now member kv.2))).

Definition agent_request (r : RequestRow) : bool :=
  bool_decide (rq_kind r = "approve") && negb (is_some (rq_flow_id r)).
Definition flow_request (r : RequestRow) : bool :=
  bool_decide (rq_kind r = "approve") && is_some (rq_flow_id r).

(** The request columns of an asking scope. *)
Definition request_of_scope (s : AskingScope) (asking_member : string) (r : RequestRow) : bool :=
  bool_decide (rq_owner r = Some (sc_owner s)) && bool_decide (rq_scope_kind r = Some (sc_kind s)) &&
  bool_decide (rq_scope_ref r = Some (sc_ref s)) && bool_decide (rq_asking_member_id r = asking_member).

Definition agent_request_matches (call : SecretUse) (asking_member incarnation : string) (r : RequestRow) : bool :=
  agent_request r && bool_decide (rq_incarnation r = incarnation) &&
  request_of_scope (su_scope call) asking_member r && bool_decide (rq_coverage r = Some (su_coverage call)).

(** The first row a query returns. *)
Definition find_request (p : RequestRow -> bool) (d : Db) : option (string * RequestRow) :=
  find (fun kv => p kv.2) (map_to_list (secret_pending_requests (secrets d))).

Definition count_requests (p : RequestRow -> bool) (d : Db) : nat :=
  length (List.filter (fun kv => p kv.2) (map_to_list (secret_pending_requests (secrets d)))).

Definition pending (rnd : option bytes) (call : SecretUse) (asking_member : string) (record : SecretRecord) (now : Z)
  : Tx (result SecretUseOutcome SecretError) :=
  do! member <- query self_member ;;
  match member with
  | Err e => mret (Err e)
  | Ok member =>
  do! _ <- drop_stale_requests now member ;;
  do! prior <- query (find_request (agent_request_matches call asking_member (sr_incarnation record))) ;;
  match prior with
  | Some (id, r) => mret (Ok (approval_reply id (rq_statement_bytes r) (rq_expires_at_ms r)))
  | None =>
  do! total <- query (count_requests agent_request) ;;
  do! scope <- query (count_requests (fun r => agent_request r && request_of_scope (su_scope call) asking_member r)) ;;
  if ((MAX_SECRET_PENDING_TOTAL <=? total) || (MAX_SECRET_PENDING_PER_SCOPE <=? scope))%nat
  then mret (Err SePendingLimit) else
  do! id <- mlift (map_err (fun _ => Sql "request id generation failed") (request_id rnd now)) ;;
  let expiry := as_i64 (now + SECRET_PENDING_LIFETIME_LIMIT_MS) in
  let statement := approval_statement_for_asker id member (sr_incarnation record) call (sr_scope record) expiry
                     asking_member in
  let bs := json_to_vec statement in
  do! epoch <- to_sql_u64 (sc_epoch (su_scope call)) ;;
  do! _ <- insert_request id
    {| rq_kind := "approve"; rq_secret_name := su_name call; rq_incarnation := sr_incarnation record;
       rq_member_id := member; rq_owner := Some (sc_owner (su_scope call));
       rq_scope_kind := Some (sc_kind (su_scope call)); rq_scope_ref := Some (sc_ref (su_scope call));
       rq_epoch := Some epoch; rq_coverage := Some (su_coverage call); rq_agent_id := su_agent_id call;
       rq_statement_bytes := bs; rq_statement_sha256 := hex (payload_sha256 bs); rq_expires_at_ms := expiry;
       rq_consumed := false; rq_flow_id := None; rq_flow_version := None; rq_flow_code_hash := None;
       rq_flow_install_id := None; rq_methods := None; rq_asking_member_id := asking_member |} ;;
  mret (Ok (approval_reply id bs expiry))
  end end.

(** ** Release to an agent *)

Definition set_released (now : Z) (g : SecretGrantRow) : SecretGrantRow :=
  {| sg_secret_name := sg_secret_name g; sg_incarnation := sg_incarnation g; sg_scope_owner := sg_scope_owner g;
     sg_scope_kind := sg_scope_kind g; sg_scope_ref := sg_scope_ref g; sg_coverage := sg_coverage g;
     sg_duration := sg_duration g; sg_expires_at_ms := sg_expires_at_ms g; sg_granted_at_ms := sg_granted_at_ms g;
     sg_envelope_sha256 := sg_envelope_sha256 g; sg_agent_id := sg_agent_id g; sg_card_ref := sg_card_ref g;
     sg_first_released := true; sg_last_use_ms := Some now; sg_asking_member_id := sg_asking_member_id g |}.

Definition asker_field (asking_member : string) : list bytes :=
  if bool_decide (asking_member = LOCAL_ASKING_MEMBER) then [] else [str_bytes asking_member].

Definition commit_agent_release (ak : bytes) (ts : nat -> Z) (call : SecretUse) (asking_member : string)
    (grant : string * SecretGrantRow) (record : SecretRecord) (now : Z) : Tx unit :=
  let '(id, g) := grant in
  let once := bool_decide (sg_duration g = "once") in
  do! _ <- (if negb (sg_first_released g) || once
            then secret_audit ak ts SecretFirstRelease (Some ("secret|" ++ su_name call)%string)
                   (sender_actor (su_sender call))
                   ([str_bytes id; str_bytes (sr_incarnation record)] ++ asker_field asking_member)
            else mret tt) ;;
  exec (with_secret_grants (if once then delete id else alter (set_released now) id)).

(** The quarantine of [refuse_secret_target]: a row whose columns or seal do not agree is
    set aside when that still holds under the write lock. *)
Definition quarantine_target_tx (K : Keys) (inp : SecretInputs) (name : string) (sender : SecretSender)
    (target : UseTarget) : Tx unit :=
  do! row <- query (fun d => agent_secrets d !! name) ;;
  match row with
  | Some row =>
      if negb (bool_decide (as_state row = "active")) then mret tt else
      do! checked <- query (check_secret_target (k_key K) name sender target) ;;
      match checked with
      | Err r =>
          if bool_decide (rf_detail r = "sealed_scope") then
            do! _ <- exec (corrupt_active (fun n a =>
                       bool_decide (n = name) && has_incarnation (as_incarnation row) a)) ;;
            secret_audit (k_audit_key K) (sx_now inp) SecretQuarantine
              (Some ("secret|" ++ name)%string) "vault" [str_bytes (as_incarnation row)]
          else mret tt
      | Ok _ => mret tt
      end
  | None => mret tt
  end.

(** [refuse_secret_target]: the caller learns [not_found]. *)
Definition refuse_secret_target (inp : SecretInputs) (name : string) (sender : SecretSender) (target : UseTarget)
    (refusal : Refusal) : SOp SecretError :=
  with_keys (fun K =>
  do! _ <- (if bool_decide (rf_detail refusal = "sealed_scope")
            then best_effort (secret_fenced (quarantine_target_tx K inp name sender target))
            else mret tt) ;;
  do! _ <- record_secret_use_refusal inp sender (if rf_addressed refusal then Some name else None)
             (rf_detail refusal) ;;
  mret SeNotFound).

Definition use_refused {A} (inp : SecretInputs) (call : SecretUse) (refusal : Refusal) : SOp A :=
  do! e <- refuse_secret_target inp (su_name call) (su_sender call) (su_target call) refusal ;; merr e.

Definition flow_identity_refusal : Refusal := {| rf_detail := "flow_identity"; rf_addressed := false |}.

(** The body of the write transaction of [secret_use_from]. *)
Definition secret_use_tx (K : Keys) (inp : SecretInputs) (call : SecretUse) (asking_member : string)
  : Tx (result (result SecretUseOutcome SecretError) Refusal) :=
  let now := sx_clock inp 1 in
  do! record <- query (check_secret_target (k_key K) (su_name call) (su_sender call) (su_target call)) ;;
  match record with
  | Err r => mret (Err r)
  | Ok record =>
  do! _ <- sweep (k_audit_key K) (sx_now inp) now ;;
  do! grant <- query (choose_grant call asking_member (sr_incarnation record) now) ;;
  match grant with
  | Some grant =>
      do! reply <- mlift (map_err (fun _ => Sql "secret release failed") (release record now)) ;;
      do! _ <- commit_agent_release (k_audit_key K) (sx_now inp) call asking_member grant record now ;;
      mret (Ok (Ok {| so_reply := reply; so_last_use := None |}))
  | None =>
      do! answer <- pending (sx_rnd inp 0) call asking_member record now ;;
      mret (Ok answer)
  end end.

(** [secret_use_from]. *)
Definition secret_use_from (inp : SecretInputs) (call : SecretUse) (asking_member : string) : SOp SecretUseOutcome :=
  with_keys (fun K =>
  if bool_decide (su_sender call = Basal) then use_refused inp call flow_identity_refusal else
  let now := sx_clock inp 0 in
  do! snapshot <- secret_conn (query (fun d =>
    match check_secret_target (k_key K) (su_name call) (su_sender call) (su_target call) d with
    | Err r => Err r
    | Ok record => Ok (record, choose_grant call asking_member (sr_incarnation record) now d,
                       existsb (fun kv => grant_expired now kv.2) (map_to_list (secret_grants (secrets d))))
    end)) ;;
  let slow :=
    do! answer <- secret_fenced (secret_use_tx K inp call asking_member) ;;
    match answer with Err refusal => use_refused inp call refusal | Ok answer => mlift answer end in
  match snapshot with
  | Err refusal => use_refused inp call refusal
  | Ok (record, Some (id, g), false) =>
      if sg_first_released g && negb (bool_decide (sg_duration g = "once")) then
        do! reply <- mlift (release record now) ;;
        mret {| so_reply := reply; so_last_use := Some (id, now) |}
      else slow
  | Ok _ => slow
  end).

Definition secret_use (inp : SecretInputs) (call : SecretUse) : SOp SecretUseOutcome :=
  secret_use_from inp call LOCAL_ASKING_MEMBER.

Definition max_last_use (now : Z) (o : option Z) : option Z := Some (Z.max (default 0 o) now).
Definition touch_grant (now : Z) (g : SecretGrantRow) : SecretGrantRow :=
  {| sg_secret_name := sg_secret_name g; sg_incarnation := sg_incarnation g; sg_scope_owner := sg_scope_owner g;
     sg_scope_kind := sg_scope_kind g; sg_scope_ref := sg_scope_ref g; sg_coverage := sg_coverage g;
     sg_duration := sg_duration g; sg_expires_at_ms := sg_expires_at_ms g; sg_granted_at_ms := sg_granted_at_ms g;
     sg_envelope_sha256 := sg_envelope_sha256 g; sg_agent_id := sg_agent_id g; sg_card_ref := sg_card_ref g;
     sg_first_released := sg_first_released g; sg_last_use_ms := max_last_use now (sg_last_use_ms g);
     sg_asking_member_id := sg_asking_member_id g |}.
Definition touch_flow_grant (released : bool) (last : option Z) (g : FlowGrantRow) : FlowGrantRow :=
  {| fg_secret_name := fg_secret_name g; fg_incarnation := fg_incarnation g; fg_flow_id := fg_flow_id g;
     fg_flow_version := fg_flow_version g; fg_flow_code_hash := fg_flow_code_hash g;
     fg_flow_install_id := fg_flow_install_id g; fg_methods := fg_methods g; fg_granted_at_ms := fg_granted_at_ms g;
     fg_envelope_sha256 := fg_envelope_sha256 g; fg_card_ref := fg_card_ref g; fg_first_released := released;
     fg_last_use_ms := last; fg_asking_member_id := fg_asking_member_id g |}.

Definition last_use_tx (id : string) (now : Z) : Tx unit :=
  do! _ <- exec (with_secret_grants (alter (touch_grant now) id)) ;;
  exec (with_flow_grants (alter (fun g =>
    touch_flow_grant (fg_first_released g) (max_last_use now (fg_last_use_ms g)) g) id)).
Definition secret_use_last_use (id : string) (now : Z) : SOp unit := best_effort (secret_conn (last_use_tx id now)).

(** ** Release to a paired computer *)

Definition SECRET_RELEASE_RECEIPT_LIFETIME_MS : Z := 10 * 60 * 1000.

Record ReleaseRequest := { rr_requester : string; rr_nonce : string; rr_aad : bytes }.

Definition release_request_validate (r : ReleaseRequest) : result unit SecretError :=
  if valid_member_id (rr_requester r) && is_lower_hex_16_bytes (rr_nonce r) && negb (bool_decide (rr_aad r = []))
  then Ok tt else Err SeInvalidParams.

Record SealedRelease := { se_enc : bytes; se_ciphertext : bytes }.
Inductive ForwardedUse := FSealed (s : SealedRelease) | FReply (v : Value).
Inductive Forwarded := FAnswer (r : result ForwardedUse SecretError) | FRefused (r : Refusal).

Inductive ReceiptGrant := RAgent | ROnce | RFlow.
#[global] Instance ReceiptGrant_eq_dec : EqDecision ReceiptGrant.
Proof. solve_decision. Defined.
Definition receipt_as_str (k : ReceiptGrant) : string :=
  match k with RAgent => "agent" | ROnce => "once" | RFlow => "flow" end.

Definition receipt_denied : Forwarded := FRefused {| rf_detail := "release_receipt"; rf_addressed := true |}.

(** The grant a receipt was written under still answers. *)
Definition receipt_live (kind : ReceiptGrant) (grant_id incarnation requester : string) (now : Z) (d : Db) : bool :=
  match kind with
  | ROnce => true
  | RAgent =>
      match secret_grants (secrets d) !! grant_id with
      | Some g => bool_decide (sg_incarnation g = incarnation) && bool_decide (sg_asking_member_id g = requester) &&
                  grant_unexpired now g
      | None => false
      end
  | RFlow =>
      match secret_flow_grants (secrets d) !! grant_id with
      | Some g => bool_decide (fg_incarnation g = incarnation) && bool_decide (fg_asking_member_id g = requester)
      | None => false
      end
  end.

Definition replay (request : ReleaseRequest) (aad_sha256 incarnation : string) (kinds : list ReceiptGrant) (now : Z)
  : Tx (option Forwarded) :=
  do! row <- query (fun d => secret_release_receipts (secrets d) !! (rr_requester request, rr_nonce request)) ;;
  match row with
  | None => mret None
  | Some row =>
  match find (fun k => bool_decide (receipt_as_str k = rc_grant_kind row)) [RAgent; ROnce; RFlow] with
  | None => merr (Sql "invalid release receipt grant kind")
  | Some kind =>
  if (rc_expires_at_ms row <=? now) || negb (bool_decide (rc_aad_sha256 row = aad_sha256)) ||
     negb (bool_decide (rc_incarnation row = incarnation)) || negb (bool_decide (kind ∈ kinds))
  then mret (Some receipt_denied) else
  do! live <- query (receipt_live kind (rc_grant_id row) incarnation (rr_requester request) now) ;;
  mret (Some (if live : bool
              then FAnswer (Ok (FSealed {| se_enc := rc_enc row; se_ciphertext := rc_ciphertext row |}))
              else receipt_denied))
  end end.

Definition write_receipt (request : ReleaseRequest) (aad_sha256 incarnation : string) (kind : ReceiptGrant)
    (grant_id : string) (sealed : SealedRelease) (now : Z) : Tx unit :=
  fun d =>
    let key := (rr_requester request, rr_nonce request) in
    if is_some (secret_release_receipts (secrets d) !! key)
    then (Err (Sql "UNIQUE constraint failed: secret_release_receipts.requester, secret_release_receipts.nonce"), d)
    else (Ok tt, with_release_receipts (insert key
      {| rc_aad_sha256 := aad_sha256; rc_incarnation := incarnation; rc_grant_kind := receipt_as_str kind;
         rc_grant_id := grant_id; rc_enc := se_enc sealed; rc_ciphertext := se_ciphertext sealed;
         rc_expires_at_ms := as_i64 (now + SECRET_RELEASE_RECEIPT_LIFETIME_MS) |}) d).

(** The captured [seal_failure]: the caller's error leaves the transaction with it. *)
Definition seal_captured {A} (r : result A string) : Tx A := mlift (map_err Captured r).

Definition secret_use_sealed_tx (K : Keys) (inp : SecretInputs) (call : SecretUse) (request : ReleaseRequest)
    (seal : Value -> result SealedRelease string) : Tx Forwarded :=
  let now := sx_clock inp 0 in
  let aad_sha256 := hex (payload_sha256 (rr_aad request)) in
  do! record <- query (check_secret_target (k_key K) (su_name call) (su_sender call) (su_target call)) ;;
  match record with
  | Err refusal => mret (FRefused refusal)
  | Ok record =>
  do! replayed <- replay request aad_sha256 (sr_incarnation record) [RAgent; ROnce] now ;;
  match replayed with
  | Some answer => mret answer
  | None =>
  do! _ <- sweep (k_audit_key K) (sx_now inp) now ;;
  do! grant <- query (choose_grant call (rr_requester request) (sr_incarnation record) now) ;;
  match grant with
  | None =>
      do! answer <- pending (sx_rnd inp 0) call (rr_requester request) record now ;;
      mret (FAnswer (let? outcome := answer in Ok (FReply (so_reply outcome))))
  | Some grant =>
      do! reply <- mlift (map_err (fun _ => Sql "secret release failed") (release record now)) ;;
      do! sealed <- seal_captured (seal reply) ;;
      do! _ <- commit_agent_release (k_audit_key K) (sx_now inp) call (rr_requester request) grant record now ;;
      let kind := if bool_decide (sg_duration grant.2 = "once") then ROnce else RAgent in
      do! _ <- write_receipt request aad_sha256 (sr_incarnation record) kind grant.1 sealed now ;;
      mret (FAnswer (Ok (FSealed sealed)))
  end end end.

(** The tail both sealed operations share: a seal failure is the caller's own. *)
Definition forwarded_answer (body : Tx Forwarded) (refuse : Refusal -> SOp SecretError)
  : SOp (result ForwardedUse string) :=
  fun s =>
    let '(out, s') := fenced_write body s in
    match out with
    | Err (SWork (Captured e)) => (Ok (Err e), s')
    | Err _ => (Err SeStoreError, s')
    | Ok (FAnswer (Ok a)) => (Ok (Ok a), s')
    | Ok (FAnswer (Err e)) => (Err e, s')
    | Ok (FRefused refusal) => (do! e <- refuse refusal ;; merr e) s'
    end.

Definition secret_use_sealed (inp : SecretInputs) (call : SecretUse) (request : ReleaseRequest)
    (seal : Value -> result SealedRelease string) : SOp (result ForwardedUse string) :=
  with_keys (fun K =>
  do! _ <- mlift (release_request_validate request) ;;
  if bool_decide (su_sender call = Basal) then use_refused inp call flow_identity_refusal else
  forwarded_answer (secret_use_sealed_tx K inp call request seal)
    (refuse_secret_target inp (su_name call) (su_sender call) (su_target call))).

(** ** Flows ([store_secret_flow.rs]) *)

Definition flow_request_matches (f : FlowIdentity) (methods : option string) (asking_member incarnation : string)
    (r : RequestRow) : bool :=
  bool_decide (rq_kind r = "approve") && bool_decide (rq_incarnation r = incarnation) &&
  bool_decide (rq_flow_id r = Some (flow_id f)) && bool_decide (rq_flow_version r = Some (flow_version f)) &&
  bool_decide (rq_flow_code_hash r = Some (flow_code_hash f)) &&
  bool_decide (rq_flow_install_id r = Some (flow_install_id f)) && bool_decide (rq_methods r = methods) &&
  negb (is_some (rq_owner r)) && negb (is_some (rq_scope_kind r)) && negb (is_some (rq_scope_ref r)) &&
  negb (is_some (rq_epoch r)) && negb (is_some (rq_coverage r)) && negb (is_some (rq_agent_id r)) &&
  bool_decide (rq_asking_member_id r = asking_member).

Definition flow_pending (rnd : option bytes) (call : SecretFlowApproval) (asking_member : string)
    (record : SecretRecord) (methods : option string) (now : Z) : Tx (result SecretUseOutcome SecretError) :=
  do! member <- query self_member ;;
  match member with
  | Err e => mret (Err e)
  | Ok member =>
  do! _ <- drop_stale_requests now member ;;
  do! prior <- query (find_request (flow_request_matches (fa_flow call) methods asking_member (sr_incarnation record))) ;;
  match prior with
  | Some (id, r) => mret (Ok (approval_reply id (rq_statement_bytes r) (rq_expires_at_ms r)))
  | None =>
  do! total <- query (count_requests flow_request) ;;
  do! install <- query (count_requests (fun r => flow_request r &&
    bool_decide (rq_flow_install_id r = Some (flow_install_id (fa_flow call))) &&
    bool_decide (rq_asking_member_id r = asking_member))) ;;
  if ((MAX_FLOW_SECRET_PENDING_TOTAL <=? total) || (MAX_FLOW_SECRET_PENDING_PER_INSTALL <=? install))%nat
  then mret (Err SePendingLimit) else
  do! id <- mlift (map_err (fun _ => Sql "request id generation failed") (request_id rnd now)) ;;
  let expiry := as_i64 (now + FLOW_SECRET_PENDING_LIFETIME_LIMIT_MS) in
  if negb (str_is_empty asking_member) && flow_id_is_v2_statement_tag (flow_id (fa_flow call))
  then mret (Err SeInvalidParams) else
  do! statement <- mlift (map_err (fun _ => Sql "statement encoding failed")
    (flow_approval_statement_for_asker id member (sr_incarnation record) (fa_name call) (fa_flow call)
       (sr_scope record) (fa_methods call) expiry asking_member)) ;;
  let bs := json_to_vec statement in
  do! _ <- insert_request id
    {| rq_kind := "approve"; rq_secret_name := fa_name call; rq_incarnation := sr_incarnation record;
       rq_member_id := member; rq_owner := None; rq_scope_kind := None; rq_scope_ref := None; rq_epoch := None;
       rq_coverage := None; rq_agent_id := None; rq_statement_bytes := bs;
       rq_statement_sha256 := hex (payload_sha256 bs); rq_expires_at_ms := expiry; rq_consumed := false;
       rq_flow_id := Some (flow_id (fa_flow call)); rq_flow_version := Some (flow_version (fa_flow call));
       rq_flow_code_hash := Some (flow_code_hash (fa_flow call));
       rq_flow_install_id := Some (flow_install_id (fa_flow call)); rq_methods := methods;
       rq_asking_member_id := asking_member |} ;;
  mret (Ok (approval_reply id bs expiry))
  end end.

Definition svalid {A} (r : result A ValidationError) : SOp A := mlift (map_err secret_of_validation r).

Definition flow_approval_tx (K : Keys) (inp : SecretInputs) (call : SecretFlowApproval) (asking_member : string)
    (methods : option string) : Tx (result (result SecretUseOutcome SecretError) Refusal) :=
  do! record <- query (check_secret_target (k_key K) (fa_name call) Basal (fa_target call)) ;;
  match record with
  | Err refusal => mret (Err refusal)
  | Ok record =>
      do! answer <- flow_pending (sx_rnd inp 0) call asking_member record methods (sx_clock inp 0) ;;
      mret (Ok answer)
  end.

Definition secret_request_flow_approval_from (inp : SecretInputs) (call : SecretFlowApproval) (asking_member : string)
  : SOp SecretUseOutcome :=
  with_keys (fun K =>
  do! _ <- svalid (validate_name (fa_name call)) ;;
  do! _ <- svalid (flow_validate (fa_flow call)) ;;
  do! _ <- svalid (target_validate (fa_target call)) ;;
  do! methods <- svalid (validate_flow_methods (fa_target call) (fa_methods call)) ;;
  do! answer <- secret_fenced (flow_approval_tx K inp call asking_member (strings_to_text <$> methods)) ;;
  match answer with
  | Ok answer => mlift answer
  | Err refusal => do! e <- refuse_secret_target inp (fa_name call) Basal (fa_target call) refusal ;; merr e
  end).

Definition secret_request_flow_approval (inp : SecretInputs) (call : SecretFlowApproval) : SOp SecretUseOutcome :=
  secret_request_flow_approval_from inp call LOCAL_ASKING_MEMBER.

Definition flow_grant_candidate (call : SecretFlowUse) (asking_member incarnation : string) (g : FlowGrantRow) : bool :=
  bool_decide (fg_secret_name g = fu_name call) && bool_decide (fg_incarnation g = incarnation) &&
  bool_decide (fg_flow_id g = flow_id (fu_flow call)) && (fg_flow_version g =? flow_version (fu_flow call)) &&
  bool_decide (fg_flow_code_hash g = flow_code_hash (fu_flow call)) &&
  bool_decide (fg_flow_install_id g = flow_install_id (fu_flow call)) &&
  bool_decide (fg_asking_member_id g = asking_member).

Definition flow_before (a b : string * FlowGrantRow) : Prop :=
  Is_true (keys_leb [fg_granted_at_ms a.2] [fg_granted_at_ms b.2] (String.leb a.1 b.1)).
#[global] Instance flow_before_dec : RelDecision flow_before.
Proof. intros a b. unfold flow_before. apply _. Defined.

(** The loop of [choose_flow_grant]: a grant for another method is passed over. *)
Fixpoint first_flow_grant (method : option string) (detail : string) (rows : list (string * FlowGrantRow))
  : result (result (string * FlowGrantRow) Refusal) SqlError :=
  match rows with
  | [] => Ok (Err {| rf_detail := detail; rf_addressed := true |})
  | (id, g) :: rest =>
      match method, fg_methods g with
      | Some m, Some text =>
          match strings_from_text text with
          | None => Err (Sql "invalid stored flow methods")
          | Some ms => if bool_decide (m ∈ ms) then Ok (Ok (id, g)) else first_flow_grant method "flow_method" rest
          end
      | None, None => Ok (Ok (id, g))
      | _, _ => first_flow_grant method "flow_method" rest
      end
  end.

Definition choose_flow_grant (call : SecretFlowUse) (asking_member incarnation : string)
  : Tx (result (string * FlowGrantRow) Refusal) :=
  do! rows <- query (fun d => merge_sort flow_before
    (List.filter (fun kv => flow_grant_candidate call asking_member incarnation kv.2)
      (map_to_list (secret_flow_grants (secrets d))))) ;;
  mlift (first_flow_grant (fu_method call) "flow_no_grant" rows).

(** Decimal text of a non-negative integer. *)
Fixpoint decimal_fuel (fuel : nat) (z : Z) (acc : string) : string :=
  match fuel with
  | O => acc
  | S f =>
      let acc := String (ascii_of_N (Z.to_N (48 + z mod 10))) acc in
      if z / 10 =? 0 then acc else decimal_fuel f (z / 10) acc
  end.
(** [z.to_string()]; twenty digits hold every [u64]. *)
Definition u64_to_string (z : Z) : string := decimal_fuel 20 z "".

Definition commit_flow_release (ak : bytes) (ts : nat -> Z) (call : SecretFlowUse) (asking_member : string)
    (grant : string * FlowGrantRow) (record : SecretRecord) (now : Z) : Tx unit :=
  let '(id, g) := grant in
  do! _ <- (if fg_first_released g then mret tt else
            secret_audit ak ts SecretFirstRelease (Some ("secret|" ++ fu_name call)%string) (sender_actor Basal)
              ([str_bytes id; str_bytes (sr_incarnation record); str_bytes (flow_id (fu_flow call));
                str_bytes (u64_to_string (flow_version (fu_flow call)))] ++ asker_field asking_member)) ;;
  exec (with_flow_grants (alter (touch_flow_grant true (Some now)) id)).

Definition flow_use_snapshot (K : Keys) (call : SecretFlowUse) (asking_member : string)
  : Tx (result (SecretRecord * (string * FlowGrantRow)) Refusal) :=
  do! record <- query (check_secret_target (k_key K) (fu_name call) Basal (fu_target call)) ;;
  match record with
  | Err refusal => mret (Err refusal)
  | Ok record =>
      do! grant <- choose_flow_grant call asking_member (sr_incarnation record) ;;
      mret (match grant with Ok g => Ok (record, g) | Err refusal => Err refusal end)
  end.

Definition flow_use_tx (K : Keys) (inp : SecretInputs) (call : SecretFlowUse) (asking_member : string)
  : Tx (result SecretUseOutcome Refusal) :=
  do! chosen <- flow_use_snapshot K call asking_member ;;
  match chosen with
  | Err refusal => mret (Err refusal)
  | Ok (record, grant) =>
      let now := sx_clock inp 1 in
      do! reply <- mlift (map_err (fun _ => Sql "secret release failed") (release record now)) ;;
      do! _ <- commit_flow_release (k_audit_key K) (sx_now inp) call asking_member grant record now ;;
      mret (Ok {| so_reply := reply; so_last_use := None |})
  end.

(** The checks both flow calls make before any lookup. *)
Definition flow_call_checks (inp : SecretInputs) (call : SecretFlowUse) : SOp unit :=
  do! _ <- svalid (validate_name (fu_name call)) ;;
  do! _ <- svalid (target_validate (fu_target call)) ;;
  do! _ <- svalid (validate_flow_methods (fu_target call) ((fun m => [m]) <$> fu_method call)) ;;
  match flow_validate (fu_flow call) with
  | Ok _ => mret tt
  | Err _ => do! _ <- record_secret_use_refusal inp Basal None "flow_identity" ;; merr SeNotFound
  end.

Definition secret_flow_use_from (inp : SecretInputs) (call : SecretFlowUse) (asking_member : string)
  : SOp SecretUseOutcome :=
  with_keys (fun K =>
  let refuse r := do! e <- refuse_secret_target inp (fu_name call) Basal (fu_target call) r ;; merr e in
  do! _ <- flow_call_checks inp call ;;
  do! snapshot <- secret_conn (flow_use_snapshot K call asking_member) ;;
  match snapshot with
  | Err refusal => refuse refusal
  | Ok (record, (id, g)) =>
      if fg_first_released g then
        let now := sx_clock inp 0 in
        do! reply <- mlift (release record now) ;;
        mret {| so_reply := reply; so_last_use := Some (id, now) |}
      else
        do! answer <- secret_fenced (flow_use_tx K inp call asking_member) ;;
        match answer with Ok outcome => mret outcome | Err refusal => refuse refusal end
  end).

Definition secret_flow_use (inp : SecretInputs) (call : SecretFlowUse) : SOp SecretUseOutcome :=
  secret_flow_use_from inp call LOCAL_ASKING_MEMBER.

Definition flow_use_sealed_tx (K : Keys) (inp : SecretInputs) (call : SecretFlowUse) (request : ReleaseRequest)
    (seal : Value -> result SealedRelease string) : Tx Forwarded :=
  let now := sx_clock inp 0 in
  let aad_sha256 := hex (payload_sha256 (rr_aad request)) in
  do! record <- query (check_secret_target (k_key K) (fu_name call) Basal (fu_target call)) ;;
  match record with
  | Err refusal => mret (FRefused refusal)
  | Ok record =>
  do! replayed <- replay request aad_sha256 (sr_incarnation record) [RFlow] now ;;
  match replayed with
  | Some answer => mret answer
  | None =>
  do! _ <- sweep_release_receipts now ;;
  do! grant <- choose_flow_grant call (rr_requester request) (sr_incarnation record) ;;
  match grant with
  | Err refusal => mret (FRefused refusal)
  | Ok grant =>
      do! reply <- mlift (map_err (fun _ => Sql "secret release failed") (release record now)) ;;
      do! sealed <- seal_captured (seal reply) ;;
      do! _ <- commit_flow_release (k_audit_key K) (sx_now inp) call (rr_requester request) grant record now ;;
      do! _ <- write_receipt request aad_sha256 (sr_incarnation record) RFlow grant.1 sealed now ;;
      mret (FAnswer (Ok (FSealed sealed)))
  end end end.

Definition secret_flow_use_sealed (inp : SecretInputs) (call : SecretFlowUse) (request : ReleaseRequest)
    (seal : Value -> result SealedRelease string) : SOp (result ForwardedUse string) :=
  with_keys (fun K =>
  do! _ <- mlift (release_request_validate request) ;;
  do! _ <- flow_call_checks inp call ;;
  forwarded_answer (flow_use_sealed_tx K inp call request seal)
    (refuse_secret_target inp (fu_name call) Basal (fu_target call))).

Definition version_is (version : option Z) (v : Z) : bool :=
  match version with Some w => v =? w | None => true end.

Definition id_le {V} (a b : string * V) : Prop := string_le a.1 b.1.
#[global] Instance id_le_dec {V} : RelDecision (@id_le V).
Proof. intros a b. unfold id_le. apply _. Defined.

(** [SELECT .. ORDER BY id]. *)
Definition rows_by_id {V} (p : V -> bool) (m : gmap string V) : list (string * V) :=
  merge_sort id_le (List.filter (fun kv => p kv.2) (map_to_list m)).

Fixpoint revoke_flow_rows (ak : bytes) (ts : nat -> Z) (rows : list (string * FlowGrantRow)) : Tx unit :=
  match rows with
  | [] => mret tt
  | (id, g) :: rest =>
      do! _ <- exec (with_flow_grants (delete id)) ;;
      do! _ <- secret_audit ak ts SecretGrantRevoke (Some ("secret|" ++ fg_secret_name g)%string) (sender_actor Basal)
                 [str_bytes id; str_bytes (fg_incarnation g); str_bytes (fg_flow_id g);
                  str_bytes (u64_to_string (fg_flow_version g))] ;;
      revoke_flow_rows ak ts rest
  end.

Definition revoke_flow_tx (ak : bytes) (ts : nat -> Z) (install_id : string) (version : option Z)
    (asking_member : string) : Tx nat :=
  do! grants <- query (fun d => rows_by_id (fun g => bool_decide (fg_flow_install_id g = install_id) &&
    version_is version (fg_flow_version g) && bool_decide (fg_asking_member_id g = asking_member))
    (secret_flow_grants (secrets d))) ;;
  do! _ <- revoke_flow_rows ak ts grants ;;
  do! _ <- exec (with_requests (drop_rows (fun kv => negb (rq_consumed kv.2) &&
    bool_decide (rq_flow_install_id kv.2 = Some install_id) &&
    match version with Some v => bool_decide (rq_flow_version kv.2 = Some v) | None => true end &&
    bool_decide (rq_asking_member_id kv.2 = asking_member)))) ;;
  do! _ <- secret_audit ak ts SecretGrantRevoke (Some ("secret-flow|" ++ install_id)%string) (sender_actor Basal)
             [str_bytes install_id; str_bytes (default "" (u64_to_string <$> version));
              str_bytes (u64_to_string (Z.of_nat (length grants)))] ;;
  mret (length grants).

Definition revoke_flow_grants_from (inp : SecretInputs) (install_id : string) (version : option Z)
    (asking_member : string) : SOp nat :=
  with_keys (fun K =>
  if negb ((1 <=? String.length install_id) && (String.length install_id <=? 256))%nat ||
     negb (str_forallb is_printable install_id) ||
     match version with Some v => (v =? 0) || (MAX_SECRET_JSON_INTEGER <? v) | None => false end
  then merr SeInvalidParams
  else secret_fenced (revoke_flow_tx (k_audit_key K) (sx_now inp) install_id version asking_member)).

Definition revoke_flow_grants (inp : SecretInputs) (install_id : string) (version : option Z) : SOp nat :=
  revoke_flow_grants_from inp install_id version LOCAL_ASKING_MEMBER.

(** ** Approval ([store_secret_approval.rs]) *)

Definition consume_request (r : RequestRow) : RequestRow :=
  {| rq_kind := rq_kind r; rq_secret_name := rq_secret_name r; rq_incarnation := rq_incarnation r;
     rq_member_id := rq_member_id r; rq_owner := rq_owner r; rq_scope_kind := rq_scope_kind r;
     rq_scope_ref := rq_scope_ref r; rq_epoch := rq_epoch r; rq_coverage := rq_coverage r;
     rq_agent_id := rq_agent_id r; rq_statement_bytes := rq_statement_bytes r;
     rq_statement_sha256 := rq_statement_sha256 r; rq_expires_at_ms := rq_expires_at_ms r; rq_consumed := true;
     rq_flow_id := rq_flow_id r; rq_flow_version := rq_flow_version r; rq_flow_code_hash := rq_flow_code_hash r;
     rq_flow_install_id := rq_flow_install_id r; rq_methods := rq_methods r;
     rq_asking_member_id := rq_asking_member_id r |}.

(** [SAVEPOINT .. ROLLBACK TO .. RELEASE]: a failure undoes only the statements inside. *)
Definition savepoint (m : Tx unit) : Tx unit :=
  fun d => match m d with (Ok _, d') => (Ok tt, d') | (Err _, _) => (Ok tt, d) end.

Definition approval_quarantine (ak : bytes) (ts : nat -> Z) (p : RequestRow) : Tx unit :=
  savepoint (
    do! _ <- exec (corrupt_active (fun _ a => has_incarnation (rq_incarnation p) a)) ;;
    secret_audit ak ts SecretQuarantine (Some ("secret|" ++ rq_secret_name p)%string) "vault"
      [str_bytes (rq_incarnation p)]).

(** The expiry a duration stands for, from the time of issue. *)
Definition expected_expiry (duration : string) (issued request_expiry : Z) (delete_op : bool) : option Z :=
  if bool_decide (duration = "once") then Some (issued + 600000)
  else if bool_decide (duration = "hour") then Some (issued + 3600000)
  else if bool_decide (duration = "session") then Some (issued + 86400000)
  else if one_of duration ["permanent"; "version"] then Some 0
  else if bool_decide (duration = "none") && delete_op then Some request_expiry
  else None.

(** What a statement must say for the request row it was made for. *)
Definition statement_agrees (statement : Value) (id : string) (p : RequestRow) : bool :=
  jvalue_is (jidx statement "member_id") (JStr (rq_member_id p)) &&
  jvalue_is (jidx statement "request_id") (JStr id) &&
  jvalue_is (jidx statement "request_expires_at_ms") (JNum (rq_expires_at_ms p)) &&
  jvalue_is (jidx (jidx statement "secret") "name") (JStr (rq_secret_name p)) &&
  jvalue_is (jidx (jidx statement "secret") "incarnation") (JStr (rq_incarnation p)).

Definition statement_asker_ok (statement : Value) (p : RequestRow) : bool :=
  let asker := jget "asking_member_id" statement in
  let asker_ok := if str_is_empty (rq_asking_member_id p) then negb (is_some asker)
                  else match asker with
                       | Some (JStr m) => bool_decide (m = rq_asking_member_id p)
                       | _ => false
                       end in
  let is_v2 := match jget "v" statement with Some (JStr v) => ends_with "/v2" v | _ => false end in
  asker_ok && Bool.eqb is_v2 (negb (str_is_empty (rq_asking_member_id p))).

(** The first guard of [secret_approval_item_tx]. *)
Definition item_admitted (item : ApprovalItem) (e : ApprovalEnvelope) (member : option string) (p : RequestRow)
    (statement : Value) (delete_op : bool) (now : Z) : bool :=
  let issued := as_i64 (ae_issued_at_ms e) in
  let lifetime := if is_some (rq_flow_id p) then FLOW_SECRET_PENDING_LIFETIME_LIMIT_MS
                  else SECRET_PENDING_LIFETIME_LIMIT_MS in
  negb (rq_consumed p) && (now <? rq_expires_at_ms p) &&
  bool_decide (rq_statement_sha256 p = ai_statement_sha256 item) &&
  bool_decide (hex (payload_sha256 (rq_statement_bytes p)) = rq_statement_sha256 p) &&
  (rq_expires_at_ms p - lifetime <=? issued) && (issued <? rq_expires_at_ms p) &&
  (Z.abs (now - issued) <=? SECRET_ISSUE_SKEW_LIMIT_MS) &&
  bool_decide (member = Some (rq_member_id p)) &&
  statement_agrees statement (ai_request_id item) p &&
  bool_decide (rq_kind p = if delete_op then "delete" else "approve") &&
  bool_decide (ae_decision e = if delete_op then "delete" else "allow").

(** The statement of an agent request agrees with the scope columns of its row. *)
Definition agent_statement_ok (statement : Value) (duration : string) (p : RequestRow) : bool :=
  negb (bool_decide (duration = "version")) &&
  jvalue_is (jidx statement "v")
    (JStr (if str_is_empty (rq_asking_member_id p) then USE_STATEMENT else USE_STATEMENT_V2)) &&
  jvalue_is (jidx statement "scope")
    (jobj [("owner", jopt (rq_owner p)); ("kind", jopt (rq_scope_kind p)); ("ref", jopt (rq_scope_ref p));
           ("epoch", jopt_num (rq_epoch p))]) &&
  jvalue_is (jidx statement "coverage") (jopt (rq_coverage p)) &&
  match rq_scope_kind p with Some k => one_of k ["head"; "worker"] | None => false end &&
  match rq_coverage p with Some c => one_of c ["scope"; "agent_and_workers"] | None => false end &&
  negb (bool_decide (rq_coverage p = Some "agent_and_workers") &&
        (negb (bool_decide (duration = "permanent")) || negb (bool_decide (rq_scope_kind p = Some "head")))).

Definition durations_include (statement : Value) (duration : string) : bool :=
  match jidx statement "durations" with
  | JArr l => existsb (fun v => jvalue_is v (JStr duration)) l
  | _ => false
  end.

Definition is_flow_item (p : RequestRow) : bool :=
  is_some (rq_flow_id p) || is_some (rq_flow_version p) || is_some (rq_flow_code_hash p) ||
  is_some (rq_flow_install_id p) || is_some (rq_methods p).

(** The deletion of a secret with everything that names it. *)
Definition delete_secret_rows (incarnation name : string) : Tx unit :=
  do! _ <- exec (with_secret_grants (drop_rows (fun kv => bool_decide (sg_incarnation kv.2 = incarnation)))) ;;
  do! _ <- exec (with_flow_grants (drop_rows (fun kv => bool_decide (fg_incarnation kv.2 = incarnation)))) ;;
  do! _ <- exec (with_requests (drop_rows (fun kv => bool_decide (rq_incarnation kv.2 = incarnation)))) ;;
  do! _ <- exec (with_agent_secrets (drop_rows (fun kv => has_incarnation incarnation kv.2))) ;;
  exec (with_auth_events (List.filter (fun ev =>
    negb (bool_decide (ev_credential_id ev = ("secret|" ++ name)%string))))).

Definition flow_item_tx (ak : bytes) (ts : nat -> Z) (rnd : option bytes) (item : ApprovalItem) (e : ApprovalEnvelope)
    (p : RequestRow) (scope : SecretScope) (actor envelope_hash : string) (card_ref : option string) (now : Z)
  : Tx bool :=
  if negb (bool_decide (ae_duration e = "version")) || is_some (rq_owner p) || is_some (rq_scope_kind p) ||
     is_some (rq_scope_ref p) || is_some (rq_epoch p) || is_some (rq_coverage p) || is_some (rq_agent_id p)
  then mret false else
  match rq_flow_id p, rq_flow_version p, rq_flow_code_hash p, rq_flow_install_id p with
  | Some fid, Some version, Some code_hash, Some install_id =>
      let flow := {| flow_id := fid; flow_version := version; flow_code_hash := code_hash;
                     flow_install_id := install_id |} in
      if negb (str_is_empty (rq_asking_member_id p)) && flow_id_is_v2_statement_tag fid then mret false else
      let methods := match rq_methods p with
                     | None => Some None
                     | Some text => match strings_from_text text with Some ms => Some (Some ms) | None => None end
                     end in
      match methods with
      | None => mret false
      | Some methods =>
          if match methods with
             | Some ms => match sorted_flow_methods ms with Ok s => negb (bool_decide (s = ms)) | Err _ => true end
             | None => false
             end then mret false else
          match flow_approval_statement_for_asker (ai_request_id item) (rq_member_id p) (rq_incarnation p)
                  (rq_secret_name p) flow scope methods (rq_expires_at_ms p) (rq_asking_member_id p) with
          | Err _ => mret false
          | Ok expected =>
              if negb (bool_decide (json_to_vec expected = rq_statement_bytes p)) then mret false else
              do! id <- mlift (map_err (fun _ => Sql "grant id generation failed") (request_id rnd now)) ;;
              do! _ <- exec (with_requests (alter consume_request (ai_request_id item))) ;;
              do! _ <- insert_flow_grant id
                {| fg_secret_name := rq_secret_name p; fg_incarnation := rq_incarnation p; fg_flow_id := fid;
                   fg_flow_version := version; fg_flow_code_hash := code_hash; fg_flow_install_id := install_id;
                   fg_methods := rq_methods p; fg_granted_at_ms := now; fg_envelope_sha256 := envelope_hash;
                   fg_card_ref := card_ref; fg_first_released := false; fg_last_use_ms := None;
                   fg_asking_member_id := rq_asking_member_id p |} ;;
              do! _ <- envelope_audit ak ts SecretGrantCreate (rq_secret_name p) actor envelope_hash ;;
              mret true
          end
      end
  | _, _, _, _ => mret false
  end.

(** The row of the grant an agent request is answered with. The owner, kind, reference and
    coverage columns of [secret_grants] are [NOT NULL]. *)
Definition insert_agent_grant (id : string) (e : ApprovalEnvelope) (p : RequestRow) (envelope_hash : string)
    (card_ref : option string) (now : Z) : Tx unit :=
  match rq_owner p, rq_scope_kind p, rq_scope_ref p, rq_coverage p with
  | Some owner, Some kind, Some ref, Some coverage =>
      insert_secret_grant id
        {| sg_secret_name := rq_secret_name p; sg_incarnation := rq_incarnation p; sg_scope_owner := owner;
           sg_scope_kind := kind; sg_scope_ref := ref; sg_coverage := coverage; sg_duration := ae_duration e;
           sg_expires_at_ms := ae_grant_expires_at_ms e; sg_granted_at_ms := now;
           sg_envelope_sha256 := envelope_hash; sg_agent_id := rq_agent_id p; sg_card_ref := card_ref;
           sg_first_released := false; sg_last_use_ms := None; sg_asking_member_id := rq_asking_member_id p |}
  | _, _, _, _ => merr (Sql "NOT NULL constraint failed: secret_grants")
  end.

(** [secret_approval_item_tx]: what one signed item does. *)
Definition approval_item_tx (K : Keys) (ts : nat -> Z) (rnd : option bytes) (item : ApprovalItem)
    (e : ApprovalEnvelope) (member : option string) (envelope_hash fingerprint : string) (card_ref : option string)
    (delete_op : bool) (now : Z) : Tx bool :=
  do! pending <- query (fun d => secret_pending_requests (secrets d) !! ai_request_id item) ;;
  match pending with
  | None => mret false
  | Some p =>
  if match rq_epoch p with Some z => z <? 0 | None => false end ||
     match rq_flow_version p with Some z => z <? 0 | None => false end then sql_range else
  match json_from_slice (rq_statement_bytes p) with
  | None => mret false
  | Some statement =>
  if negb (item_admitted item e member p statement delete_op now) then mret false else
  if negb (statement_asker_ok statement p) then mret false else
  if negb (bool_decide (expected_expiry (ae_duration e) (as_i64 (ae_issued_at_ms e)) (rq_expires_at_ms p) delete_op =
                        Some (as_i64 (ae_grant_expires_at_ms e)))) then mret false else
  do! row <- query (fun d => agent_secrets d !! rq_secret_name p) ;;
  match row with
  | None => mret false
  | Some row =>
  if negb (has_incarnation (rq_incarnation p) row) then mret false else
  let actor := ("fed-phone:" ++ fingerprint)%string in
  if delete_op then
    if negb (bool_decide (ae_duration e = "none")) || negb (jvalue_is (jidx statement "v") (JStr DELETE_STATEMENT))
    then mret false else
    do! _ <- delete_secret_rows (rq_incarnation p) (rq_secret_name p) ;;
    do! _ <- envelope_audit (k_audit_key K) ts SecretDelete (rq_secret_name p) actor envelope_hash ;;
    mret true
  else
  if negb (bool_decide (as_state row = "active")) || negb (durations_include statement (ae_duration e))
  then mret false else
  if negb (is_flow_item p) && negb (agent_statement_ok statement (ae_duration e) p) then mret false else
  match scope_of_columns row with
  | None => do! _ <- approval_quarantine (k_audit_key K) ts p ;; mret false
  | Some scope =>
  if negb (is_ok (secret_open (k_key K) (rq_incarnation p) (rq_secret_name p) scope (as_envelope row)))
  then do! _ <- approval_quarantine (k_audit_key K) ts p ;; mret false else
  if is_flow_item p then flow_item_tx (k_audit_key K) ts rnd item e p scope actor envelope_hash card_ref now else
  if negb (jvalue_is (jidx (jidx statement "secret") "kind") (JStr (scope_kind scope))) ||
     negb (jvalue_is (jidx statement "use") (use_scope scope)) then mret false else
  do! id <- mlift (map_err (fun _ => Sql "grant id generation failed") (request_id rnd now)) ;;
  do! _ <- exec (with_requests (alter consume_request (ai_request_id item))) ;;
  do! _ <- insert_agent_grant id e p envelope_hash card_ref now ;;
  do! _ <- envelope_audit (k_audit_key K) ts SecretGrantCreate (rq_secret_name p) actor envelope_hash ;;
  mret true
  end end end end.

Definition item_result (item : ApprovalItem) (accepted : bool) : Value :=
  if accepted then jobj [("request_id", JStr (ai_request_id item)); ("outcome", JStr "granted")]
  else jobj [("request_id", JStr (ai_request_id item)); ("outcome", JStr "refused");
             ("code", JStr "approval_invalid")].

(** The loop over the items; item number [i] draws randomness [i]. *)
Fixpoint approval_items_tx (K : Keys) (ts : nat -> Z) (rnd : nat -> option bytes) (i : nat)
    (items : list ApprovalItem) (e : ApprovalEnvelope) (member : option string) (hash fingerprint : string)
    (card_ref : option string) (delete_op : bool) (now : Z) : Tx (list Value) :=
  match items with
  | [] => mret []
  | item :: rest =>
      do! accepted <- approval_item_tx K ts (rnd i) item e member hash fingerprint card_ref delete_op now ;;
      do! results <- approval_items_tx K ts rnd (i + 1) rest e member hash fingerprint card_ref delete_op now ;;
      mret (item_result item accepted :: results)
  end.

Context `{R : EnvelopeReader}.

(** [secret_approval_tx]. *)
Definition secret_approval_tx (K : Keys) (inp : SecretInputs) (fingerprint : string) (public_key bs signature : bytes)
    (card_ref : option string) (delete_op : bool) (now : Z) : Tx (result Value SecretError) :=
  match envelope_verify bs signature public_key fingerprint with
  | Err e => mret (Err e)
  | Ok e =>
  do! member <- query (fun d => match self_member d with Ok m => Some m | Err _ => None end) ;;
  let hash := hex (payload_sha256 bs) in
  do! _ <- exec (with_approval_replies (drop_rows (fun kv => rp_expires_at_ms kv.2 <=? now))) ;;
  do! stored <- query (fun d => secret_approval_replies (secrets d) !! (hash, fingerprint, delete_op)) ;;
  match stored with
  | Some row =>
      match json_from_str (rp_reply row) with
      | Some reply => mret (Ok reply)
      | None => merr (Sql "stored approval reply is unreadable")
      end
  | None =>
      do! results <- approval_items_tx K (sx_now inp) (sx_rnd inp) 0 (ae_items e) e member hash fingerprint card_ref
                       delete_op now ;;
      let reply := jobj [("results", JArr results)] in
      do! _ <- exec (with_approval_replies (insert (hash, fingerprint, delete_op)
        {| rp_reply := json_to_string reply;
           rp_expires_at_ms := i64_saturating_add (as_i64 (ae_issued_at_ms e)) SECRET_ISSUE_SKEW_LIMIT_MS |})) ;;
      mret (Ok reply)
  end end.

Definition secret_delete_request_tx (rnd : option bytes) (name : string) (now : Z) : Tx (result Value SecretError) :=
  do! member <- query self_member ;;
  match member with
  | Err e => mret (Err e)
  | Ok member =>
  do! row <- query (fun d => agent_secrets d !! name) ;;
  match row with
  | None => mret (Err SeNotFound)
  | Some row =>
  do! _ <- drop_stale_requests now member ;;
  do! prior <- query (find_request (fun r => bool_decide (rq_kind r = "delete") &&
                                             bool_decide (rq_incarnation r = as_incarnation row))) ;;
  match prior with
  | Some (id, r) => mret (Ok (approval_required id (rq_statement_bytes r) (rq_expires_at_ms r)))
  | None =>
      do! id <- mlift (map_err (fun _ => Sql "request id generation failed") (request_id rnd now)) ;;
      let expiry := as_i64 (now + SECRET_PENDING_LIFETIME_LIMIT_MS) in
      let bs := json_to_vec (delete_statement id member name (as_kind row) (as_incarnation row) expiry) in
      do! _ <- insert_request id
        {| rq_kind := "delete"; rq_secret_name := name; rq_incarnation := as_incarnation row;
           rq_member_id := member; rq_owner := None; rq_scope_kind := None; rq_scope_ref := None;
           rq_epoch := None; rq_coverage := None; rq_agent_id := None; rq_statement_bytes := bs;
           rq_statement_sha256 := hex (payload_sha256 bs); rq_expires_at_ms := expiry; rq_consumed := false;
           rq_flow_id := None; rq_flow_version := None; rq_flow_code_hash := None; rq_flow_install_id := None;
           rq_methods := None; rq_asking_member_id := "" |} ;;
      mret (Ok (approval_required id bs expiry))
  end end end.

(** The second half of [revoke]. *)
Definition revoke_flow_grant (ak : bytes) (ts : nat -> Z) (id actor : string) : Tx Value :=
  do! flow <- query (fun d => secret_flow_grants (secrets d) !! id) ;;
  match flow with
  | None => mret (jobj [("outcome", JStr "not_found")])
  | Some g =>
      if fg_flow_version g <? 0 then sql_range else
      do! _ <- exec (with_flow_grants (delete id)) ;;
      do! _ <- secret_audit ak ts SecretGrantRevoke (Some ("secret|" ++ fg_secret_name g)%string) actor
                 [str_bytes id; str_bytes (fg_incarnation g); str_bytes (fg_flow_id g);
                  str_bytes (u64_to_string (fg_flow_version g))] ;;
      mret (jobj [("outcome", JStr "revoked")])
  end.

(** [revoke]: an agent grant that still answers, or a flow grant. *)
Definition revoke_grant_tx (ak : bytes) (ts : nat -> Z) (id actor : string) (now : Z) : Tx Value :=
  do! row <- query (fun d => secret_grants (secrets d) !! id) ;;
  match row with
  | Some g =>
      if grant_unexpired now g then
        do! _ <- exec (with_secret_grants (delete id)) ;;
        do! _ <- secret_audit ak ts SecretGrantRevoke (Some ("secret|" ++ sg_secret_name g)%string) actor
                   [str_bytes id; str_bytes (sg_incarnation g)] ;;
        mret (jobj [("outcome", JStr "revoked")])
      else revoke_flow_grant ak ts id actor
  | None => revoke_flow_grant ak ts id actor
  end.

Definition secret_permissions_revoke (inp : SecretInputs) (id actor : string) (now : Z) : SOp Value :=
  with_keys (fun K => secret_fenced (revoke_grant_tx (k_audit_key K) (sx_now inp) id actor now)).

(** *** Listings of grants *)

Definition set_if {A} (key : string) (f : A -> Value) (o : option A) (v : Value) : Value :=
  match o with Some a => jset key (f a) v | None => v end.

(** The label of a row; a column that is [NULL] where the kind needs it fails the query. *)
Definition scope_label (name : string) (r : AgentSecretRow) (origin : option string) : result string SqlError :=
  if bool_decide (as_kind r = "agent_api_key") then
    match as_host r with
    | Some host => Ok ("use " ++ name ++ " on " ++ host ++ default "" (as_path_prefix r))%string
    | None => Err (Sql "Invalid column type Null")
    end
  else
    match origin with
    | Some origin => Ok ("fill " ++ name ++ " on " ++ origin)%string
    | None => Err (Sql "Invalid column type Null")
    end.

Definition scope_word (r : AgentSecretRow) : Value :=
  JStr (if bool_decide (as_kind r = "agent_api_key") then "api_key" else "site_login").

Definition permission_row (id : string) (g : SecretGrantRow) (r : AgentSecretRow) : result Value SqlError :=
  let name := sg_secret_name g in
  let? label := scope_label name r (as_origin r) in
  let holder := jobj [("kind", JStr (if bool_decide (sg_scope_kind g = "head") then "agent" else "worker"));
                      ("scope_ref", JStr (sg_scope_ref g))] in
  let row := jobj [("id", JStr id); ("holder", set_if "agent_id" JStr (sg_agent_id g) holder);
                   ("module", JStr "claustrum"); ("subject_label", JStr name); ("scope", scope_word r);
                   ("scope_label", JStr label); ("granted_at_ms", JNum (sg_granted_at_ms g))] in
  let row := set_if "agent_id" JStr (sg_agent_id g) row in
  let row := if bool_decide (sg_duration g = "permanent") then row
             else jset "expires_at_ms" (JNum (sg_expires_at_ms g)) row in
  Ok (set_if "card_ref" JStr (sg_card_ref g) row).

Definition flow_permission_row (id : string) (g : FlowGrantRow) (r : AgentSecretRow) : result Value SqlError :=
  let name := fg_secret_name g in
  let api_key := bool_decide (as_kind r = "agent_api_key") in
  let? label := scope_label name r (Some (default "" (as_origin r))) in
  if fg_flow_version g <? 0 then Err (Sql "Integer out of range") else
  let row := jobj [("id", JStr id);
                   ("holder", jobj [("kind", JStr "flow"); ("flow_id", JStr (fg_flow_id g));
                                    ("flow_version", JNum (fg_flow_version g));
                                    ("flow_install_id", JStr (fg_flow_install_id g))]);
                   ("module", JStr "claustrum"); ("subject_label", JStr name); ("scope", scope_word r);
                   ("scope_label", JStr label); ("granted_at_ms", JNum (fg_granted_at_ms g))] in
  let? row :=
    (if api_key then
       match fg_methods g with
       | Some text => match json_from_str text with
                      | Some v => Ok (jset "methods" v row)
                      | None => Err (Sql "Conversion error")
                      end
       | None => Err (Sql "api key flow grant without methods")
       end
     else Ok row) in
  Ok (set_if "card_ref" JStr (fg_card_ref g) row).

(** The rows of a join with [agent_secrets] on name and incarnation, rendered in order. *)
Fixpoint joined_rows {V} (name_of inc_of : V -> string) (render : string -> V -> AgentSecretRow -> result Value SqlError)
    (t : gmap string AgentSecretRow) (rows : list (string * V)) : result (list Value) SqlError :=
  match rows with
  | [] => Ok []
  | (id, g) :: rest =>
      match t !! name_of g with
      | Some r =>
          if has_incarnation (inc_of g) r then
            let? v := render id g r in
            let? vs := joined_rows name_of inc_of render t rest in
            Ok (v :: vs)
          else joined_rows name_of inc_of render t rest
      | None => joined_rows name_of inc_of render t rest
      end
  end.

Definition permissions_of (agent_id : option string) (now : Z) (d : Db) : result Value SqlError :=
  let? agents := joined_rows sg_secret_name sg_incarnation permission_row (agent_secrets d)
    (rows_by_id (fun g => grant_unexpired now g &&
       match agent_id with Some a => bool_decide (sg_agent_id g = Some a) | None => true end)
       (secret_grants (secrets d))) in
  let? flows := (if is_some agent_id then Ok []
                 else joined_rows fg_secret_name fg_incarnation flow_permission_row (agent_secrets d)
                        (rows_by_id (fun _ => true) (secret_flow_grants (secrets d)))) in
  Ok (jobj [("grants", JArr (agents ++ flows))]).

Definition secret_permissions_list (agent_id : option string) (now : Z) : SOp Value :=
  secret_conn (do! d <- query id ;; mlift (permissions_of agent_id now d)).

(** ** The secret home ([store_secret_operator.rs]) *)

Definition SECRET_HOME_SETTING : string := "secrets.home_member".
Definition SECRET_HOME_SELF : string := "self".
Definition SETTINGS_SCHEMA_VERSION : Z := 26.

Inductive SecretHomeRole :=
| HomeSingle
| HomeSelf (self_member : option string)
| HomeRemote (home_member : string)
| HomeRemoteSetupIncomplete (self_member : option string)
| HomeStoreError.

Definition home_role_as_str (r : SecretHomeRole) : string :=
  match r with
  | HomeSingle => "single"
  | HomeSelf _ => "home"
  | HomeRemote _ => "remote"
  | HomeRemoteSetupIncomplete _ => "remote_setup_incomplete"
  | HomeStoreError => "store_error"
  end.

Definition local_create_allowed (r : SecretHomeRole) : result unit StoreOpError :=
  match r with
  | HomeSingle | HomeSelf _ => Ok tt
  | HomeRemote home => Err (SecretHomeElsewhere home)
  | HomeRemoteSetupIncomplete me => Err (SecretRemoteSetupIncomplete me)
  | HomeStoreError => Err (StoreFailure "store_error: the secrets.home_member setting could not be read")
  end.

Definition phone_deposit_refusal (r : SecretHomeRole) : option (result Value SecretError) :=
  match r with
  | HomeSingle | HomeSelf _ => None
  | HomeRemote home =>
      Some (Ok (jobj [("error", jobj [("code", JStr "secret_home_elsewhere"); ("class", JStr "permanent");
                                      ("remedy_member", JStr home)])]))
  | HomeRemoteSetupIncomplete me =>
      Some (Ok (jobj [("error", set_if "remedy_member" JStr me
                                  (jobj [("code", JStr "remote_setup_incomplete"); ("class", JStr "permanent")]))]))
  | HomeStoreError => Some (Err SeStoreError)
  end.

Definition resolve_secret_home_role (setting self_member : option string) : SecretHomeRole :=
  let self_member := match self_member with Some m => if valid_member_id m then Some m else None | None => None end in
  match setting with
  | None => HomeSingle
  | Some home =>
      if bool_decide (home = SECRET_HOME_SELF) then HomeSelf self_member
      else if valid_member_id home then
        match self_member with
        | Some me => if bool_decide (me = home) then HomeRemoteSetupIncomplete (Some me) else HomeRemote home
        | None => HomeRemoteSetupIncomplete None
        end
      else HomeStoreError
  end.

Definition read_setting (name : string) (d : Db) : option string :=
  if db_schema_version d <? SETTINGS_SCHEMA_VERSION then None else fst <$> settings d !! name.

Definition secret_home_role_conn (d : Db) : SecretHomeRole :=
  resolve_secret_home_role (read_setting SECRET_HOME_SETTING d) (read_setting SELF_MEMBER_SETTING d).

Definition secret_home_role (s : Store) : SecretHomeRole * Store :=
  match secret_conn (query secret_home_role_conn) s with
  | (Ok r, s') => (r, s')
  | (Err _, s') => (HomeStoreError, s')
  end.

Record SecretHomeChange := { hc_stored : option string; hc_changed : bool }.

Definition set_secret_home_tx (ak : bytes) (ts : nat -> Z) (updated : Z) (home : option string) (ctx : AuditCtx)
  : Tx (result SecretHomeChange StoreOpError) :=
  do! current <- query (read_setting SECRET_HOME_SETTING) ;;
  do! me <- query (read_setting SELF_MEMBER_SETTING) ;;
  let wanted := match home with
                | Some m => if bool_decide (me = Some m) then Some SECRET_HOME_SELF else Some m
                | None => None
                end in
  if bool_decide (current = wanted) then mret (Ok {| hc_stored := current; hc_changed := false |}) else
  do! secrets_n <- query (fun d => Z.of_nat (size (agent_secrets d))) ;;
  do! grants_n <- query (fun d => Z.of_nat (size (secret_grants (secrets d)))) ;;
  do! flows_n <- query (fun d => Z.of_nat (size (secret_flow_grants (secrets d)))) ;;
  do! pending_n <- query (fun d => Z.of_nat (size (secret_pending_requests (secrets d)))) ;;
  if match wanted with Some v => negb (bool_decide (v = SECRET_HOME_SELF)) | None => false end &&
     (0 <? secrets_n + grants_n + flows_n + pending_n)
  then mret (Err (SecretHomeNotEmpty secrets_n grants_n flows_n pending_n)) else
  do! _ <- exec (with_settings (match wanted with
                                | Some v => insert SECRET_HOME_SETTING (v, updated)
                                | None => delete SECRET_HOME_SETTING
                                end)) ;;
  do! _ <- audit_now ak ts {| rec_op := ctx_op ctx; rec_credential_id := None;
             rec_payload_hash := Some (hex (payload_sha256 (push_field [] (str_bytes (default "" wanted)))));
             rec_actor := ctx_actor ctx; rec_alarm := ctx_alarm ctx |} ;;
  mret (Ok {| hc_stored := wanted; hc_changed := true |}).

Abbreviation Op A := (M Store StoreOpError A).

Definition set_secret_home_audited (inp : SecretInputs) (home : option string) (ctx : AuditCtx) : Op SecretHomeChange :=
  with_self (fun K =>
  if match home with
     | Some h => negb (bool_decide (h = SECRET_HOME_SELF)) && negb (valid_member_id h)
     | None => false
     end then merr InvalidMemberId else
  do! out <- fenced (set_secret_home_tx (k_audit_key K) (sx_now inp) (sx_event_now inp) home ctx) ;; mlift out).

(** ** Operator writes *)

Definition secret_validation_error (e : ValidationError) : StoreOpError :=
  match e with
  | InvalidParams => InvalidCredentialId
  | LimitExceeded => StoreFailure "limit_exceeded: field over its length limit"
  end.

Definition secret_store_error (e : SecretError) : StoreOpError :=
  match e with
  | SeNameExists => SecretNameExists
  | SeNotFound => NotFound
  | _ => StoreFailure "secret write refused"
  end.

(** [phone::columns]. *)
Definition columns (s : SecretScope) : option string * option string * option string * option string :=
  match s with
  | ApiKeyScope host path_prefix location => (Some host, path_prefix, Some location, None)
  | SiteLoginScope origin => (None, None, None, Some origin)
  end.

Definition secret_row (kid : string) (incarnation : string) (s : SecretScope) (blob : bytes) (now : Z) : AgentSecretRow :=
  let '(host, prefix, location, origin) := columns s in
  {| as_kind := scope_kind s; as_incarnation := incarnation; as_state := "active"; as_host := host;
     as_path_prefix := prefix; as_location := location; as_origin := origin; as_record_version := 1;
     as_key_id := kid; as_envelope := blob; as_created_at_ms := now |}.

(** The fields the store's audit entry covers. *)
Definition scope_audit_fields (s : SecretScope) : list bytes :=
  match s with
  | ApiKeyScope host path_prefix location =>
      [str_bytes host; str_bytes (default "" path_prefix); str_bytes location]
  | SiteLoginScope origin => [str_bytes origin]
  end.

(** The write both doors share: draw an incarnation, seal, insert. *)
Definition store_secret_tx (K : Keys) (rnd : nat -> option bytes) (name : string) (s : SecretScope)
    (m : SecretMaterial) (now : Z) : Tx string :=
  do! random <- mlift (ok_or (rnd 0%nat) (Sql "secret incarnation generation failed")) ;;
  let incarnation := hex random in
  do! blob <- mlift (map_err (fun _ => Sql "secret seal failed")
                (secret_seal (rnd 1%nat) (k_key K) incarnation name s m)) ;;
  do! _ <- insert_agent_secret name (secret_row (key_id_to_hex (k_key_id K)) incarnation s blob now) ;;
  mret incarnation.

Definition secret_stored (incarnation : string) : Value :=
  jobj [("status", JStr "stored"); ("incarnation", JStr incarnation)].

Definition secret_put_tx (K : Keys) (inp : SecretInputs) (name : string) (s : SecretScope) (m : SecretMaterial)
    (actor : string) : Tx (result Value StoreOpError) :=
  do! role <- query secret_home_role_conn ;;
  match local_create_allowed role with
  | Err refusal => mret (Err refusal)
  | Ok _ =>
  do! exists_ <- query (fun d => is_some (agent_secrets d !! name)) ;;
  if exists_ : bool then mret (Err (secret_store_error SeNameExists)) else
  do! incarnation <- store_secret_tx K (sx_rnd inp) name s m (sx_event_now inp) ;;
  do! _ <- secret_audit (k_audit_key K) (sx_now inp) SecretStore (Some ("secret|" ++ name)%string) actor
             ([str_bytes (scope_kind s); str_bytes incarnation] ++ scope_audit_fields s) ;;
  mret (Ok (secret_stored incarnation))
  end.

Definition secret_put_audited (inp : SecretInputs) (put : SecretPut) (actor : string) : Op Value :=
  with_self (fun K =>
  do! _ <- mlift (map_err secret_validation_error (validate_name (put_name put))) ;;
  do! sm <- mlift (map_err secret_validation_error (scope_and_material put)) ;;
  do! out <- fenced (secret_put_tx K inp (put_name put) sm.1 sm.2 actor) ;; mlift out).

Definition operator_delete_tx (ak : bytes) (inp : SecretInputs) (name actor : string) : Tx (result Value SecretError) :=
  do! row <- query (fun d => agent_secrets d !! name) ;;
  match row with
  | None => mret (Err SeNotFound)
  | Some row =>
      do! _ <- delete_secret_rows (as_incarnation row) name ;;
      do! id <- mlift (map_err (fun _ => Sql "request id generation failed")
                  (request_id (sx_rnd inp 0) (sx_event_now inp))) ;;
      do! _ <- secret_audit ak (sx_now inp) SecretDelete (Some ("secret|" ++ name)%string) actor
                 [str_bytes (as_kind row); str_bytes (as_incarnation row); str_bytes id] ;;
      mret (Ok (jobj [("status", JStr "deleted")]))
  end.

Definition secret_operator_delete_audited (inp : SecretInputs) (name actor : string) : Op Value :=
  with_self (fun K =>
  do! _ <- mlift (map_err secret_validation_error (validate_name name)) ;;
  do! out <- fenced (operator_delete_tx (k_audit_key K) inp name actor) ;;
  mlift (map_err secret_store_error out)).

Definition secret_operator_revoke_audited (inp : SecretInputs) (grant_id actor : string) : Op Value :=
  with_self (fun K => fenced (revoke_grant_tx (k_audit_key K) (sx_now inp) grant_id actor (sx_event_now inp))).

(** ** The phone ([store_secret_phone.rs]) *)

Definition PHONE_MAPPING_SETTING : string := "secret.phone_mapping".
Definition MEMBER_MAPPING_SETTING : string := "federation.member_mapping".

(** A boolean setting: absent is off, any other text is unreadable. *)
Definition bool_setting (name : string) (d : Db) : option bool :=
  match fst <$> settings d !! name with
  | None => Some false
  | Some v => if bool_decide (v = "false") then Some false else if bool_decide (v = "true") then Some true else None
  end.

Definition secret_phone_mapping_gates : Op (bool * option bool) :=
  unfenced (query (fun d => (bool_decide ((fst <$> settings d !! MEMBER_MAPPING_SETTING) = Some "true"),
                             bool_setting PHONE_MAPPING_SETTING d))).

Definition secret_phone_mapping : Op bool :=
  unfenced (do! v <- query (bool_setting PHONE_MAPPING_SETTING) ;;
            mlift (ok_or v (Sql "unreadable phone mapping setting"))).

Definition set_phone_mapping_tx (ak : bytes) (inp : SecretInputs) (enabled : bool) (ctx : AuditCtx) : Tx bool :=
  let wanted := if enabled then "true" else "false" in
  do! old <- query (fun d => fst <$> settings d !! PHONE_MAPPING_SETTING) ;;
  if bool_decide (old = Some wanted) then mret false else
  do! _ <- exec (with_settings (insert PHONE_MAPPING_SETTING (wanted, sx_event_now inp))) ;;
  do! _ <- audit_now ak (sx_now inp) {| rec_op := SecretPhoneGateSet; rec_credential_id := None;
             rec_payload_hash := Some (hex (payload_sha256 (push_field [] (str_bytes wanted))));
             rec_actor := ctx_actor ctx; rec_alarm := ctx_alarm ctx |} ;;
  mret true.

Definition set_secret_phone_mapping_audited (inp : SecretInputs) (enabled : bool) (ctx : AuditCtx) : Op bool :=
  with_self (fun K => fenced (set_phone_mapping_tx (k_audit_key K) inp enabled ctx)).

Definition observation (fingerprint : string) (pairing : option string) (now : Z) : Tx unit :=
  exec (with_phone_observations (insert fingerprint {| ob_pairing_id := pairing; ob_observed_at_ms := now |})).

Definition observe_secret_phone (fingerprint : string) (pairing : option string) (observed_at_ms : Z) : Op unit :=
  fenced (observation fingerprint pairing observed_at_ms).

Record PhoneDeposit := {
  pd_deposit_id : string;
  pd_member_id : string;
  pd_name : string;
  pd_scope : SecretScope;
  pd_enc : bytes;
  pd_ciphertext : bytes;
}.

Inductive PhoneOperation :=
| PhRegister (deposit_pub approval_pub : bytes)
| PhDepositKeys
| PhDeposit (d : PhoneDeposit)
| PhList
| PhApprove (envelope signature : bytes) (card_ref : option string)
| PhDeleteRequest (name : string)
| PhDeleteCommit (envelope signature : bytes)
| PhRevoke (grant_id : string)
| PhHome.

Definition home_reply (role : SecretHomeRole) : result Value SecretError :=
  match role with
  | HomeSingle => Ok (jobj [("home", JBool true); ("home_member_id", JNull)])
  | HomeSelf me => Ok (jobj [("home", JBool true); ("home_member_id", jopt me)])
  | HomeRemote home => Ok (jobj [("home", JBool false); ("home_member_id", JStr home)])
  | other => default (Err SeStoreError) (phone_deposit_refusal other)
  end.

(** *** The deposit key ([store_agent_secrets.rs]) *)

Context `{RX : RecordExt} `{HP : Hpke}.

Definition deposit_key_creation_hash (key_id : string) : string :=
  sha256_hex_of_bytes (push_field [] (str_bytes key_id)).

(** [secret_deposit_record_conn]: any way the record is not a usable key is the same error. *)
Definition secret_deposit_record (key : MasterKey) (d : Db) : result VaultRecord StoreOpError :=
  match credentials d !! DEPOSIT_KEY_ID with
  | None => Err SecretSetupIncomplete
  | Some row =>
      if cr_record_version row <? 0 then Err (StoreFailure "Integer out of range") else
      if negb (bool_decide (cr_state row = state_as_str Active)) then Err SecretSetupIncomplete else
      let? bs := map_err (fun _ => SecretSetupIncomplete)
        (open key (cr_envelope row) {| rb_credential_id := DEPOSIT_KEY_ID; rb_record_version := cr_record_version row |}) in
      let? record := map_err (fun _ => SecretSetupIncomplete) (decode bs) in
      if bool_decide (kind record = KemKey) then Ok record else Err SecretSetupIncomplete
  end.

(** The PEM text of a record's payload. *)
Definition record_pem (r : VaultRecord) : option string :=
  if utf8_valid (payload r) then Some (String.string_of_list_byte (payload r)) else None.

Definition deposit_key_error (e : StoreOpError) : SecretError :=
  match e with SecretSetupIncomplete => SeSetupIncomplete | _ => SeStoreError end.

Definition deposit_keys_of (K : Keys) (d : Db) : result Value SecretError :=
  let? member := self_member d in
  let? record := map_err deposit_key_error (secret_deposit_record (k_key K) d) in
  let? pem := ok_or (record_pem record) SeSetupIncomplete in
  let? (public, kid) := map_err (fun _ => SeSetupIncomplete) (public_half pem) in
  Ok (jobj [("member_id", JStr member);
            ("keys", JArr [jobj [("state", JStr "current"); ("key_id", JStr kid); ("pub", JStr (hex public))]])]).

Definition secret_deposit_public_key : Op (string * bytes) :=
  with_self (fun K =>
  do! record <- unfenced (query (secret_deposit_record (k_key K))) ;;
  mlift (let? record := record in
         let? pem := ok_or (record_pem record) SecretSetupIncomplete in
         let? (public, kid) := map_err (fun _ => SecretSetupIncomplete) (public_half pem) in
         Ok (kid, public))).

Definition open_secret_deposit (sender_public enc ciphertext aad : bytes) : Op bytes :=
  with_self (fun K =>
  do! record <- unfenced (query (secret_deposit_record (k_key K))) ;;
  mlift (let? record := record in
         let? pem := ok_or (record_pem record) SecretSetupIncomplete in
         let? _ := map_err (fun _ => SecretSetupIncomplete) (parse_pkcs8_pem pem) in
         map_err (fun _ => NotFound) (open_auth pem sender_public enc ciphertext DEPOSIT_INFO aad))).

(** [ensure_secret_deposit_key]: the insert has no [ON CONFLICT], and none can arise. *)
Definition ensure_deposit_key_tx (K : Keys) (inp : SecretInputs) (fresh : string) : Tx unit :=
  do! present <- query (fun d => is_some (credentials d !! DEPOSIT_KEY_ID)) ;;
  if present : bool then mret tt else
  do! pem <- mlift (map_err (fun _ => Sql "deposit key generation failed") (generate_key (sx_rnd inp 0))) ;;
  do! half <- mlift (map_err (fun _ => Sql "deposit public key failed") (public_half pem)) ;;
  let record := new_static KemKey "vault" (str_bytes pem) None in
  do! blob <- mlift (map_err (fun _ => Sql "deposit key seal failed")
                (seal_record K (sx_rnd inp 1) DEPOSIT_KEY_ID record)) ;;
  do! _ <- insert_credential fresh DEPOSIT_KEY_ID (fun incarnation =>
    {| cr_record_version := 1; cr_key_id := key_id_to_hex (k_key_id K); cr_state := "active";
       cr_stale_pending := false; cr_envelope := blob; cr_updated_at_ms := sx_event_now inp;
       cr_created_at_ms := sx_event_now inp; cr_created_by := Some "vault"; cr_incarnation := incarnation;
       cr_last_github_app_permissions := None |}) ;;
  audit_now (k_audit_key K) (sx_now inp) {| rec_op := SecretDepositKeyCreate; rec_credential_id := Some DEPOSIT_KEY_ID;
    rec_payload_hash := Some (deposit_key_creation_hash half.2); rec_actor := "vault"; rec_alarm := None |}.

Definition ensure_secret_deposit_key (inp : SecretInputs) (fresh : string) : Op unit :=
  with_self (fun K => fenced (ensure_deposit_key_tx K inp fresh)).

(** *** Deposits *)

Definition deposit_prepared (K : Keys) (p : PhoneDeposit) (d : Db)
  : result (string * string * bytes * string) SecretError :=
  let? record := map_err deposit_key_error (secret_deposit_record (k_key K) d) in
  let? pem := ok_or (record_pem record) SeSetupIncomplete in
  let? _ := map_err (fun _ => SeSetupIncomplete) (parse_pkcs8_pem pem) in
  let? member := self_member d in
  let? aad := map_err secret_of_validation (deposit_aad (pd_deposit_id p) (pd_member_id p) (pd_name p) (pd_scope p)) in
  Ok (pem, member, aad, hex (deposit_digest (pd_deposit_id p) (pd_enc p) (pd_ciphertext p) aad)).

Definition incarnation_live (inc : string) (d : Db) : bool :=
  existsb (fun kv => has_incarnation inc kv.2) (map_to_list (agent_secrets d)).

Definition deposit_tx (K : Keys) (inp : SecretInputs) (fingerprint : string) (sender : bytes) (p : PhoneDeposit) (now : Z)
  : Tx (result Value SecretError) :=
  do! prepared <- query (deposit_prepared K p) ;;
  match prepared with
  | Err e => mret (Err e)
  | Ok (pem, member, aad, digest) =>
  do! tombstone <- query (fun d => secret_deposit_tombstones (secrets d) !! pd_deposit_id p) ;;
  match tombstone with
  | Some t =>
      do! live <- query (incarnation_live (tb_incarnation t)) ;;
      mret (if bool_decide (tb_digest t = digest) && bool_decide (tb_member_id t = member) && live
            then Ok (jobj [("status", JStr "already_stored")]) else Err SeDepositConflict)
  | None =>
  if negb (bool_decide (pd_member_id p = member)) then mret (Err SeNotFound) else
  match open_auth pem sender (pd_enc p) (pd_ciphertext p) DEPOSIT_INFO aad with
  | Err _ => mret (Err SeNotFound)
  | Ok opened =>
  match (let? m := decode_deposit_plaintext (scope_kind (pd_scope p)) opened in
         let? _ := validate_material m in Ok m) with
  | Err e => mret (Err (secret_of_validation e))
  | Ok material =>
  do! exists_ <- query (fun d => is_some (agent_secrets d !! pd_name p)) ;;
  if exists_ : bool then mret (Err SeNameExists) else
  do! incarnation <- store_secret_tx K (sx_rnd inp) (pd_name p) (pd_scope p) material now ;;
  do! _ <- exec (with_tombstones (insert (pd_deposit_id p)
             {| tb_digest := digest; tb_member_id := member; tb_incarnation := incarnation |})) ;;
  do! _ <- secret_audit (k_audit_key K) (sx_now inp) SecretStore (Some ("secret|" ++ pd_name p)%string)
             ("fed-phone:" ++ fingerprint)%string
             ([str_bytes (scope_kind (pd_scope p)); str_bytes incarnation] ++ scope_audit_fields (pd_scope p) ++
              [str_bytes (pd_deposit_id p)]) ;;
  mret (Ok (secret_stored incarnation))
  end end end end.

(** *** The phone's listing *)

Definition list_grant (id : string) (g : SecretGrantRow) : Value :=
  let v := jobj [("grant_id", JStr id);
                 ("scope", jobj [("owner", JStr (sg_scope_owner g)); ("kind", JStr (sg_scope_kind g));
                                 ("ref", JStr (sg_scope_ref g))]);
                 ("coverage", JStr (sg_coverage g)); ("duration", JStr (sg_duration g));
                 ("agent_id", jopt (sg_agent_id g))] in
  let v := if bool_decide (sg_duration g = "permanent") then v else jset "expires_at_ms" (JNum (sg_expires_at_ms g)) v in
  set_if "last_use_ms" JNum (sg_last_use_ms g) v.

Definition list_flow_grant (id : string) (g : FlowGrantRow) : result Value SqlError :=
  if fg_flow_version g <? 0 then Err (Sql "Integer out of range") else
  let v := jobj [("grant_id", JStr id);
                 ("flow", jobj [("flow_id", JStr (fg_flow_id g)); ("version", JNum (fg_flow_version g));
                                ("install_id", JStr (fg_flow_install_id g))]);
                 ("duration", JStr "version")] in
  let? v := match fg_methods g with
            | Some text => match json_from_str text with
                           | Some m => Ok (jset "methods" m v)
                           | None => Err (Sql "Conversion error")
                           end
            | None => Ok v
            end in
  Ok (set_if "last_use_ms" JNum (fg_last_use_ms g) v).

Fixpoint collect {A B E} (f : A -> result B E) (l : list A) : result (list B) E :=
  match l with
  | [] => Ok []
  | a :: r => let? b := f a in let? bs := collect f r in Ok (b :: bs)
  end.

Definition list_secret (d : Db) (name : string) (r : AgentSecretRow) : result Value SqlError :=
  let v := jobj [("name", JStr name); ("kind", JStr (as_kind r)); ("incarnation", JStr (as_incarnation r));
                 ("state", JStr (as_state r))] in
  let v := set_if "host" JStr (as_host r) v in
  let v := set_if "path_prefix" JStr (as_path_prefix r) v in
  let v := set_if "location" JStr (as_location r) v in
  let v := set_if "origin" JStr (as_origin r) v in
  let grants := map (fun kv => list_grant kv.1 kv.2)
    (rows_by_id (fun g => bool_decide (sg_incarnation g = as_incarnation r)) (secret_grants (secrets d))) in
  let? flows := collect (fun kv => list_flow_grant kv.1 kv.2)
    (rows_by_id (fun g => bool_decide (fg_incarnation g = as_incarnation r)) (secret_flow_grants (secrets d))) in
  Ok (jset "flow_grants" (JArr flows) (jset "grants" (JArr grants) v)).

Definition list_secrets (d : Db) : result Value SqlError :=
  let? vs := collect (fun kv => list_secret d kv.1 kv.2) (rows_by_id (fun _ => true) (agent_secrets d)) in
  Ok (jobj [("secrets", JArr vs)]).

(** *** One phone operation *)

Definition phone_op_tx (K : Keys) (inp : SecretInputs) (fingerprint : string) (pairing : option string)
    (observed_at_ms : Z) (op : PhoneOperation) (admitted : bool) : Tx (result Value SecretError) :=
  do! _ <- match op with
           | PhDepositKeys => mret tt
           | _ => observation fingerprint pairing observed_at_ms
           end ;;
  if negb admitted then mret (Err SePairingUnavailable) else
  let now := sx_clock inp 0 in
  do! role <- query secret_home_role_conn ;;
  match op with
  | PhDepositKeys =>
      match phone_deposit_refusal role with
      | Some refusal => mret refusal
      | None => query (deposit_keys_of K)
      end
  | _ =>
  match pairing with
  | None => mret (Err SePhoneNotRegistered)
  | Some pairing =>
  match op with
  | PhHome => mret (home_reply role)
  | _ =>
  match phone_deposit_refusal role with
  | Some refusal => mret refusal
  | None =>
  do! keys <- query (fun d => secret_phone_keys (secrets d) !! (fingerprint, pairing)) ;;
  let phone := ("fed-phone:" ++ fingerprint)%string in
  match op, keys with
  | PhRegister deposit_pub approval_pub, Some k =>
      mret (if bool_decide (pk_deposit_pub k = deposit_pub) && bool_decide (pk_approval_pub k = approval_pub)
            then Ok (jobj [("status", JStr "already_stored")]) else Err SePhoneKeyConflict)
  | PhRegister deposit_pub approval_pub, None =>
      if negb (length deposit_pub =? 32)%nat || negb (length approval_pub =? 65)%nat
      then merr (Sql "CHECK constraint failed: secret_phone_keys") else
      do! _ <- exec (with_phone_keys (insert (fingerprint, pairing)
                 {| pk_deposit_pub := deposit_pub; pk_approval_pub := approval_pub; pk_created_at_ms := now |})) ;;
      do! _ <- secret_audit (k_audit_key K) (sx_now inp) SecretPhoneRegister
                 (Some ("secret-phone|" ++ fingerprint)%string) phone
                 [str_bytes pairing; deposit_pub; approval_pub] ;;
      mret (Ok (jobj [("status", JStr "stored")]))
  | _, None => mret (Err SePhoneNotRegistered)
  | PhDeposit p, Some k => deposit_tx K inp fingerprint (pk_deposit_pub k) p now
  | PhList, Some _ =>
      do! _ <- sweep (k_audit_key K) (sx_now inp) now ;;
      do! d <- query id ;;
      do! v <- mlift (list_secrets d) ;;
      mret (Ok v)
  | PhApprove envelope signature card_ref, Some k =>
      secret_approval_tx K inp fingerprint (pk_approval_pub k) envelope signature card_ref false now
  | PhDeleteCommit envelope signature, Some k =>
      secret_approval_tx K inp fingerprint (pk_approval_pub k) envelope signature None true now
  | PhDeleteRequest name, Some _ => secret_delete_request_tx (sx_rnd inp 0) name now
  | PhRevoke grant_id, Some _ =>
      do! v <- revoke_grant_tx (k_audit_key K) (sx_now inp) grant_id phone now ;; mret (Ok v)
  | PhDepositKeys, Some _ | PhHome, Some _ => mret (Err SeStoreError)
  end end end end end.

Definition secret_phone_operation (inp : SecretInputs) (fingerprint : string) (pairing : option string)
    (observed_at_ms : Z) (op : PhoneOperation) (admitted : bool) : SOp Value :=
  with_keys (fun K =>
  do! answer <- secret_fenced (phone_op_tx K inp fingerprint pairing observed_at_ms op admitted) ;;
  do! _ <- match answer with
           | Err SePhoneKeyConflict =>
               best_effort (secret_fenced (refusal_event (sx_event_now inp) ("secret-phone|" ++ fingerprint)%string
                 "phone_key_conflict" (PPhone ("fed-phone:" ++ fingerprint)%string)))
           | _ => mret tt
           end ;;
  mlift answer).
End Operations.
