(* ===== verification/Calls.v ===== *)
(** * Call sequences over the store, and what every sequence keeps

    [Call] names each mutating method of [EncryptedStore] with its arguments and
    [run_call] runs it, whatever it returns; [run_calls] is a history of the vault. The
    invariants of the store are preorders on the database, proved once per statement of
    [Database] and carried to every history by [calls_rel]. Master-key rotation, which
    changes the keys the other calls run under, is in [Rotation]. *)

From S2P Require Import Prelude Text Crypto Record Envelope AuditLog Database Store.

Inductive Call :=
| CallCreate (inp : Inputs) (id : string) (record : VaultRecord) (ctx : AuditCtx)
| CallRead (inp : Inputs) (id : string) (expected_incarnation : option string)
| CallOverwriteCas (inp : Inputs) (id : string) (record : VaultRecord) (expected_hash : bytes) (ctx : AuditCtx)
| CallOverwrite (inp : Inputs) (id : string) (record : VaultRecord) (preserve : bool) (ctx : AuditCtx)
| CallSetIdentity (inp : Inputs) (id : string) (ident : RecordIdentity) (ctx : AuditCtx)
| CallSetState (inp : Inputs) (id : string) (state : RecordState) (clear : bool) (ctx : option AuditCtx)
| CallQuarantine (inp : Inputs) (id : string) (version : Z) (incarnation : string)
| CallInvalidate (inp : Inputs) (id : string) (version : Z) (incarnation : string) (ctx : AuditCtx)
    (obs : option AuthObservation)
| CallInvalidateIfVersion (inp : Inputs) (id : string) (version : Z) (ctx : AuditCtx)
    (obs : option AuthObservation)
| CallMarkStale (inp : Inputs) (id : string) (version : Z) (incarnation : string) (ctx : AuditCtx)
    (obs : AuthObservation)
| CallRetire (inp : Inputs) (id : string) (ctx : AuditCtx)
| CallInvalidateRevoke (inp : Inputs) (id : string) (ctx : AuditCtx)
| CallReactivate (inp : Inputs) (id : string) (ctx : AuditCtx)
| CallRemove (inp : Inputs) (id : string) (ctx : AuditCtx)
| CallRecordEvent (inp : Inputs) (id : string) (obs : AuthObservation) (version : option Z)
| CallRecordDeferred (inp : Inputs) (id : string) (version : Z)
| CallHasIntent (id : string)
| CallListIntents
| CallOpenIntent (inp : Inputs) (id : string) (version : Z) (old_hash : string)
| CallCommitRefresh (inp : Inputs) (id : string) (version : Z) (record : VaultRecord)
| CallClearIntent (id : string)
| CallPutHandle (inp : Inputs) (h id : string) (ctx : AuditCtx)
| CallRevokeHandle (inp : Inputs) (h : string) (ctx : AuditCtx)
| CallRevokeAll (inp : Inputs) (id : string) (ctx : AuditCtx)
| CallAppendAudit (inp : Inputs) (r : AuditRecord)
| CallKeyUse (inp : Inputs) (op : AuditOp) (id : string) (version : Z) (incarnation : string)
    (ph : bytes) (actor : string)
| CallHoldPlan (identity_json : RecordIdentity -> result string string) (id : string) (version : Z)
    (token_hash : string) (ident : RecordIdentity) (plan : DetectedPlan)
| CallHeldPlan (identity_of_json : string -> option RecordIdentity) (id : string) (record : VaultRecord)
| CallObservePermissions (inp : Inputs) (json : list (string * string) -> option string)
    (of_json : string -> option (list (string * string))) (id : string) (version : Z)
    (permissions : list (string * string)).

Section Run.
Context `{C : Crypto} `{X : RecordExt} {Conn : Type} `{S : SqliteStore Conn}.

Definition ignore {A} (m : M (EncryptedStore Conn) StoreOpError A) : M (EncryptedStore Conn) StoreOpError unit :=
  do! _ <- m ;; mret tt.

Definition call_op (c : Call) : M (EncryptedStore Conn) StoreOpError unit :=
  match c with
  | CallCreate inp id record ctx => create_audited inp id record ctx
  | CallRead inp id inc => ignore (read_snapshot inp id inc)
  | CallOverwriteCas inp id record h ctx => overwrite_cas_audited inp id record h ctx
  | CallOverwrite inp id record p ctx =>
      overwrite_unconditional_with_identity_policy_audited inp id record p ctx
  | CallSetIdentity inp id ident ctx => set_identity_audited inp id ident ctx
  | CallSetState inp id st clear ctx => set_state inp id st clear ctx
  | CallQuarantine inp id v inc => ignore (quarantine_in_incarnation inp id v inc)
  | CallInvalidate inp id v inc ctx obs => ignore (invalidate_in_incarnation inp id v inc ctx obs)
  | CallInvalidateIfVersion inp id v ctx obs => ignore (invalidate_if_version_reported inp id v ctx obs)
  | CallMarkStale inp id v inc ctx obs => ignore (mark_stale_in_incarnation inp id v inc ctx obs)
  | CallRetire inp id ctx => ignore (retire_and_revoke_all_audited inp id ctx)
  | CallInvalidateRevoke inp id ctx => ignore (invalidate_and_revoke_all_audited inp id ctx)
  | CallReactivate inp id ctx => ignore (reactivate_audited inp id ctx)
  | CallRemove inp id ctx => ignore (remove_audited inp id ctx)
  | CallRecordEvent inp id obs v => record_auth_event inp id obs v
  | CallRecordDeferred inp id v => ignore (record_stale_refresh_deferred inp id v)
  | CallHasIntent id => ignore (has_refresh_intent id)
  | CallListIntents => ignore list_intents
  | CallOpenIntent inp id v h => open_intent inp id v h
  | CallCommitRefresh inp id v record => ignore (commit_refresh inp id v record)
  | CallClearIntent id => clear_intent id
  | CallPutHandle inp h id ctx => put_handle_hash inp h id ctx
  | CallRevokeHandle inp h ctx => ignore (revoke_handle_by_hash_audited inp h ctx)
  | CallRevokeAll inp id ctx => ignore (revoke_all_handles inp id ctx)
  | CallAppendAudit inp r => ignore (append_audit_op inp r)
  | CallKeyUse inp op id v inc ph actor => ignore (append_key_use_audit inp op id v inc ph actor)
  | CallHoldPlan json id v th ident plan => hold_detected_plan json id v th ident plan
  | CallHeldPlan of_json id record => ignore (held_detected_plan of_json id record)
  | CallObservePermissions inp json of_json id v p =>
      observe_github_app_permissions inp json of_json id v p
  end.

(** Run a call for its effect, whatever it answers. *)
Definition effect {E A} (m : M (EncryptedStore Conn) E A) : M (EncryptedStore Conn) StoreOpError unit :=
  fun s => (Ok tt, snd (m s)).

Definition run_call (s : EncryptedStore Conn) (c : Call) : EncryptedStore Conn := snd (call_op c s).
Definition run_calls (cs : list Call) (s : EncryptedStore Conn) : EncryptedStore Conn :=
  fold_left run_call cs s.
End Run.

Section CallsRel.
Context `{C : Crypto} `{X : RecordExt} {Conn : Type} `{L : SqliteStoreLaws Conn}.
Context (K : Keys) (R : Db -> Db -> Prop) `{!PreOrder R}.

(** A relation every call of a history respects relates its ends. *)
Lemma calls_rel cs (s : EncryptedStore Conn) :
  Forall (fun c => op_rel K R (call_op (Conn := Conn) c)) cs -> keys_of s = K ->
  keys_of (run_calls cs s) = K /\ R (es_db s) (es_db (run_calls cs s)) /\
  (es_fenced_out s = true -> es_fenced_out (run_calls cs s) = true).
Proof.
  intros Hcs. revert s. induction Hcs as [|c cs Hc Hcs IH]; intros s HK; [by split_and!|].
  cbn. destruct (Hc s _ _ HK (surjective_pairing _)) as (HK1 & HR1 & HF1).
  destruct (IH (run_call s c)) as (HK2 & HR2 & HF2); [done|].
  split_and!; [done|by transitivity (es_db (run_call s c))|auto].
Qed.

Lemma op_rel_ignore {A} (m : M (EncryptedStore Conn) StoreOpError A) : op_rel K R m -> op_rel K R (ignore m).
Proof. intros. unfold ignore. rel_solve. Qed.

Lemma op_rel_effect {E A} (m : M (EncryptedStore Conn) E A) : op_rel K R m -> op_rel K R (effect m).
Proof. intros Hm s r s' HK [= _ <-]. by eapply Hm; [|apply surjective_pairing]. Qed.

Lemma op_rel_check id : op_rel (Conn := Conn) K R (check_vault_transfer_key_writable id).
Proof.
  unfold check_vault_transfer_key_writable, deposit_key_write_protected,
    refuses_vault_transfer_key_mutation, vault_transfer_key_state. rel_solve.
Qed.

Lemma op_rel_protected {A} id (work : Tx A) :
  tx_rel R work -> op_rel (Conn := Conn) K R (fenced_write_unless_transfer_key_protected id work).
Proof.
  intros. unfold fenced_write_unless_transfer_key_protected, deposit_key_write_protected,
    vault_transfer_key_fence_holds_tx. rel_solve.
Qed.
End CallsRel.
#[export] Hint Resolve op_rel_ignore op_rel_check op_rel_protected : rel.

(** ** Statements that leave a part of the database alone *)

(** [on pi Q]: [Q] relates what [pi] sees before and after. *)
Definition on {A} (pi : Db -> A) (Q : A -> A -> Prop) (d d' : Db) : Prop := Q (pi d) (pi d').

#[global] Instance on_preorder {A} (pi : Db -> A) (Q : A -> A -> Prop) `{!PreOrder Q} : PreOrder (on pi Q).
Proof. split; unfold on; [intros d; reflexivity|intros x y z ? ?; by transitivity (pi y)]. Qed.

(** [keeps P]: [P] is preserved. *)
Definition keeps {A} (P : A -> Prop) (x y : A) : Prop := P x -> P y.
#[global] Instance keeps_preorder {A} (P : A -> Prop) : PreOrder (keeps P).
Proof. split; unfold keeps; [intros x; auto|intros x y z; auto]. Qed.

(** Run one statement and close the goal when the part in view did not change. *)
Ltac tx_frame :=
  lazymatch goal with
  | |- tx_rel _ _ =>
      let H := fresh "H" in
      intros ?d ?a ?d' H;
      unfold update_credential, insert_credential, delete_credential, clear_intent_tx,
        bump_grants_generation_tx, insert_category, revoke_handles_of, trim_auth_events_tx,
        set_agent_secret, sql_u64, append_audit_tx, exec, query, mret, merr in H;
      repeat match type of H with context [match ?x with _ => _ end] => destruct x eqn:? end;
      simplify_eq; cbv zeta beta; unfold on; reflexivity
  end.
#[export] Hint Extern 3 (tx_rel _ _) => tx_frame : rel.

Section Loops.
Context (R : Db -> Db -> Prop) `{!PreOrder R}.

Lemma tx_rel_default_categories id cats :
  (forall c, tx_rel R (insert_category id c)) -> tx_rel R bump_grants_generation_tx ->
  tx_rel R (insert_default_categories id cats).
Proof. intros Hi Hb. induction cats; cbn [insert_default_categories]; rel_solve. Qed.

Lemma tx_rel_bump_times n : tx_rel R bump_grants_generation_tx -> tx_rel R (bump_generation_times n).
Proof. intros Hb. induction n; cbn [bump_generation_times]; rel_solve. Qed.
End Loops.
#[export] Hint Extern 2 (tx_rel _ (insert_default_categories _ _)) =>
  (apply tx_rel_default_categories; intros) : rel.
#[export] Hint Extern 2 (tx_rel _ (bump_generation_times _)) => (apply tx_rel_bump_times) : rel.

(** Unfold an operation of the store down to its statements. *)
Ltac op_unfold :=
  unfold stale_refresh_deferred_tx, observe_github_app_permissions, observe_permissions_tx, create_audited, read_snapshot, decode_record_row, quarantine_on_read,
    overwrite_cas_audited, get_snapshot,
    overwrite_unconditional_with_identity_policy_audited, set_identity_audited, set_state,
    quarantine_in_incarnation, invalidate_in_incarnation, mark_stale_in_incarnation,
    invalidate_if_version_reported, credential_incarnation, has_refresh_intent, list_intents,
    retire_and_revoke_all_audited, invalidate_and_revoke_all_audited, revoke_tail, reactivate_audited,
    remove_audited, record_auth_event,
    record_stale_refresh_deferred, open_intent, commit_refresh,
    clear_intent, put_handle_hash, revoke_handle_by_hash_audited, revoke_all_handles, append_audit_op,
    append_key_use_audit, hold_detected_plan, held_detected_plan, append_auth_event_tx,
    append_secret_auth_event_tx, credential_incarnation_matches,
    clear_plan_on_account_change_tx, write_plan_tier_tx in *.

(** Prove that a call respects a relation, from the hints on its statements; [tac] is
    tried first, on whole transactions that respect the relation only as a whole. *)
Ltac call_solve tac :=
  cbn [call_op];
  repeat (first [tac | apply op_rel_ignore | apply op_rel_protected | apply op_rel_check | rel_step
               | progress op_unfold
               | progress unfold get, get_with_stale_pending, get_with_stale_pending_and_digest]);
  auto with rel typeclass_instances.

Ltac calls_solve := let c := fresh "c" in intros c; destruct c; call_solve fail.

(** ** The audit chain *)

Section Chain.
Context `{C : Crypto} `{X : RecordExt} {Conn : Type} `{L : SqliteStoreLaws Conn}.
Context (K : Keys).

(** The log only grows, and a chain stays a chain. *)
Definition log_grows (l l' : list AuditEntry) : Prop :=
  l `prefix_of` l' /\ (chain_ok (k_audit_key K) l -> chain_ok (k_audit_key K) l').

#[global] Instance log_grows_preorder : PreOrder log_grows.
Proof.
  split.
  - intros l. split; [done|auto].
  - intros x y z [? ?] [? ?]. split; [by etrans|auto].
Qed.

Lemma append_audit_grows ts r : tx_rel (on audit_log log_grows) (append_audit_tx (k_audit_key K) ts r).
Proof.
  intros d a d' [= _ <-]. split; cbn.
  - unfold append_audit. by eexists.
  - apply append_audit_chain.
Qed.
#[local] Hint Resolve append_audit_grows : rel.

Lemma call_log_grows c : op_rel K (on audit_log log_grows) (call_op (Conn := Conn) c).
Proof. revert c. calls_solve. Qed.
End Chain.

(** ** Diagnostic events stay bounded *)

Section Events.
Context `{C : Crypto} `{X : RecordExt} {Conn : Type} `{L : SqliteStoreLaws Conn}.

Definition count_subject (subject : string) (rows : list AuthEventRow) : nat :=
  length (filter (fun e => ev_credential_id e = subject) rows).

Definition events_bounded (rows : list AuthEventRow) : Prop :=
  forall subject, (count_subject subject rows <= AUTH_EVENTS_PER_CREDENTIAL)%nat.

Lemma count_subject_app s l1 l2 :
  count_subject s (l1 ++ l2) = (count_subject s l1 + count_subject s l2)%nat.
Proof. unfold count_subject. by rewrite filter_app, length_app. Qed.

Lemma count_subject_cons s e l :
  count_subject s (e :: l) =
    ((if bool_decide (ev_credential_id e = s) then 1 else 0) + count_subject s l)%nat.
Proof. unfold count_subject. rewrite filter_cons. by case_decide; case_bool_decide. Qed.

Lemma count_subject_rev s l : count_subject s (rev l) = count_subject s l.
Proof.
  induction l as [|e l IH]; [done|].
  cbn [rev]. rewrite count_subject_app, IH, !count_subject_cons.
  replace (count_subject s []) with 0%nat by done. lia.
Qed.

Lemma count_trim_newest s t keep l :
  (count_subject s (trim_newest t keep l) <= count_subject s l)%nat /\
  (count_subject t (trim_newest t keep l) <= keep)%nat.
Proof.
  revert keep. induction l as [|e l IH]; intros keep; [cbn; unfold count_subject; cbn; lia|].
  cbn [trim_newest]. rewrite !count_subject_cons.
  destruct (bool_decide_reflect (ev_credential_id e = t)) as [Ht|Ht]; [destruct keep as [|k]|].
  - destruct (IH 0%nat). lia.
  - destruct (IH k). rewrite !count_subject_cons.
    rewrite (bool_decide_eq_true_2 (ev_credential_id e = t)) by done. lia.
  - destruct (IH keep). rewrite !count_subject_cons.
    rewrite (bool_decide_eq_false_2 (ev_credential_id e = t)) by done. lia.
Qed.

(** Appending one row and trimming its subject keeps every subject within the bound. *)
Lemma append_trim_bounded e l :
  events_bounded l ->
  events_bounded (rev (trim_newest (ev_credential_id e) AUTH_EVENTS_PER_CREDENTIAL (rev (l ++ [e])))).
Proof.
  intros Hl s. rewrite count_subject_rev.
  destruct (count_trim_newest s (ev_credential_id e) AUTH_EVENTS_PER_CREDENTIAL (rev (l ++ [e]))) as [H1 H2].
  rewrite count_subject_rev, count_subject_app, count_subject_cons in H1.
  destruct (bool_decide_reflect (ev_credential_id e = s)) as [He|He].
  { rewrite He in H2. rewrite He. lia. }
  specialize (Hl s). replace (count_subject s []) with 0%nat in H1 by done. lia.
Qed.

Lemma trim_bounded t l :
  events_bounded l -> events_bounded (rev (trim_newest t AUTH_EVENTS_PER_CREDENTIAL (rev l))).
Proof.
  intros Hl s. rewrite count_subject_rev.
  destruct (count_trim_newest s t AUTH_EVENTS_PER_CREDENTIAL (rev l)) as [H1 _].
  rewrite count_subject_rev in H1. specialize (Hl s). lia.
Qed.

Abbreviation R := (on auth_events (keeps events_bounded)).

Lemma append_event_bounded ts subject obs v applied :
  tx_rel R (append_secret_auth_event_tx ts subject obs v applied).
Proof.
  intros d a d' H1. unfold append_secret_auth_event_tx, trim_auth_events_tx, mbind, exec in H1.
  simplify_eq. unfold on, keeps. cbn. intros Hb.
  match goal with |- context [rev (?l ++ [?e])] => apply (append_trim_bounded e l Hb) end.
Qed.

Lemma deferred_bounded ts subject v : tx_rel R (stale_refresh_deferred_tx ts subject v).
Proof.
  intros d a d' H1. unfold stale_refresh_deferred_tx, trim_auth_events_tx, mbind, exec, query, mret in H1.
  destruct (existsb _ _); simplify_eq; unfold on, keeps; cbn; intros Hb.
  - by apply trim_bounded.
  - match goal with |- context [rev (?l ++ [?e])] => apply (append_trim_bounded e l Hb) end.
Qed.

Lemma filter_events_bounded (P : AuthEventRow -> Prop) `{!forall e, Decision (P e)} :
  tx_rel R (exec (with_auth_events (filter P))).
Proof.
  intros d a d' [= _ <-] Hb s. cbn [auth_events with_auth_events].
  etrans; [|apply (Hb s)]. clear Hb. induction (auth_events d) as [|e l IH]; [done|].
  rewrite filter_cons, count_subject_cons. case_decide; rewrite ?count_subject_cons; lia.
Qed.
#[local] Hint Resolve append_event_bounded deferred_bounded filter_events_bounded : rel.

Lemma call_events_bounded K c : op_rel K R (call_op (Conn := Conn) c).
Proof.
  destruct c; call_solve ltac:(first [apply append_event_bounded | apply deferred_bounded
    | apply filter_events_bounded | progress unfold append_auth_event_tx]).
Qed.
End Events.

(** ** Revoked handles *)

Section Handles.
Context `{C : Crypto} `{X : RecordExt} {Conn : Type} `{L : SqliteStoreLaws Conn}.
Context (h : string).

(** No live row under hash [h]. *)
Definition handle_dead (m : gmap string HandleRow) : Prop :=
  forall r, m !! h = Some r -> h_revoked r = true.

Abbreviation R := (on handles (keeps handle_dead)).

Lemma revoke_of_dead id : tx_rel R (revoke_handles_of id).
Proof.
  intros d a d' [= _ <-] Hd r. cbn. rewrite lookup_fmap. intros (r0 & E & Hr)%fmap_Some.
  subst r. apply Hd in E. unfold handle_live_for. by rewrite E, andb_false_r.
Qed.

Lemma filter_dead (P : string * HandleRow -> Prop) `{!forall x, Decision (P x)} :
  tx_rel R (exec (with_handles (filter P))).
Proof.
  intros d a d' [= _ <-] Hd r. cbn. rewrite map_lookup_filter_Some. intros [E _]. by apply Hd.
Qed.

Lemma insert_other_dead h' r : h' <> h -> tx_rel R (exec (with_handles (insert h' r))).
Proof. intros Hne d a d' [= _ <-] Hd r'. cbn. rewrite lookup_insert_ne by done. apply Hd. Qed.

Lemma revoke_one_dead h' :
  tx_rel R (fun d =>
      match handles d !! h' with
      | Some r => if h_revoked r then (Ok 0%nat, d)
                  else (Ok 1%nat, with_handles (insert h' (revoked_row r)) d)
      | None => (Ok 0%nat, d)
      end).
Proof.
  intros d a d' E Hd r. case_all; [by apply Hd..| |by apply Hd].
  destruct (decide (h' = h)) as [->|]; simplify_map_eq; [by intros [= <-]|]. apply Hd.
Qed.
#[local] Hint Resolve revoke_of_dead filter_dead revoke_one_dead : rel.
#[local] Hint Extern 1 (tx_rel R (exec (with_handles (insert _ _)))) =>
  (apply insert_other_dead; congruence) : rel.

(** The one call that can bring a handle back is minting the same hash again. *)
Definition mints (c : Call) : Prop :=
  match c with CallPutHandle _ h' _ _ => h' = h | _ => False end.

Lemma call_handle_dead K c : ~ mints c -> op_rel K R (call_op (Conn := Conn) c).
Proof. intros Hc. destruct c; cbn in Hc; call_solve ltac:(first [apply revoke_one_dead]). Qed.
End Handles.

(** ** A store that lost its lease *)

Section Lost.
Context `{C : Crypto} `{X : RecordExt} {Conn : Type} `{L : SqliteStoreLaws Conn}.

(** What unfenced diagnostic writers touch: two tables and the last permissions seen. *)
Definition forget_permissions (r : CredRow) : CredRow :=
  {| cr_record_version := cr_record_version r; cr_key_id := cr_key_id r; cr_state := cr_state r;
     cr_stale_pending := cr_stale_pending r; cr_envelope := cr_envelope r;
     cr_updated_at_ms := cr_updated_at_ms r; cr_created_at_ms := cr_created_at_ms r;
     cr_created_by := cr_created_by r; cr_incarnation := cr_incarnation r;
     cr_last_github_app_permissions := None |}.
Definition forget_diagnostics (d : Db) : Db :=
  with_credentials (fmap forget_permissions)
    (with_auth_events (fun _ => []) (with_held_detected_plans (fun _ => ∅) d)).
Definition same_but_diagnostics (d d' : Db) : Prop := forget_diagnostics d = forget_diagnostics d'.

#[global] Instance same_but_diagnostics_preorder : PreOrder same_but_diagnostics.
Proof. split; unfold same_but_diagnostics; [intros ?; done|intros x y z; congruence]. Qed.

Lemma permissions_are_diagnostics id g j :
  tx_rel same_but_diagnostics (update_credential id g (set_permissions j)).
Proof.
  intros d a d' H1. unfold update_credential in H1. unfold same_but_diagnostics, forget_diagnostics.
  destruct (credentials d !! id) as [row|] eqn:E; [|by simplify_eq].
  destruct (g row); [|by simplify_eq]. rewrite bool_decide_eq_true_2 in H1 by done. simplify_eq.
  unfold with_credentials. cbn. rewrite fmap_insert, insert_id; [done|]. by rewrite lookup_fmap, E.
Qed.
#[local] Hint Resolve permissions_are_diagnostics : rel.

Definition lost_rel {A} (m : M (EncryptedStore Conn) StoreOpError A) : Prop :=
  forall s r s', conn_lease (es_conn s) = false -> m s = (r, s') ->
    conn_lease (es_conn s') = false /\ same_but_diagnostics (es_db s) (es_db s').

Lemma lost_rel_self {A} (f : Keys -> M (EncryptedStore Conn) StoreOpError A) :
  (forall K, lost_rel (f K)) -> lost_rel (with_self f).
Proof. intros Hf s r s' Hl Hm. by eapply Hf. Qed.
Lemma lost_rel_epoch {A} (f : Z -> M (EncryptedStore Conn) StoreOpError A) :
  (forall K, lost_rel (f K)) -> lost_rel (with_epoch f).
Proof. intros Hf s r s' Hl Hm. by eapply Hf. Qed.
Lemma lost_rel_ret {A} (a : A) : lost_rel (mret a).
Proof. intros s r s' Hl [= _ <-]. done. Qed.
Lemma lost_rel_err {A} e : lost_rel (merr (A := A) e).
Proof. intros s r s' Hl [= _ <-]. done. Qed.
Lemma lost_rel_lift {A} (r : result A StoreOpError) : lost_rel (mlift r).
Proof. intros s r' s' Hl [= _ <-]. done. Qed.
Lemma lost_rel_bind {A B} (m : M (EncryptedStore Conn) StoreOpError A)
    (k : A -> M (EncryptedStore Conn) StoreOpError B) :
  lost_rel m -> (forall a, lost_rel (k a)) -> lost_rel (mbind m k).
Proof.
  unfold mbind. intros Hm Hk s r s' Hl H1. destruct (m s) as [[a|e] s1] eqn:E.
  - destruct (Hm _ _ _ Hl E) as [Hl1 HR1]. destruct (Hk a _ _ _ Hl1 H1) as [? ?].
    split; [done|]. by transitivity (es_db s1).
  - simplify_eq. by eapply Hm.
Qed.
Lemma lost_rel_try {A} (m : M (EncryptedStore Conn) StoreOpError A) : lost_rel m -> lost_rel (mtry m).
Proof. unfold mtry. intros Hm s r s' Hl H1. destruct (m s) eqn:E. simplify_eq. by eapply Hm. Qed.

(** Without the lease a fenced transaction changes nothing, whatever it would do. *)
Lemma lost_rel_fenced {A} (f : Tx A) : lost_rel (fenced f).
Proof.
  intros s r s' Hl H1. unfold fenced, fenced_write in H1.
  destruct (fenced_lost f (es_conn s) Hl) as (e & c' & E & Hl'). rewrite E in H1. simplify_eq.
  split; [done|]. unfold es_db. cbn. by rewrite (fenced_rolls_back _ _ _ _ E).
Qed.
Lemma lost_rel_unfenced {A} (f : Tx A) : tx_rel same_but_diagnostics f -> lost_rel (unfenced f).
Proof.
  intros Hf s r s' Hl H1. unfold unfenced in H1.
  destruct (with_conn f (es_conn s)) as [out c] eqn:E. simplify_eq. cbn.
  destruct (conn_keeps _ _ _ _ E) as [_ ->]. split; [done|]. unfold es_db. cbn. destruct out as [a|e].
  - apply (Hf _ a). by apply conn_commits.
  - by rewrite (conn_rolls_back _ _ _ _ E).
Qed.

Lemma lost_rel_unfenced_signalled {A} (f : Tx A) :
  tx_rel same_but_diagnostics f -> lost_rel (unfenced_signalled f).
Proof.
  intros Hf s r s' Hl H1. unfold unfenced_signalled in H1.
  destruct (with_conn f (es_conn s)) as [out c] eqn:E. simplify_eq. cbn.
  destruct (conn_keeps _ _ _ _ E) as [_ ->]. split; [done|]. unfold es_db. cbn. destruct out as [a|e].
  - apply (Hf _ a). by apply conn_commits.
  - by rewrite (conn_rolls_back _ _ _ _ E).
Qed.

Ltac lost_step :=
  lazymatch goal with
  | |- lost_rel (mbind _ _) => apply lost_rel_bind
  | |- lost_rel (with_self _) => apply lost_rel_self
  | |- lost_rel (with_epoch _) => apply lost_rel_epoch
  | |- lost_rel (mret _) => apply lost_rel_ret
  | |- lost_rel (merr _) => apply lost_rel_err
  | |- lost_rel (mlift _) => apply lost_rel_lift
  | |- lost_rel (mtry _) => apply lost_rel_try
  | |- lost_rel (fenced _) => apply lost_rel_fenced
  | |- lost_rel (unfenced _) => apply lost_rel_unfenced
  | |- lost_rel (unfenced_signalled _) => apply lost_rel_unfenced_signalled
  | |- lost_rel (match ?x with _ => _ end) => destruct x
  | |- forall _, _ => intro
  | |- lost_rel _ =>
      progress (unfold ignore, check_vault_transfer_key_writable, refuses_vault_transfer_key_mutation,
        vault_transfer_key_state, fenced_write_unless_transfer_key_protected,
        get, get_with_stale_pending, get_with_stale_pending_and_digest; op_unfold)
  | |- tx_rel _ (unfenced _) => fail
  | |- tx_rel _ _ => first [rel_step | progress (unfold deposit_key_write_protected; op_unfold)]
  end.

Lemma call_lost c : lost_rel (call_op c).
Proof. destruct c; cbn [call_op]; repeat lost_step; auto with rel typeclass_instances. Qed.

Lemma run_calls_lost cs s :
  conn_lease (es_conn s) = false -> same_but_diagnostics (es_db s) (es_db (run_calls cs s)).
Proof.
  revert s. induction cs as [|c cs IH]; intros s Hl; [reflexivity|]. cbn.
  destruct (call_lost c s _ _ Hl (surjective_pairing _)) as [Hl' HR].
  etrans; [exact HR|by apply IH].
Qed.
End Lost.

(** ** Properties of every history *)

Section Properties.
Context `{C : Crypto} `{!CryptoLaws C} `{X : RecordExt} {Conn : Type} `{L : SqliteStoreLaws Conn}.

Lemma unfenced_query_ok {A} (f : Db -> A) (s : EncryptedStore Conn) a s' :
  unfenced (query f) s = (Ok a, s') -> a = f (es_db s) /\ es_db s' = es_db s.
Proof.
  unfold unfenced. destruct (with_conn (query f) (es_conn s)) as [[x|e] c] eqn:E; [|done].
  intros [= <- <-]. apply conn_commits in E. unfold query in E. simplify_eq. split; [done|].
  unfold es_db. cbn. congruence.
Qed.

Lemma unfenced_query_runs {A} (f : Db -> A) (s : EncryptedStore Conn) :
  conn_healthy (es_conn s) = true -> fst (unfenced (query f) s) = Ok (f (es_db s)).
Proof.
  intros Hh. unfold unfenced. destruct (conn_runs (query f) _ Hh) as (c & -> & _). done.
Qed.

(** A well-formed chain verifies. *)
Lemma chain_verifies (s : EncryptedStore Conn) :
  chain_ok (es_audit_key s) (audit_log (es_db s)) -> conn_healthy (es_conn s) = true ->
  fst (verify_audit_chain s) = Ok None.
Proof.
  intros Hc Hh. unfold verify_audit_chain, read_audit_op, with_self, mbind.
  pose proof (unfenced_query_runs (fun d => read_audit None (audit_log d)) s Hh) as Hq.
  destruct (unfenced _ s) as [r s1]. cbn in Hq. subst r. cbn. do 2 f_equal.
  by apply (chained_verify _ _ 1).
Qed.

Lemma handle_hash_valid raw :
  (String.length (handle_hash raw) =? 64)%nat = true /\
  str_forallb is_lower_hex_char (handle_hash raw) = true.
Proof.
  unfold handle_hash. rewrite length_hex, sha256_length. split; [done|apply hex_lower].
Qed.

Lemma revoke_handle_dead inp raw ctx (s s1 : EncryptedStore Conn) o :
  revoke_handle inp raw ctx s = (Ok o, s1) -> handle_dead (handle_hash raw) (handles (es_db s1)).
Proof.
  unfold revoke_handle, revoke_handle_by_hash_audited, with_self.
  destruct (handle_hash_valid raw) as [-> ->]. cbn [negb orb]. unfold fenced, fenced_write.
  destruct (with_conn_fenced _ (es_conn s)) as [[x|e] c] eqn:E; [|done]. intros [= <- <-].
  apply fenced_commits in E. unfold es_db. cbn.
  unfold mbind, query, append_audit_tx, mret in E. intros r Hr.
  destruct (handles (conn_db (es_conn s)) !! handle_hash raw) as [r0|] eqn:Eh;
    [destruct (h_revoked r0) eqn:Ev|]; cbn in E;
    injection E as _ E; rewrite <- E in Hr; cbn in Hr; simplify_map_eq; done.
Qed.

Lemma dead_does_not_resolve raw (s : EncryptedStore Conn) :
  handle_dead (handle_hash raw) (handles (es_db s)) ->
  (forall id, fst (resolve_handle raw s) <> Ok id) /\
  (forall p, fst (resolve_handle_with_incarnation raw s) <> Ok p).
Proof.
  intros Hd. unfold resolve_handle, resolve_handle_with_incarnation, mbind.
  split; intros p Hp;
    match type of Hp with context [unfenced ?q s] => destruct (unfenced q s) as [[x|e] s1] eqn:E end;
    cbn in Hp; try done; apply unfenced_query_ok in E as [-> _];
    case_all; bool_hyps;
    match goal with E : _ !! handle_hash raw = Some _ |- _ => apply Hd in E end; congruence.
Qed.

(** Revocation is permanent. Once [revoke_handle] succeeded, no history of store
    calls that does not mint the very same hash again makes the handle resolve, with or
    without the row's incarnation. *)
Theorem revoked_handle_never_resolves inp raw ctx cs (s s1 : EncryptedStore Conn) o :
  revoke_handle inp raw ctx s = (Ok o, s1) ->
  Forall (fun c => ~ mints (handle_hash raw) c) cs ->
  (forall id, fst (resolve_handle raw (run_calls cs s1)) <> Ok id) /\
  (forall p, fst (resolve_handle_with_incarnation raw (run_calls cs s1)) <> Ok p).
Proof.
  intros Hr Hcs. apply dead_does_not_resolve.
  destruct (calls_rel (keys_of s1) (on handles (keeps (handle_dead (handle_hash raw)))) cs s1)
    as (_ & HR & _); [|done|].
  - eapply Forall_impl; [exact Hcs|]. intros c Hc. by apply call_handle_dead.
  - apply HR. by eapply revoke_handle_dead.
Qed.

(** C36: losing the lease is final for this store. Once one fenced write was rejected by
    the fence, the fenced-out flag stays set and no history of later calls through this
    store changes anything but diagnostics (auth events, held plan observations and the
    last GitHub permissions seen). *)
Theorem fenced_store_is_frozen {A} (f : Tx A) h e cs (s s1 : EncryptedStore Conn) :
  fenced_write f s = (Err (SFenced h e), s1) ->
  is_fenced_out (run_calls cs s1) = true /\
  es_db s1 = es_db s /\
  same_but_diagnostics (es_db s1) (es_db (run_calls cs s1)).
Proof.
  unfold fenced_write. destruct (with_conn_fenced f (es_conn s)) as [out c] eqn:E.
  intros [= -> <-]. split_and!.
  - destruct (calls_rel (keys_of s) (on audit_log (log_grows (keys_of s))) cs
      (set_conn c true 0 s)) as (_ & _ & HF);
      [apply Forall_forall; intros; apply call_log_grows|done|].
    apply HF. cbn. apply orb_true_r.
  - unfold es_db. cbn. by apply fenced_rolls_back in E.
  - apply run_calls_lost. cbn. by eapply fenced_reject.
Qed.
End Properties.

(** ** A small vault to evaluate *)

Module Demo.
Export Toy ToyStore ToyCodec.

Definition nonce (i : nat) : option bytes := Some (replicate 24 (byte_of_Z (Z.of_nat i))).
Definition inputs (t : Z) (fresh : string) : Inputs :=
  {| in_now i := t + Z.of_nat i; in_rnd := nonce; in_fresh := fresh |}.

Definition key : MasterKey := key_of_byte x11.
Definition audit_key : bytes := replicate 32 x22.

Definition store_over (d : Db) : EncryptedStore ToyConn :=
  {| es_conn := fresh_conn d; es_key := key; es_key_id := key_id key; es_audit_key := audit_key;
     es_fenced_out := false; es_writes := 0 |}.

(** A store whose lease a newer writer took. *)
Definition superseded_over (d : Db) : EncryptedStore ToyConn :=
  {| es_conn := {| tc_db := d; tc_epoch := 1; tc_db_epoch := 2 |}; es_key := key;
     es_key_id := key_id key; es_audit_key := audit_key; es_fenced_out := false; es_writes := 0 |}.

Definition oauth_material : OAuthCredential :=
  {| access_token := "at"; refresh_token := "rt"; oauth_expires_at_ms := Some 1000;
     token_url := "u"; client_id := None; client_secret := None; scopes := [] |}.
Definition oauth_record : VaultRecord := new_oauth "s" "kimi" oauth_material (str_bytes "at").
Definition key_record : VaultRecord := new_static ApiKey "s" (str_bytes "k") None.

Definition id : string := "oauth:kimi".
Definition setup : list Call :=
  [CallCreate (inputs 10 "a1") id oauth_record (ctx_vault Put);
   CallPutHandle (inputs 20 "-") (handle_hash "h") id (ctx_vault MintHandle)].
Definition vault : EncryptedStore ToyConn := run_calls setup (store_over empty_db).

Example vault_resolves : fst (resolve_handle "h" vault) = Ok id.
Proof. vm_compute. reflexivity. Qed.

Example vault_reads :
  fst (get (inputs 30 "-") id vault) = Ok (set_version 1 oauth_record).
Proof. vm_compute. reflexivity. Qed.
End Demo.

Module Witness.
Import Demo.

Definition revoked : result (option string) StoreOpError * EncryptedStore ToyConn :=
  revoke_handle (inputs 50 "-") "h" (ctx_vault RevokeHandle) vault.

Lemma revoked_handle_witness :
  fst revoked = Ok (Some id) /\
  (forall i, fst (resolve_handle "h"
     (run_calls [CallReactivate (inputs 60 "-") id (ctx_vault Reactivate)] (snd revoked))) <> Ok i).
Proof.
  split; [vm_compute; reflexivity|].
  apply (revoked_handle_never_resolves (inputs 50 "-") "h" (ctx_vault RevokeHandle)
           [CallReactivate (inputs 60 "-") id (ctx_vault Reactivate)] vault (snd revoked) (Some id)).
  - transitivity (fst revoked, snd revoked); [apply surjective_pairing|].
    assert (fst revoked = Ok (Some id)) as E by (vm_compute; reflexivity). rewrite E. reflexivity.
  - constructor; [intros []|constructor].
Defined.

Definition rejected : result nat StoreError * EncryptedStore ToyConn :=
  fenced_write (clear_intent_tx id) (superseded_over (es_db vault)).

Lemma fenced_store_witness :
  fst rejected = Err (SFenced 1 2) /\
  is_fenced_out (run_calls [CallRemove (inputs 70 "-") id (ctx_vault Remove)] (snd rejected)) = true.
Proof.
  split; [vm_compute; reflexivity|].
  apply (fenced_store_is_frozen (clear_intent_tx id) 1 2
           [CallRemove (inputs 70 "-") id (ctx_vault Remove)] (superseded_over (es_db vault))).
  transitivity (fst rejected, snd rejected); [apply surjective_pairing|].
  assert (fst rejected = Err (SFenced 1 2)) as E by (vm_compute; reflexivity). rewrite E. reflexivity.
Defined.
End Witness.
