(* ===== verification/SecretCalls.v ===== *)
(** * The calls of agent secrets

    [SecretCall] names each mutating operation of [SecretStore] with its arguments, and
    [secret_op] runs it. [secret_respects] lists the transactions a call can commit: a
    preorder they respect relates the store before and after ([secret_rel]), so a property
    of histories is proved transaction by transaction. The second half does so for the
    audit chain, the diagnostics bound and the tables secrets never touch. *)

From stdpp Require Import gmap sorting.
From S2P Require Import Prelude Text Crypto Json Record CredentialId Catalog Envelope AuditLog Database Store TxLogic Secrets Kem SecretStore Calls.

Inductive SecretCall :=
| ScUse (inp : SecretInputs) (call : SecretUse) (asking_member : string)
| ScLastUse (id : string) (now : Z)
| ScUseSealed (inp : SecretInputs) (call : SecretUse) (request : ReleaseRequest) (seal : Value -> result SealedRelease string)
| ScRequestFlow (inp : SecretInputs) (call : SecretFlowApproval) (asking_member : string)
| ScFlowUse (inp : SecretInputs) (call : SecretFlowUse) (asking_member : string)
| ScFlowUseSealed (inp : SecretInputs) (call : SecretFlowUse) (request : ReleaseRequest) (seal : Value -> result SealedRelease string)
| ScRevokeFlow (inp : SecretInputs) (install_id : string) (version : option Z) (asking_member : string)
| ScRevoke (inp : SecretInputs) (id actor : string) (now : Z)
| ScOperatorRevoke (inp : SecretInputs) (id actor : string)
| ScSetHome (inp : SecretInputs) (home : option string) (ctx : AuditCtx)
| ScPut (inp : SecretInputs) (put : SecretPut) (actor : string)
| ScOperatorDelete (inp : SecretInputs) (name actor : string)
| ScSetPhoneMapping (inp : SecretInputs) (enabled : bool) (ctx : AuditCtx)
| ScObserve (fingerprint : string) (pairing : option string) (now : Z)
| ScPhone (inp : SecretInputs) (fingerprint : string) (pairing : option string) (observed_at_ms : Z)
    (op : PhoneOperation) (admitted : bool)
| ScForward (inp : SecretInputs) (sender : SecretSender) (name : option string) (outcome : string)
| ScMemberRefusal (inp : SecretInputs) (member subject detail : string)
| ScEnsureDepositKey (inp : SecretInputs) (fresh : string).

(** What the secret operations call in other crates, together. *)
Class SecretEnv := {
  sv_ext :: SecretExt;
  sv_json :: JsonCodec;
  sv_reader :: EnvelopeReader;
  sv_hpke :: Hpke;
}.

Section Run.
Context `{C : Crypto} `{RX : RecordExt} `{SE : SecretEnv} {Conn : Type} `{SQ : SqliteStore Conn}.

Definition secret_op (c : SecretCall) : M (EncryptedStore Conn) StoreOpError unit :=
  match c with
  | ScUse inp call m => effect (secret_use_from inp call m)
  | ScLastUse id now => effect (secret_use_last_use id now)
  | ScUseSealed inp call request seal => effect (secret_use_sealed inp call request seal)
  | ScRequestFlow inp call m => effect (secret_request_flow_approval_from inp call m)
  | ScFlowUse inp call m => effect (secret_flow_use_from inp call m)
  | ScFlowUseSealed inp call request seal => effect (secret_flow_use_sealed inp call request seal)
  | ScRevokeFlow inp install v m => effect (revoke_flow_grants_from inp install v m)
  | ScRevoke inp id actor now => effect (secret_permissions_revoke inp id actor now)
  | ScOperatorRevoke inp id actor => effect (secret_operator_revoke_audited inp id actor)
  | ScSetHome inp home ctx => effect (set_secret_home_audited inp home ctx)
  | ScPut inp put actor => effect (secret_put_audited inp put actor)
  | ScOperatorDelete inp name actor => effect (secret_operator_delete_audited inp name actor)
  | ScSetPhoneMapping inp enabled ctx => effect (set_secret_phone_mapping_audited inp enabled ctx)
  | ScObserve fp pairing now => effect (observe_secret_phone fp pairing now)
  | ScPhone inp fp pairing at_ms op admitted => effect (secret_phone_operation inp fp pairing at_ms op admitted)
  | ScForward inp sender name outcome => effect (record_secret_forward inp sender name outcome)
  | ScMemberRefusal inp member subject detail => effect (record_member_secret_refusal inp member subject detail)
  | ScEnsureDepositKey inp fresh => effect (ensure_secret_deposit_key inp fresh)
  end.
End Run.

(** ** From transactions to histories *)

Section SecretRel.
Context `{C : Crypto} `{RX : RecordExt} `{SE : SecretEnv} {Conn : Type} `{L : SqliteStoreLaws Conn}.
Context (K : Keys) (P : Db -> Db -> Prop) `{!PreOrder P}.

(** What any refused call may write: a diagnostic row, the quarantine of a broken secret. *)
Definition refusals_respect : Prop :=
  (forall ts subject detail p, tx_rel P (refusal_event ts subject detail p)) /\
  (forall inp name sender target, tx_rel P (quarantine_target_tx K inp name sender target)).

(** The other transactions of a call. *)
Definition secret_respects (c : SecretCall) : Prop :=
  match c with
  | ScUse inp call m => tx_rel P (secret_use_tx K inp call m)
  | ScLastUse id now => tx_rel P (last_use_tx id now)
  | ScUseSealed inp call request seal =>
      release_request_validate request = Ok tt -> tx_rel P (secret_use_sealed_tx K inp call request seal)
  | ScRequestFlow inp call m =>
      forall methods, validate_flow_methods (fa_target call) (fa_methods call) = Ok methods ->
        flow_validate (fa_flow call) = Ok tt ->
        tx_rel P (flow_approval_tx K inp call m (strings_to_text <$> methods))
  | ScFlowUse inp call m => tx_rel P (flow_use_tx K inp call m)
  | ScFlowUseSealed inp call request seal =>
      release_request_validate request = Ok tt -> tx_rel P (flow_use_sealed_tx K inp call request seal)
  | ScRevokeFlow inp install v m => tx_rel P (revoke_flow_tx (k_audit_key K) (sx_now inp) install v m)
  | ScRevoke inp id actor now => tx_rel P (revoke_grant_tx (k_audit_key K) (sx_now inp) id actor now)
  | ScOperatorRevoke inp id actor =>
      tx_rel P (revoke_grant_tx (k_audit_key K) (sx_now inp) id actor (sx_event_now inp))
  | ScSetHome inp home ctx =>
      tx_rel P (set_secret_home_tx (k_audit_key K) (sx_now inp) (sx_event_now inp) home ctx)
  | ScPut inp put actor =>
      forall s m, scope_and_material put = Ok (s, m) -> tx_rel P (secret_put_tx K inp (put_name put) s m actor)
  | ScOperatorDelete inp name actor => tx_rel P (operator_delete_tx (k_audit_key K) inp name actor)
  | ScSetPhoneMapping inp enabled ctx => tx_rel P (set_phone_mapping_tx (k_audit_key K) inp enabled ctx)
  | ScObserve fp pairing now => tx_rel P (observation fp pairing now)
  | ScPhone inp fp pairing at_ms op admitted => tx_rel P (phone_op_tx K inp fp pairing at_ms op admitted)
  | ScForward inp sender name outcome =>
      tx_rel P (forward_tx (sx_event_now inp) (secret_subject name) (PReserved (sender_module sender)) outcome)
  | ScMemberRefusal _ _ _ _ => True
  | ScEnsureDepositKey inp fresh => tx_rel P (ensure_deposit_key_tx K inp fresh)
  end.

Abbreviation SOp A := (M (EncryptedStore Conn) SecretError A).

Lemma op_rel_with_keys {A} (f : Keys -> SOp A) : op_rel K P (f K) -> op_rel K P (with_keys f).
Proof. intros Hf s r s' HK E. unfold with_keys in E. rewrite HK in E. by eapply Hf. Qed.

Lemma fenced_write_rel {A} (f : Tx A) (s s' : EncryptedStore Conn) out :
  tx_rel P f -> keys_of s = K -> fenced_write f s = (out, s') ->
  keys_of s' = K /\ P (es_db s) (es_db s') /\ (es_fenced_out s = true -> es_fenced_out s' = true).
Proof.
  intros Hf HK E. apply (op_rel_fenced (Conn := Conn) K P f Hf s (map_err from_store_error out) s' HK).
  unfold fenced. by rewrite E.
Qed.

Lemma op_rel_secret_fenced {A} (f : Tx A) : tx_rel P f -> op_rel (Conn := Conn) K P (secret_fenced f).
Proof.
  intros Hf s r s' HK E. unfold secret_fenced in E. destruct (fenced_write f s) as [out s1] eqn:Ef.
  injection E as <- <-. by eapply fenced_write_rel.
Qed.

Lemma op_rel_secret_conn {A} (f : Tx A) : tx_rel P f -> op_rel (Conn := Conn) K P (secret_conn f).
Proof.
  intros Hf s r s' HK E. unfold secret_conn in E. destruct (with_conn f (es_conn s)) as [out c] eqn:Ec.
  injection E as <- <-. apply (op_rel_unfenced (Conn := Conn) K P f Hf s (map_err from_store_error out)); [done|].
  unfold unfenced. by rewrite Ec.
Qed.

Lemma op_rel_best_effort {A} (m : SOp A) : op_rel K P m -> op_rel K P (best_effort m).
Proof. intros Hm s r s' HK [= _ <-]. by eapply Hm; [|apply surjective_pairing]. Qed.

Lemma op_rel_forwarded body (refuse : Refusal -> SOp SecretError) :
  tx_rel P body -> (forall r, op_rel K P (refuse r)) -> op_rel K P (forwarded_answer body refuse).
Proof.
  intros Hb Hr s r s' HK E. unfold forwarded_answer in E. destruct (fenced_write body s) as [out s1] eqn:Ef.
  destruct (fenced_write_rel _ _ _ _ Hb HK Ef) as (HK1 & HP1 & HF1).
  assert (forall r1 s2, (do! e <- refuse r1 ;; merr e) s1 = (r, s2) ->
            keys_of s2 = K /\ P (es_db s) (es_db s2) /\ (es_fenced_out s = true -> es_fenced_out s2 = true)) as Href.
  { intros r1 s2 E2. assert (op_rel K P (do! e <- refuse r1 ;; merr (A := result ForwardedUse string) e)) as Ho
      by (apply op_rel_bind; [done|apply Hr|intros; apply op_rel_err; apply _]).
    destruct (Ho _ _ _ HK1 E2) as (? & ? & ?). split_and!; [done|by etrans|auto]. }
  destruct out as [[[a|e]|refusal]|[|[]|]]; eauto; injection E as <- <-; eauto.
Qed.

(** Split an operation into its transactions. *)
Ltac op_step := first
  [ rel_step
  | lazymatch goal with
    | |- op_rel _ _ (effect _) => apply op_rel_effect
    | |- op_rel _ _ (with_keys _) => apply op_rel_with_keys; cbv beta
    | |- op_rel _ _ (secret_fenced _) => apply op_rel_secret_fenced
    | |- op_rel _ _ (secret_conn _) => apply op_rel_secret_conn
    | |- op_rel _ _ (best_effort _) => apply op_rel_best_effort
    | |- op_rel _ _ (forwarded_answer _ _) => apply op_rel_forwarded
    | |- op_rel _ _ (mret _) => apply op_rel_ret
    | |- op_rel _ _ (merr _) => apply op_rel_err
    | |- op_rel _ _ (mlift _) => apply op_rel_lift
    | |- tx_rel _ (query _) => apply tx_rel_query
    | |- PreOrder _ => assumption
    end ].

Lemma op_rel_refuse inp name sender target refusal :
  refusals_respect -> op_rel (Conn := Conn) K P (refuse_secret_target inp name sender target refusal).
Proof.
  intros [Hev Hq]. unfold refuse_secret_target, record_secret_use_refusal. repeat op_step; auto.
Qed.

Lemma flow_use_snapshot_reads call m : tx_rel P (flow_use_snapshot K call m).
Proof. unfold flow_use_snapshot, choose_flow_grant. rel_solve. Qed.

Lemma secret_rel c : refusals_respect -> secret_respects c -> op_rel K P (secret_op (Conn := Conn) c).
Proof.
  intros Hr Hc. pose proof Hr as [Hev Hq].
  destruct c; cbn [secret_op secret_respects] in *;
    unfold secret_use_from, secret_use_last_use, secret_use_sealed, secret_request_flow_approval_from, svalid,
      secret_flow_use_from, secret_flow_use_sealed,
      revoke_flow_grants_from, secret_permissions_revoke, secret_operator_revoke_audited, set_secret_home_audited,
      secret_put_audited, secret_operator_delete_audited, set_secret_phone_mapping_audited, observe_secret_phone,
      secret_phone_operation, record_secret_forward, record_member_secret_refusal, ensure_secret_deposit_key;
    repeat first [op_step | by apply op_rel_refuse | apply flow_use_snapshot_reads
      | progress unfold use_refused, flow_call_checks, record_secret_use_refusal, svalid ];
    auto;
    repeat match goal with
    | H : map_err _ _ = Ok _ |- _ => apply map_err_ok in H
    | a : unit |- _ => destruct a
    | a : _ * _ |- _ => destruct a
    end; auto.
Qed.
End SecretRel.

(** ** Statement by statement *)

Section Statements.
Context `{C : Crypto} `{SE : SecretEnv} (P : Db -> Db -> Prop) `{!PreOrder P}.

Lemma tx_rel_savepoint (m : Tx unit) : tx_rel P m -> tx_rel P (savepoint m).
Proof. intros Hm d a d' E. unfold savepoint in E. destruct (m d) as [[u|e] d1] eqn:Em; simplify_eq; [by eapply Hm|done]. Qed.

Lemma tx_rel_audit_now ak now r :
  (forall ts, tx_rel P (append_audit_tx ak ts r)) -> tx_rel P (audit_now ak now r).
Proof. intros Ha d a d' E. unfold audit_now in E. revert E. apply tx_rel_bind; auto with rel. Qed.

Lemma tx_rel_sweep_grants ak ts rows :
  (forall id, tx_rel P (exec (with_secret_grants (delete id)))) ->
  (forall op t a f, tx_rel P (secret_audit ak ts op t a f)) -> tx_rel P (sweep_grants ak ts rows).
Proof. intros H1 H2. induction rows as [|[id g] rows IH]; cbn [sweep_grants]; rel_solve. Qed.

Lemma tx_rel_revoke_rows ak ts rows :
  (forall id, tx_rel P (exec (with_flow_grants (delete id)))) ->
  (forall op t a f, tx_rel P (secret_audit ak ts op t a f)) -> tx_rel P (revoke_flow_rows ak ts rows).
Proof. intros H1 H2. induction rows as [|[id g] rows IH]; cbn [revoke_flow_rows]; rel_solve. Qed.

Lemma tx_rel_items K ts rnd i items e member hash fp card delete_op now :
  (forall rnd item, tx_rel P (approval_item_tx K ts rnd item e member hash fp card delete_op now)) ->
  tx_rel P (approval_items_tx K ts rnd i items e member hash fp card delete_op now).
Proof. intros H1. revert i. induction items as [|item items IH]; intros i; cbn [approval_items_tx]; rel_solve. Qed.
End Statements.

(** Close the goal when the statement leaves the part of the database in view alone. *)
Ltac secret_frame :=
  lazymatch goal with
  | |- tx_rel _ _ =>
      let H := fresh "H" in
      intros ?d ?a ?d' H;
      unfold trim_auth_events_tx, insert_agent_secret, insert_request, insert_secret_grant, insert_flow_grant,
        write_receipt, insert_credential, append_audit_tx, exec, query, mret, merr, mlift in H;
      repeat match type of H with context [match ?x with _ => _ end] => destruct x eqn:? end;
      simplify_eq; cbv zeta beta; unfold on; reflexivity
  end.

Ltac secret_unfold :=
  unfold quarantine_target_tx, secret_use_tx, last_use_tx, secret_use_sealed_tx, flow_approval_tx, flow_use_tx,
    flow_use_snapshot, flow_use_sealed_tx, revoke_flow_tx, revoke_grant_tx, revoke_flow_grant, set_secret_home_tx,
    secret_put_tx, operator_delete_tx, set_phone_mapping_tx, observation, phone_op_tx, forward_tx,
    ensure_deposit_key_tx, deposit_tx, store_secret_tx, secret_approval_tx,
    approval_item_tx, flow_item_tx, insert_agent_grant, approval_quarantine, delete_secret_rows, replay,
    seal_captured, choose_flow_grant, commit_flow_release, commit_agent_release, drop_stale_requests, sweep, sweep_release_receipts, to_sql_u64, sql_range.

(** Prove that a call respects a relation; [tac] knows the statements that matter. *)
Ltac secret_step tac := first
  [ tac
  | rel_step
  | lazymatch goal with
    | |- tx_rel _ (query _) => apply tx_rel_query
    | |- tx_rel _ (savepoint _) => apply tx_rel_savepoint
    | |- tx_rel _ (secret_audit _ _ _ _ _ _) => unfold secret_audit
    | |- tx_rel _ (envelope_audit _ _ _ _ _ _) => unfold envelope_audit
    | |- tx_rel _ (audit_now _ _ _) => apply tx_rel_audit_now
    | |- tx_rel _ (sweep_grants _ _ _) => apply tx_rel_sweep_grants
    | |- tx_rel _ (revoke_flow_rows _ _ _) => apply tx_rel_revoke_rows
    | |- tx_rel _ (approval_items_tx _ _ _ _ _ _ _ _ _ _ _ _) => apply tx_rel_items
    | |- tx_rel _ (refusal_event _ _ _ _) => unfold refusal_event
    | |- tx_rel _ (append_secret_auth_event_tx _ _ _ _ _) => unfold append_secret_auth_event_tx
    | |- PreOrder _ => apply _
    end
  | secret_frame
  | progress secret_unfold
  | progress unfold pending, flow_pending, secret_delete_request_tx ].
Ltac secret_solve tac := cbn [secret_respects]; intros; repeat secret_step tac; auto with rel typeclass_instances.

Lemma secret_respects_weaken `{Crypto} `{RecordExt} `{SecretEnv} K (P Q : Db -> Db -> Prop) c :
  (forall d d', P d d' -> Q d d') -> refusals_respect K P /\ secret_respects K P c ->
  refusals_respect K Q /\ secret_respects K Q c.
Proof.
  assert (forall A (m : Tx A), (forall d d', P d d' -> Q d d') -> tx_rel P m -> tx_rel Q m) as Hw
    by (intros A m HPQ Hm d a d' Em; by eapply HPQ, Hm).
  intros HPQ [[Hr1 Hr2] Hc]. split; [split; intros; apply Hw; auto|].
  destruct c; cbn in *; intros; try apply Hw; auto.
Qed.

Lemma secret_respects_both `{Crypto} `{RecordExt} `{SecretEnv} K (P Q : Db -> Db -> Prop) c :
  refusals_respect K P /\ secret_respects K P c -> refusals_respect K Q /\ secret_respects K Q c ->
  let PQ d d' := P d d' /\ Q d d' in refusals_respect K PQ /\ secret_respects K PQ c.
Proof.
  intros [[Hp1 Hp2] Hp] [[Hq1 Hq2] Hq] PQ.
  assert (forall A (m : Tx A), tx_rel P m -> tx_rel Q m -> tx_rel PQ m) as Hw
    by (intros A m HP HQ d a d' Em; split; [by eapply HP|by eapply HQ]).
  split; [split; intros; apply Hw; auto|].
  destruct c; cbn in *; intros; try apply Hw; auto.
Qed.

Section Frames.
Context `{C : Crypto} `{RX : RecordExt} `{SE : SecretEnv}.
Context (K : Keys).

Lemma secret_log_grows c :
  refusals_respect K (on audit_log (log_grows K)) /\ secret_respects K (on audit_log (log_grows K)) c.
Proof. split; [split|destruct c]; secret_solve ltac:(apply append_audit_grows). Qed.

Lemma forward_bounded ts subject principal outcome :
  tx_rel (on auth_events (keeps events_bounded)) (forward_tx ts subject principal outcome).
Proof.
  unfold forward_tx. destruct (bool_decide _); [|apply append_event_bounded].
  intros d a d' E. unfold trim_auth_events_tx, mbind, query, mret, exec in E.
  destruct (existsb _ _); simplify_eq; unfold on, keeps; cbn; intros Hb; [by apply trim_bounded|].
  match goal with |- context [rev (?l ++ [?e])] => apply (append_trim_bounded e l Hb) end.
Qed.

Lemma list_filter_events_bounded (f : AuthEventRow -> bool) :
  tx_rel (on auth_events (keeps events_bounded)) (exec (with_auth_events (List.filter f))).
Proof.
  intros d a d' [= _ <-] Hb s. cbn [auth_events with_auth_events].
  etrans; [|apply (Hb s)]. clear Hb. induction (auth_events d) as [|e l IH]; [done|].
  cbn [List.filter]. rewrite count_subject_cons. destruct (f e); rewrite ?count_subject_cons; lia.
Qed.

Lemma secret_events_bounded c :
  let R := on auth_events (keeps events_bounded) in refusals_respect K R /\ secret_respects K R c.
Proof.
  cbv zeta. split; [split|destruct c]; secret_solve ltac:(first [apply append_event_bounded | apply forward_bounded | apply list_filter_events_bounded]).
Qed.

(** What the secret operations never touch. *)
Definition vault_view (d : Db) :=
  (access d, refresh_intent d, handles d, vault_secrets d, remote_records d, grants_generation d,
   remote_issue_seen d, credential_categories d, credential_provider_ids d, credential_plan_tiers d).

Lemma secret_keeps_vault c : refusals_respect K (on vault_view eq) /\ secret_respects K (on vault_view eq) c.
Proof. split; [split|destruct c]; secret_solve ltac:(fail). Qed.
End Frames.

(** ** A concrete instance *)

Module ToySecrets.
#[export] Instance toy_secret_env : SecretEnv := {|
  sv_ext := ToySecretExt.toy_secret_ext;
  sv_json := ToyJson.toy_json;
  sv_reader := @ToySecretExt.toy_reader ToyJson.toy_json;
  sv_hpke := ToyHpke.toy_hpke;
|}.
End ToySecrets.
