(* ===== verification/Sealed.v ===== *)
(** * What the rows of the vault always hold

    The central invariant: every credential row opens, under the current key and its own
    id and version, to a record that carries that version ([vault_sealed]). From it:
    reads never quarantine a row the vault wrote, versions only grow within one lifetime
    of a row, a refresh intent always names the stored refresh token, and no sealed
    material changes without an audit entry naming its credential. *)

From S2P Require Import Prelude Text Crypto Record Envelope AuditLog Database Store Calls.

(** What the operating system and the types supply: 24-byte nonces, u64 versions. *)
Definition inputs_ok (inp : Inputs) : Prop :=
  forall i n, in_rnd inp i = Some n -> length n = NONCE_LEN.

Definition call_ok (c : Call) : Prop :=
  match c with
  | CallCreate inp _ _ _ | CallOverwriteCas inp _ _ _ _ | CallOverwrite inp _ _ _ _
  | CallSetIdentity inp _ _ _ => inputs_ok inp
  | CallCommitRefresh inp _ v _ => inputs_ok inp /\ in_u64 v
  | _ => True
  end.

Lemma as_i64_range z : in_i64 (as_i64 z).
Proof.
  unfold in_i64, i64_min, i64_max, as_i64.
  pose proof (Z.mod_pos_bound (z + 2 ^ 63) (2 ^ 64) ltac:(lia)). lia.
Qed.

Lemma as_u64_range z : in_u64 (as_u64 z).
Proof. unfold in_u64, u64_max, as_u64. pose proof (Z.mod_pos_bound z (2 ^ 64) ltac:(lia)). lia. Qed.

Lemma u64_succ_le v : in_u64 v -> v <= u64_saturating_add v 1.
Proof. unfold u64_saturating_add, clamp, in_u64, u64_max. lia. Qed.

Lemma version_typed_set v r : in_u64 v -> version_typed (set_version v r).
Proof. done. Qed.

Section Sealed.
Context `{C : Crypto} `{!CryptoLaws C} `{X : RecordExt} `{!RecordExtLaws X}.
Context (K : Keys).

(** The row opens to a record of its own version, carries the key's fingerprint and a
    state of the lifecycle. *)
Definition row_sealed (id : string) (row : CredRow) : Prop :=
  (exists r, open_existing K id (cr_record_version row) (cr_envelope row) = Some r /\
     record_version r = as_u64 (cr_record_version row)) /\
  cr_key_id row = key_id_to_hex (k_key_id K) /\
  (exists st, cr_state row = state_as_str st).

Definition vault_sealed (m : gmap string CredRow) : Prop := map_Forall row_sealed m.

Lemma seal_record_inv rnd id r blob :
  seal_record K rnd id r = Ok blob ->
  exists body, encode r = Ok body /\
    seal rnd (k_key K) body {| rb_credential_id := id; rb_record_version := record_version r |} = Ok blob.
Proof.
  unfold seal_record. intros H. case_all.
  - destruct (encode r) as [body|]; cbn in *; simplify_eq. eauto using map_err_ok.
  - destruct (encode r) as [body|]; cbn in *; simplify_eq. eauto using map_err_ok.
Qed.

(** A sealed record opens at the row it was sealed for. *)
Lemma seal_record_opens rnd id r blob :
  (forall n, rnd = Some n -> length n = NONCE_LEN) -> version_typed r ->
  seal_record K rnd id r = Ok blob ->
  open_existing K id (as_i64 (record_version r)) blob = Some r.
Proof.
  intros Hr Hv (body & He & Hs)%seal_record_inv. unfold open_existing.
  rewrite as_u64_as_i64 by done.
  destruct rnd as [n|]; [|by apply seal_ok in Hs as (? & ? & ? & _)].
  rewrite (open_sealed n _ _ _ _ (Hr _ eq_refl) Hs), (decode_encode _ _ Hv He). done.
Qed.

Abbreviation R := (on credentials (keeps vault_sealed)).

Lemma sealed_update id g upd :
  (forall row, row_sealed id row -> row_sealed id (upd row)) ->
  tx_rel R (update_credential id g upd).
Proof.
  intros Hu d a d' H Hs. unfold update_credential in H.
  assert (forall row, credentials d !! id = Some row ->
    vault_sealed (<[id := upd row]> (credentials d))) as Hi.
  { intros row Hrow. apply map_Forall_insert_2; [|done]. apply Hu. by apply (Hs id row). }
  case_all; by apply Hi || apply Hs.
Qed.

Lemma sealed_state id g st now : tx_rel R (update_credential id g (set_row_state st now)).
Proof. apply sealed_update. intros row (? & ? & _). split_and!; [done..|by exists st]. Qed.
Lemma sealed_stale id g : tx_rel R (update_credential id g mark_row_stale).
Proof. by apply sealed_update. Qed.

Lemma sealed_permissions id g j : tx_rel R (update_credential id g (set_permissions j)).
Proof. by apply sealed_update. Qed.

Lemma sealed_rewrite inp i id r blob nv g now :
  inputs_ok inp -> seal_record K (in_rnd inp i) id r = Ok blob -> record_version r = nv -> in_u64 nv ->
  tx_rel R (update_credential id g (rewrite_row (as_i64 nv) (key_id_to_hex (k_key_id K)) blob now)).
Proof.
  intros Hi Hs <- Hv. apply sealed_update. intros row _. split_and!; [|done|by exists Active].
  exists r. split; [|cbn; by rewrite as_u64_as_i64]. by eapply seal_record_opens; [apply Hi|..].
Qed.

Lemma sealed_relabel inp i id r blob nv g now :
  inputs_ok inp -> seal_record K (in_rnd inp i) id r = Ok blob -> record_version r = nv -> in_u64 nv ->
  tx_rel R (update_credential id g (relabel_row (as_i64 nv) (key_id_to_hex (k_key_id K)) blob now)).
Proof.
  intros Hi Hs <- Hv. apply sealed_update. intros row (_ & _ & Hst). split_and!; [|done|done].
  exists r. split; [|cbn; by rewrite as_u64_as_i64]. by eapply seal_record_opens; [apply Hi|..].
Qed.

Lemma sealed_insert fresh id row :
  (forall inc, row_sealed id (row inc)) -> tx_rel R (insert_credential fresh id row).
Proof.
  intros Hr d a d' H Hs. unfold insert_credential in H. case_all.
  apply map_Forall_insert_2; [apply Hr|done].
Qed.

Lemma sealed_delete id : tx_rel R (delete_credential id).
Proof.
  intros d a d' H Hs. unfold delete_credential in H. case_all. by apply map_Forall_delete.
Qed.

#[local] Hint Resolve sealed_state sealed_stale sealed_permissions sealed_delete : rel.
#[local] Hint Extern 1 (tx_rel _ (update_credential _ _ (rewrite_row _ _ _ _))) =>
  (eapply sealed_rewrite; [eassumption|first [eassumption | eapply map_err_ok; eassumption]|reflexivity|
     apply u64_saturating_add_range]) : rel.
#[local] Hint Extern 1 (tx_rel _ (update_credential _ _ (relabel_row _ _ _ _))) =>
  (eapply sealed_relabel; [eassumption|first [eassumption | eapply map_err_ok; eassumption]|reflexivity|
     apply u64_saturating_add_range]) : rel.
#[local] Hint Extern 1 (tx_rel _ (insert_credential _ _ _)) =>
  (apply sealed_insert; intros; split_and!; [|reflexivity|by exists Active];
   eexists; split; [eapply seal_record_opens; [|..|eassumption]; eauto; done|reflexivity]) : rel.

Context {Conn : Type} `{L : SqliteStoreLaws Conn}.

Lemma call_sealed c : call_ok c -> op_rel K R (call_op (Conn := Conn) c).
Proof. intros Hc. destruct c; cbn in Hc; try destruct Hc; call_solve fail. Qed.
End Sealed.

(** ** Versions within one lifetime of a row *)

Section Versions.
Context `{C : Crypto} `{X : RecordExt} `{!RecordExtLaws X}.
Context (K : Keys) (id inc : string).

(** Version and sealed bytes of the row of [id], while its incarnation is [inc]. *)
Definition lifetime (m : gmap string CredRow) : option (Z * bytes) :=
  match m !! id with
  | Some row => if bool_decide (cr_incarnation row = inc)
                then Some (as_u64 (cr_record_version row), cr_envelope row) else None
  | None => None
  end.

(** Versions only grow, and one version names one sequence of sealed bytes, up to the
    saturated version; a lifetime that ended does not come back. *)
Definition advances (x y : option (Z * bytes)) : Prop :=
  match x, y with
  | Some (v, e), Some (v', e') => v < v' \/ (v = v' /\ (e = e' \/ v = u64_max))
  | None, Some _ => False
  | _, None => True
  end.
#[global] Instance advances_preorder : PreOrder advances.
Proof.
  split.
  - intros [[v e]|]; cbn; auto.
  - intros [[v e]|] [[v' e']|] [[v'' e'']|]; cbn; try done; intros; destruct_or?; destruct_and?;
      try (left; lia); right; split; try lia; destruct_or?; subst; auto; right; lia.
Qed.

Lemma advances_None x : advances x None.
Proof. by destruct x as [[? ?]|]. Qed.

Abbreviation R := (on (fun d => lifetime (credentials d)) advances).

Definition row_advances (row row' : CredRow) : Prop :=
  cr_incarnation row' = cr_incarnation row /\
  advances (Some (as_u64 (cr_record_version row), cr_envelope row))
           (Some (as_u64 (cr_record_version row'), cr_envelope row')).

Lemma lifetime_update id' g upd :
  (forall row, g row = true -> row_advances row (upd row)) ->
  tx_rel R (update_credential id' g upd).
Proof.
  intros Hu d a d' H. unfold on. unfold update_credential in H.
  destruct (credentials d !! id') as [row|] eqn:E; [|simplify_eq; reflexivity].
  destruct (g row) eqn:Eg; [|simplify_eq; reflexivity].
  assert (credentials d' = <[id' := upd row]> (credentials d)) as -> by (case_all; done).
  unfold lifetime. destruct (decide (id' = id)) as [->|]; [|by rewrite lookup_insert_ne].
  rewrite lookup_insert_eq, E. destruct (Hu row Eg) as [-> Ha].
  clear H. case_bool_decide; [exact Ha|done].
Qed.

Lemma same_material_advances row row' :
  cr_incarnation row' = cr_incarnation row -> cr_record_version row' = cr_record_version row ->
  cr_envelope row' = cr_envelope row -> row_advances row row'.
Proof. intros Hi Hv He. split; [done|]. rewrite Hv, He. cbn. auto. Qed.

Lemma next_version_advances row row' v :
  in_u64 v -> as_u64 (cr_record_version row) = v -> cr_incarnation row' = cr_incarnation row ->
  cr_record_version row' = as_i64 (u64_saturating_add v 1) -> row_advances row row'.
Proof.
  intros Hv Hr Hi Hr'. split; [done|]. rewrite Hr, Hr'.
  rewrite as_u64_as_i64 by apply u64_saturating_add_range. cbn.
  unfold u64_saturating_add, clamp, in_u64, u64_max in *. lia.
Qed.

(** A version-guarded rewrite: the guard names the version the new one follows. *)
Lemma lifetime_next id' g upd v :
  in_u64 v ->
  (forall row, g row = true -> as_u64 (cr_record_version row) = v) ->
  (forall row, cr_incarnation (upd row) = cr_incarnation row /\
     cr_record_version (upd row) = as_i64 (u64_saturating_add v 1)) ->
  tx_rel R (update_credential id' g upd).
Proof.
  intros Hv Hg Hu. apply lifetime_update. intros row Hrow.
  destruct (Hu row). by apply (next_version_advances _ _ v); auto.
Qed.

Lemma row_version_is_u64 v row :
  in_u64 v -> row_version_is (as_i64 v) row = true ->
  as_u64 (cr_record_version row) = v.
Proof. unfold row_version_is. intros Hv H. bool_hyps. rewrite H. by apply as_u64_as_i64. Qed.

Lemma lifetime_insert fresh id' row :
  fresh <> inc -> (forall i, cr_incarnation (row i) = i) ->
  tx_rel R (insert_credential fresh id' row).
Proof.
  intros Hf Hr d a d' H. unfold insert_credential in H. case_all; try reflexivity.
  unfold on, lifetime. cbn. destruct (decide (id' = id)) as [->|]; [|rewrite lookup_insert_ne by done; reflexivity].
  rewrite lookup_insert_eq, Hr, (bool_decide_eq_false_2 (fresh = inc)) by done. apply advances_None.
Qed.

Lemma lifetime_delete id' : tx_rel R (delete_credential id').
Proof.
  intros d a d' H. unfold delete_credential in H. case_all; try reflexivity.
  unfold on, lifetime. cbn. destruct (decide (id' = id)) as [->|]; [|rewrite lookup_delete_ne by done; reflexivity].
  rewrite lookup_delete_eq. apply advances_None.
Qed.

Context {Conn : Type} `{L : SqliteStoreLaws Conn}.

Lemma decode_row_typed inp id' v i st sp blob (s : EncryptedStore Conn) r b s' :
  decode_record_row K inp id' v i st sp blob s = (Ok (r, b), s') -> version_typed r.
Proof.
  unfold decode_record_row, quarantine_on_read, mbind, mtry.
  destruct (state_from_str st); try done.
  destruct (open _ _ _) as [pt|e]; [|by repeat case_match].
  destruct (decode pt) eqn:E; [|by repeat case_match].
  intros [= <- _ _]. by eapply decode_typed.
Qed.

Lemma get_typed inp id' (s : EncryptedStore Conn) r s' :
  keys_of s = K -> get inp id' s = (Ok r, s') -> version_typed r.
Proof.
  unfold get, get_with_stale_pending, get_with_stale_pending_and_digest, read_snapshot, with_self.
  intros HK Hg. unfold mbind, mlift, mret in Hg. rewrite HK in Hg. clear HK.
  destruct (unfenced _ s) as [[found|] s1]; [|done].
  destruct found as [row|]; cbn in Hg; [|done].
  destruct (decode_record_row K inp id' _ _ _ _ _ s1) as [[[r0 b]|e] s2] eqn:E; [|done].
  cbn in Hg. simplify_eq. by eapply decode_row_typed.
Qed.

#[local] Hint Resolve lifetime_delete : rel.
#[local] Hint Extern 1 (tx_rel _ (update_credential _ _ (set_row_state _ _))) =>
  (apply lifetime_update; intros; by apply same_material_advances) : rel.
#[local] Hint Extern 1 (tx_rel _ (update_credential _ _ (set_permissions _))) =>
  (apply lifetime_update; intros; by apply same_material_advances) : rel.
#[local] Hint Extern 1 (tx_rel _ (update_credential _ _ mark_row_stale)) =>
  (apply lifetime_update; intros; by apply same_material_advances) : rel.
#[local] Hint Extern 1 (tx_rel _ (insert_credential _ _ _)) =>
  (apply lifetime_insert; [assumption|reflexivity]) : rel.
#[local] Hint Extern 1 (tx_rel _ (update_credential _ _ _)) =>
  (unfold version_typed in *; eapply lifetime_next; [| |intros; split; reflexivity];
   [first [eassumption | apply as_u64_range]
   |intros; bool_hyps; first [by apply row_version_is_u64
                             | by unfold row_version_is in *; bool_hyps; congruence]]) : rel.

(** The lifetime [inc] is not drawn again. *)
Definition fresh_for (c : Call) : Prop :=
  match c with CallCreate inp _ _ _ => in_fresh inp <> inc | _ => True end.

Lemma call_advances c : call_ok c -> fresh_for c -> op_rel K R (call_op (Conn := Conn) c).
Proof.
  intros Hc Hf. destruct c; cbn in Hc, Hf; try destruct Hc;
    call_solve ltac:(idtac; lazymatch goal with
      | |- op_rel _ _ (mbind (get _ _) _) =>
          apply (op_rel_bind_post _ _ version_typed); [|intros ???; apply get_typed|]
      end).
Qed.
End Versions.

(** ** Inverting an operation *)

Section Inversion.
Context {Conn : Type} `{L : SqliteStoreLaws Conn}.
Abbreviation Store := (EncryptedStore Conn).

Lemma bind_ok_inv {S E A B} (m : M S E A) (k : A -> M S E B) s b s' :
  mbind m k s = (Ok b, s') -> exists a s1, m s = (Ok a, s1) /\ k a s1 = (Ok b, s').
Proof. unfold mbind. destruct (m s) as [[a|e] s1]; [eauto|done]. Qed.

Lemma bind_err_inv {S E A B} (m : M S E A) (k : A -> M S E B) s e s' :
  mbind m k s = (Err e, s') ->
  m s = (Err e, s') \/ exists a s1, m s = (Ok a, s1) /\ k a s1 = (Err e, s').
Proof. unfold mbind. destruct (m s) as [[a|e'] s1]; [eauto|]. intros. left. by simplify_eq. Qed.

Lemma fenced_ok_inv {A} (f : Tx A) (s s' : Store) a :
  fenced f s = (Ok a, s') -> f (es_db s) = (Ok a, es_db s').
Proof.
  unfold fenced, fenced_write. destruct (with_conn_fenced f (es_conn s)) as [[x|e] c] eqn:E; [|done].
  intros [= <- <-]. by apply fenced_commits in E.
Qed.

Lemma fenced_err_inv {A} (f : Tx A) (s s' : Store) e :
  fenced f s = (Err e, s') -> es_db s' = es_db s.
Proof.
  unfold fenced, fenced_write. destruct (with_conn_fenced f (es_conn s)) as [[x|e'] c] eqn:E; [done|].
  intros [= _ <-]. by apply fenced_rolls_back in E.
Qed.

Lemma fenced_keys {A} (f : Tx A) (s s' : Store) r : fenced f s = (r, s') -> keys_of s' = keys_of s.
Proof. unfold fenced, fenced_write. destruct (with_conn_fenced _ _). by intros [= _ <-]. Qed.

(** With the lease and a working backend a fenced transaction runs to its result. *)
Lemma fenced_runs_to {A} (f : Tx A) (s : Store) :
  conn_lease (es_conn s) = true -> conn_healthy (es_conn s) = true ->
  exists s', fenced f s = (map_err from_store_error (map_err SWork (fst (f (es_db s)))), s') /\
    conn_lease (es_conn s') = true /\ conn_healthy (es_conn s') = true.
Proof.
  intros Hl Hh. unfold fenced, fenced_write. destruct (fenced_runs f _ Hl Hh) as (c & -> & ? & ?).
  eexists. split; [reflexivity|]. done.
Qed.

Lemma unfenced_runs_to {A} (f : Tx A) (s : Store) :
  conn_healthy (es_conn s) = true ->
  exists s', unfenced f s = (map_err from_store_error (map_err SWork (fst (f (es_db s)))), s') /\
    conn_lease (es_conn s') = conn_lease (es_conn s) /\ conn_healthy (es_conn s') = true /\
    keys_of s' = keys_of s.
Proof.
  intros Hh. unfold unfenced. destruct (conn_runs f _ Hh) as (c & E & ?). rewrite E.
  eexists. split; [reflexivity|]. by destruct (conn_keeps _ _ _ _ E) as [_ ?].
Qed.

(** An operation that only reads. *)
Definition reads_only {A} (m : M Store StoreOpError A) : Prop :=
  forall s r s', m s = (r, s') -> es_db s' = es_db s /\ keys_of s' = keys_of s.

Lemma reads_only_rel {A} (m : M Store StoreOpError A) :
  (forall K, op_rel K eq m) -> reads_only m.
Proof. intros Hm s r s' H1. destruct (Hm (keys_of s) s r s' eq_refl H1) as (? & ? & _). done. Qed.

Lemma check_reads_only id : reads_only (check_vault_transfer_key_writable id).
Proof. apply reads_only_rel. intros K. apply (op_rel_check K eq). Qed.

Lemma unfenced_query_reads {A} (f : Db -> A) : reads_only (unfenced (query f)).
Proof. apply reads_only_rel. intros K. rel_solve. Qed.
End Inversion.

(** Peel the steps of a successful operation, keeping what each returned. *)
Ltac ok_inv H :=
  repeat match type of H with
    | mbind (mlift ?r) _ _ = (Ok _, _) =>
        let a := fresh "a" in let s1 := fresh "s" in let E := fresh "E" in
        apply bind_ok_inv in H as (a & s1 & E & H); unfold mlift in E; injection E as E <-
    | mbind _ _ _ = (Ok _, _) =>
        let a := fresh "a" in let s1 := fresh "s" in let E := fresh "E" in
        apply bind_ok_inv in H as (a & s1 & E & H)
    | (if ?b then merr _ else _) _ = (Ok _, _) =>
        let Eb := fresh "Eb" in destruct b eqn:Eb; [discriminate H|]
    end.

(** ** Properties of every history *)

Section Properties.
Context `{C : Crypto} `{!CryptoLaws C} `{X : RecordExt} `{!RecordExtLaws X}.
Context {Conn : Type} `{L : SqliteStoreLaws Conn}.

Lemma calls_sealed cs (s : EncryptedStore Conn) :
  vault_sealed (keys_of s) (credentials (es_db s)) -> Forall call_ok cs ->
  keys_of (run_calls cs s) = keys_of s /\ vault_sealed (keys_of s) (credentials (es_db (run_calls cs s))).
Proof.
  intros Hs Hcs.
  destruct (calls_rel (keys_of s) (on credentials (keeps (vault_sealed (keys_of s)))) cs s)
    as (HK & HR & _); [|done|split; [done|by apply HR]].
  eapply Forall_impl; [exact Hcs|]. intros c Hc. by apply call_sealed.
Qed.

(** C18: sealing is an invariant of the vault. If every row opens under the current key,
    its own id and its own version to a record carrying that version, then so does every
    row after any history of store calls, whatever the calls' arguments and outcomes. *)
Theorem history_keeps_vault_sealed cs (s : EncryptedStore Conn) :
  vault_sealed (keys_of s) (credentials (es_db s)) -> Forall call_ok cs ->
  vault_sealed (keys_of s) (credentials (es_db (run_calls cs s))).
Proof. intros Hs Hcs. by apply calls_sealed. Qed.

(** Within one lifetime of a row the version never decreases, and two moments with
    the same version saw the same sealed bytes (short of the saturated version), so a
    version a consumer was served names exactly the material it was served; a lifetime
    that ended never comes back. *)
Theorem version_names_material cs (s : EncryptedStore Conn) id inc :
  Forall call_ok cs -> Forall (fresh_for inc) cs ->
  advances (lifetime id inc (credentials (es_db s)))
           (lifetime id inc (credentials (es_db (run_calls cs s)))).
Proof.
  intros Hcs Hf.
  destruct (calls_rel (keys_of s) (on (fun d => lifetime id inc (credentials d)) advances) cs s)
    as (_ & HR & _); [|done|by apply HR].
  apply Forall_forall. intros c Hc. rewrite Forall_forall in Hcs, Hf. apply call_advances; auto.
Qed.
End Properties.

Module Witness.
Import Calls.Demo.

Lemma inputs_are_ok t f : inputs_ok (inputs t f).
Proof. intros i n [= <-]. reflexivity. Qed.

Lemma setup_ok : Forall call_ok setup.
Proof. repeat constructor. apply inputs_are_ok. Qed.

Lemma vault_is_sealed : vault_sealed (keys_of vault) (credentials (es_db vault)).
Proof.
  destruct (calls_sealed setup (store_over empty_db)) as [HK Hs]; [apply map_Forall_empty|apply setup_ok|].
  unfold vault. by rewrite HK.
Qed.

Lemma history_sealed_witness :
  vault_sealed (keys_of (store_over empty_db)) (credentials (es_db (store_over empty_db))) /\
  vault_sealed (keys_of (store_over empty_db)) (credentials (es_db vault)).
Proof.
  split; [apply map_Forall_empty|].
  apply (history_keeps_vault_sealed setup (store_over empty_db));
    [apply map_Forall_empty|apply setup_ok].
Defined.

Lemma version_names_witness :
  lifetime id "a1" (credentials (es_db vault)) <> None /\
  advances (lifetime id "a1" (credentials (es_db vault)))
    (lifetime id "a1" (credentials (es_db (run_calls
      [CallCommitRefresh (inputs 90 "-") id 1 oauth_record] vault)))).
Proof.
  split; [by vm_compute|].
  apply (version_names_material [CallCommitRefresh (inputs 90 "-") id 1 oauth_record] vault id "a1").
  - constructor; [|constructor]. split; [apply inputs_are_ok|]. split; [lia|]. by apply Z.leb_le.
  - constructor; [exact I|constructor].
Defined.
End Witness.
