(* ===== verification/StoreSpecs.v ===== *)
(** * What single store operations do

    Functional specifications of the operations that carry the vault's contract: a read
    by the state of the row, a create, a refresh commit as one atomic step, removal, and
    the protection of the vault's own keys. *)

From S2P Require Import Prelude Text Crypto Record CredentialId Catalog Envelope AuditLog Database Store Calls Sealed.

Section Commit.
Context `{C : Crypto} `{!CryptoLaws C} `{X : RecordExt} `{!RecordExtLaws X}.
Context {Conn : Type} `{L : SqliteStoreLaws Conn}.

(** The database a refresh commit leaves behind. *)
Definition committed (K : Keys) (inp : Inputs) (id : string) (v : Z) (r : VaultRecord)
    (blob : bytes) (row : CredRow) (d : Db) : Db :=
  let v' := u64_saturating_add v 1 in
  let row' := rewrite_row (as_i64 v') (key_id_to_hex (k_key_id K)) blob (in_now inp 0) row in
  let d1 := with_credentials (insert id row') d in
  let d2 := if bool_decide (cr_record_version row = as_i64 v') then d1
            else with_held_detected_plans (delete id) d1 in
  with_audit_log (append_audit (k_audit_key K) (in_now inp 1)
    {| rec_op := RefreshCommit; rec_credential_id := Some id;
       rec_payload_hash := Some (hex32 (payload_fingerprint (k_audit_key K) (payload r)));
       rec_actor := "vault"; rec_alarm := None |})
    (with_refresh_intent (delete id) d2).

Definition commit_tx (K : Keys) (inp : Inputs) (id : string) (v : Z) (r : VaultRecord) (blob : bytes)
  : Tx nat :=
  do! n <- update_credential id (fun r => row_version_is (as_i64 v) r && row_state_is Active r)
             (rewrite_row (as_i64 (u64_saturating_add v 1)) (key_id_to_hex (k_key_id K)) blob (in_now inp 0)) ;;
  if (0 <? n)%nat then
    do! _ <- clear_intent_tx id ;;
    do! _ <- append_audit_tx (k_audit_key K) (in_now inp 1)
               {| rec_op := RefreshCommit; rec_credential_id := Some id;
                  rec_payload_hash := Some (hex32 (payload_fingerprint (k_audit_key K) (payload r)));
                  rec_actor := "vault"; rec_alarm := None |} ;;
    mret n
  else mret n.

Lemma commit_tx_hit K inp id v r blob d row :
  credentials d !! id = Some row -> cr_record_version row = as_i64 v -> cr_state row = "active" ->
  exists d', commit_tx K inp id v r blob d = (Ok 1%nat, d') /\
    committed K inp id v r blob row d = d'.
Proof.
  intros Hrow Hv Hst. unfold commit_tx, mbind, update_credential. rewrite Hrow.
  unfold row_version_is, row_state_is. rewrite Hv, Hst, !bool_decide_eq_true_2 by done.
  cbn [andb Nat.ltb Nat.leb]. unfold clear_intent_tx, append_audit_tx, mret. unfold committed. cbn zeta.
  cbn [cr_record_version rewrite_row]. rewrite Hv.
  case_bool_decide; cbn [refresh_intent with_credentials with_held_detected_plans];
    destruct (refresh_intent d !! id) eqn:Ei; eexists; (split; [reflexivity|]);
    try reflexivity; unfold with_refresh_intent; cbn; by rewrite (delete_id _ _ Ei).
Qed.

Lemma commit_tx_miss K inp id v r blob d :
  (forall row, credentials d !! id = Some row ->
     ~ (cr_record_version row = as_i64 v /\ cr_state row = "active")) ->
  commit_tx K inp id v r blob d = (Ok 0%nat, d).
Proof.
  intros Hm. unfold commit_tx, mbind, update_credential.
  destruct (credentials d !! id) as [row|]; [|done].
  unfold row_version_is, row_state_is. specialize (Hm row eq_refl).
  destruct (bool_decide_reflect (cr_record_version row = as_i64 v)),
    (bool_decide_reflect (cr_state row = state_as_str Active)); cbn; try done.
  exfalso. by apply Hm.
Qed.

(** A commit inverted: what the result says about the database. *)
Lemma commit_refresh_inv inp id v r (s s' : EncryptedStore Conn) out :
  commit_refresh inp id v r s = (out, s') ->
  match out with
  | Ok v' => v' = u64_saturating_add v 1 /\ exists row blob,
      seal_record (keys_of s) (in_rnd inp 0) id (set_version v' r) = Ok blob /\
      credentials (es_db s) !! id = Some row /\ cr_record_version row = as_i64 v /\
      cr_state row = "active" /\
      es_db s' = committed (keys_of s) inp id v r blob row (es_db s)
  | Err _ => es_db s' = es_db s
  end.
Proof.
  unfold commit_refresh, with_self. intros H1.
  destruct (seal_record (keys_of s) (in_rnd inp 0) id (set_version (u64_saturating_add v 1) r))
    as [blob|e] eqn:Es; unfold mbind at 1, mlift in H1; cbn [set_version] in H1.
  2: by simplify_eq.
  change (fenced _) with (fenced (Conn := Conn) (commit_tx (keys_of s) inp id v r blob)) in H1.
  destruct (fenced (commit_tx (keys_of s) inp id v r blob) s) as [[n|e] s1] eqn:Ef;
    unfold mbind, merr, mret in H1; rewrite Ef in H1.
  2: { simplify_eq. by apply fenced_err_inv in Ef. }
  apply fenced_ok_inv in Ef.
  destruct (credentials (es_db s) !! id) as [row|] eqn:Hrow;
    [destruct (decide (cr_record_version row = as_i64 v /\ cr_state row = "active")) as [[Hv Hst]|Hno]|].
  - destruct (commit_tx_hit (keys_of s) inp id v r blob _ row Hrow Hv Hst) as (d' & Et & Hd).
    rewrite Et in Ef. injection Ef as <- Ed. cbn in H1. injection H1 as <- <-.
    split; [done|]. exists row, blob. by rewrite <- Ed, <- Hd.
  - rewrite commit_tx_miss in Ef by (intros; by simplify_eq). injection Ef as <- Ed.
    cbn in H1. injection H1 as <- <-. by rewrite Ed.
  - rewrite commit_tx_miss in Ef by (intros; by simplify_eq). injection Ef as <- Ed.
    cbn in H1. injection H1 as <- <-. by rewrite Ed.
Qed.
End Commit.

(** ** Reading *)

Section Read.
Context `{C : Crypto} `{!CryptoLaws C} `{X : RecordExt} `{!RecordExtLaws X}.
Context {Conn : Type} `{L : SqliteStoreLaws Conn}.

(** What a read of a row returns when its envelope opens. *)
Definition read_of (K : Keys) (id : string) (row : CredRow) (r : VaultRecord) : StoredRead :=
  {| sr_record := r; sr_incarnation := cr_incarnation row;
     sr_mark := {| sm_pending := cr_stale_pending row;
                   sm_record_written_at_ms := cr_updated_at_ms row |};
     sr_stored_digest_hex := sha256_hex_of_bytes (cr_envelope row) |}.

Lemma quarantine_on_read_err inp id v i e (s : EncryptedStore Conn) x s' :
  quarantine_on_read inp id v i e s <> (Ok x, s').
Proof.
  unfold quarantine_on_read, mbind, mtry. destruct (quarantine_in_incarnation _ _ _ _ s) as [q s1].
  destruct q as [|[]]; done.
Qed.

(** A successful read proves the row was active and opened, and changed nothing. *)
Lemma read_ok_inv inp id exp (s s' : EncryptedStore Conn) x :
  read_snapshot inp id exp s = (Ok x, s') ->
  exists row r, credentials (es_db s) !! id = Some row /\ cr_state row = "active" /\
    (forall i, exp = Some i -> i = cr_incarnation row) /\
    open_existing (keys_of s) id (cr_record_version row) (cr_envelope row) = Some r /\
    x = read_of (keys_of s) id row r /\ es_db s' = es_db s /\ keys_of s' = keys_of s.
Proof.
  unfold read_snapshot, with_self. intros H1.
  apply bind_ok_inv in H1 as (found & s1 & Eq & H1).
  pose proof (unfenced_query_reads _ _ _ _ Eq) as [Hd Hk].
  apply unfenced_query_ok in Eq as [-> _].
  apply bind_ok_inv in H1 as (row & s2 & Er & H1). unfold mlift in Er. injection Er as Er <-.
  destruct (credentials (es_db s) !! id) as [row0|] eqn:Hrow; cbn in Er; simplify_eq.
  destruct (match exp with Some _ => _ | None => _ end) eqn:Eexp; [done|].
  apply bind_ok_inv in H1 as ([r b] & s2 & Edec & H1).
  unfold decode_record_row in Edec.
  destruct (state_from_str (cr_state row)) eqn:Est; try done.
  destruct (open _ _ _) as [pt|] eqn:Eo; [|by apply quarantine_on_read_err in Edec].
  destruct (decode pt) as [r'|] eqn:Ed; [|by apply quarantine_on_read_err in Edec].
  unfold mret in Edec, H1. simplify_eq.
  exists row, r. split_and!; [done|by apply state_from_str_active| | |done|done|unfold keys_of; congruence].
  - intros i ->. cbn in Eexp. by bool_hyps.
  - unfold open_existing. cbn in Eo |- *. by rewrite Eo, Ed.
Qed.

Definition read_answer (K : Keys) (id : string) (exp : option string) (d : Db)
  : result StoredRead StoreOpError :=
  match credentials d !! id with
  | None => Err NotFound
  | Some row =>
      if match exp with Some i => negb (bool_decide (i = cr_incarnation row)) | None => false end
      then Err NotFound else
      match state_from_str (cr_state row) with
      | CorruptState => Err Quarantined
      | NeedsReauthState | Retired => Err NeedsReauth
      | Active =>
          match open_existing K id (cr_record_version row) (cr_envelope row) with
          | Some r => Ok (read_of K id row r)
          | None => Err Quarantined
          end
      end
  end.

(** A read that the backend can serve, on rows the vault sealed. *)
Lemma read_runs inp id exp (s : EncryptedStore Conn) :
  conn_healthy (es_conn s) = true -> vault_sealed (keys_of s) (credentials (es_db s)) ->
  exists s', read_snapshot inp id exp s = (read_answer (keys_of s) id exp (es_db s), s') /\
    es_db s' = es_db s /\ keys_of s' = keys_of s /\ conn_healthy (es_conn s') = true /\
    conn_lease (es_conn s') = conn_lease (es_conn s).
Proof.
  intros Hh Hs. unfold read_snapshot, with_self, mbind, read_answer.
  destruct (unfenced_runs_to (query (fun d => credentials d !! id)) s Hh) as (s1 & E & Hl & Hh1 & Hk).
  destruct (unfenced_query_reads _ _ _ _ E) as [Hd _]. rewrite E. cbn [map_err fst query].
  exists s1. split; [|done].
  destruct (credentials (es_db s) !! id) as [row|] eqn:Hrow; cbn [ok_or mlift]; [|done].
  destruct (match exp with Some _ => _ | None => _ end); [done|].
  destruct (Hs id row Hrow) as ((r & Hopen & _) & _). rewrite Hopen.
  unfold decode_record_row. destruct (state_from_str (cr_state row)); try done.
  unfold open_existing in Hopen. cbn [k_key keys_of] in *.
  destruct (open _ _ _) as [pt|]; [|done]. destruct (decode pt); [|done]. by simplify_eq.
Qed.

(** On a vault whose rows are sealed as the vault seals them, and with a backend that
    answers, a read is a function of the row alone: not found when the id is absent or
    belongs to another lifetime, refused when the row is quarantined, retired or awaiting
    re-authentication, and otherwise the record, the stale mark and the digest of that
    very row. The database is left as it was. *)
Theorem read_is_state_gated inp id exp (s : EncryptedStore Conn) :
  conn_healthy (es_conn s) = true -> vault_sealed (keys_of s) (credentials (es_db s)) ->
  fst (read_snapshot inp id exp s) = read_answer (keys_of s) id exp (es_db s) /\
  es_db (snd (read_snapshot inp id exp s)) = es_db s.
Proof. intros Hh Hs. by destruct (read_runs inp id exp s Hh Hs) as (s' & -> & ? & _). Qed.
End Read.

(** ** Creating *)

Section Create.
Context `{C : Crypto} `{!CryptoLaws C} `{X : RecordExt} `{!RecordExtLaws X}.
Context {Conn : Type} `{L : SqliteStoreLaws Conn}.

Lemma default_categories_frame {A} (pi : Db -> A) id cats d x d' :
  (forall f d, pi (with_credential_categories f d) = pi d) ->
  (forall f d, pi (with_grants_generation f d) = pi d) ->
  insert_default_categories id cats d = (Ok x, d') -> pi d' = pi d.
Proof.
  intros H1 H2 Hc. symmetry.
  eapply (tx_rel_default_categories (on pi eq) id cats); [| |exact Hc].
  - intros c d0 a d1 H3. unfold insert_category in H3. destruct (bool_decide _); simplify_eq.
    unfold on. by rewrite H1.
  - intros d0 a d1 H3. unfold bump_grants_generation_tx, exec in H3. simplify_eq. unfold on. by rewrite H2.
Qed.

Lemma set_account_servable a i :
  is_servable i = true -> account_id i = None -> is_servable (set_account_id a i) = true.
Proof. unfold is_servable, set_account_id. destruct i as [[]? ?]; cbn; intros; try done. by destruct email. Qed.

Lemma validate_ok_inv r u : validate_record_identity r = Ok u -> identity_validate (identity r) = Ok tt.
Proof. unfold validate_record_identity. intros E%map_err_ok. by destruct u. Qed.

(** The stored form of a record a create admits. *)
Definition admitted (record r : VaultRecord) : Prop :=
  record_version r = 1 /\ payload r = payload record /\ kind r = kind record /\
  oauth r = oauth record /\ expires_at_ms r = expires_at_ms record /\
  is_servable (identity r) = true /\ identity_validate (identity r) = Ok tt.

Lemma version_one r : version_typed (set_version 1 r).
Proof. unfold version_typed, in_u64, u64_max. cbn. lia. Qed.

Lemma admitted_form id record r u :
  match derived_account_id (normalize_record_identity record) with
  | Some derived =>
      match account_id (normalized (identity record)) with
      | Some supplied =>
          if negb (bool_decide (supplied = derived))
          then Err (SuppliedIdentityContradictsClaim id supplied derived)
          else Ok (normalize_record_identity record)
      | None => Ok (set_identity (set_account_id derived (normalized (identity record)))
                      (normalize_record_identity record))
      end
  | None => Ok (normalize_record_identity record)
  end = Ok r ->
  validate_record_identity r = Ok u -> admitted record (set_version 1 r).
Proof.
  intros H1 Hv%validate_ok_inv. pose proof (normalized_servable (identity record)) as Hn.
  destruct (derived_account_id _) as [derived|]; [destruct (account_id (normalized _)) eqn:Ea|];
    [destruct (negb _)| |]; simplify_eq; split_and!; try done.
  by apply set_account_servable.
Qed.

(** The transaction of a create: nothing, or the row with its intent cleared. *)
Lemma create_tx_inv fresh id row ak ts rec d d' n :
  mbind (insert_credential fresh id row) (fun n =>
    if (0 <? n)%nat then
      do! _ <- insert_default_categories id (category_defaults id) ;;
      do! _ <- clear_intent_tx id ;;
      do! _ <- append_audit_tx ak ts rec ;;
      mret n
    else mret n) d = (Ok n, d') ->
  if (n =? 0)%nat then d' = d
  else credentials d !! id = None /\ credentials d' = <[id := row fresh]> (credentials d) /\
       refresh_intent d' !! id = None.
Proof.
  intros H1. apply bind_ok_inv in H1 as (m & d1 & Ei & H1). unfold insert_credential in Ei.
  destruct (bool_decide _); [done|]. destruct (credentials d !! id) eqn:Ec; simplify_eq; cbn in H1.
  { unfold mret in H1. by simplify_eq. }
  apply bind_ok_inv in H1 as (u & d2 & E2 & H1).
  apply bind_ok_inv in H1 as (k & d3 & E3 & H1). unfold mbind, append_audit_tx, mret in H1. simplify_eq.
  pose proof (default_categories_frame credentials _ _ _ _ _ ltac:(done) ltac:(done) E2) as Hc.
  cbn in Hc. cbn. split; [done|]. unfold clear_intent_tx in E3.
  destruct (refresh_intent d2 !! id) eqn:Er; simplify_eq; cbn; rewrite ?Hc; split; try done.
  apply lookup_delete_eq.
Qed.

(** A create either leaves the database as it was, or the id was free and now holds
    the record at version 1: an immediate read returns it with the submitted payload,
    kind and OAuth material, a servable validated identity, the fresh incarnation and no
    stale mark; no refresh intent survives under the id and no other row changed. *)
Theorem create_then_read inp id record ctx (s s' : EncryptedStore Conn) out :
  inputs_ok inp -> create_audited inp id record ctx s = (out, s') ->
  match out with
  | Err _ => es_db s' = es_db s
  | Ok _ =>
      credentials (es_db s) !! id = None /\
      refresh_intent (es_db s') !! id = None /\
      (forall id', id' <> id -> credentials (es_db s') !! id' = credentials (es_db s) !! id') /\
      exists r, admitted record r /\
        exists sr, read_answer (keys_of s) id (Some (in_fresh inp)) (es_db s') = Ok sr /\
          sr_record sr = r /\ sm_pending (sr_mark sr) = false
  end.
Proof.
  intros Hi. unfold create_audited, with_self. intros H1. destruct out as [u|e].
  - ok_inv H1. rename E0 into Echk. destruct (check_reads_only _ _ _ _ Echk) as [Hd Hk].
    rewrite <- Hd. clear Hd Hk Echk.
    apply fenced_ok_inv, create_tx_inv in E5. rewrite Eb in E5. destruct E5 as (Hn & Hc & Hr).
    unfold mret in H1. injection H1 as _ <-. rewrite Hc.
    split_and!; [done|done|intros; by rewrite lookup_insert_ne|].
    exists (set_version 1 a2). split; [by eapply admitted_form|].
    unfold read_answer. rewrite Hc, lookup_insert_eq. cbn [cr_incarnation cr_state cr_envelope cr_record_version].
    rewrite bool_decide_eq_true_2 by done. cbn [negb]. change (state_from_str "active") with Active. cbn match.
    rewrite (seal_record_opens _ _ _ _ _ (Hi 0%nat) (version_one _) E4). eauto.
  - repeat match type of H1 with
      | mbind (mlift _) _ _ = _ =>
          apply bind_err_inv in H1 as [H1|(? & ? & E & H1)]; [by injection H1 as _ <-|];
          unfold mlift in E; injection E as E <-
      end.
    apply bind_err_inv in H1 as [H1|(? & s1 & E1 & H1)]; [by apply check_reads_only in H1 as [-> _]|].
    apply check_reads_only in E1 as [<- _].
    repeat match type of H1 with
      | mbind (mlift _) _ _ = _ =>
          apply bind_err_inv in H1 as [H1|(? & ? & ? & H1)]; [by injection H1 as _ <-|];
          match goal with E : mlift _ _ = _ |- _ => unfold mlift in E; injection E as E <- end
      end.
    apply bind_err_inv in H1 as [H1|(n & s2 & Ef & H1)]; [by apply fenced_err_inv in H1|].
    apply fenced_ok_inv, create_tx_inv in Ef. destruct (n =? 0)%nat; [|discriminate H1].
    by injection H1 as _ <-.
Qed.
End Create.

(** ** A refresh commit is one step *)

Section CommitSpec.
Context `{C : Crypto} `{!CryptoLaws C} `{X : RecordExt} `{!RecordExtLaws X}.
Context {Conn : Type} `{L : SqliteStoreLaws Conn}.

Lemma committed_row K inp id v r blob row d :
  credentials (committed K inp id v r blob row d) =
    <[id := rewrite_row (as_i64 (u64_saturating_add v 1)) (key_id_to_hex (k_key_id K)) blob (in_now inp 0) row]>
      (credentials d).
Proof. unfold committed. cbn. by case_bool_decide. Qed.
Lemma committed_intents K inp id v r blob row d :
  refresh_intent (committed K inp id v r blob row d) = delete id (refresh_intent d).
Proof. unfold committed. cbn. by case_bool_decide. Qed.
Lemma committed_log K inp id v r blob row d :
  exists e, audit_log (committed K inp id v r blob row d) = audit_log d ++ [e] /\
    op e = "refresh_commit" /\ credential_id e = Some id.
Proof. unfold committed, append_audit. cbn. case_bool_decide; cbn; eauto. Qed.

(** The next read of a committed record returns it, its stale mark cleared. *)
Lemma committed_read K inp id v r blob row d :
  inputs_ok inp -> seal_record K (in_rnd inp 0) id (set_version (u64_saturating_add v 1) r) = Ok blob ->
  exists sr, read_answer K id None (committed K inp id v r blob row d) = Ok sr /\
    sr_record sr = set_version (u64_saturating_add v 1) r /\ sm_pending (sr_mark sr) = false.
Proof.
  intros Hi Hs. unfold read_answer. rewrite committed_row, lookup_insert_eq.
  cbn [cr_state cr_record_version cr_envelope rewrite_row]. cbn match.
  change (state_from_str "active") with Active. cbn match.
  assert (version_typed (set_version (u64_saturating_add v 1) r)) as Ht
    by apply u64_saturating_add_range.
  pose proof (seal_record_opens _ _ _ _ _ (Hi 0%nat) Ht Hs) as Ho. cbn in Ho. rewrite Ho. eauto.
Qed.

(** A commit the store can run, runs. *)
Lemma commit_refresh_runs inp id v r (s : EncryptedStore Conn) row blob :
  conn_lease (es_conn s) = true -> conn_healthy (es_conn s) = true ->
  credentials (es_db s) !! id = Some row -> cr_record_version row = as_i64 v ->
  cr_state row = "active" ->
  seal_record (keys_of s) (in_rnd inp 0) id (set_version (u64_saturating_add v 1) r) = Ok blob ->
  fst (commit_refresh inp id v r s) = Ok (u64_saturating_add v 1).
Proof.
  intros Hl Hh Hrow Hv Hst Hs. unfold commit_refresh, with_self, mbind at 1, mlift. rewrite Hs.
  change (fenced _) with (fenced (Conn := Conn) (commit_tx (keys_of s) inp id v r blob)).
  unfold mbind.
  destruct (fenced_runs_to (commit_tx (keys_of s) inp id v r blob) s Hl Hh) as (s' & -> & _).
  destruct (commit_tx_hit (keys_of s) inp id v r blob _ row Hrow Hv Hst) as (d' & -> & _). done.
Qed.

(** C17: [commit_refresh] is atomic. On any error nothing at all changed, so the intent
    still marks the rotation; on success the row was active at exactly the expected
    version, the new tokens are what the next read returns, at the next version with the
    stale mark cleared, the intent is gone, one [refresh_commit] entry naming the
    credential was appended, and no other row or intent changed. With the lease held and
    a working backend the commit of an active row at the expected version succeeds. *)
Theorem commit_refresh_atomic inp id v r (s s' : EncryptedStore Conn) out :
  inputs_ok inp -> commit_refresh inp id v r s = (out, s') ->
  match out with
  | Err _ => es_db s' = es_db s
  | Ok v' =>
      v' = u64_saturating_add v 1 /\
      (exists row, credentials (es_db s) !! id = Some row /\ cr_record_version row = as_i64 v /\
         cr_state row = "active") /\
      (exists sr, read_answer (keys_of s) id None (es_db s') = Ok sr /\
         sr_record sr = set_version v' r /\ sm_pending (sr_mark sr) = false) /\
      refresh_intent (es_db s') = delete id (refresh_intent (es_db s)) /\
      (exists e, audit_log (es_db s') = audit_log (es_db s) ++ [e] /\
         op e = "refresh_commit" /\ credential_id e = Some id) /\
      (forall id', id' <> id -> credentials (es_db s') !! id' = credentials (es_db s) !! id')
  end /\
  (forall row blob,
     conn_lease (es_conn s) = true -> conn_healthy (es_conn s) = true ->
     credentials (es_db s) !! id = Some row -> cr_record_version row = as_i64 v ->
     cr_state row = "active" ->
     seal_record (keys_of s) (in_rnd inp 0) id (set_version (u64_saturating_add v 1) r) = Ok blob ->
     out = Ok (u64_saturating_add v 1)).
Proof.
  intros Hi Hc. split.
  - apply commit_refresh_inv in Hc. destruct out as [v'|e]; [|done].
    destruct Hc as (-> & row & blob & Hs & Hrow & Hv & Hst & ->).
    split; [done|]. split; [by exists row|]. split; [|split_and!].
    + eapply committed_read; [exact Hi|exact Hs].
    + apply committed_intents.
    + apply committed_log.
    + intros id' Hne. by rewrite committed_row, lookup_insert_ne.
  - intros row blob Hl Hh Hrow Hv Hst Hs.
    pose proof (commit_refresh_runs inp id v r s row blob Hl Hh Hrow Hv Hst Hs) as Hr.
    by rewrite Hc in Hr.
Qed.
End CommitSpec.

(** ** The vault's own keys *)

Section Protected.
Context `{C : Crypto} `{X : RecordExt} {Conn : Type} `{L : SqliteStoreLaws Conn}.
Context (K : Keys) (id : string).

(** [id] is a key the vault guards: a deposit key, or the vault transfer key. *)
Definition guarded : Prop := is_deposit_key id = true \/ id = VAULT_TRANSFER_ID.

(** While it is active, the row does not move. *)
Definition frozen (x y : option CredRow) : Prop :=
  forall row, x = Some row -> cr_state row = "active" -> y = x.
#[global] Instance frozen_preorder : PreOrder frozen.
Proof.
  split; [by intros x row|]. intros x y z Hxy Hyz row Hx Ha.
  specialize (Hxy row Hx Ha). subst y. by apply (Hyz row).
Qed.
Abbreviation R := (on (fun d => credentials d !! id) frozen).

Lemma guarded_check_refuses (s : EncryptedStore Conn) u s' :
  guarded -> check_vault_transfer_key_writable id s = (Ok u, s') ->
  forall row, credentials (es_db s) !! id = Some row -> cr_state row <> "active".
Proof.
  unfold check_vault_transfer_key_writable. intros Hg H1 row Hrow Hst.
  apply bind_ok_inv in H1 as (a & s0 & E & H1). destruct a; [discriminate H1|].
  assert (reads_only (Conn := Conn) (unfenced (deposit_key_write_protected id))) as Hro.
  { apply reads_only_rel. intros K0. unfold deposit_key_write_protected. rel_solve. }
  pose proof (Hro _ _ _ E) as [Hd _].
  unfold deposit_key_write_protected in E. destruct (is_deposit_key id) eqn:Ed; cbn [negb] in E.
  - apply unfenced_query_ok in E as [E _]. unfold row_active in E. rewrite Hrow, Hst in E. done.
  - destruct Hg as [Hg|Hg]; [congruence|].
    assert (is_vault_transfer_id id = true) as Ht by (rewrite Hg; reflexivity). rewrite Ht in H1.
    apply bind_ok_inv in H1 as (b & s1 & E1 & H1).
    unfold refuses_vault_transfer_key_mutation, vault_transfer_key_state in E1.
    apply bind_ok_inv in E1 as (st & s2 & E2 & E3). apply unfenced_query_ok in E2 as [-> _].
    unfold mret in E3. injection E3 as <- <-. rewrite Hd, <- Hg, Hrow in H1. cbn in H1. rewrite Hst in H1.
    done.
Qed.

Lemma frozen_other id' g upd : id' <> id -> tx_rel R (update_credential id' g upd).
Proof.
  intros Hne d a d' H1. unfold on.
  assert (credentials d' !! id = credentials d !! id) as ->; [|reflexivity].
  unfold update_credential in H1.
  destruct (credentials d !! id'); [destruct (g _); [destruct (bool_decide _)|]|];
    injection H1 as _ <-; cbn; by rewrite ?lookup_insert_ne.
Qed.
Lemma frozen_insert fresh id' row : tx_rel R (insert_credential fresh id' row).
Proof.
  intros d a d' H1 r Hr Ha. unfold insert_credential in H1.
  destruct (bool_decide _); [done|]. destruct (credentials d !! id') eqn:E; simplify_eq; [done|]. cbn.
  destruct (decide (id' = id)) as [->|]; [congruence|by rewrite lookup_insert_ne].
Qed.
Lemma frozen_delete id' : id' <> id -> tx_rel R (delete_credential id').
Proof.
  intros Hne d a d' H1. unfold on.
  assert (credentials d' !! id = credentials d !! id) as ->; [|reflexivity].
  unfold delete_credential in H1. destruct (credentials d !! id'); simplify_eq; [|done].
  cbn. by rewrite lookup_delete_ne.
Qed.

(** A call that checks the id first either names another id or cannot touch an active
    guarded row. *)
Lemma frozen_checked {A} id' (k : unit -> M (EncryptedStore Conn) StoreOpError A) :
  guarded -> (forall u, id' <> id -> op_rel K R (k u)) -> (forall u, op_rel K (fun _ _ => True) (k u)) ->
  op_rel K R (mbind (check_vault_transfer_key_writable id') k).
Proof.
  intros Hg Hk HT s r s' HK H1. destruct (decide (id' = id)) as [->|Hne].
  - unfold mbind in H1. destruct (check_vault_transfer_key_writable id s) as [[u|e] s1] eqn:E.
    + destruct (check_reads_only _ _ _ _ E) as [Hd Hks].
      destruct (op_rel_check K eq id s _ _ HK E) as (HK1 & _ & HF1).
      destruct (HT u s1 r s' HK1 H1) as (HK2 & _ & HF2). split_and!; [done| |auto].
      intros row Hrow Ha. exfalso. by apply (guarded_check_refuses s u s1 Hg E row).
    + injection H1 as <- <-. destruct (op_rel_check K eq id s _ _ HK E) as (HK1 & <- & HF1).
      split_and!; [done|reflexivity|auto].
  - assert (op_rel K R (mbind (check_vault_transfer_key_writable id') k)) as Hop.
    { apply op_rel_bind; [apply _|apply (op_rel_check K R)|auto]. }
    by eapply Hop.
Qed.

Lemma frozen_fenced {A} id' (work : Tx A) :
  guarded -> (id' <> id -> tx_rel R work) ->
  op_rel (Conn := Conn) K R (fenced_write_unless_transfer_key_protected id' work).
Proof.
  intros Hg Hw. destruct (decide (id' = id)) as [->|Hne]; [|apply (op_rel_protected K R); auto].
  unfold fenced_write_unless_transfer_key_protected. apply (op_rel_fenced K R).
  intros d a d' H1 row Hrow Ha. exfalso.
  apply bind_ok_inv in H1 as (p & d1 & E1 & H1). apply bind_ok_inv in H1 as (b & d2 & E2 & H1).
  unfold deposit_key_write_protected in E1. destruct Hg as [Hg|Hg].
  - rewrite Hg in E1. cbn in E1. unfold query in E1. injection E1 as <- <-.
    unfold row_active in *. rewrite Hrow in H1, E2. rewrite Ha in H1. done.
  - destruct p; [done|]. assert (is_vault_transfer_id id = true) as Ht by (rewrite Hg; reflexivity).
    rewrite Ht in E2. cbn in E2. unfold query in E2. injection E2 as <- <-.
    assert (d1 = d) as -> by (destruct (is_deposit_key id); unfold mret, query in E1; cbn in E1; congruence).
    rewrite <- Hg, Hrow in H1. cbn in H1. rewrite Ha in H1. done.
Qed.

Definition commits_guarded (c : Call) : Prop :=
  match c with
  | CallCommitRefresh _ id' _ _ | CallObservePermissions _ _ _ id' _ _ => id' = id
  | _ => False
  end.

#[local] Instance true_preorder : PreOrder (fun _ _ : Db => True).
Proof. split; done. Qed.
Lemma tx_true {A} (m : Tx A) : tx_rel (fun _ _ => True) m.
Proof. by intros d a d'. Qed.
#[local] Hint Resolve tx_true frozen_insert : rel.
#[local] Hint Extern 1 (tx_rel _ (update_credential _ _ _)) => (apply frozen_other; congruence) : rel.
#[local] Hint Extern 1 (tx_rel _ (delete_credential _)) => (apply frozen_delete; congruence) : rel.

Lemma call_frozen c : guarded -> ~ commits_guarded c -> op_rel K R (call_op (Conn := Conn) c).
Proof.
  intros Hg Hc. destruct c; cbn in Hc;
    call_solve ltac:(idtac; lazymatch goal with
      | |- op_rel _ R (mbind (check_vault_transfer_key_writable _) _) => apply frozen_checked; [done|..]
      | |- op_rel _ R (fenced_write_unless_transfer_key_protected _ _) => apply frozen_fenced; [done|]
      end).
Qed.

(** The vault's own keys cannot be moved while they are active. For a deposit key or
    the vault transfer key, any history of store calls that does not commit an OAuth
    refresh under that id (or note its permissions) leaves its active row exactly as it was: not replaced,
    relabelled, marked, invalidated, retired, quarantined or removed. *)
Theorem active_vault_key_is_frozen cs (s : EncryptedStore Conn) row :
  guarded -> keys_of s = K -> Forall (fun c => ~ commits_guarded c) cs ->
  credentials (es_db s) !! id = Some row -> cr_state row = "active" ->
  credentials (es_db (run_calls cs s)) !! id = Some row.
Proof.
  intros Hg HK Hcs Hrow Ha.
  destruct (calls_rel K R cs s) as (_ & HR & _); [|done|].
  - eapply Forall_impl; [exact Hcs|]. intros c Hc. by apply call_frozen.
  - unfold on in HR. rewrite (HR row Hrow Ha). done.
Qed.
End Protected.

(** ** Removal *)

Section Remove.
Context `{C : Crypto} `{X : RecordExt} {Conn : Type} `{L : SqliteStoreLaws Conn}.

(** No table says anything about [id] any more. *)
Definition forgotten (id : string) (d : Db) : Prop :=
  credentials d !! id = None /\ refresh_intent d !! id = None /\
  (forall h r, handles d !! h = Some r -> h_credential_id r <> id) /\
  (forall c, (id, c) ∉ credential_categories d) /\
  (forall p, (id, p) ∉ credential_provider_ids d) /\
  credential_plan_tiers d !! id = None /\ held_detected_plans d !! id = None /\
  Forall (fun e => ev_credential_id e <> id) (auth_events d) /\
  Forall (fun e => is_credential_id e <> id) (remote_issue_seen d).

Lemma bump_times_frame {A} (pi : Db -> A) n d x d' :
  (forall f d, pi (with_grants_generation f d) = pi d) ->
  bump_generation_times n d = (Ok x, d') -> pi d' = pi d.
Proof.
  intros Hf Hb. symmetry. eapply (tx_rel_bump_times (on pi eq) n); [|exact Hb].
  intros d0 a d1 H3. unfold bump_grants_generation_tx, exec in H3. simplify_eq. unfold on. by rewrite Hf.
Qed.

Lemma clear_intent_effect id d n d' :
  clear_intent_tx id d = (Ok n, d') -> d' = with_refresh_intent (delete id) d.
Proof.
  unfold clear_intent_tx. destruct (refresh_intent d !! id) eqn:E; intros; simplify_eq; [done|].
  unfold with_refresh_intent. rewrite (delete_id _ _ E). by destruct d'.
Qed.

(** What the transaction of a removal leaves, but for the grant generation. *)
Definition removed (K : Keys) (inp : Inputs) (id : string) (ctx : AuditCtx) (d : Db) : Db :=
  let d := with_held_detected_plans (delete id) (with_credentials (delete id) d) in
  let d := with_refresh_intent (delete id) d in
  let d := with_handles (filter (fun kv => h_credential_id kv.2 <> id)) d in
  let d := with_credential_categories (filter (fun p => p.1 <> id)) d in
  let d := with_credential_plan_tiers (delete id) d in
  let d := with_credential_provider_ids (filter (fun p => p.1 <> id)) d in
  let d := with_auth_events (filter (fun e => ev_credential_id e <> id)) d in
  let d := with_remote_issue_seen (filter (fun e => is_credential_id e <> id)) d in
  let d := with_audit_log (append_audit (k_audit_key K) (in_now inp 0)
             (ctx_record ctx (ctx_op ctx) id None)) d in
  with_grants_generation (fun _ => 0) d.

Lemma remove_inv inp id ctx (s s' : EncryptedStore Conn) n :
  23 <= db_schema_version (es_db s) -> remove_audited inp id ctx s = (Ok n, s') ->
  n = size (live_handles id (handles (es_db s))) /\
  with_grants_generation (fun _ => 0) (es_db s') = removed (keys_of s) inp id ctx (es_db s).
Proof.
  unfold remove_audited, with_self. intros Hsv H1. ok_inv H1.
  destruct (check_reads_only _ _ _ _ E) as [Hd _]. rewrite <- Hd in Hsv |- *. clear Hd E.
  apply fenced_ok_inv in E0. apply bind_ok_inv in E0 as (cats & d0 & Eq & E0).
  unfold query in Eq. injection Eq as Hcats <-. apply bind_ok_inv in E0 as (m & d1 & Edel & E0).
  unfold delete_credential in Edel.
  destruct (credentials (es_db s0) !! id); simplify_eq; cbn [Nat.ltb Nat.leb] in E0.
  2: { unfold mret in E0. by simplify_eq. }
  apply bind_ok_inv in E0 as (m & d2 & Ei & E0). apply clear_intent_effect in Ei. subst d2.
  do 3 (apply bind_ok_inv in E0 as (? & ? & Es & E0); unfold query, exec in Es; injection Es as <- <-).
  apply bind_ok_inv in E0 as (u & d2 & Eb & E0).
  apply (bump_times_frame (with_grants_generation (fun _ => 0))) in Eb; [|done].
  assert (db_schema_version d2 = db_schema_version (es_db s0)) as Hv2
    by (apply (f_equal db_schema_version) in Eb; exact Eb).
  unfold mbind, query, exec in E0. rewrite Hv2 in E0.
  destruct (Z.leb_spec 16 (db_schema_version (es_db s0))); [|lia].
  destruct (Z.leb_spec 15 (db_schema_version (es_db s0))); [|lia].
  destruct (Z.leb_spec 23 (db_schema_version (es_db s0))); [|lia].
  unfold append_audit_tx, mret in E0. injection E0 as <- Ed. unfold mret in H1. cbn in H1.
  injection H1 as <- <-. split; [done|]. rewrite <- Ed.
  exact (f_equal (fun d => with_audit_log (append_audit (es_audit_key s) (in_now inp 0)
      (ctx_record ctx (ctx_op ctx) id None))
    (with_remote_issue_seen (filter (fun e => is_credential_id e <> id))
    (with_auth_events (filter (fun e => ev_credential_id e <> id))
    (with_credential_provider_ids (filter (fun p => p.1 <> id))
    (with_credential_plan_tiers (delete id) d))))) Eb).
Qed.

Lemma removed_forgets K inp id ctx d : forgotten id (removed K inp id ctx d).
Proof.
  unfold forgotten, removed. cbn. split_and!; try apply lookup_delete_eq.
  - intros h r Hr. by apply map_lookup_filter_Some in Hr as [_ ?].
  - intros c. rewrite elem_of_filter. cbn. tauto.
  - intros p. rewrite elem_of_filter. cbn. tauto.
  - apply Forall_forall. intros e He%list_elem_of_filter. tauto.
  - apply Forall_forall. intros e He%list_elem_of_filter. tauto.
Qed.

(** A removal that succeeds leaves no trace of the id outside the audit chain: no
    row, intent, handle, category, provider id, plan, diagnostic event or issue record,
    so a later deposit of the same id inherits nothing. It reports how many live handles
    died, appends one entry naming the id, and leaves every other row alone. *)
Theorem remove_forgets inp id ctx (s s' : EncryptedStore Conn) n :
  23 <= db_schema_version (es_db s) -> remove_audited inp id ctx s = (Ok n, s') ->
  forgotten id (es_db s') /\
  n = size (live_handles id (handles (es_db s))) /\
  (exists e, audit_log (es_db s') = audit_log (es_db s) ++ [e] /\ credential_id e = Some id) /\
  (forall id', id' <> id -> credentials (es_db s') !! id' = credentials (es_db s) !! id').
Proof.
  intros Hsv H1. destruct (remove_inv _ _ _ _ _ _ Hsv H1) as [Hn Hd].
  split_and!; [|done| |].
  - change (forgotten id (with_grants_generation (fun _ => 0) (es_db s'))). rewrite Hd.
    apply removed_forgets.
  - apply (f_equal audit_log) in Hd. cbn in Hd. rewrite Hd. unfold append_audit. eauto.
  - intros id' Hne. apply (f_equal credentials) in Hd. cbn in Hd. rewrite Hd.
    by rewrite lookup_delete_ne.
Qed.
End Remove.

Module Witness.
Import Calls.Demo Sealed.Witness.

Lemma read_is_state_gated_witness :
  conn_healthy (es_conn vault) = true /\
  fst (read_snapshot (inputs 30 "-") id None vault) = read_answer (keys_of vault) id None (es_db vault) /\
  is_ok (read_answer (keys_of vault) id None (es_db vault)) = true.
Proof.
  split; [reflexivity|]. split; [|vm_compute; reflexivity].
  apply (read_is_state_gated (inputs 30 "-") id None vault); [reflexivity|apply vault_is_sealed].
Defined.

Definition creating : result unit StoreOpError * EncryptedStore ToyConn :=
  create_audited (inputs 10 "b2") "apikey:zai" key_record (ctx_vault Put) vault.

Lemma create_then_read_witness :
  fst creating = Ok tt /\ refresh_intent (es_db (snd creating)) !! "apikey:zai" = None.
Proof.
  assert (fst creating = Ok tt) as E by (vm_compute; reflexivity). split; [exact E|].
  pose proof (create_then_read (inputs 10 "b2") "apikey:zai" key_record (ctx_vault Put) vault
    (snd creating) (fst creating) (inputs_are_ok 10 "b2") (surjective_pairing creating)) as H.
  rewrite E in H. apply H.
Defined.

Definition committing : result Z StoreOpError * EncryptedStore ToyConn :=
  commit_refresh (inputs 120 "-") id 1 oauth_record vault.

Lemma commit_refresh_atomic_witness :
  fst committing = Ok 2 /\
  exists sr, read_answer (keys_of vault) id None (es_db (snd committing)) = Ok sr /\
    sr_record sr = set_version 2 oauth_record.
Proof.
  assert (fst committing = Ok 2) as E by (vm_compute; reflexivity). split; [exact E|].
  pose proof (commit_refresh_atomic (inputs 120 "-") id 1 oauth_record vault
    (snd committing) (fst committing) (inputs_are_ok 120 "-") (surjective_pairing committing)) as H.
  rewrite E in H. destruct H as ((_ & _ & (sr & H1 & H2 & _) & _) & _). exists sr. split; assumption.
Defined.

Definition transfer_vault : EncryptedStore ToyConn :=
  run_calls [CallCreate (inputs 10 "c3") VAULT_TRANSFER_ID (new_static KemKey "s" (str_bytes "k") None)
               (ctx_vault Put)] (store_over empty_db).
Definition attack : list Call :=
  [CallRemove (inputs 20 "-") VAULT_TRANSFER_ID (ctx_vault Remove);
   CallOverwrite (inputs 30 "-") VAULT_TRANSFER_ID key_record false (ctx_vault Overwrite);
   CallSetState (inputs 40 "-") VAULT_TRANSFER_ID CorruptState false None].

Lemma active_vault_key_witness :
  row_active (es_db transfer_vault) VAULT_TRANSFER_ID = true /\
  credentials (es_db (run_calls attack transfer_vault)) !! VAULT_TRANSFER_ID =
    credentials (es_db transfer_vault) !! VAULT_TRANSFER_ID.
Proof.
  assert (row_active (es_db transfer_vault) VAULT_TRANSFER_ID = true) as Ha by (vm_compute; reflexivity).
  split; [exact Ha|]. unfold row_active in Ha.
  destruct (credentials (es_db transfer_vault) !! VAULT_TRANSFER_ID) as [row|] eqn:E; [|discriminate Ha].
  apply bool_decide_eq_true in Ha.
  apply (active_vault_key_is_frozen (keys_of transfer_vault) VAULT_TRANSFER_ID attack transfer_vault row).
  - right. reflexivity.
  - reflexivity.
  - repeat (constructor; [intros []|]). constructor.
  - exact E.
  - exact Ha.
Defined.

Definition removing : result nat StoreOpError * EncryptedStore ToyConn :=
  remove_audited (inputs 130 "-") id (ctx_vault Remove) vault.

Lemma remove_forgets_witness : fst removing = Ok 1%nat /\ forgotten id (es_db (snd removing)).
Proof.
  assert (fst removing = Ok 1%nat) as E by (vm_compute; reflexivity). split; [exact E|].
  apply (remove_forgets (inputs 130 "-") id (ctx_vault Remove) vault (snd removing) 1%nat).
  - by vm_compute.
  - transitivity (fst removing, snd removing); [apply surjective_pairing|]. rewrite E. reflexivity.
Defined.
End Witness.
