(* ===== verification/Accounting.v ===== *)
(** * Obligations a transaction discharges before it commits

    Two invariants hold only at the end of a transaction. A refresh intent names the hash
    of the refresh token that is stored ([intents_match]): a write of new tokens breaks it
    until the same transaction clears the intent. And no sealed material appears, changes
    or disappears without an audit entry naming its credential ([accounted]): a write
    breaks that until the same transaction appends the entry. Both are an obligation that
    a statement opens and a later statement discharges, and are proved by one scheme. *)

From S2P Require Import Prelude Text Crypto Record Envelope AuditLog Database Store Calls Sealed.

(** ** The scheme *)

Section Scheme.
Context (Good Pending : Db -> Prop).

Definition settles {A} (m : Tx A) : Prop := forall d a d', Pending d -> m d = (Ok a, d') -> Good d'.

Lemma settles_skip {A B} (m : Tx A) (k : A -> Tx B) :
  tx_rel (keeps Pending) m -> (forall a, settles (k a)) -> settles (mbind m k).
Proof.
  intros Hm Hk d b d' Hp H1. apply bind_ok_inv in H1 as (a & d1 & E & H1).
  eapply Hk; [|exact H1]. by eapply Hm.
Qed.
Lemma settles_here {A B} (m : Tx A) (k : A -> Tx B) :
  settles m -> (forall a, tx_rel (keeps Good) (k a)) -> settles (mbind m k).
Proof.
  intros Hm Hk d b d' Hp H1. apply bind_ok_inv in H1 as (a & d1 & E & H1).
  by eapply Hk; [exact H1|eapply Hm].
Qed.

(** A statement that may open the obligation, followed by what discharges it if it did. *)
Lemma opens_then_settles (m : Tx nat) {B} (k : nat -> Tx B) :
  (forall d n d', Good d -> m d = (Ok n, d') -> if (n =? 0)%nat then d' = d else Pending d') ->
  tx_rel (keeps Good) (k 0%nat) ->
  (forall n, settles (k (S n))) ->
  tx_rel (keeps Good) (mbind m k).
Proof.
  intros Hm Hz Hs d b d' H1 Hg. apply bind_ok_inv in H1 as (n & d1 & E & H1).
  specialize (Hm d n d1 Hg E). destruct n as [|n]; cbn in Hm.
  - subst d1. by eapply Hz.
  - by eapply Hs.
Qed.
End Scheme.

Ltac settle :=
  repeat first
    [ progress intros
    | progress cbn [Nat.ltb Nat.leb]
    | lazymatch goal with |- settles _ _ (if ?b then _ else _) => destruct b eqn:? end
    | apply settles_here; [solve [auto with rel]|]
    | apply settles_skip; [solve [rel_solve]|]
    | solve [auto with rel] ];
  rel_solve.

(** ** Intents name the stored token *)

Section Intents.
Context `{C : Crypto} `{!CryptoLaws C} `{X : RecordExt} `{!RecordExtLaws X}.
Context (K : Keys).

(** The refresh token a row holds, when it opens to OAuth material. *)
Definition row_refresh_token (id : string) (row : CredRow) : option string :=
  match open_existing K id (cr_record_version row) (cr_envelope row) with
  | Some r => refresh_token <$> oauth r
  | None => None
  end.

Definition intent_matches (d : Db) (id : string) : Prop :=
  forall i row tok, refresh_intent d !! id = Some i -> credentials d !! id = Some row ->
    row_refresh_token id row = Some tok -> ri_old_refresh_hash i = refresh_token_hash tok.

Definition intents_match (d : Db) : Prop := forall id, intent_matches d id.
Definition match_but (id : string) (d : Db) : Prop := forall id', id' <> id -> intent_matches d id'.

Abbreviation R := (keeps intents_match).

(** Anything that touches neither table keeps the match. *)
Lemma match_frame d d' :
  credentials d' = credentials d -> refresh_intent d' = refresh_intent d ->
  intents_match d -> intents_match d'.
Proof. unfold intents_match, intent_matches. intros -> ->. done. Qed.
Lemma match_but_frame id d d' :
  credentials d' = credentials d -> refresh_intent d' = refresh_intent d ->
  match_but id d -> match_but id d'.
Proof. unfold match_but, intent_matches. intros -> ->. done. Qed.

(** An update that keeps the token of the row it meets keeps the match. *)
Lemma match_update_at id g upd d n d' :
  (forall row, credentials d !! id = Some row -> row_refresh_token id (upd row) = row_refresh_token id row) ->
  intents_match d -> update_credential id g upd d = (Ok n, d') -> intents_match d'.
Proof.
  intros Hu Hm H1 id' i row tok Hi Hrow Ht. unfold update_credential in H1.
  destruct (credentials d !! id) as [row0|] eqn:E; [|simplify_eq; by eapply Hm].
  destruct (g row0); [|simplify_eq; by eapply Hm].
  assert (refresh_intent d' = refresh_intent d /\ credentials d' = <[id := upd row0]> (credentials d))
    as [Hri Hc] by (destruct (bool_decide _); by simplify_eq).
  rewrite Hri in Hi. rewrite Hc in Hrow. destruct (decide (id = id')) as [<-|].
  - rewrite lookup_insert_eq in Hrow. injection Hrow as <-. apply (Hm id i row0 tok Hi E).
    by rewrite <- (Hu row0 eq_refl).
  - rewrite lookup_insert_ne in Hrow by done. by eapply Hm.
Qed.
Lemma match_same_token id g upd :
  (forall row, cr_record_version (upd row) = cr_record_version row /\ cr_envelope (upd row) = cr_envelope row) ->
  tx_rel R (update_credential id g upd).
Proof.
  intros Hu d a d' H1 Hm. eapply match_update_at; [|done|exact H1].
  intros row _. unfold row_refresh_token. by destruct (Hu row) as [-> ->].
Qed.

(** Writing other material opens the obligation for its id only. *)
Lemma update_opens id g upd d n d' :
  intents_match d -> update_credential id g upd d = (Ok n, d') ->
  if (n =? 0)%nat then d' = d else match_but id d'.
Proof.
  intros Hm H1. unfold update_credential in H1.
  destruct (credentials d !! id) as [row0|] eqn:E; [|by simplify_eq].
  destruct (g row0); [|by simplify_eq].
  assert (n = 1%nat /\ refresh_intent d' = refresh_intent d /\ credentials d' = <[id := upd row0]> (credentials d))
    as (-> & Hri & Hc) by (destruct (bool_decide _); by simplify_eq).
  cbn. intros id' Hne i row tok Hi Hrow Ht. rewrite Hri in Hi.
  rewrite Hc, lookup_insert_ne in Hrow by done. by eapply Hm.
Qed.
Lemma insert_opens fresh id row d n d' :
  intents_match d -> insert_credential fresh id row d = (Ok n, d') ->
  if (n =? 0)%nat then d' = d else match_but id d'.
Proof.
  intros Hm H1. unfold insert_credential in H1. destruct (bool_decide _); [done|].
  destruct (credentials d !! id) eqn:E; simplify_eq; cbn; [done|].
  intros id' Hne i row' tok Hi Hrow Ht. cbn in Hi, Hrow. rewrite lookup_insert_ne in Hrow by done.
  by eapply Hm.
Qed.

Lemma clear_settles id : settles intents_match (match_but id) (clear_intent_tx id).
Proof.
  intros d a d' Hp H1. assert (credentials d' = credentials d /\
    refresh_intent d' = delete id (refresh_intent d)) as [Hc Hr].
  { unfold clear_intent_tx in H1. destruct (refresh_intent d !! id) eqn:E; simplify_eq; [done|].
    split; [done|]. by rewrite delete_id. }
  intros id' i row tok Hi Hrow Ht. rewrite Hr in Hi. rewrite Hc in Hrow.
  destruct (decide (id' = id)) as [->|]; [by rewrite lookup_delete_eq in Hi|].
  rewrite lookup_delete_ne in Hi by done. by eapply Hp.
Qed.
Lemma clear_match id : tx_rel R (clear_intent_tx id).
Proof. intros d a d' H1 Hm. eapply clear_settles; [|exact H1]. intros id' _. apply Hm. Qed.
Lemma delete_match id : tx_rel R (delete_credential id).
Proof.
  intros d a d' H1 Hm id' i row tok Hi Hrow Ht. unfold delete_credential in H1.
  destruct (credentials d !! id); simplify_eq; [|by eapply Hm]. cbn in *.
  apply lookup_delete_Some in Hrow as [_ Hrow]. by eapply Hm.
Qed.

(** A statement on other tables. *)
Ltac match_frame_tac :=
  let H1 := fresh in let Hm := fresh in
  intros ?d ?a ?d' H1 Hm;
  unfold bump_grants_generation_tx, insert_category, revoke_handles_of, trim_auth_events_tx,
    sql_u64, append_audit_tx, exec, query, mret, merr in H1;
  repeat match type of H1 with context [match ?x with _ => _ end] => destruct x eqn:? end;
  simplify_eq; first [exact Hm | (eapply match_frame || eapply match_but_frame); [| |exact Hm]; reflexivity].
#[local] Hint Extern 2 (tx_rel (keeps _) _) => match_frame_tac : rel.
#[local] Hint Resolve clear_match delete_match clear_settles : rel.
#[local] Hint Extern 1 (tx_rel _ (update_credential _ _ (set_row_state _ _))) =>
  (apply match_same_token; done) : rel.
#[local] Hint Extern 1 (tx_rel _ (update_credential _ _ (set_permissions _))) =>
  (apply match_same_token; done) : rel.
#[local] Hint Extern 1 (tx_rel _ (update_credential _ _ mark_row_stale)) =>
  (apply match_same_token; done) : rel.

Lemma retain_oauth r o : oauth (retain_detected_plan r o) = oauth r.
Proof. unfold retain_detected_plan. destruct o; [|done]. repeat case_match; done. Qed.

(** Relabelling keeps the tokens. *)
Lemma relabel_keeps_token inp id row pt record ident blob now v :
  inputs_ok inp ->
  open (k_key K) (cr_envelope row)
    {| rb_credential_id := id; rb_record_version := as_u64 (cr_record_version row) |} = Ok pt ->
  decode pt = Ok record -> in_u64 v ->
  seal_record K (in_rnd inp 0) id
    (set_version v (retain_detected_plan (with_identity ident record) (Some record))) = Ok blob ->
  row_refresh_token id (relabel_row (as_i64 v) (key_id_to_hex (k_key_id K)) blob now row) =
    row_refresh_token id row.
Proof.
  intros Hi Ho Hd Hv Hs. unfold row_refresh_token. cbn [cr_record_version cr_envelope relabel_row].
  pose proof (seal_record_opens K _ _ _ _ (Hi 0%nat) (version_typed_set _ _ Hv) Hs) as Hr. cbn [record_version set_version] in Hr.
  rewrite Hr. unfold open_existing. rewrite Ho, Hd. cbn [oauth set_version]. by rewrite retain_oauth.
Qed.

Context {Conn : Type} `{L : SqliteStoreLaws Conn}.

Lemma set_identity_match inp id ident ctx :
  inputs_ok inp -> op_rel (Conn := Conn) K R (set_identity_audited inp id ident ctx).
Proof.
  intros Hi. unfold set_identity_audited. apply op_rel_self. cbv zeta.
  apply (op_rel_bind_lift K R). intros u Hu. apply (op_rel_bind K R); [apply (op_rel_check K R)|intros u'].
  apply (op_rel_bind K R); [apply (op_rel_fenced K R)|intros; rel_solve].
  intros d out d' H1 Hm. apply bind_ok_inv in H1 as (found & d1 & Eq & H1).
  unfold query in Eq. injection Eq as <- <-.
  destruct (credentials d !! id) as [row|] eqn:Hrow; [|unfold mret in H1; by simplify_eq].
  do 3 (apply bind_ok_inv in H1 as (? & ? & ?Es & H1);
        match goal with Es : mlift _ _ = _ |- _ => unfold mlift in Es; injection Es as ?Es <- end).
  apply bind_ok_inv in H1 as (n & d1 & Eu & H1).
  refine ((_ : tx_rel R _) d1 out d' H1 _);
    [unfold clear_plan_on_account_change_tx, write_plan_tier_tx; rel_solve|].
  eapply match_update_at; [|exact Hm|exact Eu]. intros row' Hrow'. rewrite Hrow in Hrow'. injection Hrow' as <-.
  exact (relabel_keeps_token _ _ _ _ _ _ _ _ _ Hi (map_err_ok _ _ _ Es) (map_err_ok _ _ _ Es0)
    (u64_saturating_add_range _ _) (map_err_ok _ _ _ Es1)).
Qed.

Ltac match_tx :=
  lazymatch goal with
  | |- op_rel _ _ (set_identity_audited _ _ _ _) => apply set_identity_match; assumption
  | |- tx_rel _ (mbind (update_credential ?i _ (rewrite_row _ _ _ _)) _) =>
      apply (opens_then_settles _ (match_but i)); [intros ???; apply update_opens|..]; cbv beta;
      cbn [Nat.ltb Nat.leb]
  | |- tx_rel _ (mbind (insert_credential _ ?i _) _) =>
      apply (opens_then_settles _ (match_but i)); [intros ???; apply insert_opens|..]; cbv beta;
      cbn [Nat.ltb Nat.leb]
  | |- settles _ _ (mbind (clear_intent_tx _) _) => apply settles_here; [apply clear_settles|]
  | |- settles _ _ (mbind (mbind _ _) _) => apply settles_here
  | |- settles _ _ (mbind _ _) => apply settles_skip
  | |- tx_rel (keeps (match_but _)) (insert_default_categories _ _) =>
      apply (tx_rel_default_categories (keeps (match_but _))); [intros|]; auto with rel
  end.

(** The calls that write no intent. *)
Definition opens_intent (c : Call) : Prop := match c with CallOpenIntent _ _ _ _ => True | _ => False end.

Lemma call_match c : call_ok c -> ~ opens_intent c -> op_rel K R (call_op (Conn := Conn) c).
Proof.
  intros Hc Hn. destruct c; cbn in Hc, Hn; try destruct Hc; try done; call_solve ltac:(idtac; match_tx).
Qed.

(** An intent opened for the token that is stored. *)
Definition opened_for (h : string) (id : string) (d : Db) : Prop :=
  forall row tok, credentials d !! id = Some row -> row_refresh_token id row = Some tok ->
    h = refresh_token_hash tok.

Lemma open_intent_match inp id v h (s s' : EncryptedStore Conn) r :
  opened_for h id (es_db s) -> intents_match (es_db s) -> open_intent inp id v h s = (r, s') ->
  intents_match (es_db s').
Proof.
  intros Ho Hm H1. unfold open_intent, with_epoch in H1. destruct r as [u|e].
  - apply fenced_ok_inv in H1. unfold exec in H1. injection H1 as _ Hd.
    intros id' i row tok Hi Hrow Ht. rewrite <- Hd in Hi, Hrow. cbn in Hi, Hrow.
    destruct (decide (id = id')) as [<-|].
    + rewrite lookup_insert_eq in Hi. injection Hi as <-. by eapply Ho.
    + rewrite lookup_insert_ne in Hi by done. by eapply Hm.
  - apply fenced_err_inv in H1. by rewrite H1.
Qed.
End Intents.

(** ** Material changes are audited *)

Section Accounted.
Context `{C : Crypto} `{X : RecordExt} (K : Keys) (id : string) (d0 : Db).

(** Version and sealed bytes of the row of [id]. *)
Definition material (d : Db) : option (Z * bytes) :=
  (fun row => (cr_record_version row, cr_envelope row)) <$> credentials d !! id.

Definition entry_since (d : Db) : Prop :=
  exists e, e ∈ drop (length (audit_log d0)) (audit_log d) /\ credential_id e = Some id.

Definition extends (d : Db) : Prop := audit_log d0 `prefix_of` audit_log d.

(** Since [d0] the log was only extended, and either the material of [id] is what it was
    or an entry naming [id] was appended. *)
Definition accounted (d : Db) : Prop :=
  extends d /\ (material d = material d0 \/ entry_since d).

Abbreviation R := (keeps accounted).

Lemma accounted_frame d d' :
  audit_log d' = audit_log d -> material d' = material d -> accounted d -> accounted d'.
Proof. unfold accounted, extends, entry_since. intros -> ->. done. Qed.
Lemma extends_frame d d' : audit_log d' = audit_log d -> extends d -> extends d'.
Proof. unfold extends. by intros ->. Qed.

Lemma append_extends ts r d a d' :
  extends d -> append_audit_tx (k_audit_key K) ts r d = (Ok a, d') ->
  extends d' /\ material d' = material d /\ (entry_since d -> entry_since d') /\
  (rec_credential_id r = Some id -> entry_since d').
Proof.
  intros [l Hl] [= _ <-]. unfold extends, entry_since, append_audit. cbn. rewrite Hl.
  split_and!; [exists (l ++ [append_entry (k_audit_key K) ts (audit_log d0 ++ l) r]); by rewrite app_assoc|done| |].
  - intros (e & He & Hid). exists e. split; [|done]. rewrite drop_app_length in He.
    rewrite <- app_assoc, drop_app_length. set_solver.
  - intros Hr. exists (append_entry (k_audit_key K) ts (audit_log d0 ++ l) r). split; [|exact Hr].
    rewrite <- app_assoc, drop_app_length.
    apply list_elem_of_In, in_or_app. right. by left.
Qed.

Lemma append_accounted ts r : tx_rel R (append_audit_tx (k_audit_key K) ts r).
Proof.
  intros d a d' H1 [He Hm]. destruct (append_extends ts r d a d' He H1) as (? & Hmat & ? & _).
  split; [done|]. rewrite Hmat. destruct Hm; [by left|right; auto].
Qed.
Lemma append_keeps_extends ts r : tx_rel (keeps extends) (append_audit_tx (k_audit_key K) ts r).
Proof. intros d a d' H1 He. by destruct (append_extends ts r d a d' He H1). Qed.
Lemma append_settles ts r :
  rec_credential_id r = Some id -> settles accounted extends (append_audit_tx (k_audit_key K) ts r).
Proof.
  intros Hr d a d' He H1. destruct (append_extends ts r d a d' He H1) as (? & _ & _ & ?).
  split; [done|right; auto].
Qed.

Lemma update_log id' g upd d n d' :
  update_credential id' g upd d = (Ok n, d') ->
  audit_log d' = audit_log d /\ ((n =? 0)%nat = true -> d' = d) /\
  (id' <> id \/ (forall row, cr_record_version (upd row) = cr_record_version row /\
                             cr_envelope (upd row) = cr_envelope row) -> material d' = material d).
Proof.
  unfold update_credential. intros H1.
  destruct (credentials d !! id') as [row|] eqn:E; [|by simplify_eq].
  destruct (g row); [|by simplify_eq].
  assert (n = 1%nat /\ audit_log d' = audit_log d /\ credentials d' = <[id' := upd row]> (credentials d))
    as (-> & Hl & Hc) by (destruct (bool_decide _); by simplify_eq).
  split_and!; [done..|]. intros Hor. unfold material. rewrite Hc.
  destruct (decide (id' = id)) as [->|]; [|by rewrite lookup_insert_ne].
  rewrite lookup_insert_eq, E. cbn. destruct Hor as [?|Hu]; [done|]. by destruct (Hu row) as [-> ->].
Qed.

Lemma update_accounted id' g upd :
  id' <> id \/ (forall row, cr_record_version (upd row) = cr_record_version row /\
                             cr_envelope (upd row) = cr_envelope row) ->
  tx_rel R (update_credential id' g upd).
Proof.
  intros Hor d n d' H1. destruct (update_log _ _ _ _ _ _ H1) as (? & _ & Hm).
  intros Ha. apply (accounted_frame d d'); auto.
Qed.
Lemma update_opens_account id' g upd d n d' :
  accounted d -> update_credential id' g upd d = (Ok n, d') -> if (n =? 0)%nat then d' = d else extends d'.
Proof.
  intros [He _] H1. destruct (update_log _ _ _ _ _ _ H1) as (Hl & Hz & _).
  destruct (n =? 0)%nat; [auto|]. by eapply extends_frame.
Qed.
Lemma insert_opens_account fresh id' row d n d' :
  accounted d -> insert_credential fresh id' row d = (Ok n, d') ->
  if (n =? 0)%nat then d' = d else extends d'.
Proof. intros [He _] H1. unfold insert_credential in H1. case_all. Qed.
Lemma delete_opens_account id' d n d' :
  accounted d -> delete_credential id' d = (Ok n, d') -> if (n =? 0)%nat then d' = d else extends d'.
Proof. intros [He _] H1. unfold delete_credential in H1. case_all. Qed.
Lemma insert_accounted fresh id' row : id' <> id -> tx_rel R (insert_credential fresh id' row).
Proof.
  intros Hne d n d' H1. unfold insert_credential in H1. destruct (bool_decide _); [done|].
  destruct (credentials d !! id'); simplify_eq; [done|].
  intros Ha. apply (accounted_frame d); [reflexivity| |exact Ha]. unfold material. cbn. by rewrite lookup_insert_ne.
Qed.
Lemma delete_accounted id' : id' <> id -> tx_rel R (delete_credential id').
Proof.
  intros Hne d n d' H1. unfold delete_credential in H1.
  destruct (credentials d !! id'); simplify_eq; [|done].
  intros Ha. apply (accounted_frame d); [reflexivity| |exact Ha]. unfold material. cbn. by rewrite lookup_delete_ne.
Qed.

Ltac account_frame_tac :=
  let H1 := fresh in let Hm := fresh in
  intros ?d ?a ?d' H1 Hm;
  unfold bump_grants_generation_tx, insert_category, revoke_handles_of, trim_auth_events_tx,
    clear_intent_tx, sql_u64, exec, query, mret, merr in H1;
  repeat match type of H1 with context [match ?x with _ => _ end] => destruct x eqn:? end;
  simplify_eq; first [exact Hm | eapply accounted_frame; [| |exact Hm]; reflexivity
                     | eapply extends_frame; [|exact Hm]; reflexivity].
#[local] Hint Resolve append_accounted append_keeps_extends : rel.
#[local] Hint Extern 2 (tx_rel (keeps _) _) => account_frame_tac : rel.
#[local] Hint Extern 1 (tx_rel R (update_credential _ _ _)) =>
  (apply update_accounted; first [left; congruence | right; done]) : rel.

Ltac account_open i := apply (opens_then_settles _ extends);
  [intros ???; first [apply update_opens_account | apply insert_opens_account | apply delete_opens_account]|..];
  cbv beta; cbn [Nat.ltb Nat.leb].
Ltac account_tx :=
  lazymatch goal with
  | |- tx_rel _ (mbind (update_credential ?i _ (rewrite_row _ _ _ _)) _) =>
      destruct (decide (i = id)) as [->|]; [account_open i|rel_step]
  | |- tx_rel _ (mbind (update_credential ?i _ (relabel_row _ _ _ _)) _) =>
      destruct (decide (i = id)) as [->|]; [account_open i|rel_step]
  | |- tx_rel _ (mbind (insert_credential _ ?i _) _) =>
      destruct (decide (i = id)) as [->|]; [account_open i|apply tx_rel_bind; [apply _|by apply insert_accounted|]]
  | |- tx_rel _ (mbind (delete_credential ?i) _) =>
      destruct (decide (i = id)) as [->|]; [account_open i|apply tx_rel_bind; [apply _|by apply delete_accounted|]]
  | |- settles _ _ (mbind (append_audit_tx _ _ _) _) => apply settles_here; [apply append_settles; reflexivity|]
  | |- settles _ _ (mbind (mbind (clear_intent_tx _) _) _) => apply settles_here
  | |- settles _ _ (mbind _ _) => apply settles_skip
  | |- settles _ _ (let _ := _ in _) => cbv zeta
  | |- tx_rel (keeps extends) (insert_default_categories _ _) =>
      apply (tx_rel_default_categories (keeps extends)); [intros|]; auto with rel
  | |- tx_rel (keeps extends) (bump_generation_times _) =>
      apply (tx_rel_bump_times (keeps extends)); auto with rel
  end.

Context {Conn : Type} `{L : SqliteStoreLaws Conn}.

Lemma call_accounted c : op_rel K R (call_op (Conn := Conn) c).
Proof. destruct c; call_solve ltac:(idtac; account_tx). Qed.
End Accounted.

(** ** Properties of every history *)

Section Properties.
Context `{C : Crypto} `{!CryptoLaws C} `{X : RecordExt} `{!RecordExtLaws X}.
Context {Conn : Type} `{L : SqliteStoreLaws Conn}.

(** C34: no sealed material appears, changes or disappears unnoticed. Across any history
    of store calls the log is only extended, and if the version or the envelope of an id
    differs between the ends (the row being created or removed included) then the
    history appended an entry naming that id. *)
Theorem material_changes_are_audited id cs (s : EncryptedStore Conn) :
  let d := es_db s in
  let d' := es_db (run_calls cs s) in
  audit_log d `prefix_of` audit_log d' /\
  (material id d' <> material id d ->
   exists e, e ∈ drop (length (audit_log d)) (audit_log d') /\ credential_id e = Some id).
Proof.
  intros d d'.
  destruct (calls_rel (keys_of s) (keeps (accounted id d)) cs s) as (_ & HR & _);
    [apply Forall_forall; intros; by apply call_accounted|done|].
  assert (accounted id d d') as [He Hm] by (apply HR; split; [done|by left]). split; [exact He|].
  intros Hne. by destruct Hm.
Qed.

(** A history in which every intent was opened for the token stored at that moment. *)
Fixpoint honest (cs : list Call) (s : EncryptedStore Conn) : Prop :=
  match cs with
  | [] => True
  | c :: rest =>
      match c with
      | CallOpenIntent _ id _ h => opened_for (keys_of s) h id (es_db s)
      | _ => True
      end /\ honest rest (run_call s c)
  end.

(** The vault never leaves a stale intent beside new tokens. Whatever calls are made,
    as long as each intent is opened with the hash of the refresh token then stored,
    every intent that survives still names the refresh token its row holds, so a
    mismatch found by reconciliation is evidence of a write from outside. *)
Theorem surviving_intents_match cs (s : EncryptedStore Conn) :
  intents_match (keys_of s) (es_db s) -> Forall call_ok cs -> honest cs s ->
  intents_match (keys_of s) (es_db (run_calls cs s)).
Proof.
  intros Hm Hcs. revert s Hm. induction Hcs as [|c cs Hc Hcs IH]; intros s Hm; [done|].
  cbn [honest]. intros [Ho Hh]. cbn [run_calls fold_left].
  assert (keys_of (run_call s c) = keys_of s /\ intents_match (keys_of s) (es_db (run_call s c)))
    as [HK Hm'].
  { destruct (call_log_grows (keys_of s) c s _ _ eq_refl (surjective_pairing (call_op c s))) as (HK & _).
    split; [exact HK|]. unfold run_call.
    destruct (decide (match c with CallOpenIntent _ _ _ _ => true | _ => false end = true)) as [E|E].
    - destruct c; try done. eapply open_intent_match; [exact L|exact Ho|exact Hm|apply surjective_pairing].
    - assert (~ opens_intent c) as Hn by (intros Hx; apply E; by destruct c).
      destruct (call_match (keys_of s) c Hc Hn s _ _ eq_refl (surjective_pairing (call_op c s)))
        as (_ & HR & _). by apply HR. }
  rewrite <- HK in Hm' |- *. by apply IH.
Qed.
End Properties.

Module Witness.
Import Calls.Demo.

Lemma material_audited_witness :
  material id (es_db vault) <> material id (es_db (store_over empty_db)) /\
  exists e, e ∈ drop 0 (audit_log (es_db vault)) /\ credential_id e = Some id.
Proof.
  assert (material id (es_db vault) <> material id (es_db (store_over empty_db))) as Hne by (by vm_compute).
  split; [exact Hne|].
  exact (proj2 (material_changes_are_audited id setup (store_over empty_db)) Hne).
Defined.

Definition refreshing : list Call := [CallOpenIntent (inputs 100 "-") id 1 (refresh_token_hash "rt")].

Lemma surviving_intents_witness :
  intents_match (keys_of vault) (es_db vault) /\
  intents_match (keys_of vault) (es_db (run_calls refreshing vault)).
Proof.
  assert (refresh_intent (es_db vault) = ∅) as Hno by (vm_compute; reflexivity).
  assert (intents_match (keys_of vault) (es_db vault)) as Hm.
  { intros i0 i row tok Hi. by rewrite Hno in Hi. }
  split; [exact Hm|]. apply (surviving_intents_match refreshing vault Hm).
  - constructor; [exact I|constructor].
  - split; [|exact I]. intros row tok Hrow Htok.
    assert (match credentials (es_db vault) !! id with
            | Some row => row_refresh_token (keys_of vault) id row | None => None end = Some "rt") as E
      by (vm_compute; reflexivity).
    rewrite Hrow, Htok in E. by injection E as ->.
Defined.
End Witness.
