(* ===== verification/Rotation.v ===== *)
(** * Master-key rotation and the life of the audit key

    [rotate_master_key] re-seals every record, every agent secret and the audit key under a new master key in
    one transaction; [load_or_create_audit_key] finds the audit key when the vault opens.
    Together: a rotation loses no readable record, names every record it had to
    quarantine, keeps the audit chain, and a later open with the new key finds the same
    audit key; an audit key is drawn only for an empty vault. *)

From S2P Require Import Prelude Text Crypto Record Envelope AuditLog Database Store Calls Sealed.

Section Rotation.
Context `{C : Crypto} `{!CryptoLaws C} `{X : RecordExt} `{!RecordExtLaws X}.

Definition binding_of (id : string) (row : CredRow) : RecordBinding :=
  {| rb_credential_id := id; rb_record_version := as_u64 (cr_record_version row) |}.

(** What rotation leaves of one row: re-sealed with the same plaintext, or quarantined. *)
Definition rotated (old_key new_key : MasterKey) (id : string) (row row' : CredRow) : Prop :=
  match open old_key (cr_envelope row) (binding_of id row) with
  | Ok plaintext =>
      row' = reseal_row (key_id_to_hex (key_id new_key)) (cr_envelope row') row /\
      open new_key (cr_envelope row') (binding_of id row) = Ok plaintext
  | Err _ => row' = set_state_only (state_as_str CorruptState) row
  end.

Definition unreadable (old_key : MasterKey) (id : string) (row : CredRow) : bool :=
  negb (is_ok (open old_key (cr_envelope row) (binding_of id row))).

Lemma update_same_version id upd d row :
  credentials d !! id = Some row -> cr_record_version (upd row) = cr_record_version row ->
  update_credential id (fun _ => true) upd d = (Ok 1%nat, with_credentials (insert id (upd row)) d).
Proof.
  intros Hrow Hv. unfold update_credential. rewrite Hrow. by rewrite bool_decide_eq_true_2.
Qed.

(** The loop rewrites exactly the rows of its snapshot. *)
Lemma rotate_rows_spec old_key new_key rnd i rows d q d' :
  (forall j n, rnd j = Some n -> length n = NONCE_LEN) ->
  NoDup rows.*1 -> (forall id row, (id, row) ∈ rows -> credentials d !! id = Some row) ->
  rotate_rows old_key new_key rnd i rows d = (Ok q, d') ->
  (forall id row, (id, row) ∈ rows ->
     exists row', credentials d' !! id = Some row' /\ rotated old_key new_key id row row') /\
  (forall id, id ∉ rows.*1 -> credentials d' !! id = credentials d !! id) /\
  d' = with_credentials (fun _ => credentials d') d /\
  q = (filter (fun x => Is_true (unreadable old_key x.1 x.2)) rows).*1.
Proof.
  intros Hrnd. revert i d q d'. induction rows as [|[id row] rows IH]; intros i d q d' Hnd Hin H1.
  { unfold mret in H1. cbn in H1. unfold mret in H1. simplify_eq. split_and!; [set_solver|done|by destruct d'|done]. }
  cbn [fmap list_fmap fst] in Hnd. apply NoDup_cons in Hnd as [Hni Hnd].
  assert (credentials d !! id = Some row) as Hrow by (apply Hin; left).
  assert (exists row1, rotated old_key new_key id row row1 /\ exists j q1,
    rotate_rows old_key new_key rnd j rows (with_credentials (insert id row1) d) = (Ok q1, d') /\
    q = if unreadable old_key id row then id :: q1 else q1) as (row1 & Hrot & j & q1 & Hrest & Hq).
  { cbn [rotate_rows] in H1. fold (binding_of id row) in H1. unfold rotated, unreadable.
    destruct (open old_key (cr_envelope row) (binding_of id row)) as [pt|e] eqn:Eo; cbn [is_ok negb].
    - apply bind_ok_inv in H1 as (nb & d1 & Es & H1). unfold mlift in Es. injection Es as Es <-.
      apply map_err_ok in Es.
      apply bind_ok_inv in H1 as (n & d1 & Eu & H1). rewrite (update_same_version _ _ _ row Hrow) in Eu by done.
      injection Eu as _ <-. exists (reseal_row (key_id_to_hex (key_id new_key)) nb row). split; [|eauto].
      split; [done|]. cbn [cr_envelope reseal_row].
      destruct (rnd i) as [n0|] eqn:En; [|by apply seal_ok in Es as (? & ? & ? & _)].
      exact (open_sealed n0 _ _ _ _ (Hrnd _ _ En) Es).
    - apply bind_ok_inv in H1 as (n & d1 & Eu & H1). rewrite (update_same_version _ _ _ row Hrow) in Eu by done.
      injection Eu as _ <-. apply bind_ok_inv in H1 as (q0 & d1 & Er & H1). unfold mret in H1.
      injection H1 as <- <-. eexists. split; [reflexivity|]. eauto. }
  assert (forall id' row', (id', row') ∈ rows ->
    credentials (with_credentials (insert id row1) d) !! id' = Some row') as Hin1.
  { intros id' row' Hin'. cbn. rewrite lookup_insert_ne; [apply Hin; by right|].
    intros ->. apply Hni. by apply (list_elem_of_fmap_2 fst _ (id', row')). }
  destruct (IH _ _ _ _ Hnd Hin1 Hrest) as (IH1 & IH2 & IH3 & IH4).
  split_and!.
  - intros id' row' [[= -> ->]|Hin']%elem_of_cons; [|by apply IH1].
    exists row1. split; [|done]. rewrite IH2 by done. apply lookup_insert_eq.
  - intros id' Hid'. cbn in Hid'. apply not_elem_of_cons in Hid' as [Hne Hid'].
    rewrite IH2 by done. cbn. by rewrite lookup_insert_ne.
  - rewrite IH3. done.
  - rewrite Hq, IH4, filter_cons. cbn [fst snd]. destruct (unreadable old_key id row); by case_decide.
Qed.

(** The body of an agent secret's row under a key: a name or columns that spell no
    binding open to nothing. *)
Definition secret_body (key : MasterKey) (name : string) (row : AgentSecretRow) : option bytes :=
  match record_binding (as_kind row) (as_incarnation row) name with
  | Ok id =>
      match open key (as_envelope row) {| rb_credential_id := id; rb_record_version := as_record_version row |} with
      | Ok body => Some body
      | Err _ => None
      end
  | Err _ => None
  end.

(** What rotation leaves of an agent secret's row. *)
Definition secret_rotated (old_key new_key : MasterKey) (name : string) (row row' : AgentSecretRow) : Prop :=
  match secret_body old_key name row with
  | Some body =>
      row' = set_secret_seal (key_id_to_hex (key_id new_key)) (as_envelope row') row /\
      secret_body new_key name row' = Some body
  | None => row' = corrupt_secret row
  end.

Definition secret_unreadable (old_key : MasterKey) (name : string) (row : AgentSecretRow) : bool :=
  negb (is_some (secret_body old_key name row)).

Definition secret_label (name : string) : string := ("secret|" ++ name)%string.

Lemma secret_resealed old_key new_key name row id body nonce blob :
  record_binding (as_kind row) (as_incarnation row) name = Ok id ->
  (forall n, nonce = Some n -> length n = NONCE_LEN) -> secret_body old_key name row = Some body ->
  seal nonce new_key body {| rb_credential_id := id; rb_record_version := as_record_version row |} = Ok blob ->
  secret_rotated old_key new_key name row (set_secret_seal (key_id_to_hex (key_id new_key)) blob row).
Proof.
  intros Hid Hn Hb Hs. unfold secret_rotated. rewrite Hb. split; [done|]. unfold secret_body. cbn. rewrite Hid.
  destruct nonce as [n|]; [|by apply seal_ok in Hs as (? & ? & ? & _)]. by rewrite (open_sealed n _ _ _ _ (Hn _ eq_refl) Hs).
Qed.

(** One row of the loop: it is rewritten as [secret_rotated] says and reported when it does not open. *)
Lemma rotate_agent_row old_key new_key rnd i name row rows d q d' :
  (forall j n, rnd j = Some n -> length n = NONCE_LEN) -> agent_secrets d !! name = Some row ->
  rotate_agent_rows old_key new_key rnd i ((name, row) :: rows) d = (Ok q, d') ->
  exists row1 j q1, secret_rotated old_key new_key name row row1 /\
    rotate_agent_rows old_key new_key rnd j rows (with_agent_secrets (insert name row1) d) = (Ok q1, d') /\
    q = if secret_unreadable old_key name row then secret_label name :: q1 else q1.
Proof.
  intros Hrnd Hrow H1. cbn [rotate_agent_rows] in H1.
  assert (forall f, set_agent_secret name f d = (Ok tt, with_agent_secrets (insert name (f row)) d)) as Hset.
  { intros f. unfold set_agent_secret, exec. f_equal. unfold with_agent_secrets. f_equal.
    apply map_eq. intros j. destruct (decide (name = j)) as [<-|].
    - by rewrite lookup_alter_eq, lookup_insert_eq, Hrow.
    - by rewrite lookup_alter_ne, lookup_insert_ne. }
  destruct (secret_body old_key name row) as [body|] eqn:Eb.
  - pose proof Eb as Eb'. unfold secret_body in Eb'. destruct (record_binding _ _ _) as [id|e] eqn:Eid; [|done].
    destruct (open old_key _ _) as [body'|e] eqn:Eo; [|done]. injection Eb' as ->.
    apply bind_ok_inv in H1 as (nb & d1 & Es & H1). unfold mlift in Es. injection Es as Es <-. apply map_err_ok in Es.
    apply bind_ok_inv in H1 as ([] & d1 & Eu & H1). rewrite Hset in Eu. injection Eu as <-.
    do 3 eexists. split_and!; [eapply secret_resealed; [exact Eid|apply Hrnd|exact Eb|exact Es]|exact H1|].
    unfold secret_unreadable. by rewrite Eb.
  - assert (mbind (set_agent_secret name corrupt_secret) (fun _ =>
      mbind (rotate_agent_rows old_key new_key rnd i rows) (fun q => mret (secret_label name :: q))) d = (Ok q, d')) as H2.
    { unfold secret_body in Eb. destruct (record_binding _ _ _); [|exact H1]. by destruct (open old_key _ _). }
    apply bind_ok_inv in H2 as ([] & d1 & Eu & H2). rewrite Hset in Eu. injection Eu as <-.
    apply bind_ok_inv in H2 as (q1 & d1 & Er & H2). unfold mret in H2. injection H2 as <- <-.
    do 3 eexists. split_and!; [|exact Er|]; [unfold secret_rotated|unfold secret_unreadable]; by rewrite Eb.
Qed.

(** The agent-secret loop rewrites exactly the rows of its snapshot. *)
Lemma rotate_agent_rows_spec old_key new_key rnd i rows d q d' :
  (forall j n, rnd j = Some n -> length n = NONCE_LEN) ->
  NoDup rows.*1 -> (forall name row, (name, row) ∈ rows -> agent_secrets d !! name = Some row) ->
  rotate_agent_rows old_key new_key rnd i rows d = (Ok q, d') ->
  (forall name row, (name, row) ∈ rows ->
     exists row', agent_secrets d' !! name = Some row' /\ secret_rotated old_key new_key name row row') /\
  (forall name, name ∉ rows.*1 -> agent_secrets d' !! name = agent_secrets d !! name) /\
  d' = with_agent_secrets (fun _ => agent_secrets d') d /\
  q = secret_label <$> (filter (fun x => Is_true (secret_unreadable old_key x.1 x.2)) rows).*1.
Proof.
  intros Hrnd. revert i d q d'. induction rows as [|[name row] rows IH]; intros i d q d' Hnd Hin H1.
  { cbn in H1. unfold mret in H1. simplify_eq. split_and!; [set_solver|done|by destruct d'|done]. }
  cbn [fmap list_fmap fst] in Hnd. apply NoDup_cons in Hnd as [Hni Hnd].
  destruct (rotate_agent_row _ _ _ _ _ _ _ _ _ _ Hrnd (Hin name row ltac:(left)) H1) as (row1 & j & q1 & Hrot & Hrest & Hq).
  assert (forall n r, (n, r) ∈ rows -> agent_secrets (with_agent_secrets (insert name row1) d) !! n = Some r) as Hin1.
  { intros n r Hn. cbn. rewrite lookup_insert_ne; [apply Hin; by right|].
    intros ->. apply Hni. by apply (list_elem_of_fmap_2 fst _ (n, r)). }
  destruct (IH _ _ _ _ Hnd Hin1 Hrest) as (IH1 & IH2 & IH3 & IH4). split_and!.
  - intros n r [[= -> ->]|Hn]%elem_of_cons; [|by apply IH1].
    exists row1. split; [|done]. rewrite IH2 by done. apply lookup_insert_eq.
  - intros n Hn. cbn in Hn. apply not_elem_of_cons in Hn as [Hne Hn]. rewrite IH2 by done. cbn. by rewrite lookup_insert_ne.
  - rewrite IH3. done.
  - rewrite Hq, IH4, filter_cons. cbn [fst snd]. destruct (secret_unreadable old_key name row); by case_decide.
Qed.

(** The same for the whole table. *)
Lemma rotate_agent_secrets_spec old_key new_key rnd d q d' :
  (forall j n, rnd j = Some n -> length n = NONCE_LEN) -> rotate_agent_secrets_tx old_key new_key rnd d = (Ok q, d') ->
  (forall name row, agent_secrets d !! name = Some row ->
     exists row', agent_secrets d' !! name = Some row' /\ secret_rotated old_key new_key name row row') /\
  (forall name, agent_secrets d !! name = None -> agent_secrets d' !! name = None) /\
  d' = with_agent_secrets (fun _ => agent_secrets d') d /\
  forall x, x ∈ q <-> exists name row, x = secret_label name /\ agent_secrets d !! name = Some row /\
                       secret_unreadable old_key name row = true.
Proof.
  intros Hrnd H1. unfold rotate_agent_secrets_tx in H1. apply bind_ok_inv in H1 as (rows & d1 & Eq & H1).
  unfold query in Eq. injection Eq as <- <-. destruct (existsb _ _); [done|].
  destruct (rotate_agent_rows_spec _ _ _ _ _ _ _ _ Hrnd (NoDup_fst_map_to_list _)
    ltac:(intros n r Hin; by apply elem_of_map_to_list) H1) as (Hrows & Hother & Hd & Hq). split_and!; [..|exact Hd|].
  - intros name row Hrow. by apply Hrows, elem_of_map_to_list.
  - intros name Hnone. rewrite Hother; [done|]. intros ([n r] & -> & Hin)%list_elem_of_fmap_1.
    apply elem_of_map_to_list in Hin. cbn in Hnone. congruence.
  - intros x. rewrite Hq, list_elem_of_fmap. setoid_rewrite list_elem_of_fmap. setoid_rewrite list_elem_of_filter. split.
    + intros (n & -> & [n' r] & -> & Hu & Hin). cbn in *. exists n', r. apply elem_of_map_to_list in Hin.
      split_and!; [done..|]. by destruct (secret_unreadable _ _ _).
    + intros (n & r & -> & Hr & Hu). exists n. split; [done|]. exists (n, r). cbn. rewrite Hu, elem_of_map_to_list. done.
Qed.

Context {Conn : Type} `{L : SqliteStoreLaws Conn}.

(** The sealed audit key opens under the master key, to the key in use. *)
Definition audit_key_stored (key : MasterKey) (ak : bytes) (d : Db) : Prop :=
  exists row, vault_secrets d !! AUDIT_KEY_SECRET_NAME = Some row /\
    open key (sec_envelope row) audit_binding = Ok ak.

(** What a committed rotation did, table by table. *)
Record rotation_done (ak : bytes) (old_key new_key : MasterKey) (q : list string) (d d' : Db) : Prop := {
  rd_credentials id row : credentials d !! id = Some row ->
    exists row', credentials d' !! id = Some row' /\ rotated old_key new_key id row row';
  rd_no_credential id : credentials d !! id = None -> credentials d' !! id = None;
  rd_secrets name row : agent_secrets d !! name = Some row ->
    exists row', agent_secrets d' !! name = Some row' /\ secret_rotated old_key new_key name row row';
  rd_no_secret name : agent_secrets d !! name = None -> agent_secrets d' !! name = None;
  (** reported are exactly the rows that did not open *)
  rd_reported x : x ∈ q <->
    (exists row, credentials d !! x = Some row /\ unreadable old_key x row = true) \/
    (exists name row, x = secret_label name /\ agent_secrets d !! name = Some row /\
       secret_unreadable old_key name row = true);
  rd_audit_key : audit_key_stored old_key ak d -> audit_key_stored new_key ak d';
  rd_alarm : exists e, audit_log d' = audit_log d ++ [e] /\ op e = "rotate_master_key" /\ alarm e = true;
  rd_chain : chain_ok ak (audit_log d) -> chain_ok ak (audit_log d');
  rd_other_keys name : name <> AUDIT_KEY_SECRET_NAME -> vault_secrets d' !! name = vault_secrets d !! name;
  rd_frame : d' = with_credentials (fun _ => credentials d') (with_agent_secrets (fun _ => agent_secrets d')
    (with_vault_secrets (fun _ => vault_secrets d') (with_audit_log (fun _ => audit_log d') d)));
}.

(** The loop over the credentials, for the whole table. *)
Lemma rotate_credentials_spec old_key new_key rnd d q d' :
  (forall j n, rnd j = Some n -> length n = NONCE_LEN) ->
  rotate_rows old_key new_key rnd 1 (map_to_list (credentials d)) d = (Ok q, d') ->
  (forall id row, credentials d !! id = Some row ->
     exists row', credentials d' !! id = Some row' /\ rotated old_key new_key id row row') /\
  (forall id, credentials d !! id = None -> credentials d' !! id = None) /\
  d' = with_credentials (fun _ => credentials d') d /\
  forall x, x ∈ q <-> exists row, credentials d !! x = Some row /\ unreadable old_key x row = true.
Proof.
  intros Hrnd H1. destruct (rotate_rows_spec _ _ _ _ _ _ _ _ Hrnd (NoDup_fst_map_to_list _)
    ltac:(intros id row Hin; by apply elem_of_map_to_list) H1) as (Hrows & Hother & Hd & Hq). split_and!; [..|exact Hd|].
  - intros id row Hrow. by apply Hrows, elem_of_map_to_list.
  - intros id Hnone. rewrite Hother; [done|]. intros ([i r] & -> & Hin)%list_elem_of_fmap_1.
    apply elem_of_map_to_list in Hin. cbn in Hnone. congruence.
  - intros x. rewrite Hq, list_elem_of_fmap. setoid_rewrite list_elem_of_filter. split.
    + intros ([i r] & -> & Hu & Hin). cbn in *. exists r. apply elem_of_map_to_list in Hin.
      split; [done|]. by destruct (unreadable _ _ _).
    + intros (r & Hr & Hu). exists (x, r). cbn. by rewrite Hu, elem_of_map_to_list.
Qed.

Lemma rotate_tx_done ak old_key new_key rnd rnd_agent env ts d q d' :
  (forall j n, rnd j = Some n -> length n = NONCE_LEN) -> (forall j n, rnd_agent j = Some n -> length n = NONCE_LEN) ->
  open new_key env audit_binding = Ok ak ->
  (do! rows <- query (fun d => map_to_list (credentials d)) ;;
   do! q <- rotate_rows old_key new_key rnd 1 rows ;;
   do! qa <- rotate_agent_secrets_tx old_key new_key rnd_agent ;;
   do! _ <- exec (with_vault_secrets (alter (fun _ =>
              {| sec_key_id := key_id_to_hex (key_id new_key); sec_envelope := env |})
              AUDIT_KEY_SECRET_NAME)) ;;
   do! _ <- append_audit_tx ak ts
              {| rec_op := RotateMasterKey; rec_credential_id := None; rec_payload_hash := None;
                 rec_actor := "offline-cli"; rec_alarm := Some AdminWrite |} ;;
   mret (q ++ qa)) d = (Ok q, d') ->
  rotation_done ak old_key new_key q d d'.
Proof.
  intros Hrnd Hrnda Henv H1. apply bind_ok_inv in H1 as (rows & d0 & Eq & H1).
  unfold query in Eq. injection Eq as <- <-.
  apply bind_ok_inv in H1 as (q1 & d1 & Er & H1). apply bind_ok_inv in H1 as (q2 & d2 & Ea & H1).
  unfold mbind, exec, append_audit_tx, mret in H1. injection H1 as <- <-.
  destruct (rotate_credentials_spec _ _ _ _ _ _ Hrnd Er) as (Hrows & Hother & Hd1 & Hq1).
  destruct (rotate_agent_secrets_spec _ _ _ _ _ _ Hrnda Ea) as (Hsec & Hnosec & Hd2 & Hq2).
  replace (agent_secrets d1) with (agent_secrets d) in * by (by rewrite Hd1).
  assert (credentials d2 = credentials d1) as Hc by (by rewrite Hd2).
  assert (audit_log d2 = audit_log d) as Hl by (by rewrite Hd2, Hd1).
  assert (vault_secrets d2 = vault_secrets d) as Hv by (by rewrite Hd2, Hd1).
  split; cbn; rewrite ?Hc, ?Hl, ?Hv; try done.
  - intros x. rewrite elem_of_app. by rewrite Hq1, Hq2.
  - intros (row & Hrow & _). unfold audit_key_stored. cbn. rewrite Hv, lookup_alter_eq, Hrow. cbn. eauto.
  - unfold append_audit. eauto.
  - apply append_audit_chain.
  - intros name Hne. by rewrite lookup_alter_ne.
  - rewrite Hd2, Hd1. done.
Qed.

(** C35: rotating the master key is all or nothing and loses nothing readable. On an
    error the database and the keys are the old ones. On success the store runs under the
    new key with the same audit key; every credential and every agent secret whose row
    opened before opens under the new key to the same plaintext, with every other column
    but the key id unchanged; every row of either table that did not open is quarantined,
    and those are exactly the ones reported; no row appears in either; the sealed audit
    key now opens under the new key, the audit chain is extended by one alarm entry, and
    nothing else in the database changes. *)
Theorem rotate_master_key_rewraps inp rnd_agent new_key (s s' : EncryptedStore Conn) out :
  inputs_ok inp -> (forall j n, rnd_agent j = Some n -> length n = NONCE_LEN) ->
  rotate_master_key inp rnd_agent new_key s = (out, s') ->
  match out with
  | Err _ => es_db s' = es_db s /\ keys_of s' = keys_of s
  | Ok q =>
      keys_of s' = {| k_key := new_key; k_key_id := key_id new_key; k_audit_key := es_audit_key s |} /\
      rotation_done (es_audit_key s) (es_key s) new_key q (es_db s) (es_db s')
  end.
Proof.
  intros Hi Hia H1. unfold rotate_master_key in H1. destruct out as [q|e].
  - ok_inv H1. injection H1 as <- <-. apply map_err_ok in E. unfold es_db at 2. cbn.
    change (conn_db (es_conn s0)) with (es_db s0).
    pose proof (fenced_keys _ _ _ _ E0) as HK. split; [by injection HK as _ _ <-|].
    apply fenced_ok_inv in E0. eapply rotate_tx_done; [exact Hi|exact Hia| |exact E0].
    destruct (in_rnd inp 0) as [n|] eqn:En; [|by apply seal_ok in E as (? & ? & ? & _)].
    exact (open_sealed n _ _ _ _ (Hi _ _ En) E).
  - apply bind_err_inv in H1 as [H1|(env & s1 & E & H1)]; [by injection H1 as _ <-|].
    unfold mlift in E. injection E as _ <-.
    apply bind_err_inv in H1 as [H1|(q & s1 & E & H1)]; [|done].
    split; [by apply fenced_err_inv in H1|by apply fenced_keys in H1].
Qed.

Lemma conn_query_inv {A} (f : Db -> A) (c c' : Conn) r :
  conn_call (query f) c = (r, c') -> conn_db c' = conn_db c /\ (forall a, r = Ok a -> a = f (conn_db c)).
Proof.
  unfold conn_call. destruct (with_conn (query f) c) as [[a|e] c1] eqn:E; intros [= <- <-].
  - apply conn_commits in E. unfold query in E. injection E as <- <-. split; [done|]. by intros ? [= <-].
  - by apply conn_rolls_back in E.
Qed.

Lemma conn_fenced_inv {A} (f : Tx A) (c c' : Conn) r :
  conn_call_fenced f c = (r, c') ->
  match r with Ok a => f (conn_db c) = (Ok a, conn_db c') | Err _ => conn_db c' = conn_db c end.
Proof.
  unfold conn_call_fenced. destruct (with_conn_fenced f c) as [[a|e] c1] eqn:E; intros [= <- <-].
  - by apply fenced_commits in E.
  - by apply fenced_rolls_back in E.
Qed.

(** The audit key is drawn once. Opening a vault that holds a sealed audit key either
    returns exactly that key or fails, and changes nothing; a key is drawn only when the
    vault holds no audit key and no data at all, and what was drawn is then stored under
    the master key. A store whose key is present, opens and has 32 bytes is opened. *)
Theorem audit_key_drawn_once key rnd_key nonce (c c' : Conn) out :
  length nonce = NONCE_LEN -> load_or_create_audit_key key rnd_key (Some nonce) c = (out, c') ->
  match out with
  | Err _ => conn_db c' = conn_db c
  | Ok ak =>
      audit_key_stored key ak (conn_db c') /\
      (conn_db c' = conn_db c \/
       (vault_secrets (conn_db c) !! AUDIT_KEY_SECRET_NAME = None /\
        store_is_nonempty (conn_db c) = false /\ rnd_key = Some ak))
  end /\
  (forall ak, audit_key_stored key ak (conn_db c) -> length ak = 32%nat -> conn_healthy c = true ->
     out = Ok ak).
Proof.
  intros Hn H1. unfold load_or_create_audit_key in H1. unfold mbind at 1 in H1.
  destruct (conn_call _ c) as [found c1] eqn:Ec. pose proof (conn_query_inv _ _ _ _ Ec) as [Hd Hf].
  split.
  - destruct found as [[blob|]|e]; [| |by simplify_eq].
    + specialize (Hf _ eq_refl). destruct (vault_secrets (conn_db c) !! AUDIT_KEY_SECRET_NAME) as [row|] eqn:Er;
        [|done]. cbn in Hf. injection Hf as ->. unfold mbind, mlift in H1.
      destruct (open key (sec_envelope row) audit_binding) as [pt|e] eqn:Eo; cbn in H1; [|by simplify_eq].
      destruct (length pt =? 32)%nat; unfold mret, merr in H1; simplify_eq; [|done].
      rewrite Hd. split; [by exists row|by left].
    + specialize (Hf _ eq_refl). destruct out as [ak|e].
      * ok_inv H1. apply conn_query_inv in E as [Hd2 Hne]. specialize (Hne _ eq_refl).
        apply conn_fenced_inv in E2. unfold mret in H1. injection H1 as <- <-.
        apply bind_ok_inv in E2 as (p & d1 & Eq & E2). unfold query in Eq. injection Eq as Hp <-.
        destruct p; [done|]. unfold exec in E2. injection E2 as _ Hd3.
        destruct rnd_key as [k|]; cbn in E0; [injection E0 as ->|done]. apply map_err_ok in E1. split.
        -- unfold audit_key_stored. rewrite <- Hd3. cbn. rewrite lookup_insert_eq.
           eexists. split; [reflexivity|]. exact (open_sealed nonce _ _ _ _ Hn E1).
        -- right. rewrite <- Hd. split_and!; [|congruence|done].
           rewrite Hd. by destruct (vault_secrets (conn_db c) !! AUDIT_KEY_SECRET_NAME).
      * rewrite <- Hd. apply bind_err_inv in H1 as [H1|(b & c2 & E & H1)];
          [by apply conn_query_inv in H1 as [-> _]|].
        apply conn_query_inv in E as [Hd2 _]. rewrite <- Hd2. destruct b; [by injection H1 as _ <-|].
        apply bind_err_inv in H1 as [H1|(k & c3 & E & H1)]; [by injection H1 as _ <-|].
        unfold mlift in E. injection E as _ <-.
        apply bind_err_inv in H1 as [H1|(bl & c3 & E & H1)]; [by injection H1 as _ <-|].
        unfold mlift in E. injection E as _ <-.
        apply bind_err_inv in H1 as [H1|(u & c3 & E & H1)]; [|done]. by apply conn_fenced_inv in H1.
  - intros ak (row & Hrow & Ho) Hlen Hh. unfold conn_call in Ec.
    destruct (conn_runs (query (fun d => sec_envelope <$> vault_secrets d !! AUDIT_KEY_SECRET_NAME)) c Hh)
      as (c2 & E & _). rewrite E in Ec. cbn in Ec. injection Ec as <- _. rewrite Hrow in H1. cbn in H1.
    unfold mbind, mlift in H1. rewrite Ho in H1. cbn in H1. rewrite Hlen in H1. cbn in H1.
    unfold mret in H1. by simplify_eq.
Qed.
End Rotation.

Module Witness.
Import Calls.Demo Sealed.Witness.

Definition opened : result (EncryptedStore ToyConn) StoreOpError * ToyConn :=
  open_store key (Some audit_key) (nonce 9) (fresh_conn empty_db).

Lemma audit_key_witness :
  is_ok (fst (load_or_create_audit_key key (Some audit_key) (nonce 9) (fresh_conn empty_db))) = true /\
  audit_key_stored key audit_key
    (conn_db (snd (load_or_create_audit_key key (Some audit_key) (nonce 9) (fresh_conn empty_db)))).
Proof.
  split; [vm_compute; reflexivity|].
  assert (load_or_create_audit_key key (Some audit_key) (nonce 9) (fresh_conn empty_db) =
    (Ok audit_key, snd (load_or_create_audit_key key (Some audit_key) (nonce 9) (fresh_conn empty_db)))) as E
    by (vm_compute; reflexivity).
  apply (audit_key_drawn_once key (Some audit_key) (replicate 24 (byte_of_Z 9)) _ _ _ eq_refl E).
Defined.

Definition new_key : MasterKey := key_of_byte x33.

(** A vault that also keeps two agent secrets, one of which does not open. *)
Definition kept_secret (blob : bytes) : AgentSecretRow :=
  {| as_kind := "agent_api_key"; as_incarnation := "00112233445566778899aabbccddeeff"; as_state := "active";
     as_host := Some "api.example.com"; as_path_prefix := Some "/"; as_location := Some "authorization_bearer";
     as_origin := None; as_record_version := 1; as_key_id := key_id_to_hex (key_id key); as_envelope := blob;
     as_created_at_ms := 5 |}.
Definition secret_blob (name : string) : bytes :=
  match seal (nonce 7) key (str_bytes "token")
    {| rb_credential_id := "secret|agent_api_key|00112233445566778899aabbccddeeff|" ++ name; rb_record_version := 1 |} with
  | Ok blob => blob
  | Err _ => []
  end.
Definition with_secrets : EncryptedStore ToyConn :=
  snd (fenced (do! _ <- exec (with_agent_secrets (insert "ci" (kept_secret (secret_blob "ci")))) ;;
               exec (with_agent_secrets (insert "old" (kept_secret (secret_blob "renamed"))))) vault).

Definition rotating : result (list string) StoreOpError * EncryptedStore ToyConn :=
  rotate_master_key (inputs 200 "-") nonce new_key with_secrets.

Example secrets_before_after :
  (fun s => (secret_body key "ci" <$> agent_secrets (es_db s) !! "ci",
             secret_body new_key "ci" <$> agent_secrets (es_db s) !! "ci",
             as_state <$> agent_secrets (es_db s) !! "old")) <$> [with_secrets; snd rotating] =
  [(Some (Some (str_bytes "token")), Some None, Some "active");
   (Some None, Some (Some (str_bytes "token")), Some "corrupt")].
Proof. vm_compute. reflexivity. Qed.

Lemma rotate_witness :
  fst rotating = Ok ["secret|old"] /\
  rotation_done audit_key key new_key ["secret|old"] (es_db with_secrets) (es_db (snd rotating)).
Proof.
  assert (fst rotating = Ok ["secret|old"]) as E by (vm_compute; reflexivity). split; [exact E|].
  pose proof (rotate_master_key_rewraps (inputs 200 "-") nonce new_key with_secrets (snd rotating) (fst rotating)
    (inputs_are_ok 200 "-") ltac:(intros j n [= <-]; reflexivity) (surjective_pairing rotating)) as H.
  rewrite E in H. destruct H as [_ H]. exact H.
Defined.
End Witness.
