(* ===== verification/Engine.v ===== *)
(** * The refresh engine ([credentials-core/src/engine.rs])

    Refresh-on-read with its write-ahead intent, and the reconciliation of intents at
    boot. Everything outside the process is an argument ([EngineEnv]): the clocks, the
    adapters' answers, and what other tasks did to the store. Between any two store calls
    of the engine an arbitrary list of other store calls may run ([env_others]), each chosen
    by a task that sees the database as it is then; while the per-credential lock is held
    the lock limits which ([respects_lock]).
    The adapters and the HTTP transport are behind the [RefreshAdapter] trait; the engine
    uses only their answers. *)

From S2P Require Import Prelude Text Crypto Record AuditLog Database Store Calls.

Definition DEFAULT_EXPIRY_SKEW_MS : Z := 60000.
Definition REPORT_REFRESH_COOLDOWN_MS : Z := 60000.
Definition GITHUB_APP_ADAPTER_NAME : string := "github_app".

Inductive ReauthReason := NoValidityCheck | CheckInvalid | HashMismatch.

Definition reauth_reason_as_str (r : ReauthReason) : string :=
  match r with
  | NoValidityCheck => "no_validity_check"
  | CheckInvalid => "check_invalid"
  | HashMismatch => "hash_mismatch"
  end.

Inductive Reconciliation :=
| ClearedValid (credential_id : string)
| ReconciledNeedsReauth (credential_id : string) (reason : ReauthReason)
| Retained (credential_id : string)
| OrphanCleared (credential_id : string).

Inductive RefreshError :=
| InvalidGrant (text : string)
| SubscriptionRequired
| Transport (text : string)
| RefreshDecode (text : string)
| RefreshStatus (status : Z) (text : string).

Definition variant_name (e : RefreshError) : string :=
  match e with
  | InvalidGrant _ => "invalid_grant"
  | SubscriptionRequired => "subscription_required"
  | Transport _ => "transport"
  | RefreshDecode _ => "decode"
  | RefreshStatus _ _ => "status"
  end.

Definition provider_status (e : RefreshError) : option Z :=
  match e with RefreshStatus s _ => Some s | _ => None end.

(** [Panicked] stands for the two [expect]s of [do_refresh]; it is no error of the source. *)
Inductive EngineError :=
| EngineStore (e : StoreOpError)
| UnknownAdapter (name : string)
| RefreshFailed (e : RefreshError)
| Panicked.

Inductive ValidityOutcome := Valid | Invalid.

Record RefreshedTokens := {
  rt_access_token : string;
  rt_refresh_token : string;
  rt_expires_at_ms : option Z;
  rt_github_app_permissions : option (list (string * string));
}.

Record GetWithRefreshStatus := {
  gs_incarnation : string;
  gs_record : VaultRecord;
  gs_refreshed_for_min_ttl : bool;
  gs_refresh_deferred_until_ms : option Z;
  gs_stored_digest_hex : string;
}.

Record EngineEnv := {
  env_skew_ms : Z;
  (** Successive readings of [now_ms()], and the reading of the engine's own clock. *)
  env_now : nat -> Z;
  env_clock : Z;
  (** What the [i]-th store call of the engine draws, and what others did just before it. *)
  env_inputs : nat -> Inputs;
  env_others : nat -> list (Db -> Call);
  (** The registered adapters, and what their methods answer. *)
  env_adapter : string -> bool;
  env_refresh : string -> string -> OAuthCredential -> result RefreshedTokens RefreshError;
  env_check : string -> OAuthCredential -> option (result ValidityOutcome RefreshError);
  (** [serde_json] on the diagnostic columns. *)
  env_identity_of_json : string -> option RecordIdentity;
  env_permissions_json : list (string * string) -> option string;
  env_permissions_of_json : string -> option (list (string * string));
}.

(** One call of a provider's rotating endpoint: for which credential, with which material,
    and the intent on disk when the leader turned to the network. *)
Record Exchange := {
  ex_credential_id : string;
  ex_oauth : OAuthCredential;
  ex_intent : option RefreshIntent;
}.

Record EngineState (Conn : Type) := {
  eng_store : EncryptedStore Conn;
  eng_exchanges : list Exchange;
}.
Arguments eng_store {_}.
Arguments eng_exchanges {_}.
Arguments Build_EngineState {_}.

Module Engine.
Section Engine.
Context `{C : Crypto} `{X : RecordExt} {Conn : Type} `{S : SqliteStore Conn}.
Abbreviation Eng A := (M (EngineState Conn) EngineError A).

(** The steps of other tasks: each decides by what it sees. *)
Definition run_others (fs : list (Db -> Call)) (s : EncryptedStore Conn) : EncryptedStore Conn :=
  fold_left (fun s f => run_call s (f (es_db s))) fs s.

(** The [i]-th store call, after what other tasks did, with its outcome as a value. *)
Definition store_try {A} (env : EngineEnv) (i : nat) (m : M (EncryptedStore Conn) StoreOpError A)
  : Eng (result A StoreOpError) :=
  fun st =>
    let '(r, s') := m (run_others (env_others env i) (eng_store st)) in
    (Ok r, {| eng_store := s'; eng_exchanges := eng_exchanges st |}).

(** The same with [?]. *)
Definition store_call {A} (env : EngineEnv) (i : nat) (m : M (EncryptedStore Conn) StoreOpError A)
  : Eng A :=
  do! r <- store_try env i m ;; mlift (map_err EngineStore r).

(** The network call to the rotating endpoint. *)
Definition exchange (env : EngineEnv) (adapter id : string) (o : OAuthCredential)
  : Eng (result RefreshedTokens RefreshError) :=
  fun st =>
    (Ok (env_refresh env adapter id o),
     {| eng_store := eng_store st;
        eng_exchanges := eng_exchanges st ++
          [{| ex_credential_id := id; ex_oauth := o;
              ex_intent := refresh_intent (es_db (eng_store st)) !! id |}] |}).

Definition is_below_min_ttl (now : Z) (record : VaultRecord) (min_ttl_ms : option Z) : bool :=
  match oauth record with
  | None => false
  | Some o =>
      match min_ttl_ms, oauth_expires_at_ms o with
      | Some min_ttl, Some expires_at_ms => expires_at_ms <=? i64_saturating_add now min_ttl
      | _, _ => false
      end
  end.

(** Two readings of the clock, [i] and [i + 1]. *)
Definition is_stale (env : EngineEnv) (i : nat) (record : VaultRecord) (min_ttl_ms : option Z) : bool :=
  match oauth record with
  | None => false
  | Some o =>
      if str_is_empty (access_token o) then true
      else if is_access_expired o (env_now env i) (env_skew_ms env) then true
      else is_below_min_ttl (env_now env (i + 1)) record min_ttl_ms
  end.

Definition within_report_cooldown (env : EngineEnv) (written_at_ms : Z) : bool :=
  let elapsed := i64_saturating_sub (env_clock env) written_at_ms in
  (0 <=? elapsed) && (elapsed <? REPORT_REFRESH_COOLDOWN_MS).

(** [apply_refreshed]. *)
Definition apply_refreshed (record : VaultRecord) (old : OAuthCredential) (tokens : RefreshedTokens)
  : VaultRecord :=
  let new_oauth :=
    {| access_token := rt_access_token tokens; refresh_token := rt_refresh_token tokens;
       oauth_expires_at_ms := rt_expires_at_ms tokens; token_url := token_url old;
       client_id := client_id old; client_secret := client_secret old; scopes := scopes old |} in
  {| schema_version := schema_version record; kind := kind record; source := source record;
     record_version := record_version record; expires_at_ms := rt_expires_at_ms tokens;
     refresh_adapter := refresh_adapter record; oauth := Some new_oauth;
     payload := str_bytes (rt_access_token tokens); identity := identity record;
     detected_plan := if bool_decide (refresh_adapter record = Some "openai")
                      then Some (chatgpt_plan (rt_access_token tokens)) else detected_plan record;
     audit_each_signature := audit_each_signature record; operator_sign := operator_sign record |}.

Definition refresh_failed_observation (status : option Z) (e : RefreshError) : AuthObservation :=
  {| obs_kind := event_kind_as_str EvRefreshFailed; obs_provider_status := status;
     obs_detail := Some (variant_name e); obs_reporter_source := None; obs_principal := None |}.

(** The provider answered with usable tokens: stage them and commit. *)
Definition commit_tokens (env : EngineEnv) (id adapter_name : string) (record : VaultRecord)
    (o : OAuthCredential) (tokens : RefreshedTokens) : Eng unit :=
  let github_app_permissions :=
    if bool_decide (adapter_name = GITHUB_APP_ADAPTER_NAME) then rt_github_app_permissions tokens else None in
  let new_record := apply_refreshed record o tokens in
  do! new_record <- (if bool_decide (adapter_name = "anthropic") then
      do! held <- store_try env 8 (held_detected_plan (env_identity_of_json env) id record) ;;
      match held with
      | Ok (Some plan) => mret (set_detected_plan (Some plan) new_record)
      | _ => mret new_record
      end
    else mret new_record) ;;
  do! version <- store_call env 9 (commit_refresh (env_inputs env 9) id (record_version record) new_record) ;;
  match github_app_permissions with
  | Some permissions =>
      do! _ <- store_try env 10 (observe_github_app_permissions (env_inputs env 10)
                 (env_permissions_json env) (env_permissions_of_json env) id version permissions) ;;
      mret tt
  | None => mret tt
  end.

(** What becomes of the intent and the record, by the provider's answer. *)
Definition resolve_answer (env : EngineEnv) (id adapter_name : string) (record : VaultRecord)
    (o : OAuthCredential) (answer : result RefreshedTokens RefreshError) : Eng unit :=
  match answer with
  | Ok tokens =>
      if str_is_empty (rt_access_token tokens) then
        do! _ <- store_call env 8 (clear_intent id) ;;
        merr (RefreshFailed (RefreshDecode "provider returned an empty access token"))
      else commit_tokens env id adapter_name record o tokens
  | Err ((InvalidGrant _ | SubscriptionRequired) as e) =>
      do! _ <- store_call env 8 (invalidate_if_version_reported (env_inputs env 8) id (record_version record)
                 (ctx_vault Invalidate) (Some (refresh_failed_observation None e))) ;;
      merr (RefreshFailed e)
  | Err other =>
      do! _ <- store_call env 8 (clear_intent id) ;;
      do! _ <- store_try env 9 (record_auth_event (env_inputs env 9) id
                 (refresh_failed_observation (provider_status other) other) (Some (record_version record))) ;;
      merr (RefreshFailed other)
  end.

(** [do_refresh]: the intent, the provider's rotating endpoint, the commit. The plan
    fetch a successful Anthropic commit spawns is another task ([CallHoldPlan]). *)
Definition do_refresh (env : EngineEnv) (id : string) (record : VaultRecord) : Eng unit :=
  do! o <- mlift (ok_or (oauth record) Panicked) ;;
  do! adapter_name <- mlift (ok_or (refresh_adapter record) Panicked) ;;
  if negb (env_adapter env adapter_name) then merr (UnknownAdapter adapter_name) else
  let old_hash := refresh_token_hash (refresh_token o) in
  do! _ <- store_call env 7 (open_intent (env_inputs env 7) id (record_version record) old_hash) ;;
  do! answer <- exchange env adapter_name id o ;;
  resolve_answer env id adapter_name record o answer.

Definition served (incarnation : string) (r : StoredRead) (for_ttl : bool) (deferred : option Z)
  : GetWithRefreshStatus :=
  {| gs_incarnation := incarnation; gs_record := sr_record r; gs_refreshed_for_min_ttl := for_ttl;
     gs_refresh_deferred_until_ms := deferred; gs_stored_digest_hex := sr_stored_digest_hex r |}.

(** The part of a read that runs under the credential's lock. *)
Definition get_locked (env : EngineEnv) (id : string) (incarnation : string) (initial_version : Z)
    (min_ttl_ms : option Z) (force_refresh : bool) : Eng GetWithRefreshStatus :=
  do! initial <- store_call env 2 (get_snapshot (env_inputs env 2) id incarnation) ;;
  do! unresolved <- store_call env 3 (has_refresh_intent id) ;;
  if unresolved : bool then merr (EngineStore NeedsReauth) else
  if negb (bool_decide (record_version (sr_record initial) = initial_version))
  then mret (served incarnation initial false None) else
  let stale_pending := sm_pending (sr_mark initial) in
  if stale_pending && negb (is_refreshable (sr_record initial)) then
    do! _ <- store_call env 4 (invalidate_in_incarnation (env_inputs env 4) id
               (record_version (sr_record initial)) incarnation (ctx_vault Invalidate)
               (Some {| obs_kind := event_kind_as_str EvStaleNonrefreshableLatch;
                        obs_provider_status := None; obs_detail := None;
                        obs_reporter_source := None; obs_principal := None |})) ;;
    do! replacement <- store_call env 5 (get_snapshot (env_inputs env 5) id incarnation) ;;
    mret (served incarnation replacement false None)
  else
  let record := sr_record initial in
  let written := sm_record_written_at_ms (sr_mark initial) in
  let by_min_ttl := is_below_min_ttl (env_now env 2) record min_ttl_ms in
  let wants_refresh := force_refresh || stale_pending || is_stale env 3 record min_ttl_ms in
  if negb wants_refresh || negb (is_refreshable record)
  then mret (served incarnation initial false None) else
  if stale_pending && negb force_refresh && negb (is_stale env 5 record min_ttl_ms) &&
     within_report_cooldown env written then
    do! _ <- store_try env 6 (record_stale_refresh_deferred (env_inputs env 6) id (record_version record)) ;;
    mret (served incarnation initial false (Some (as_i64 (written + REPORT_REFRESH_COOLDOWN_MS))))
  else
    do! _ <- do_refresh env id record ;;
    do! refreshed <- store_call env 11 (get_snapshot (env_inputs env 11) id incarnation) ;;
    mret (served incarnation refreshed by_min_ttl None).

Definition get_for_incarnation (env : EngineEnv) (id : string) (expected_incarnation : option string)
    (min_ttl_ms : option Z) (force_refresh : bool) : Eng GetWithRefreshStatus :=
  do! initial <- store_call env 0 (read_snapshot (env_inputs env 0) id expected_incarnation) ;;
  let incarnation := sr_incarnation initial in
  do! has_intent <- store_call env 1 (has_refresh_intent id) ;;
  let wants_refresh :=
    force_refresh || sm_pending (sr_mark initial) || is_stale env 0 (sr_record initial) min_ttl_ms in
  if negb has_intent && negb wants_refresh then mret (served incarnation initial false None) else
  get_locked env id incarnation (record_version (sr_record initial)) min_ttl_ms force_refresh.

Definition get_with_refresh_status (env : EngineEnv) (id : string) (min_ttl_ms : option Z)
    (force_refresh : bool) : Eng GetWithRefreshStatus :=
  get_for_incarnation env id None min_ttl_ms force_refresh.

Definition get_in_incarnation (env : EngineEnv) (id incarnation : string) (min_ttl_ms : option Z)
    (force_refresh : bool) : Eng GetWithRefreshStatus :=
  get_for_incarnation env id (Some incarnation) min_ttl_ms force_refresh.

Definition get (env : EngineEnv) (id : string) (min_ttl_ms : option Z) (force_refresh : bool)
  : Eng VaultRecord :=
  do! r <- get_with_refresh_status env id min_ttl_ms force_refresh ;; mret (gs_record r).

(** ** Reconciliation at boot *)

Definition ctx_reconcile : AuditCtx :=
  {| ctx_op := Invalidate; ctx_actor := "vault-reconcile"; ctx_alarm := Some ReconcileHashMismatch |}.

Definition orphaned (e : StoreOpError) : bool :=
  match e with
  | NotFound | NeedsReauth | Quarantined | DecryptError _ | CorruptRecord _ => true
  | _ => false
  end.

(** The adapter's optional non-mutating check; the rotating endpoint is never called. *)
Definition recovery_check (env : EngineEnv) (record : VaultRecord)
  : option (result ValidityOutcome RefreshError) :=
  match refresh_adapter record, oauth record with
  | Some name, Some o => if env_adapter env name then env_check env name o else None
  | _, _ => None
  end.

Definition hash_mismatch (record : VaultRecord) (intent : RefreshIntent) : bool :=
  match oauth record with
  | Some o => negb (bool_decide (refresh_token_hash (refresh_token o) = ri_old_refresh_hash intent))
  | None => false
  end.

Definition reconcile_one (env : EngineEnv) (intent : RefreshIntent) : Eng Reconciliation :=
  let id := ri_credential_id intent in
  do! found <- store_try env 0 (Store.get (env_inputs env 0) id) ;;
  match found with
  | Err e =>
      if orphaned e then
        do! _ <- store_call env 1 (clear_intent id) ;; mret (OrphanCleared id)
      else merr (EngineStore e)
  | Ok record =>
      if hash_mismatch record intent then
        do! _ <- store_call env 1 (invalidate_audited (env_inputs env 1) id ctx_reconcile) ;;
        mret (ReconciledNeedsReauth id HashMismatch)
      else
        match recovery_check env record with
        | None =>
            do! _ <- store_call env 1 (invalidate (env_inputs env 1) id) ;;
            mret (ReconciledNeedsReauth id NoValidityCheck)
        | Some (Ok Valid) =>
            do! _ <- store_call env 1 (clear_intent id) ;; mret (ClearedValid id)
        | Some (Ok Invalid) =>
            do! _ <- store_call env 1 (invalidate (env_inputs env 1) id) ;;
            mret (ReconciledNeedsReauth id CheckInvalid)
        | Some (Err _) =>
            do! _ <- store_call env 1 (mark_needs_reauth_retaining_intent (env_inputs env 1) id) ;;
            mret (Retained id)
        end
  end.

(** The [k]-th intent of the loop is resolved under [envs k]. *)
Fixpoint reconcile_all (envs : nat -> EngineEnv) (k : nat) (intents : list RefreshIntent)
  : Eng (list Reconciliation) :=
  match intents with
  | [] => mret []
  | intent :: rest =>
      do! o <- reconcile_one (envs k) intent ;;
      do! os <- reconcile_all envs (k + 1) rest ;;
      mret (o :: os)
  end.

Definition reconcile (envs : nat -> EngineEnv) : Eng (list Reconciliation) :=
  do! intents <- store_call (envs 0%nat) 0 list_intents ;;
  reconcile_all envs 1 intents.
End Engine.
End Engine.
