(* ===== verification/EngineSpecs.v ===== *)
(** * What the refresh engine guarantees ([credentials-core/src/engine.rs])

    Theorems on [Engine.get_for_incarnation] and [Engine.do_refresh]: which store calls a
    read makes ([traces]), that every call of a rotating endpoint is announced on disk
    ([announces], under any interference), when a provider is called at all ([due]), how a
    refresh ends ([settled]), and what a read returns, refuses or defers. *)

From S2P Require Import Prelude Text Crypto Record Envelope AuditLog Database Store Calls Sealed StoreSpecs Accounting Engine.

(** ** The engine as a client of the store *)

Section History.
Context `{C : Crypto} `{X : RecordExt} {Conn : Type} `{S : SqliteStore Conn}.
Abbreviation Eng A := (M (EngineState Conn) EngineError A).

(** Every run of [m] moves the store by some sequence of calls satisfying [P]. *)
Definition traces (P : Call -> Prop) {A} (m : Eng A) : Prop :=
  forall st, exists cs, Forall P cs /\ eng_store (snd (m st)) = run_calls cs (eng_store st).

Definition performs {A} (m : M (EncryptedStore Conn) StoreOpError A) (c : Call) : Prop :=
  forall s, snd (m s) = run_call s c.

Lemma performs_op c : performs (call_op c) c.
Proof. done. Qed.
Lemma performs_ignore {A} (m : M (EncryptedStore Conn) StoreOpError A) c :
  call_op c = ignore m -> performs m c.
Proof. intros E s. unfold run_call. rewrite E. unfold ignore, mbind. by destruct (m s) as [[] ?]. Qed.
Lemma performs_get inp id : performs (Store.get inp id) (CallRead inp id None).
Proof.
  intros s. unfold run_call, Store.get, get_with_stale_pending, get_with_stale_pending_and_digest.
  cbn. unfold ignore, mbind. by destruct (read_snapshot inp id None s) as [[] ?].
Qed.

Context (P : Call -> Prop).

Lemma traces_ret {A} (a : A) : traces P (mret a).
Proof. intros st. by exists []. Qed.
Lemma traces_err {A} e : traces P (merr (A := A) e).
Proof. intros st. by exists []. Qed.
Lemma traces_lift {A} (r : result A EngineError) : traces P (mlift r).
Proof. intros st. by exists []. Qed.
Lemma traces_bind {A B} (m : Eng A) (k : A -> Eng B) :
  traces P m -> (forall a, traces P (k a)) -> traces P (mbind m k).
Proof.
  intros Hm Hk st. destruct (Hm st) as (cs & Hcs & E). unfold mbind.
  destruct (m st) as [[a|e] st1]; cbn in *; [|eauto].
  destruct (Hk a st1) as (cs' & Hcs' & E'). exists (cs ++ cs'). split; [by apply Forall_app|].
  rewrite E', E. unfold run_calls. by rewrite fold_left_app.
Qed.
Lemma traces_exchange env a id o : traces P (Engine.exchange (Conn := Conn) env a id o).
Proof. intros st. by exists []. Qed.

Context (env : EngineEnv).
Hypothesis Hothers : forall i, Forall (fun f => forall d, P (f d)) (env_others env i).

(** What other tasks did is some sequence of calls. *)
Lemma others_are_calls fs (s : EncryptedStore Conn) :
  Forall (fun f => forall d, P (f d)) fs -> exists cs, Forall P cs /\ Engine.run_others fs s = run_calls cs s.
Proof.
  intros Hfs. revert s. induction Hfs as [|f fs Hf _ IH]; intros s; [by exists []|].
  destruct (IH (run_call s (f (es_db s)))) as (cs & Hcs & E). exists (f (es_db s) :: cs). split; [by constructor|exact E].
Qed.

Lemma traces_try {A} i (m : M (EncryptedStore Conn) StoreOpError A) c :
  performs m c -> P c -> traces P (Engine.store_try env i m).
Proof.
  intros Hm Hc st. destruct (others_are_calls _ (eng_store st) (Hothers i)) as (cs & Hcs & E).
  exists (cs ++ [c]). split.
  - apply Forall_app. split; [done|by constructor].
  - unfold Engine.store_try. specialize (Hm (Engine.run_others (env_others env i) (eng_store st))).
    destruct (m _) as [r s']; cbn in *. subst s'. rewrite E. unfold run_calls. by rewrite fold_left_app.
Qed.
Lemma traces_call {A} i (m : M (EncryptedStore Conn) StoreOpError A) c :
  performs m c -> P c -> traces P (Engine.store_call env i m).
Proof.
  intros Hm Hc. apply traces_bind; [by eapply traces_try|]. intros. apply traces_lift.
Qed.
End History.

(** The call a store operation performs. *)
Ltac call_of m :=
  lazymatch m with
  | Store.get ?inp ?id => constr:(CallRead inp id None)
  | read_snapshot ?inp ?id ?e => constr:(CallRead inp id e)
  | get_snapshot ?inp ?id ?e => constr:(CallRead inp id (Some e))
  | set_state ?inp ?id ?st ?b ?c => constr:(CallSetState inp id st b c)
  | invalidate_in_incarnation ?inp ?id ?v ?i ?c ?o => constr:(CallInvalidate inp id v i c o)
  | invalidate_if_version_reported ?inp ?id ?v ?c ?o => constr:(CallInvalidateIfVersion inp id v c o)
  | record_auth_event ?inp ?id ?o ?v => constr:(CallRecordEvent inp id o v)
  | record_stale_refresh_deferred ?inp ?id ?v => constr:(CallRecordDeferred inp id v)
  | has_refresh_intent ?id => constr:(CallHasIntent id)
  | list_intents => constr:(CallListIntents)
  | open_intent ?inp ?id ?v ?h => constr:(CallOpenIntent inp id v h)
  | commit_refresh ?inp ?id ?v ?r => constr:(CallCommitRefresh inp id v r)
  | clear_intent ?id => constr:(CallClearIntent id)
  | held_detected_plan ?j ?id ?r => constr:(CallHeldPlan j id r)
  | observe_github_app_permissions ?inp ?j ?o ?id ?v ?p => constr:(CallObservePermissions inp j o id v p)
  end.

Ltac performing :=
  lazymatch goal with
  | |- performs ?m ?c =>
      let c' := call_of m in unify c c';
      first [apply performs_get | exact (performs_op c') | apply performs_ignore; reflexivity]
  end.

Ltac trace_step :=
  lazymatch goal with
  | |- traces _ (mbind _ _) => apply traces_bind; [|intros ?]
  | |- traces _ (mret _) => apply traces_ret
  | |- traces _ (merr _) => apply traces_err
  | |- traces _ (mlift _) => apply traces_lift
  | |- traces _ (Engine.exchange _ _ _ _) => apply traces_exchange
  | |- traces _ (if ?b then _ else _) => destruct b
  | |- traces _ (match ?x with _ => _ end) => destruct x
  end.

Ltac trace_solve :=
  repeat first
    [ progress trace_step
    | progress cbn zeta
    | lazymatch goal with
      | Ho : forall i, Forall _ (env_others _ i), Hc : forall c, _ -> _ |- traces _ (Engine.store_call _ _ _) =>
          eapply traces_call; [exact Ho|performing|apply Hc; cbn; eauto]
      | Ho : forall i, Forall _ (env_others _ i), Hc : forall c, _ -> _ |- traces _ (Engine.store_try _ _ _) =>
          eapply traces_try; [exact Ho|performing|apply Hc; cbn; eauto]
      end ].

Section Client.
Context `{C : Crypto} `{X : RecordExt} {Conn : Type} `{S : SqliteStore Conn}.

(** The store calls a read of [id] makes of its own. *)
Definition engine_call (env : EngineEnv) (id : string) (c : Call) : Prop :=
  match c with
  | CallRead inp i _ | CallInvalidate inp i _ _ _ _ | CallInvalidateIfVersion inp i _ _ _
  | CallRecordEvent inp i _ _ | CallRecordDeferred inp i _ | CallOpenIntent inp i _ _
  | CallCommitRefresh inp i _ _
  | CallObservePermissions inp _ _ i _ _ => i = id /\ exists k, inp = env_inputs env k
  | CallHasIntent i | CallClearIntent i | CallHeldPlan _ i _ => i = id
  | _ => False
  end.

Lemma do_refresh_traces (P : Call -> Prop) env id r :
  (forall i, Forall (fun f => forall d, P (f d)) (env_others env i)) -> (forall c, engine_call env id c -> P c) ->
  traces P (Engine.do_refresh (Conn := Conn) env id r).
Proof.
  intros Ho Hc. unfold Engine.do_refresh, Engine.resolve_answer, Engine.commit_tokens. trace_solve.
Qed.

Lemma get_traces (P : Call -> Prop) env id exp min_ttl force :
  (forall i, Forall (fun f => forall d, P (f d)) (env_others env i)) -> (forall c, engine_call env id c -> P c) ->
  traces P (Engine.get_for_incarnation (Conn := Conn) env id exp min_ttl force).
Proof.
  intros Ho Hc. unfold Engine.get_for_incarnation, Engine.get_locked.
  trace_solve. by apply do_refresh_traces.
Qed.

(** The store calls the reconciliation of an intent for [id] makes. *)
Definition recovery_call (env : EngineEnv) (id : string) (c : Call) : Prop :=
  match c with
  | CallRead inp i None | CallSetState inp i NeedsReauthState _ _ => i = id /\ exists k, inp = env_inputs env k
  | CallClearIntent i => i = id
  | _ => False
  end.

Lemma reconcile_one_traces (P : Call -> Prop) env intent :
  (forall i, Forall (fun f => forall d, P (f d)) (env_others env i)) ->
  (forall c, recovery_call env (ri_credential_id intent) c -> P c) ->
  traces P (Engine.reconcile_one (Conn := Conn) env intent).
Proof.
  intros Ho Hc. unfold Engine.reconcile_one, invalidate, invalidate_audited, mark_needs_reauth_retaining_intent.
  trace_solve.
Qed.
End Client.

(** ** Every exchange is announced *)

Section Announce.
Context `{C : Crypto} `{X : RecordExt} {Conn : Type} `{L : SqliteStoreLaws Conn}.
Abbreviation Eng A := (M (EngineState Conn) EngineError A).

Lemma store_try_eq {A} env i (m : M (EncryptedStore Conn) StoreOpError A) st :
  Engine.store_try env i m st =
  (Ok (fst (m (Engine.run_others (env_others env i) (eng_store st)))),
   Build_EngineState (snd (m (Engine.run_others (env_others env i) (eng_store st)))) (eng_exchanges st)).
Proof. unfold Engine.store_try. by destruct (m _). Qed.
Lemma store_call_eq {A} env i (m : M (EncryptedStore Conn) StoreOpError A) st :
  Engine.store_call env i m st =
  (map_err EngineStore (fst (m (Engine.run_others (env_others env i) (eng_store st)))),
   Build_EngineState (snd (m (Engine.run_others (env_others env i) (eng_store st)))) (eng_exchanges st)).
Proof. unfold Engine.store_call, mbind, mlift. by rewrite store_try_eq. Qed.

(** [m] makes no exchange. *)
Definition silent {A} (m : Eng A) : Prop :=
  forall st, eng_exchanges (snd (m st)) = eng_exchanges st.

Lemma silent_ret {A} (a : A) : silent (mret a).
Proof. done. Qed.
Lemma silent_err {A} e : silent (merr (A := A) e).
Proof. done. Qed.
Lemma silent_lift {A} (r : result A EngineError) : silent (mlift r).
Proof. done. Qed.
Lemma silent_try {A} env i (m : M (EncryptedStore Conn) StoreOpError A) : silent (Engine.store_try env i m).
Proof. intros st. by rewrite store_try_eq. Qed.
Lemma silent_bind {A B} (m : Eng A) (k : A -> Eng B) :
  silent m -> (forall a, silent (k a)) -> silent (mbind m k).
Proof.
  intros Hm Hk st. unfold mbind. specialize (Hm st). destruct (m st) as [[a|e] st1]; cbn in *; [|done].
  by rewrite Hk.
Qed.
Lemma silent_call {A} env i (m : M (EncryptedStore Conn) StoreOpError A) : silent (Engine.store_call env i m).
Proof. intros st. by rewrite store_call_eq. Qed.

(** The intent for this exchange, with the hash of the very token sent, is on disk. *)
Definition announced (id : string) (e : Exchange) : Prop :=
  ex_credential_id e = id /\
  exists i, ex_intent e = Some i /\ ri_credential_id i = id /\
    ri_old_refresh_hash i = refresh_token_hash (refresh_token (ex_oauth e)).

(** [m] makes at most one exchange, and announces it. *)
Definition announces (id : string) {A} (m : Eng A) : Prop :=
  forall st, exists new, eng_exchanges (snd (m st)) = eng_exchanges st ++ new /\
    (length new <= 1)%nat /\ Forall (announced id) new.

Lemma announces_silent id {A} (m : Eng A) : silent m -> announces id m.
Proof. intros Hm st. exists []. rewrite Hm, app_nil_r. cbn. auto with lia. Qed.
Lemma announces_after id {A B} (m : Eng A) (k : A -> Eng B) :
  silent m -> (forall a, announces id (k a)) -> announces id (mbind m k).
Proof.
  intros Hm Hk st. unfold mbind. specialize (Hm st). destruct (m st) as [[a|e] st1]; cbn in *.
  - destruct (Hk a st1) as (new & E & ?). exists new. by rewrite E, Hm.
  - exists []. rewrite Hm, app_nil_r. cbn. auto with lia.
Qed.
Lemma announces_before id {A B} (m : Eng A) (k : A -> Eng B) :
  announces id m -> (forall a, silent (k a)) -> announces id (mbind m k).
Proof.
  intros Hm Hk st. unfold mbind. specialize (Hm st). destruct (m st) as [[a|e] st1]; cbn in *; [|done].
  by rewrite Hk.
Qed.
End Announce.

Ltac silent_step :=
  lazymatch goal with
  | |- silent (mbind _ _) => apply silent_bind; [|intros ?]
  | |- silent (mret _) => apply silent_ret
  | |- silent (merr _) => apply silent_err
  | |- silent (mlift _) => apply silent_lift
  | |- silent (Engine.store_try _ _ _) => apply silent_try
  | |- silent (Engine.store_call _ _ _) => apply silent_call
  | |- silent (if ?b then _ else _) => destruct b
  | |- silent (match ?x with _ => _ end) => destruct x
  end.
Ltac silence := repeat (cbn zeta; silent_step).

Section AnnounceProofs.
Context `{C : Crypto} `{X : RecordExt} {Conn : Type} `{L : SqliteStoreLaws Conn}.

Lemma open_intent_inv inp id v h (s s' : EncryptedStore Conn) u :
  open_intent inp id v h s = (Ok u, s') ->
  es_db s' = with_refresh_intent (insert id
    {| ri_credential_id := id; ri_record_version := as_i64 v; ri_old_refresh_hash := h;
       ri_lease_epoch := as_i64 (conn_epoch (es_conn s)); ri_started_at_ms := in_now inp 0 |}) (es_db s).
Proof. unfold open_intent, with_epoch. intros H1. apply fenced_ok_inv in H1. unfold exec in H1. by injection H1. Qed.

Lemma resolve_silent env id a r o answer : silent (Engine.resolve_answer (Conn := Conn) env id a r o answer).
Proof. unfold Engine.resolve_answer, Engine.commit_tokens. destruct answer as [t|[]]; silence. Qed.

Lemma do_refresh_announces env id r : announces id (Engine.do_refresh (Conn := Conn) env id r).
Proof.
  unfold Engine.do_refresh. do 2 (apply announces_after; [silence|intros ?]).
  destruct (negb _); [apply announces_silent; silence|]. cbn zeta.
  intros st. unfold mbind at 1. rewrite store_call_eq.
  set (s0 := Engine.run_others _ _). destruct (open_intent _ _ _ _ s0) as [[u|e] s1] eqn:Eo; cbn [fst snd map_err].
  2: { exists []. rewrite app_nil_r. cbn. auto with lia. }
  apply open_intent_inv in Eo. unfold mbind at 1, Engine.exchange at 1. cbn [eng_store eng_exchanges].
  rewrite resolve_silent. cbn [eng_exchanges]. eexists. split; [reflexivity|]. split; [done|].
  repeat constructor. cbn. rewrite Eo. cbn. rewrite lookup_insert_eq. eauto.
Qed.

Lemma get_announces env id exp min_ttl force :
  announces id (Engine.get_for_incarnation (Conn := Conn) env id exp min_ttl force).
Proof.
  unfold Engine.get_for_incarnation, Engine.get_locked.
  repeat first
    [ apply announces_after; [silence; fail|intros ?]
    | apply announces_before; [apply do_refresh_announces|intros ?; silence]
    | lazymatch goal with |- announces _ (if ?b then _ else _) => destruct b end
    | solve [apply announces_silent; silence] | progress cbn zeta ].
Qed.

Lemma reconcile_silent envs : silent (Engine.reconcile (Conn := Conn) envs).
Proof.
  unfold Engine.reconcile. silence. generalize 1%nat as k.
  induction a as [|i rest IH]; intros k; cbn; [silence|].
  unfold Engine.reconcile_one. silence; apply IH.
Qed.

(** C1: the vault never spends a refresh token it has not written down first. Whatever
    the clocks, the provider and other tasks do, one read makes at most one call of the
    rotating endpoint, and when it does, an intent for that credential carrying the hash
    of the very refresh token sent is already committed. Recovery makes no such call. *)
Theorem every_exchange_is_announced env id exp min_ttl force (st : EngineState Conn) :
  (exists new, eng_exchanges (snd (Engine.get_for_incarnation env id exp min_ttl force st))
               = eng_exchanges st ++ new /\ (length new <= 1)%nat /\ Forall (announced id) new) /\
  (forall envs, eng_exchanges (snd (Engine.reconcile envs st)) = eng_exchanges st).
Proof. split; [apply get_announces|]. intros envs. apply reconcile_silent. Qed.
End AnnounceProofs.

(** ** An undisturbed read *)

Section Quiet.
Context `{C : Crypto} `{!CryptoLaws C} `{X : RecordExt} `{!RecordExtLaws X}.
Context {Conn : Type} `{L : SqliteStoreLaws Conn}.

Definition undisturbed (env : EngineEnv) : Prop := forall i, env_others env i = [].

Lemma quiet_call {A} env i (m : M (EncryptedStore Conn) StoreOpError A) st :
  undisturbed env ->
  Engine.store_call env i m st =
  (map_err EngineStore (fst (m (eng_store st))), Build_EngineState (snd (m (eng_store st))) (eng_exchanges st)).
Proof. intros Hq. rewrite store_call_eq, Hq. done. Qed.
Lemma quiet_try {A} env i (m : M (EncryptedStore Conn) StoreOpError A) st :
  undisturbed env ->
  Engine.store_try env i m st =
  (Ok (fst (m (eng_store st))), Build_EngineState (snd (m (eng_store st))) (eng_exchanges st)).
Proof. intros Hq. rewrite store_try_eq, Hq. done. Qed.

(** The record a read would act on: what the row of [id] opens to. *)
Definition current (st : EngineState Conn) (id : string) (row : CredRow) (r : VaultRecord) : Prop :=
  credentials (es_db (eng_store st)) !! id = Some row /\ cr_state row = "active" /\
  open_existing (keys_of (eng_store st)) id (cr_record_version row) (cr_envelope row) = Some r.

(** When the engine may call a provider: nothing is unresolved, the record can be
    refreshed, and a refresh is due for a reason of its own. *)
Definition due (env : EngineEnv) (st : EngineState Conn) (id : string) (min_ttl : option Z) (force : bool)
  : Prop :=
  refresh_intent (es_db (eng_store st)) !! id = None /\
  exists row r, current st id row r /\ is_refreshable r = true /\
    (force = true \/ Engine.is_stale env 3 r min_ttl = true \/ Engine.is_stale env 5 r min_ttl = true \/
     (cr_stale_pending row = true /\ Engine.within_report_cooldown env (cr_updated_at_ms row) = false)).

Lemma call_ok_inv {A} env i (m : M (EncryptedStore Conn) StoreOpError A) st a st' :
  undisturbed env -> Engine.store_call env i m st = (Ok a, st') ->
  m (eng_store st) = (Ok a, eng_store st') /\ eng_exchanges st' = eng_exchanges st.
Proof.
  intros Hq. rewrite quiet_call by done. destruct (m (eng_store st)) as [[x|e] s1]; [|done].
  cbn. intros [= <- <-]. done.
Qed.
End Quiet.

(** [H] claims an exchange of a silent program. *)
Ltac no_exchange H :=
  lazymatch type of H with
  | eng_exchanges (snd (?k ?st)) <> _ =>
      exfalso; apply H; let Hs := fresh in assert (silent k) as Hs by silence; apply Hs
  end.

Section Due.
Context `{C : Crypto} `{!CryptoLaws C} `{X : RecordExt} `{!RecordExtLaws X}.
Context {Conn : Type} `{L : SqliteStoreLaws Conn}.
Abbreviation Eng A := (M (EngineState Conn) EngineError A).

(** An exchange after a silent step was made by the continuation. *)
Lemma bind_exchange_inv {A B} (m : Eng A) (k : A -> Eng B) st :
  silent m -> eng_exchanges (snd (mbind m k st)) <> eng_exchanges st ->
  exists a st1, m st = (Ok a, st1) /\ eng_exchanges st1 = eng_exchanges st /\
    mbind m k st = k a st1 /\ eng_exchanges (snd (k a st1)) <> eng_exchanges st1.
Proof.
  intros Hm. unfold mbind. specialize (Hm st). destruct (m st) as [[a|e] st1]; cbn in *; [|done].
  intros H1. exists a, st1. split_and!; [done..|]. by rewrite Hm.
Qed.

Lemma call_exchange_inv {A B} env i (m : M (EncryptedStore Conn) StoreOpError A) (k : A -> Eng B) st :
  undisturbed env ->
  eng_exchanges (snd (mbind (Engine.store_call env i m) k st)) <> eng_exchanges st ->
  exists a st1, m (eng_store st) = (Ok a, eng_store st1) /\ eng_exchanges st1 = eng_exchanges st /\
    mbind (Engine.store_call env i m) k st = k a st1 /\ eng_exchanges (snd (k a st1)) <> eng_exchanges st1.
Proof.
  intros Hq H1. apply bind_exchange_inv in H1 as (a & st1 & E & ? & ? & ?); [|apply silent_call].
  apply call_ok_inv in E as [E _]; [|done]. by exists a, st1.
Qed.

Lemma silent_after {A B} (m : Eng A) (k : A -> Eng B) st :
  (forall a, silent (k a)) -> eng_exchanges (snd (mbind m k st)) = eng_exchanges (snd (m st)).
Proof. intros Hk. unfold mbind. destruct (m st) as [[a|e] st1]; [apply Hk|done]. Qed.

Lemma has_intent_inv id (s s' : EncryptedStore Conn) b :
  has_refresh_intent id s = (Ok b, s') ->
  b = bool_decide (is_Some (refresh_intent (es_db s) !! id)) /\ es_db s' = es_db s /\ keys_of s' = keys_of s.
Proof.
  intros H1. pose proof (unfenced_query_reads _ _ _ _ H1) as []. apply unfenced_query_ok in H1 as [? _].
  by split_and!.
Qed.

Lemma do_refresh_sends env id r (st : EngineState Conn) :
  undisturbed env ->
  eng_exchanges (snd (Engine.do_refresh env id r st)) <> eng_exchanges st ->
  exists e, eng_exchanges (snd (Engine.do_refresh env id r st)) = eng_exchanges st ++ [e] /\
    oauth r = Some (ex_oauth e).
Proof.
  intros Hq H1. destruct (do_refresh_announces env id r st) as (new & E & Hlen & _).
  unfold Engine.do_refresh in *.
  apply bind_exchange_inv in H1 as (o & st1 & Eo & _ & Em & H1); [|silence].
  unfold mlift in Eo. injection Eo as Eo <-. rewrite Em in E |- *. clear Em.
  apply bind_exchange_inv in H1 as (a & st1 & Ea & _ & Em & H1); [|silence].
  unfold mlift in Ea. injection Ea as Ea <-. rewrite Em in E |- *. clear Em.
  destruct (oauth r) as [o'|]; [|done]. injection Eo as ->.
  destruct (negb _); [done|]. cbn zeta in *.
  apply call_exchange_inv in H1 as (u & st1 & Eu & Hx & Em & H1); [|done]. rewrite Em in E |- *.
  unfold mbind at 1, Engine.exchange at 1 in E. unfold mbind at 1, Engine.exchange at 1.
  rewrite resolve_silent. cbn [eng_exchanges]. rewrite Hx. eexists. split; [reflexivity|]. done.
Qed.

Lemma locked_exchange_due env id inc v0 min_ttl force (st : EngineState Conn) :
  undisturbed env ->
  let st' := snd (Engine.get_locked env id inc v0 min_ttl force st) in
  eng_exchanges st' <> eng_exchanges st ->
  refresh_intent (es_db (eng_store st)) !! id = None /\
  exists row r e, current st id row r /\ is_refreshable r = true /\
    eng_exchanges st' = eng_exchanges st ++ [e] /\ oauth r = Some (ex_oauth e) /\
    (force = true \/ Engine.is_stale env 3 r min_ttl = true \/ Engine.is_stale env 5 r min_ttl = true \/
     (cr_stale_pending row = true /\ Engine.within_report_cooldown env (cr_updated_at_ms row) = false)).
Proof.
  cbn zeta. intros Hq H1. unfold Engine.get_locked in *.
  apply call_exchange_inv in H1 as (x & st1 & Er & Hx1 & -> & H1); [|done].
  apply read_ok_inv in Er as (row & r & Hrow & Hst & _ & Hop & -> & Hd1 & Hk1).
  apply call_exchange_inv in H1 as (b & st2 & Eh & Hx2 & -> & H1); [|done].
  apply has_intent_inv in Eh as (-> & Hd2 & Hk2). rewrite Hd1 in *. case_bool_decide as Hi; [done|].
  cbn [read_of sr_record sr_mark sm_pending sm_record_written_at_ms] in *.
  destruct (negb _) eqn:?; [done|]. destruct (cr_stale_pending row && negb (is_refreshable r)) eqn:Enr.
  { no_exchange H1. }
  destruct (negb _ || negb (is_refreshable r)) eqn:Ew; [done|]. bool_hyps.
  destruct (cr_stale_pending row && negb force && negb _ && _) eqn:Ec.
  { no_exchange H1. }
  split; [by apply eq_None_not_Some|]. rewrite silent_after in H1 |- * by (intros; silence).
  apply do_refresh_sends in H1 as (e & -> & Ho); [|done]. exists row, r, e. rewrite Hx2, Hx1.
  split_and!; [done..|]. unfold current in *.
  destruct force, (Engine.is_stale env 3 r min_ttl), (Engine.is_stale env 5 r min_ttl),
    (cr_stale_pending row), (Engine.within_report_cooldown env (cr_updated_at_ms row)); cbn in *; auto; done.
Qed.

(** A provider is called only when a refresh is due. If an undisturbed read makes an
    exchange then no intent was unresolved, the stored record is active and refreshable,
    the material sent is the material stored, and the refresh was forced, or the token
    is empty, expired or short of the demanded lifetime, or a report marked it stale and
    it is older than the cooldown. *)
Theorem exchange_only_when_due env id exp min_ttl force (st : EngineState Conn) :
  undisturbed env ->
  let st' := snd (Engine.get_for_incarnation env id exp min_ttl force st) in
  eng_exchanges st' <> eng_exchanges st ->
  exists e row r, eng_exchanges st' = eng_exchanges st ++ [e] /\ current st id row r /\ oauth r = Some (ex_oauth e) /\ due env st id min_ttl force.
Proof.
  cbn zeta. intros Hq H1. unfold Engine.get_for_incarnation in *.
  apply call_exchange_inv in H1 as (x & st1 & Er & Hx1 & -> & H1); [|done].
  apply read_ok_inv in Er as (row0 & r0 & _ & _ & _ & _ & -> & Hd1 & Hk1).
  apply call_exchange_inv in H1 as (b & st2 & Eh & Hx2 & -> & H1); [|done].
  apply has_intent_inv in Eh as (-> & Hd2 & Hk2). destruct (negb _ && negb _) eqn:?; [done|].
  apply locked_exchange_due in H1 as (Hi & row & r & e & Hc & Hr & He & Ho & Hw); [|done].
  unfold due, current in *. rewrite Hk2, Hk1, Hd2, Hd1, Hx2, Hx1 in *. exists e, row, r. eauto 10.
Qed.
End Due.

(** ** How a refresh ends *)

Section Settle.
Context `{C : Crypto} `{!CryptoLaws C} `{X : RecordExt} `{!RecordExtLaws X}.
Context {Conn : Type} `{L : SqliteStoreLaws Conn}.

#[local] Hint Resolve permissions_are_diagnostics : rel.

(** What a consumer and a later read can see of [id]. *)
Definition visible (K : Keys) (id : string) (d : Db) : result StoredRead StoreOpError * option RefreshIntent :=
  (read_answer K id None d, refresh_intent d !! id).

Lemma diagnostics_invisible K id d d' : same_but_diagnostics d d' -> visible K id d' = visible K id d.
Proof.
  unfold same_but_diagnostics, forget_diagnostics. intros E. unfold visible, read_answer.
  pose proof (f_equal credentials E) as Ec. pose proof (f_equal refresh_intent E) as Ei. cbn in Ec, Ei.
  rewrite Ei. apply (f_equal (fun m => m !! id)) in Ec. rewrite !lookup_fmap in Ec.
  destruct (credentials d !! id) as [row|], (credentials d' !! id) as [row'|]; cbn in Ec; try done.
  injection Ec as ????????. unfold read_of. by repeat match goal with H : _ = _ row' |- _ => rewrite <- H; clear H end.
Qed.

Lemma held_plan_diagnostic K f id r :
  op_rel K same_but_diagnostics (held_detected_plan (Conn := Conn) f id r).
Proof. call_solve fail. Qed.
Lemma auth_event_diagnostic K inp id o v :
  op_rel K same_but_diagnostics (record_auth_event (Conn := Conn) inp id o v).
Proof. call_solve fail. Qed.
Lemma deferred_diagnostic K inp id v :
  op_rel K same_but_diagnostics (record_stale_refresh_deferred (Conn := Conn) inp id v).
Proof. call_solve fail. Qed.
Lemma permissions_diagnostic K inp f g id v p :
  op_rel K same_but_diagnostics (observe_github_app_permissions (Conn := Conn) inp f g id v p).
Proof. call_solve fail. Qed.

(** A diagnostic call leaves what is visible, and the keys. *)
Lemma diagnostic_step {A} (m : M (EncryptedStore Conn) StoreOpError A) id s :
  (forall K, op_rel K same_but_diagnostics m) ->
  visible (keys_of s) id (es_db (snd (m s))) = visible (keys_of s) id (es_db s) /\
  keys_of (snd (m s)) = keys_of s.
Proof.
  intros Hm. destruct (Hm (keys_of s) s _ _ eq_refl (surjective_pairing (m s))) as (HK & HR & _).
  split; [by apply diagnostics_invisible|done].
Qed.

(** Clearing an intent either fails and changes nothing, or removes exactly it. *)
Lemma clear_intent_inv id (s s' : EncryptedStore Conn) out :
  clear_intent id s = (out, s') ->
  keys_of s' = keys_of s /\
  es_db s' = match out with Ok _ => with_refresh_intent (delete id) (es_db s) | Err _ => es_db s end.
Proof.
  unfold clear_intent. intros H1. pose proof (fenced_keys _ _ _ _ H1). split; [done|].
  destruct out as [u|e]; [|by apply fenced_err_inv in H1].
  apply fenced_ok_inv in H1. apply bind_ok_inv in H1 as (n & d1 & E & H1).
  unfold mret in H1. injection H1 as _ <-. by apply clear_intent_effect in E.
Qed.

(** No call changes the keys. *)
Lemma performs_keys {A} (m : M (EncryptedStore Conn) StoreOpError A) c s x s' :
  m s = (x, s') -> performs m c -> keys_of s' = keys_of s.
Proof.
  intros E Hm. specialize (Hm s). rewrite E in Hm. cbn in Hm. subst s'. unfold run_call.
  by destruct (call_log_grows (keys_of s) c s _ _ eq_refl (surjective_pairing (call_op c s))).
Qed.

Lemma event_tx_frame ts id o v b :
  tx_rel (on (fun d => (credentials d, refresh_intent d)) eq) (append_auth_event_tx ts id o v b).
Proof. unfold append_auth_event_tx, append_secret_auth_event_tx. rel_solve. Qed.

Lemma protected_inv {A} id (work : Tx A) d a d' :
  (do! protected <- deposit_key_write_protected id ;;
   do! holds <- (if negb protected && is_vault_transfer_id id
                 then vault_transfer_key_fence_holds_tx else mret false) ;;
   if protected || holds then merr (Raised TransferKeyProtected) else work) d = (Ok a, d') ->
  work d = (Ok a, d').
Proof.
  intros H1. apply bind_ok_inv in H1 as (p & d1 & E1 & H1). apply bind_ok_inv in H1 as (h & d2 & E2 & H1).
  assert (d1 = d) as ->.
  { unfold deposit_key_write_protected in E1. destruct (negb _); [|unfold query in E1]; by injection E1. }
  assert (d2 = d) as -> by (destruct (negb p && _); by injection E2).
  destruct (p || h); [done|exact H1].
Qed.

(** An update that meets its row, on the two tables in view. *)
Lemma update_hit_view id g upd d row n d' :
  credentials d !! id = Some row -> g row = true -> update_credential id g upd d = (Ok n, d') ->
  n = 1%nat /\ credentials d' = <[id := upd row]> (credentials d) /\ refresh_intent d' = refresh_intent d.
Proof.
  intros Hrow Hg. unfold update_credential. rewrite Hrow, Hg. destruct (bool_decide _); intros; by simplify_eq.
Qed.

Lemma audit_tx_view ak ts r : tx_rel (on (fun d => (credentials d, refresh_intent d)) eq) (append_audit_tx ak ts r).
Proof. tx_frame. Qed.

(** A verdict against the version on disk ends it; a failed call changes nothing. *)
Lemma invalidate_reported_inv inp id v ctx obs (s s' : EncryptedStore Conn) out row :
  credentials (es_db s) !! id = Some row -> cr_state row = "active" -> cr_record_version row = as_i64 v ->
  invalidate_if_version_reported inp id v ctx obs s = (out, s') ->
  keys_of s' = keys_of s /\
  match out with
  | Err _ => es_db s' = es_db s
  | Ok _ => credentials (es_db s') = <[id := set_row_state NeedsReauthState (in_now inp 0) row]> (credentials (es_db s)) /\
            refresh_intent (es_db s') = delete id (refresh_intent (es_db s))
  end.
Proof.
  intros Hrow Hst Hv H1. split.
  { eapply performs_keys; [exact H1|performing]. }
  unfold invalidate_if_version_reported, credential_incarnation in H1.
  unfold mbind at 2 in H1. unfold mbind at 1 in H1.
  destruct (unfenced (query _) s) as [[found|e] s1] eqn:Eq.
  2: { injection H1 as <- <-. by apply unfenced_query_reads in Eq as [-> _]. }
  pose proof (unfenced_query_reads _ _ _ _ Eq) as [Hd Hk]. apply unfenced_query_ok in Eq as [-> _].
  rewrite Hrow in H1. cbn [fmap option_fmap option_map mlift ok_or] in H1.
  rewrite <- Hd. rewrite <- Hd in Hrow. clear Hd. revert H1.
  unfold invalidate_in_incarnation, with_self. unfold mbind at 1.
  destruct (fenced_write_unless_transfer_key_protected _ _ s1) as [[ch|e] s2] eqn:Ef.
  2: { intros [= <- <-]. by apply fenced_err_inv in Ef. }
  apply fenced_ok_inv in Ef. apply protected_inv in Ef. unfold credential_incarnation_matches in Ef.
  apply bind_ok_inv in Ef as (b & d1 & E & Ef). unfold query in E. injection E as <- <-.
  rewrite Hrow in Ef. cbn [fmap option_fmap option_map] in Ef. rewrite bool_decide_eq_true_2 in Ef by done.
  cbn [negb] in Ef. apply bind_ok_inv in Ef as (n & d1 & E & Ef).
  apply update_hit_view with (row := row) in E as (-> & Ec & Ei); [|done|].
  2: { unfold row_version_is, row_state_is. by rewrite Hv, Hst, !bool_decide_eq_true_2. }
  apply bind_ok_inv in Ef as (u & d2 & E & Ef).
  assert ((credentials d1, refresh_intent d1) = (credentials d2, refresh_intent d2)) as Ev.
  { destruct obs; [by apply event_tx_frame in E|]. by injection E as _ ->. }
  injection Ev as Ec2 Ei2. cbn [Nat.ltb Nat.leb] in Ef.
  apply bind_ok_inv in Ef as (m & d3 & E3 & Ef). apply clear_intent_effect in E3. subst d3.
  apply bind_ok_inv in Ef as (x & d4 & E4 & Ef). apply audit_tx_view in E4. injection E4 as Ec4 Ei4.
  unfold mret in Ef. injection Ef as <- Ed. unfold mbind, mlift, ok_or, mret. intros [= <- <-].
  cbn in Ec4, Ei4. rewrite <- Ed, <- Ec4, <- Ec2, Ec, <- Ei4, <- Ei2, Ei. done.
Qed.
End Settle.

Section SettleSpec.
Context `{C : Crypto} `{!CryptoLaws C} `{X : RecordExt} `{!RecordExtLaws X}.
Context {Conn : Type} `{L : SqliteStoreLaws Conn}.
Context (env : EngineEnv) (id : string) (r : VaultRecord).
Hypothesis Hq : undisturbed env.
Hypothesis Hin : inputs_ok (env_inputs env 9).

(** The tokens [t] are what the next read of [id] returns, and nothing is pending. *)
Definition now_serves (K : Keys) (o : OAuthCredential) (t : RefreshedTokens) (d : Db) : Prop :=
  refresh_intent d !! id = None /\
  exists plan sr, read_answer K id None d = Ok sr /\
    sr_record sr = set_version (u64_saturating_add (record_version r) 1)
                     (set_detected_plan plan (Engine.apply_refreshed r o t)) /\
    sm_pending (sr_mark sr) = false.

Lemma now_serves_visible K o t d d' :
  visible K id d' = visible K id d -> now_serves K o t d -> now_serves K o t d'.
Proof. unfold visible, now_serves. intros [= -> ->]. done. Qed.

(** The commit of the record [n], then the diagnostic observation. *)
Lemma commit_step_settles o t plan perms (st : EngineState Conn) :
  let n := set_detected_plan plan (Engine.apply_refreshed r o t) in
  let '(res, st') := (
    do! version <- Engine.store_call env 9 (commit_refresh (env_inputs env 9) id (record_version r) n) ;;
    match perms with
    | Some permissions =>
        do! _ <- Engine.store_try env 10 (observe_github_app_permissions (env_inputs env 10)
                   (env_permissions_json env) (env_permissions_of_json env) id version permissions) ;;
        mret tt
    | None => mret tt
    end) st in
  let K := keys_of (eng_store st) in
  match res with
  | Ok _ => now_serves K o t (es_db (eng_store st'))
  | Err e => (exists e', e = EngineStore e') /\
             visible K id (es_db (eng_store st')) = visible K id (es_db (eng_store st))
  end.
Proof.
  intros n. unfold mbind at 1. rewrite quiet_call by done.
  destruct (commit_refresh _ id _ n (eng_store st)) as [[v|e] s1] eqn:Ec; cbn [fst snd map_err].
  2: { apply commit_refresh_inv in Ec. cbn. rewrite Ec. eauto. }
  assert (keys_of s1 = keys_of (eng_store st)) as HK.
  { eapply performs_keys; [exact Ec|performing]. }
  apply commit_refresh_inv in Ec as (-> & row & blob & Hs & _ & _ & _ & Hd).
  assert (now_serves (keys_of (eng_store st)) o t (es_db s1)) as Hn.
  { rewrite Hd. split; [rewrite committed_intents; apply lookup_delete_eq|].
    exists plan. by apply committed_read. }
  destruct perms as [p|]; [|exact Hn]. unfold mbind. rewrite quiet_try by done. cbn.
  destruct (diagnostic_step (observe_github_app_permissions (env_inputs env 10) (env_permissions_json env)
    (env_permissions_of_json env) id (u64_saturating_add (record_version r) 1) p) id s1) as [Hv _].
  { intros K. apply permissions_diagnostic. }
  rewrite HK in Hv. by eapply now_serves_visible.
Qed.

Lemma same_plan x : set_detected_plan (detected_plan x) x = x.
Proof. by destruct x. Qed.

Lemma commit_tokens_settles a o t (st : EngineState Conn) :
  let '(res, st') := Engine.commit_tokens env id a r o t st in
  let K := keys_of (eng_store st) in
  match res with
  | Ok _ => now_serves K o t (es_db (eng_store st'))
  | Err e => (exists e', e = EngineStore e') /\
             visible K id (es_db (eng_store st')) = visible K id (es_db (eng_store st))
  end.
Proof.
  unfold Engine.commit_tokens. cbn zeta. set (n := Engine.apply_refreshed r o t).
  set (perms := if bool_decide (a = GITHUB_APP_ADAPTER_NAME) then _ else None).
  destruct (bool_decide (a = "anthropic")).
  2: { unfold mbind at 1, mret at 1. rewrite <- (same_plan n). apply commit_step_settles. }
  unfold mbind at 1. unfold mbind at 1. rewrite quiet_try by done.
  destruct (diagnostic_step (held_detected_plan (env_identity_of_json env) id r) id (eng_store st)) as [Hv HK].
  { intros K. apply held_plan_diagnostic. }
  destruct (held_detected_plan _ id r (eng_store st)) as [held s1]. cbn [fst snd] in *.
  set (st1 := Build_EngineState s1 (eng_exchanges st)). change s1 with (eng_store st1) in Hv, HK.
  assert (exists plan, (match held with
      | Ok (Some plan) => mret (set_detected_plan (Some plan) n)
      | _ => mret n
      end) st1 = (Ok (E := EngineError) (set_detected_plan plan n), st1)) as [plan ->].
  { destruct held as [[p|]|]; [by exists (Some p)|exists (detected_plan n); by rewrite same_plan..]. }
  pose proof (commit_step_settles o t plan perms st1) as Hc. cbn zeta in Hc. fold n in Hc.
  destruct (mbind _ _ st1) as [[u|e] st']; rewrite HK in Hc; [exact Hc|].
  destruct Hc as [He Hc]. split; [exact He|]. by rewrite Hc.
Qed.
End SettleSpec.

Section Settles.
Context `{C : Crypto} `{!CryptoLaws C} `{X : RecordExt} `{!RecordExtLaws X}.
Context {Conn : Type} `{L : SqliteStoreLaws Conn}.

(** The exchange happened and its outcome is on record nowhere but in the intent. *)
Definition left_pending (K : Keys) (id : string) (o : OAuthCredential) (d d' : Db) : Prop :=
  exists i, ri_old_refresh_hash i = refresh_token_hash (refresh_token o) /\
    visible K id d' = (read_answer K id None d, Some i).

(** How a refresh may end, by what it returned. *)
Definition settled (env : EngineEnv) (id : string) (r : VaultRecord) (st st' : EngineState Conn)
    (res : result unit EngineError) : Prop :=
  let K := keys_of (eng_store st) in
  let d := es_db (eng_store st) in
  let d' := es_db (eng_store st') in
  exists o a, oauth r = Some o /\ refresh_adapter r = Some a /\
  match res with
  | Ok _ => exists t, env_refresh env a id o = Ok t /\ str_is_empty (rt_access_token t) = false /\
              now_serves id r K o t d'
  | Err (RefreshFailed (InvalidGrant _ | SubscriptionRequired)) => visible K id d' = (Err NeedsReauth, None)
  | Err (RefreshFailed _) => visible K id d' = (read_answer K id None d, None)
  | Err (EngineStore _) =>
      (visible K id d' = visible K id d /\ eng_exchanges st' = eng_exchanges st) \/ left_pending K id o d d'
  | Err (UnknownAdapter n) => st' = st /\ n = a /\ env_adapter env a = false
  | Err Panicked => False
  end.

Lemma clear_then_fail env id i (st : EngineState Conn) {A} (k : unit -> M (EngineState Conn) EngineError A) :
  undisturbed env ->
  mbind (Engine.store_call env i (clear_intent id)) k st =
  match clear_intent id (eng_store st) with
  | (Ok u, s') => k u (Build_EngineState s' (eng_exchanges st))
  | (Err e, s') => (Err (EngineStore e), Build_EngineState s' (eng_exchanges st))
  end.
Proof. intros Hq. unfold mbind. rewrite quiet_call by done. by destruct (clear_intent id _) as [[] ?]. Qed.

Lemma cleared_visible K id d : visible K id (with_refresh_intent (delete id) d) = (read_answer K id None d, None).
Proof. unfold visible. cbn. by rewrite lookup_delete_eq. Qed.

Lemma opened_visible K id i d : visible K id (with_refresh_intent (insert id i) d) = (read_answer K id None d, Some i).
Proof. unfold visible. cbn. by rewrite lookup_insert_eq. Qed.
End Settles.

Section SettlesProof.
Context `{C : Crypto} `{!CryptoLaws C} `{X : RecordExt} `{!RecordExtLaws X}.
Context {Conn : Type} `{L : SqliteStoreLaws Conn}.
Context (env : EngineEnv) (id : string) (r : VaultRecord) (o : OAuthCredential) (a : string).
Context (row : CredRow) (i : RefreshIntent) (st0 st : EngineState Conn).
Hypothesis Hq : undisturbed env.
Hypothesis Hin : inputs_ok (env_inputs env 9).
Hypothesis Ho : oauth r = Some o.
Hypothesis Ha : refresh_adapter r = Some a.
(** [st] is [st0] with the intent opened. *)
Hypothesis Hh : ri_old_refresh_hash i = refresh_token_hash (refresh_token o).
Hypothesis HK : keys_of (eng_store st) = keys_of (eng_store st0).
Hypothesis Hd : es_db (eng_store st) = with_refresh_intent (insert id i) (es_db (eng_store st0)).
Hypothesis Hrow : credentials (es_db (eng_store st0)) !! id = Some row.
Hypothesis Hst : cr_state row = "active".
Hypothesis Hv : cr_record_version row = as_i64 (record_version r).

Abbreviation K0 := (keys_of (eng_store st0)).
Abbreviation d0 := (es_db (eng_store st0)).

Lemma store_failure_pends e st' :
  visible K0 id (es_db (eng_store st')) = visible K0 id (es_db (eng_store st)) ->
  settled env id r st0 st' (Err (EngineStore e)).
Proof. intros E. exists o, a. split_and!; [done..|]. right. exists i. by rewrite E, Hd, opened_visible. Qed.

Lemma cleared_settles u s1 :
  clear_intent id (eng_store st) = (Ok u, s1) ->
  visible K0 id (es_db s1) = (read_answer K0 id None d0, None) /\ keys_of s1 = K0.
Proof. intros E. apply clear_intent_inv in E as [EK E]. by rewrite E, Hd, cleared_visible, EK, HK. Qed.

Lemma dead_settles e :
  match e with InvalidGrant _ | SubscriptionRequired => True | _ => False end ->
  let '(res, st') := Engine.resolve_answer env id a r o (Err e) st in settled env id r st0 st' res.
Proof.
  intros He. assert (Engine.resolve_answer (Conn := Conn) env id a r o (Err e) =
    do! _ <- Engine.store_call env 8 (invalidate_if_version_reported (env_inputs env 8) id (record_version r)
               (ctx_vault Invalidate) (Some (Engine.refresh_failed_observation None e))) ;;
    merr (RefreshFailed e)) as -> by (by destruct e).
  unfold mbind. rewrite quiet_call by done.
  destruct (invalidate_if_version_reported _ _ _ _ _ _) as [[b|x] s1] eqn:E; cbn [fst snd map_err];
    eapply invalidate_reported_inv in E as [_ E]; try exact Hst; try exact Hv; try (rewrite Hd; exact Hrow).
  - destruct E as [Ec Ei]. exists o, a. split_and!; [done..|]. unfold visible, read_answer. cbn [eng_store].
    rewrite Ec, Ei, lookup_insert_eq, lookup_delete_eq. by destruct e.
  - apply store_failure_pends. cbn. by rewrite E.
Qed.

Lemma transient_settles e :
  match e with InvalidGrant _ | SubscriptionRequired => False | _ => True end ->
  let '(res, st') := Engine.resolve_answer env id a r o (Err e) st in settled env id r st0 st' res.
Proof.
  intros He. assert (Engine.resolve_answer (Conn := Conn) env id a r o (Err e) =
    do! _ <- Engine.store_call env 8 (clear_intent id) ;;
    do! _ <- Engine.store_try env 9 (record_auth_event (env_inputs env 9) id
               (Engine.refresh_failed_observation (provider_status e) e) (Some (record_version r))) ;;
    merr (RefreshFailed e)) as -> by (by destruct e).
  rewrite clear_then_fail by done. destruct (clear_intent id (eng_store st)) as [[u|x] s1] eqn:E.
  - unfold mbind. rewrite quiet_try by done. apply cleared_settles in E as [E EK].
    destruct (diagnostic_step (record_auth_event (env_inputs env 9) id
      (Engine.refresh_failed_observation (provider_status e) e) (Some (record_version r))) id s1) as [Hvis _].
    { intros K. apply auth_event_diagnostic. }
    rewrite EK, E in Hvis. exists o, a. split_and!; [done..|]. by destruct e.
  - apply clear_intent_inv in E as [_ E]. apply store_failure_pends. cbn. by rewrite E.
Qed.

Lemma tokens_settle t :
  env_refresh env a id o = Ok t ->
  let '(res, st') := Engine.resolve_answer env id a r o (Ok t) st in settled env id r st0 st' res.
Proof.
  intros Er. cbn [Engine.resolve_answer]. destruct (str_is_empty (rt_access_token t)) eqn:Ee.
  - rewrite clear_then_fail by done. destruct (clear_intent id (eng_store st)) as [[u|e] s1] eqn:E.
    + apply cleared_settles in E as [E _]. exists o, a. by split_and!.
    + apply clear_intent_inv in E as [_ E]. apply store_failure_pends. cbn. by rewrite E.
  - pose proof (commit_tokens_settles env id r Hq Hin a o t st) as Hc.
    destruct (Engine.commit_tokens env id a r o t st) as [[u|e] st']; cbn zeta in Hc; rewrite HK in Hc.
    + exists o, a. split_and!; [done..|]. eauto.
    + destruct Hc as [[e' ->] Hc]. by apply store_failure_pends.
Qed.

Lemma answer_settles :
  let '(res, st') := Engine.resolve_answer env id a r o (env_refresh env a id o) st in settled env id r st0 st' res.
Proof.
  destruct (env_refresh env a id o) as [t|[]] eqn:E;
    [by apply tokens_settle|by apply dead_settles..|by apply transient_settles|by apply transient_settles|by apply transient_settles].
Qed.
End SettlesProof.

Section RefreshSpec.
Context `{C : Crypto} `{!CryptoLaws C} `{X : RecordExt} `{!RecordExtLaws X}.
Context {Conn : Type} `{L : SqliteStoreLaws Conn}.

(** C6: a refresh of the stored record ends in one of a few states, told apart by what
    it returns. It was called on a row that opens to an active, refreshable record at the
    row's own version, and no other task runs between its store calls. Success: the provider issued tokens, the next read returns exactly them
    at the next version, nothing is pending. A dead refresh token: the record awaits
    re-authentication, nothing is pending. Any other provider failure: the record reads
    as before, nothing is pending. A failure of the store: the record reads as before,
    and if the provider was already called the intent naming the spent token is still
    there. An unregistered adapter: nothing happened. It never panics. *)
Theorem refresh_settles env id r row (st st' : EngineState Conn) res :
  undisturbed env -> inputs_ok (env_inputs env 9) -> current st id row r ->
  cr_record_version row = as_i64 (record_version r) -> is_refreshable r = true ->
  Engine.do_refresh env id r st = (res, st') -> settled env id r st st' res.
Proof.
  intros Hq Hin (Hrow & Hst & _) Hv Hr. unfold Engine.do_refresh. intros H1.
  apply is_refreshable_true in Hr as (_ & a & o & Ha & Ho).
  rewrite Ho, Ha in H1. unfold mbind at 1, mlift at 1, ok_or at 1 in H1.
  unfold mbind at 1, mlift at 1, ok_or at 1 in H1.
  destruct (env_adapter env a) eqn:Ea; cbn [negb] in H1.
  2: { injection H1 as <- <-. exists o, a. by split_and!. }
  cbn zeta in H1. unfold mbind at 1 in H1. rewrite quiet_call in H1 by done.
  destruct (open_intent _ _ _ _ _) as [[u|e] s1] eqn:Eo; cbn [fst snd map_err] in H1.
  2: { injection H1 as <- <-. unfold open_intent, with_epoch in Eo. apply fenced_err_inv in Eo.
       exists o, a. split_and!; [done..|]. left. cbn. by rewrite Eo. }
  pose proof (performs_keys _ (CallOpenIntent _ _ _ _) _ _ _ Eo ltac:(done)) as HK.
  apply open_intent_inv in Eo. unfold mbind, Engine.exchange in H1. cbn [eng_store eng_exchanges] in H1.
  set (st1 := Build_EngineState s1 _) in H1.
  epose proof (answer_settles env id r o a row _ st st1 Hq Hin Ho Ha _ HK Eo Hrow Hst Hv) as Hs.
  rewrite H1 in Hs. exact Hs. Unshelve. done.
Qed.
End RefreshSpec.

(** ** What a read returns *)

Section Served.
Context `{C : Crypto} `{!CryptoLaws C} `{X : RecordExt} `{!RecordExtLaws X}.
Context {Conn : Type} `{L : SqliteStoreLaws Conn}.

Lemma read_ok_answer inp id exp (s s' : EncryptedStore Conn) x :
  read_snapshot inp id exp s = (Ok x, s') ->
  read_answer (keys_of s) id None (es_db s) = Ok x /\ es_db s' = es_db s /\ keys_of s' = keys_of s /\
  (forall i, exp = Some i -> i = sr_incarnation x).
Proof.
  intros H1. apply read_ok_inv in H1 as (row & r & Hrow & Hst & He & Hop & -> & Hd & HK).
  split_and!; [|done..]. unfold read_answer. rewrite Hrow, Hst. change (state_from_str "active") with Active.
  cbn match. by rewrite Hop.
Qed.

Abbreviation no_intent id := (on refresh_intent (keeps (fun m => m !! id = None))).

Lemma clear_keeps_none id id' : tx_rel (no_intent id) (clear_intent_tx id').
Proof.
  intros d a d' H1. apply clear_intent_effect in H1 as ->. unfold on, keeps. cbn. intros Hn.
  rewrite lookup_delete. case_decide; [done|exact Hn].
Qed.
#[local] Hint Resolve clear_keeps_none : rel.

Lemma invalidate_keeps_none K inp id v inc ctx obs id' :
  op_rel K (no_intent id') (invalidate_in_incarnation (Conn := Conn) inp id v inc ctx obs).
Proof. call_solve fail. Qed.

Lemma run_calls_keys cs (s : EncryptedStore Conn) : keys_of (run_calls cs s) = keys_of s.
Proof.
  destruct (calls_rel (keys_of s) (on audit_log (log_grows (keys_of s))) cs s) as (HK & _); [|done..].
  apply Forall_forall. intros c _. apply call_log_grows.
Qed.

Lemma do_refresh_keys env id r (st : EngineState Conn) :
  keys_of (eng_store (snd (Engine.do_refresh env id r st))) = keys_of (eng_store st).
Proof.
  assert (traces (Conn := Conn) (fun _ => True) (Engine.do_refresh env id r)) as Ht.
  { apply do_refresh_traces; [|done]. intros i. by apply Forall_true. }
  destruct (Ht st) as (cs & _ & ->). apply run_calls_keys.
Qed.

Lemma resolve_err_not_ok env id a r o e (st st' : EngineState Conn) u :
  Engine.resolve_answer env id a r o (Err e) st <> (Ok u, st').
Proof. unfold Engine.resolve_answer. destruct e; intros H1; ok_inv H1; discriminate H1. Qed.

Lemma do_refresh_ok env id r (st st' : EngineState Conn) u :
  undisturbed env -> inputs_ok (env_inputs env 9) ->
  Engine.do_refresh env id r st = (Ok u, st') ->
  refresh_intent (es_db (eng_store st')) !! id = None /\ keys_of (eng_store st') = keys_of (eng_store st).
Proof.
  intros Hq Hin H1. split; [|by rewrite <- (do_refresh_keys env id r st), H1].
  unfold Engine.do_refresh in H1. ok_inv H1. cbn zeta in H1. ok_inv H1.
  unfold Engine.exchange in E2. injection E2 as <- <-.
  destruct (env_refresh env a0 id a) as [t|e]; [|by apply resolve_err_not_ok in H1].
  cbn [Engine.resolve_answer] in H1. destruct (str_is_empty _); [by ok_inv H1; discriminate H1|].
  pose proof (commit_tokens_settles env id r Hq Hin a0 a t (Build_EngineState (eng_store s)
    (eng_exchanges s ++ [{| ex_credential_id := id; ex_oauth := a;
      ex_intent := refresh_intent (es_db (eng_store s)) !! id |}]))) as Hc.
  rewrite H1 in Hc. apply Hc.
Qed.

(** What [g] says is what the store holds for [id], and nothing is pending there. *)
Definition truthful (K : Keys) (id : string) (g : GetWithRefreshStatus) (d : Db) : Prop :=
  exists sr, visible K id d = (Ok sr, None) /\ gs_record g = sr_record sr /\
    gs_stored_digest_hex g = sr_stored_digest_hex sr /\ gs_incarnation g = sr_incarnation sr.

Lemma served_truthful K id inc sr b u d :
  visible K id d = (Ok sr, None) -> inc = sr_incarnation sr ->
  truthful K id (Engine.served inc sr b u) d.
Proof. intros Hv ->. by exists sr. Qed.
End Served.

Section ServedSpec.
Context `{C : Crypto} `{!CryptoLaws C} `{X : RecordExt} `{!RecordExtLaws X}.
Context {Conn : Type} `{L : SqliteStoreLaws Conn}.
Context (env : EngineEnv) (id : string).
Hypothesis Hq : undisturbed env.
Hypothesis Hin : inputs_ok (env_inputs env 9).

(** A read that ends a program is truthful when nothing is pending. *)
Lemma last_read_truthful inp exp inc b u (s s' : EncryptedStore Conn) x :
  read_snapshot inp id exp s = (Ok x, s') -> refresh_intent (es_db s) !! id = None ->
  inc = sr_incarnation x ->
  truthful (keys_of s) id (Engine.served inc x b u) (es_db s').
Proof.
  intros H1 Hn Hi. apply read_ok_answer in H1 as (Ha & Hd & _ & _).
  apply served_truthful; [|done]. unfold visible. by rewrite Hd, Ha, Hn.
Qed.

Lemma locked_truthful inc v0 min_ttl force (st st' : EngineState Conn) g :
  Engine.get_locked env id inc v0 min_ttl force st = (Ok g, st') ->
  truthful (keys_of (eng_store st)) id g (es_db (eng_store st')).
Proof.
  intros H1. unfold Engine.get_locked, get_snapshot in H1.
  apply bind_ok_inv in H1 as (x & st1 & Er & H1). apply call_ok_inv in Er as [Er _]; [|done].
  pose proof (read_ok_answer _ _ _ _ _ _ Er) as (Ha & Hd1 & HK1 & Hi). specialize (Hi inc eq_refl).
  apply bind_ok_inv in H1 as (h & st2 & Eh & H1). apply call_ok_inv in Eh as [Eh _]; [|done].
  apply has_intent_inv in Eh as (-> & Hd2 & HK2). case_bool_decide as Hn; [done|].
  apply eq_None_not_Some in Hn. rewrite Hd1 in *.
  assert (visible (keys_of (eng_store st)) id (es_db (eng_store st2)) = (Ok x, None)) as Hvis
    by (unfold visible; by rewrite Hd2, Ha, Hn).
  destruct (negb (bool_decide _)); [injection H1 as <- <-; by apply served_truthful|].
  destruct (sm_pending _ && negb (is_refreshable _)).
  { apply bind_ok_inv in H1 as (b & st3 & Ei & H1). apply call_ok_inv in Ei as [Ei _]; [|done].
    destruct (invalidate_keeps_none (keys_of (eng_store st2)) _ _ _ _ _ _ id _ _ _ eq_refl Ei) as (HK3 & Hn3 & _).
    apply bind_ok_inv in H1 as (y & st4 & Er2 & H1). apply call_ok_inv in Er2 as [Er2 _]; [|done].
    injection H1 as <- <-. rewrite <- HK1, <- HK2, <- HK3. pose proof (read_ok_answer _ _ _ _ _ _ Er2) as (_ & _ & _ & Hi2).
    eapply last_read_truthful; [exact Er2| |by apply Hi2]. apply Hn3. by rewrite Hd2. }
  destruct (negb _ || negb _); [injection H1 as <- <-; by apply served_truthful|].
  destruct (sm_pending _ && negb force && negb _ && _).
  { unfold mbind in H1. rewrite quiet_try in H1 by done. injection H1 as <- <-. cbn [eng_store].
    apply served_truthful; [|done]. rewrite <- HK1, <- HK2.
    destruct (diagnostic_step (record_stale_refresh_deferred (env_inputs env 6) id (record_version (sr_record x)))
      id (eng_store st2)) as [-> _]; [intros K; apply deferred_diagnostic|]. by rewrite HK2, HK1. }
  apply bind_ok_inv in H1 as (u & st3 & Ed & H1). apply do_refresh_ok in Ed as [Hn3 HK3]; [|done..].
  apply bind_ok_inv in H1 as (y & st4 & Er2 & H1). apply call_ok_inv in Er2 as [Er2 _]; [|done].
  injection H1 as <- <-. rewrite <- HK1, <- HK2, <- HK3.
  pose proof (read_ok_answer _ _ _ _ _ _ Er2) as (_ & _ & _ & Hi2).
  eapply last_read_truthful; [exact Er2|exact Hn3|by apply Hi2].
Qed.

(** C13: what a read serves is what the vault holds. When an undisturbed read succeeds,
    the record, its digest and its lifetime are those a plain read of the resulting
    store returns, and no rotation of that credential is unresolved. *)
Theorem served_is_stored exp min_ttl force (st st' : EngineState Conn) g :
  Engine.get_for_incarnation env id exp min_ttl force st = (Ok g, st') ->
  truthful (keys_of (eng_store st)) id g (es_db (eng_store st')).
Proof.
  intros H1. unfold Engine.get_for_incarnation in H1.
  apply bind_ok_inv in H1 as (x & st1 & Er & H1). apply call_ok_inv in Er as [Er _]; [|done].
  pose proof (read_ok_answer _ _ _ _ _ _ Er) as (Ha & Hd1 & HK1 & _).
  apply bind_ok_inv in H1 as (h & st2 & Eh & H1). apply call_ok_inv in Eh as [Eh _]; [|done].
  apply has_intent_inv in Eh as (-> & Hd2 & HK2). case_bool_decide as Hn; cbn [negb andb] in H1.
  { rewrite <- HK1, <- HK2. by eapply locked_truthful. }
  destruct (negb _).
  - injection H1 as <- <-. apply served_truthful; [|done]. unfold visible. rewrite Hd2, Hd1, Ha.
    f_equal. apply eq_None_not_Some. by rewrite <- Hd1.
  - rewrite <- HK1, <- HK2. by eapply locked_truthful.
Qed.
End ServedSpec.

Section Refusals.
Context `{C : Crypto} `{!CryptoLaws C} `{X : RecordExt} `{!RecordExtLaws X}.
Context {Conn : Type} `{L : SqliteStoreLaws Conn}.

Lemma read_keeps_intents K inp id exp :
  op_rel K (on refresh_intent eq) (read_snapshot (Conn := Conn) inp id exp).
Proof. call_solve fail. Qed.

(** A step of an undisturbed program that cannot move the intents. *)
Lemma call_keeps_intents {A} env i (m : M (EncryptedStore Conn) StoreOpError A) st :
  undisturbed env -> (forall K, op_rel K (on refresh_intent eq) m) ->
  refresh_intent (es_db (eng_store (snd (Engine.store_call env i m st)))) = refresh_intent (es_db (eng_store st)).
Proof.
  intros Hq Hm. rewrite quiet_call by done. cbn.
  by destruct (Hm _ _ _ _ eq_refl (surjective_pairing (m (eng_store st)))) as (_ & <- & _).
Qed.

Lemma locked_refuses env id inc v0 min_ttl force (st : EngineState Conn) i :
  undisturbed env -> refresh_intent (es_db (eng_store st)) !! id = Some i ->
  let '(res, st') := Engine.get_locked env id inc v0 min_ttl force st in
  is_ok res = false /\ eng_exchanges st' = eng_exchanges st /\
  refresh_intent (es_db (eng_store st')) = refresh_intent (es_db (eng_store st)).
Proof.
  intros Hq Hi. unfold Engine.get_locked, get_snapshot. unfold mbind at 1.
  pose proof (call_keeps_intents env 2 (read_snapshot (env_inputs env 2) id (Some inc)) st Hq) as H1.
  pose proof (silent_call env 2 (read_snapshot (env_inputs env 2) id (Some inc)) st) as Hx.
  destruct (Engine.store_call env 2 _ st) as [[x|e] st1]; cbn in H1, Hx; rewrite <- Hx; rewrite <- H1 in Hi |- *;
    try (intros K; apply read_keeps_intents); [|done].
  unfold mbind at 1. rewrite quiet_call by done.
  destruct (has_refresh_intent id (eng_store st1)) as [[b|e] s2] eqn:E; cbn [fst snd map_err eng_store].
  - apply has_intent_inv in E as (-> & Hd & _). rewrite Hi. cbn. by rewrite Hd.
  - split_and!; [done..|]. by apply unfenced_query_reads in E as [-> _].
Qed.

(** C14: an unresolved rotation blocks its credential. While an intent for [id] is on
    disk no undisturbed read of [id] serves anything or calls a provider, however fresh
    the stored access token looks, and the intent stays. *)
Theorem unresolved_intent_blocks env id exp min_ttl force (st : EngineState Conn) i :
  undisturbed env -> refresh_intent (es_db (eng_store st)) !! id = Some i ->
  let '(res, st') := Engine.get_for_incarnation env id exp min_ttl force st in
  is_ok res = false /\ eng_exchanges st' = eng_exchanges st /\
  refresh_intent (es_db (eng_store st')) = refresh_intent (es_db (eng_store st)).
Proof.
  intros Hq Hi. unfold Engine.get_for_incarnation. unfold mbind at 1.
  pose proof (call_keeps_intents env 0 (read_snapshot (env_inputs env 0) id exp) st Hq) as H1.
  pose proof (silent_call env 0 (read_snapshot (env_inputs env 0) id exp) st) as Hx.
  destruct (Engine.store_call env 0 _ st) as [[x|e] st1]; cbn in H1, Hx; rewrite <- H1 in Hi |- *;
    try (intros K; apply read_keeps_intents); [|done].
  unfold mbind at 1. rewrite quiet_call by done.
  destruct (has_refresh_intent id (eng_store st1)) as [[b|e] s2] eqn:E; cbn [fst snd map_err eng_store].
  2: { split_and!; [done..|]. by apply unfenced_query_reads in E as [-> _]. }
  apply has_intent_inv in E as (-> & Hd & _). rewrite bool_decide_eq_true_2 by eauto. cbn [negb andb].
  rewrite <- Hd in Hi.
  pose proof (locked_refuses env id (sr_incarnation x) (record_version (sr_record x)) min_ttl force
    (Build_EngineState s2 (eng_exchanges st1)) i Hq Hi) as Hr.
  destruct (Engine.get_locked _ _ _ _ _ _ _) as [res st']. cbn in Hr. by rewrite Hd, Hx in Hr.
Qed.

(** The cooldown test is exact in 64-bit arithmetic. *)
Lemma cooldown_exact env w :
  Engine.within_report_cooldown env w = true <-> 0 <= env_clock env - w < REPORT_REFRESH_COOLDOWN_MS.
Proof.
  unfold Engine.within_report_cooldown, i64_saturating_sub, clamp, REPORT_REFRESH_COOLDOWN_MS, i64_min, i64_max.
  rewrite andb_true_iff, Z.leb_le, Z.ltb_lt. lia.
Qed.

(** After now, and at most one cooldown away, on the engine's clock. *)
Definition soon (env : EngineEnv) (u : Z) : Prop :=
  env_clock env < u <= env_clock env + REPORT_REFRESH_COOLDOWN_MS.

(** A report can hold a refresh back for a minute at most. Whatever other tasks do,
    a read that was deferred was not forced, made no exchange, serves a token that is
    itself not due, and names a moment strictly in the future and at most one cooldown
    away. *)
Theorem report_deferral_is_bounded env id exp min_ttl force (st st' : EngineState Conn) g u :
  in_i64 (env_clock env) -> env_clock env + REPORT_REFRESH_COOLDOWN_MS <= i64_max ->
  Engine.get_for_incarnation env id exp min_ttl force st = (Ok g, st') ->
  gs_refresh_deferred_until_ms g = Some u ->
  force = false /\ eng_exchanges st' = eng_exchanges st /\
  Engine.is_stale env 5 (gs_record g) min_ttl = false /\
  soon env u.
Proof.
  intros Hc1 Hc2 H1 Hu. unfold Engine.get_for_incarnation in H1.
  apply bind_ok_inv in H1 as (x & st1 & E1 & H1). apply bind_ok_inv in H1 as (h & st2 & E2 & H1).
  pose proof (silent_call env 0 (read_snapshot (env_inputs env 0) id exp) st) as X1.
  pose proof (silent_call env 1 (has_refresh_intent id) st1) as X2. rewrite E1 in X1. rewrite E2 in X2.
  destruct (negb h && _); [injection H1 as <- <-; discriminate Hu|]. unfold Engine.get_locked in H1.
  apply bind_ok_inv in H1 as (y & st3 & E3 & H1). apply bind_ok_inv in H1 as (h' & st4 & E4 & H1).
  pose proof (silent_call env 2 (get_snapshot (env_inputs env 2) id (sr_incarnation x)) st2) as X3.
  pose proof (silent_call env 3 (has_refresh_intent id) st3) as X4. rewrite E3 in X3. rewrite E4 in X4.
  destruct h'; [done|]. destruct (negb (bool_decide _)); [injection H1 as <- <-; discriminate Hu|].
  destruct (sm_pending _ && negb (is_refreshable _)); [ok_inv H1; injection H1 as <- <-; discriminate Hu|].
  destruct (negb _ || negb _); [injection H1 as <- <-; discriminate Hu|].
  destruct (sm_pending _ && negb force && negb _ && _) eqn:Eb; [|ok_inv H1; injection H1 as <- <-; discriminate Hu].
  apply bind_ok_inv in H1 as (b & st5 & E5 & H1).
  pose proof (silent_try env 6 (record_stale_refresh_deferred (env_inputs env 6) id (record_version (sr_record y))) st4) as X5.
  rewrite E5 in X5. injection H1 as <- <-. cbn in *. injection Hu as <-. bool_hyps.
  destruct force; [done|]. split; [done|]. split; [congruence|]. split; [done|].
  match goal with Hw : Engine.within_report_cooldown _ _ = true |- _ => apply cooldown_exact in Hw end.
  unfold soon, in_i64, REPORT_REFRESH_COOLDOWN_MS in *. rewrite as_i64_id by (unfold in_i64; lia). lia.
Qed.
End Refusals.

(** ** A read concerns one credential *)

Section Isolation.
Context `{C : Crypto} `{!CryptoLaws C} `{X : RecordExt} `{!RecordExtLaws X}.
Context {Conn : Type} `{L : SqliteStoreLaws Conn}.
Context (id' : string).

(** The row and the intent of another credential, and the handles. *)
Abbreviation R := (on (fun d => (credentials d !! id', refresh_intent d !! id', handles d)) eq).

Lemma update_elsewhere id g upd : id <> id' -> tx_rel R (update_credential id g upd).
Proof.
  intros Hne d n d' H1. unfold update_credential in H1. unfold on.
  case_all; simplify_eq; cbn; by rewrite ?lookup_insert_ne.
Qed.
Lemma clear_elsewhere id : id <> id' -> tx_rel R (clear_intent_tx id).
Proof. intros Hne d n d' H1. apply clear_intent_effect in H1 as ->. unfold on. cbn. by rewrite lookup_delete_ne. Qed.
Lemma open_elsewhere id i : id <> id' -> tx_rel R (exec (with_refresh_intent (insert id i))).
Proof. intros Hne d n d' [= _ <-]. unfold on. cbn. by rewrite lookup_insert_ne. Qed.
#[local] Hint Resolve update_elsewhere clear_elsewhere open_elsewhere : rel.

Lemma engine_call_elsewhere K env id c :
  id <> id' -> engine_call env id c -> op_rel K R (call_op (Conn := Conn) c).
Proof. intros Hne Hc. destruct c; cbn in Hc; try done;
  lazymatch type of Hc with _ /\ _ => destruct Hc as [-> _] | _ => subst end; call_solve fail. Qed.

(** A read of one credential is invisible to the others. Whatever it decides, and
    whatever the provider answers, an undisturbed read leaves the row and the intent of
    every other credential and all capability handles as they were, and the audit log
    only grows. *)
Theorem read_touches_one_credential env id exp min_ttl force (st : EngineState Conn) :
  undisturbed env -> id <> id' ->
  let d := es_db (eng_store st) in
  let d' := es_db (eng_store (snd (Engine.get_for_incarnation env id exp min_ttl force st))) in
  credentials d' !! id' = credentials d !! id' /\ refresh_intent d' !! id' = refresh_intent d !! id' /\
  handles d' = handles d /\ audit_log d `prefix_of` audit_log d'.
Proof.
  intros Hq Hne d d'.
  destruct (get_traces (Conn := Conn) (engine_call env id) env id exp min_ttl force) with (st := st) as (cs & Hcs & E);
    [intros i; rewrite Hq; constructor|done|].
  destruct (calls_rel (keys_of (eng_store st)) R cs (eng_store st)) as (_ & HR & _); [|done|].
  { eapply Forall_impl; [exact Hcs|]. intros c. by apply engine_call_elsewhere. }
  destruct (calls_rel (keys_of (eng_store st)) (on audit_log (log_grows (keys_of (eng_store st)))) cs (eng_store st))
    as (_ & HG & _); [apply Forall_forall; intros; apply call_log_grows|done|].
  unfold on in HR. subst d d'. rewrite E. injection HR as -> -> ->. split_and!; [done..|]. apply HG.
Qed.
End Isolation.

Module Witness.
Import Calls.Demo.

Definition tokens : RefreshedTokens :=
  {| rt_access_token := "at2"; rt_refresh_token := "rt2"; rt_expires_at_ms := None;
     rt_github_app_permissions := None |}.

(** An engine on its own, whose provider answers [answer]. *)
Definition alone (answer : result RefreshedTokens RefreshError) : EngineEnv :=
  {| env_skew_ms := DEFAULT_EXPIRY_SKEW_MS; env_now := fun _ => 500; env_clock := 500;
     env_inputs := fun i => inputs (500 + Z.of_nat i) "-"; env_others := fun _ => [];
     env_adapter := fun _ => true; env_refresh := fun _ _ _ => answer; env_check := fun _ _ => None;
     env_identity_of_json := fun _ => None; env_permissions_json := fun _ => None;
     env_permissions_of_json := fun _ => None |}.

Lemma alone_undisturbed answer : undisturbed (alone answer).
Proof. done. Qed.
Lemma alone_inputs answer i : inputs_ok (env_inputs (alone answer) i).
Proof. intros j n [= <-]. reflexivity. Qed.

Definition start : EngineState ToyConn := {| eng_store := vault; eng_exchanges := [] |}.
Definition forced : result GetWithRefreshStatus EngineError * EngineState ToyConn :=
  Engine.get_for_incarnation (alone (Ok tokens)) id None None true start.

Lemma every_exchange_witness :
  exists new, eng_exchanges (snd forced) = [] ++ new /\ (length new <= 1)%nat /\ Forall (announced id) new.
Proof.
  exact (proj1 (every_exchange_is_announced (alone (Ok tokens)) id None None true start)).
Defined.

Lemma exchange_due_witness :
  eng_exchanges (snd forced) <> [] /\
  exists e row r, eng_exchanges (snd forced) = [e] /\ current start id row r /\
    oauth r = Some (ex_oauth e) /\ due (alone (Ok tokens)) start id None true.
Proof.
  assert (eng_exchanges (snd forced) <> []) as Hx by (vm_compute; discriminate).
  split; [exact Hx|].
  exact (exchange_only_when_due (alone (Ok tokens)) id None None true start (alone_undisturbed _) Hx).
Defined.

Definition record0 : VaultRecord := set_version 1 oauth_record.
Lemma stored_row :
  exists row, current start id row record0 /\ cr_record_version row = as_i64 (record_version record0).
Proof.
  assert (match credentials (es_db vault) !! id with
          | Some row => (cr_state row, cr_record_version row,
                         open_existing (keys_of vault) id (cr_record_version row) (cr_envelope row))
          | None => ("", 0, None)
          end = ("active", 1, Some record0)) as E by (vm_compute; reflexivity).
  destruct (credentials (es_db vault) !! id) as [row|] eqn:Hrow; [|discriminate E].
  pose proof (f_equal (fun x => x.1.1) E) as Es. pose proof (f_equal (fun x => x.1.2) E) as Ev.
  pose proof (f_equal snd E) as Eo. exists row. split; [|exact Ev]. split; [exact Hrow|]. split; [exact Es|exact Eo].
Qed.

Lemma refresh_settles_witness :
  fst (Engine.do_refresh (alone (Err (InvalidGrant "dead"))) id record0 start)
    = Err (RefreshFailed (InvalidGrant "dead")) /\
  settled (alone (Err (InvalidGrant "dead"))) id record0 start
    (snd (Engine.do_refresh (alone (Err (InvalidGrant "dead"))) id record0 start))
    (fst (Engine.do_refresh (alone (Err (InvalidGrant "dead"))) id record0 start)).
Proof.
  split; [vm_compute; reflexivity|]. destruct stored_row as (row & Hc & Hv).
  apply (refresh_settles (alone (Err (InvalidGrant "dead"))) id record0 row start _ _
    (alone_undisturbed _) (alone_inputs _ 9) Hc Hv eq_refl). apply surjective_pairing.
Defined.

Lemma served_is_stored_witness :
  exists g, fst forced = Ok g /\ access_token <$> oauth (gs_record g) = Some "at2" /\
    truthful (keys_of vault) id g (es_db (eng_store (snd forced))).
Proof.
  assert (match fst forced with Ok g => access_token <$> oauth (gs_record g) | Err _ => None end = Some "at2") as E
    by (vm_compute; reflexivity).
  destruct forced as [[g|e] st'] eqn:Ef; [|discriminate E]. exists g. split; [done|]. split; [exact E|].
  exact (served_is_stored (alone (Ok tokens)) id (alone_undisturbed _) (alone_inputs _ 9) None None true start st' g Ef).
Defined.

(** The same vault with a rotation of its credential unresolved. *)
Definition dangling : EngineState ToyConn :=
  {| eng_store := run_calls [CallOpenIntent (inputs 100 "-") id 1 (refresh_token_hash "rt")] vault;
     eng_exchanges := [] |}.

Lemma unresolved_blocks_witness :
  is_Some (refresh_intent (es_db (eng_store dangling)) !! id) /\
  is_ok (fst (Engine.get_for_incarnation (alone (Ok tokens)) id None None true dangling)) = false.
Proof.
  destruct (refresh_intent (es_db (eng_store dangling)) !! id) as [i|] eqn:Ei;
    [|exfalso; revert Ei; vm_compute; discriminate].
  split; [eauto|].
  pose proof (unresolved_intent_blocks (alone (Ok tokens)) id None None true dangling i (alone_undisturbed _) Ei) as H1.
  destruct (Engine.get_for_incarnation (alone (Ok tokens)) id None None true dangling) as [res st']. apply H1.
Defined.

(** A fresh token a consumer just reported, and a clock at which it is not expiring. *)
Definition reported : EngineState ToyConn :=
  {| eng_store := run_calls [CallMarkStale (inputs 90 "-") id 1 "a1" (ctx_vault Invalidate)
       (Engine.refresh_failed_observation None SubscriptionRequired)] vault; eng_exchanges := [] |}.
Definition early : EngineEnv :=
  {| env_skew_ms := 0; env_now := fun _ => 100; env_clock := 100; env_inputs := env_inputs (alone (Ok tokens));
     env_others := fun _ => []; env_adapter := fun _ => true; env_refresh := fun _ _ _ => Ok tokens;
     env_check := fun _ _ => None; env_identity_of_json := fun _ => None;
     env_permissions_json := fun _ => None; env_permissions_of_json := fun _ => None |}.

Lemma report_deferral_witness :
  exists u, soon early u /\
    match fst (Engine.get_for_incarnation early id None None false reported) with
    | Ok g => gs_refresh_deferred_until_ms g | Err _ => None end = Some u.
Proof.
  destruct (Engine.get_for_incarnation early id None None false reported) as [[g|e] st'] eqn:Eg.
  2: { exfalso. apply (f_equal fst) in Eg. revert Eg. vm_compute. discriminate. }
  destruct (gs_refresh_deferred_until_ms g) as [u|] eqn:Eu.
  2: { exfalso. apply (f_equal (fun p => match fst p with Ok g => gs_refresh_deferred_until_ms g | Err _ => None end)) in Eg.
       cbn [fst] in Eg. rewrite Eu in Eg. revert Eg. vm_compute. discriminate. }
  exists u. split; [|exact Eu].
  assert (in_i64 (env_clock early)) as H1 by (cbn; unfold in_i64, i64_min, i64_max; lia).
  assert (env_clock early + REPORT_REFRESH_COOLDOWN_MS <= i64_max) as H2
    by (cbn; unfold REPORT_REFRESH_COOLDOWN_MS, i64_max; lia).
  exact (proj2 (proj2 (proj2 (report_deferral_is_bounded early id None None false reported st' g u H1 H2 Eg Eu)))).
Defined.

Lemma read_touches_one_witness :
  "apikey:x" <> id /\
  handles (es_db (eng_store (snd forced))) = handles (es_db vault).
Proof.
  assert (id <> "apikey:x") as Hne by discriminate. split; [done|].
  exact (proj1 (proj2 (proj2 (read_touches_one_credential "apikey:x" (alone (Ok tokens)) id None None true start
    (alone_undisturbed _) Hne)))).
Defined.
End Witness.
