(* ===== verification/Reconcile.v ===== *)
(** * Boot reconciliation ([RefreshEngine::reconcile])

    [verdict] is the decision table a dangling intent is resolved by, as a function of
    what the store holds, and [after] what each outcome leaves visible. The theorems say
    that with the lease held and a working backend reconciliation terminates with exactly
    these verdicts and effects, for every intent, whatever the adapters' checks answer. *)

From stdpp Require Import sorting.
From S2P Require Import Prelude Text Crypto Record Envelope AuditLog Database Store Calls Sealed StoreSpecs Accounting Engine EngineSpecs.

Section Table.
Context `{C : Crypto} `{X : RecordExt}.

(** The decision table. *)
Definition verdict (env : EngineEnv) (K : Keys) (d : Db) (intent : RefreshIntent) : Reconciliation :=
  let id := ri_credential_id intent in
  match read_answer K id None d with
  | Err _ => OrphanCleared id
  | Ok sr =>
      if Engine.hash_mismatch (sr_record sr) intent then ReconciledNeedsReauth id HashMismatch else
      match Engine.recovery_check env (sr_record sr) with
      | None => ReconciledNeedsReauth id NoValidityCheck
      | Some (Ok Valid) => ClearedValid id
      | Some (Ok Invalid) => ReconciledNeedsReauth id CheckInvalid
      | Some (Err _) => Retained id
      end
  end.

(** What the outcome leaves visible of the credential. *)
Definition after (o : Reconciliation) (before : result StoredRead StoreOpError * option RefreshIntent)
  : result StoredRead StoreOpError * option RefreshIntent :=
  match o with
  | OrphanCleared _ | ClearedValid _ => (fst before, None)
  | ReconciledNeedsReauth _ _ => (Err NeedsReauth, None)
  | Retained _ => (Err NeedsReauth, snd before)
  end.
End Table.

Section One.
Context `{C : Crypto} `{!CryptoLaws C} `{X : RecordExt} `{!RecordExtLaws X}.
Context {Conn : Type} `{L : SqliteStoreLaws Conn}.

(** The store can serve: it holds the lease and its backend answers. *)
Definition serving (s : EncryptedStore Conn) : Prop :=
  conn_lease (es_conn s) = true /\ conn_healthy (es_conn s) = true.

(** A credential no key-protection rule applies to. *)
Definition ordinary (id : string) : Prop := is_deposit_key id = false /\ is_vault_transfer_id id = false.

(** A step on [id] that leaves the store serving, the keys, and every other credential. *)
Definition confined (id : string) (s s' : EncryptedStore Conn) : Prop :=
  serving s' /\ keys_of s' = keys_of s /\
  forall id', id' <> id -> credentials (es_db s') !! id' = credentials (es_db s) !! id' /\
                           refresh_intent (es_db s') !! id' = refresh_intent (es_db s) !! id'.

Lemma confined_visible id id' K (s s' : EncryptedStore Conn) :
  confined id s s' -> id' <> id -> visible K id' (es_db s') = visible K id' (es_db s).
Proof. intros (_ & _ & Ho) Hne. destruct (Ho id' Hne) as [Hc Hi]. unfold visible, read_answer. by rewrite Hc, Hi. Qed.

Lemma clear_intent_runs id (s : EncryptedStore Conn) :
  serving s -> exists s', clear_intent id s = (Ok tt, s') /\ confined id s s' /\
    es_db s' = with_refresh_intent (delete id) (es_db s).
Proof.
  intros [Hl Hh]. unfold clear_intent.
  destruct (fenced_runs_to (do! _ <- clear_intent_tx id ;; mret tt) s Hl Hh) as (s' & E & Hl' & Hh').
  assert (fst ((do! _ <- clear_intent_tx id ;; mret tt) (es_db s)) = Ok tt) as Ef
    by (unfold mbind, clear_intent_tx; by destruct (refresh_intent (es_db s) !! id)).
  rewrite Ef in E. cbn [map_err] in E. exists s'. split; [exact E|].
  pose proof (clear_intent_inv id s s' _ E) as [HK Hd]. split; [|done]. split; [done|]. split; [done|].
  intros id' Hne. rewrite Hd. cbn. by rewrite lookup_delete_ne.
Qed.
End One.

Section Invalidate.
Context `{C : Crypto} `{!CryptoLaws C} `{X : RecordExt} `{!RecordExtLaws X}.
Context {Conn : Type} `{L : SqliteStoreLaws Conn}.

(** The transaction of [set_state] towards re-authentication. *)
Definition reauth_tx (K : Keys) (inp : Inputs) (id : string) (clear : bool) (ctx : option AuditCtx) : Tx unit :=
  do! n <- update_credential id
             (fun r => negb (row_state_is NeedsReauthState r) && negb (row_state_is CorruptState r))
             (set_row_state NeedsReauthState (in_now inp 0)) ;;
  do! _ <- (if clear then do! _ <- clear_intent_tx id ;; mret tt else mret tt) ;;
  if (0 <? n)%nat then
    match ctx with
    | Some ctx =>
        do! _ <- append_audit_tx (k_audit_key K) (in_now inp 1) (ctx_record ctx (ctx_op ctx) id None) ;;
        mret tt
    | None => mret tt
    end
  else mret tt.

Lemma reauth_tx_hit K inp id clear ctx d row :
  credentials d !! id = Some row -> cr_state row = "active" ->
  exists d', reauth_tx K inp id clear ctx d = (Ok tt, d') /\
    credentials d' = <[id := set_row_state NeedsReauthState (in_now inp 0) row]> (credentials d) /\
    refresh_intent d' = if clear then delete id (refresh_intent d) else refresh_intent d.
Proof.
  intros Hrow Hst. unfold reauth_tx, mbind, update_credential, clear_intent_tx, append_audit_tx, mret, row_state_is.
  rewrite Hrow, Hst. change (bool_decide ("active" = state_as_str _)) with false. cbn [negb andb]. rewrite bool_decide_eq_true_2 by done. cbn.
  destruct (refresh_intent d !! id) eqn:Ei; destruct clear, ctx; cbn; rewrite ?Ei;
    eexists; (split; [reflexivity|]); cbn; (split; [reflexivity|]); try reflexivity; by rewrite (delete_id _ _ Ei).
Qed.

Lemma set_reauth_runs inp id clear ctx (s : EncryptedStore Conn) row :
  serving s -> ordinary id -> credentials (es_db s) !! id = Some row -> cr_state row = "active" ->
  exists s', set_state inp id NeedsReauthState clear ctx s = (Ok tt, s') /\ confined id s s' /\
    visible (keys_of s) id (es_db s') =
      (Err NeedsReauth, if clear then None else refresh_intent (es_db s) !! id).
Proof.
  intros [Hl Hh] [Hdep Htr] Hrow Hst.
  destruct (reauth_tx_hit (keys_of s) inp id clear ctx _ row Hrow Hst) as (d' & Et & Ec & Ei).
  unfold set_state, with_self, fenced_write_unless_transfer_key_protected, deposit_key_write_protected.
  rewrite Hdep, Htr. cbn [negb andb].
  change (fenced _) with (fenced (Conn := Conn) (reauth_tx (keys_of s) inp id clear ctx)).
  destruct (fenced_runs_to (reauth_tx (keys_of s) inp id clear ctx) s Hl Hh) as (s' & E & Hl' & Hh').
  rewrite Et in E. cbn [map_err fst] in E. exists s'. split; [exact E|].
  pose proof (fenced_keys _ _ _ _ E) as HK. apply fenced_ok_inv in E. rewrite Et in E. injection E as E.
  split.
  - split; [done|]. split; [done|]. intros id' Hne. rewrite <- E, Ec, Ei, lookup_insert_ne by done.
    split; [done|]. destruct clear; [by rewrite lookup_delete_ne|done].
  - unfold visible, read_answer. rewrite <- E, Ec, Ei, lookup_insert_eq. cbn.
    by destruct clear; [rewrite lookup_delete_eq|].
Qed.
End Invalidate.

Section Resolve.
Context `{C : Crypto} `{!CryptoLaws C} `{X : RecordExt} `{!RecordExtLaws X}.
Context {Conn : Type} `{L : SqliteStoreLaws Conn}.

Lemma answer_orphaned K id d e : read_answer K id None d = Err e -> Engine.orphaned e = true.
Proof. unfold read_answer. case_all; intros [= <-]; done. Qed.

Lemma answer_active K id d sr :
  read_answer K id None d = Ok sr -> exists row, credentials d !! id = Some row /\ cr_state row = "active".
Proof.
  unfold read_answer. destruct (credentials d !! id) as [row|]; [|done].
  destruct (state_from_str (cr_state row)) eqn:E; try done. intros _. exists row.
  split; [done|by apply state_from_str_active].
Qed.

Lemma get_runs inp id (s : EncryptedStore Conn) :
  serving s -> vault_sealed (keys_of s) (credentials (es_db s)) ->
  exists s', Store.get inp id s = (match read_answer (keys_of s) id None (es_db s) with
                                   | Ok sr => Ok (sr_record sr) | Err e => Err e end, s') /\
    serving s' /\ keys_of s' = keys_of s /\ es_db s' = es_db s.
Proof.
  intros [Hl Hh] Hs. destruct (read_runs inp id None s Hh Hs) as (s' & E & Hd & HK & Hh' & Hl').
  exists s'. split; [|unfold serving; by rewrite Hl', Hh'].
  unfold Store.get, get_with_stale_pending, get_with_stale_pending_and_digest, mbind, mret.
  rewrite E. by destruct (read_answer _ _ _ _).
Qed.

(** One dangling intent is resolved as the table says, whatever the check answers. *)
Lemma reconcile_one_runs env intent (st : EngineState Conn) :
  let id := ri_credential_id intent in
  let K := keys_of (eng_store st) in
  let d := es_db (eng_store st) in
  undisturbed env -> serving (eng_store st) -> vault_sealed K (credentials d) -> ordinary id ->
  exists s', Engine.reconcile_one env intent st
               = (Ok (verdict env K d intent), Build_EngineState s' (eng_exchanges st)) /\
    confined id (eng_store st) s' /\
    visible K id (es_db s') = after (verdict env K d intent) (visible K id d).
Proof.
  intros id K d Hq Hsv Hs Hord. unfold Engine.reconcile_one. fold id. unfold mbind at 1.
  rewrite quiet_try by done. cbn [fst snd].
  destruct (get_runs (env_inputs env 0) id (eng_store st) Hsv Hs) as (s1 & -> & Hsv1 & HK1 & Hd1).
  fold K d in Hs, HK1, Hd1 |- *. cbn [fst snd].
  set (st1 := Build_EngineState s1 (eng_exchanges st)). unfold verdict. fold id.
  assert (forall s', confined id s1 s' -> confined id (eng_store st) s') as Hc.
  { intros s' (? & ? & Ho). split; [done|]. split; [by transitivity (keys_of s1)|].
    intros id' Hne. fold d. rewrite <- Hd1. by apply Ho. }
  destruct (read_answer K id None d) as [sr|e] eqn:Ea.
  2: { rewrite (answer_orphaned _ _ _ _ Ea). unfold mbind. rewrite quiet_call by done.
       destruct (clear_intent_runs id s1 Hsv1) as (s' & E & Hconf & Hd'). cbn [eng_store st1]. rewrite E.
       exists s'. split; [done|]. split; [by apply Hc|]. rewrite Hd', Hd1, cleared_visible. done. }
  destruct (answer_active _ _ _ _ Ea) as (row & Hrow & Hst).
  assert (forall inp clear ctx, exists s', set_state inp id NeedsReauthState clear ctx s1 = (Ok tt, s') /\
            confined id (eng_store st) s' /\
            visible K id (es_db s') = (Err NeedsReauth, if clear then None else refresh_intent d !! id)) as Hre.
  { intros inp clear ctx. rewrite <- Hd1 in Hrow.
    destruct (set_reauth_runs inp id clear ctx s1 row Hsv1 Hord Hrow Hst) as (s' & E & Hconf & Hvis).
    exists s'. split; [exact E|]. split; [by apply Hc|]. by rewrite HK1, Hd1 in Hvis. }
  unfold invalidate, invalidate_audited, mark_needs_reauth_retaining_intent.
  destruct (Engine.hash_mismatch (sr_record sr) intent); [|destruct (Engine.recovery_check env (sr_record sr)) as [[[|]|e]|]];
    unfold mbind; rewrite quiet_call by done; cbn [eng_store st1].
  - destruct (Hre (env_inputs env 1) true (Some Engine.ctx_reconcile)) as (s' & -> & ? & ?). eauto.
  - destruct (clear_intent_runs id s1 Hsv1) as (s' & E & Hconf & Hd'). rewrite E.
    exists s'. split; [done|]. split; [by apply Hc|]. rewrite Hd', Hd1, cleared_visible. done.
  - destruct (Hre (env_inputs env 1) true (Some (ctx_vault Invalidate))) as (s' & -> & ? & ?). eauto.
  - destruct (Hre (env_inputs env 1) false None) as (s' & -> & ? & ?). eauto.
  - destruct (Hre (env_inputs env 1) true (Some (ctx_vault Invalidate))) as (s' & -> & ? & ?). eauto.
Qed.
End Resolve.

Section Loop.
Context `{C : Crypto} `{!CryptoLaws C} `{X : RecordExt} `{!RecordExtLaws X}.
Context {Conn : Type} `{L : SqliteStoreLaws Conn}.

Lemma reconcile_one_sealed env intent (st : EngineState Conn) :
  let K := keys_of (eng_store st) in
  undisturbed env -> vault_sealed K (credentials (es_db (eng_store st))) ->
  vault_sealed K (credentials (es_db (eng_store (snd (Engine.reconcile_one env intent st))))).
Proof.
  intros K Hq Hs.
  assert (traces (Conn := Conn) call_ok (Engine.reconcile_one env intent)) as Ht.
  { apply reconcile_one_traces; [intros i; rewrite Hq; constructor|]. by intros [] Hc. }
  destruct (Ht st) as (cs & Hcs & ->).
  destruct (calls_rel K (on credentials (keeps (vault_sealed K))) cs (eng_store st)) as (_ & HR & _);
    [|done|by apply HR].
  eapply Forall_impl; [exact Hcs|]. intros c Hc. by apply call_sealed.
Qed.

Lemma verdict_visible env K d d' i :
  visible K (ri_credential_id i) d' = visible K (ri_credential_id i) d -> verdict env K d' i = verdict env K d i.
Proof. unfold visible, verdict. by intros [= -> _]. Qed.

(** The verdicts of a list of intents, the first under [envs k]. *)
Definition verdicts (envs : nat -> EngineEnv) (k : nat) (K : Keys) (d : Db) (intents : list RefreshIntent)
  : list Reconciliation :=
  imap (fun j i => verdict (envs (k + j)%nat) K d i) intents.

Lemma verdicts_cons envs k K d i rest :
  verdicts envs k K d (i :: rest) = verdict (envs k) K d i :: verdicts envs (k + 1) K d rest.
Proof.
  unfold verdicts. cbn. rewrite Nat.add_0_r. f_equal. apply imap_ext. intros j x _. cbn. do 2 f_equal. lia.
Qed.

Lemma verdicts_visible envs k K d d' l :
  (forall i, i ∈ l -> visible K (ri_credential_id i) d' = visible K (ri_credential_id i) d) ->
  verdicts envs k K d' l = verdicts envs k K d l.
Proof.
  intros Hl. apply imap_ext. intros j i Hi. apply verdict_visible, Hl. by eapply list_elem_of_lookup_2.
Qed.

Lemma reconcile_all_runs envs intents k (st : EngineState Conn) :
  let K := keys_of (eng_store st) in
  let d := es_db (eng_store st) in
  (forall j, undisturbed (envs j)) -> serving (eng_store st) -> vault_sealed K (credentials d) ->
  Forall (fun i => ordinary (ri_credential_id i)) intents -> NoDup (ri_credential_id <$> intents) ->
  exists s', Engine.reconcile_all envs k intents st
               = (Ok (verdicts envs k K d intents), Build_EngineState s' (eng_exchanges st)) /\
    (forall id, id ∉ ri_credential_id <$> intents -> visible K id (es_db s') = visible K id d) /\
    (forall j i, intents !! j = Some i ->
       visible K (ri_credential_id i) (es_db s')
       = after (verdict (envs (k + j)%nat) K d i) (visible K (ri_credential_id i) d)).
Proof.
  revert k st. induction intents as [|i rest IH]; intros k st K d Hq Hsv Hs Ho Hnd.
  { exists (eng_store st). split_and!; [by destruct st|done|done]. }
  inversion_clear Ho as [|?? Ho1 Ho2]. rewrite fmap_cons in Hnd. apply NoDup_cons in Hnd as [Hni Hnd].
  destruct (reconcile_one_runs (envs k) i st (Hq k) Hsv Hs Ho1) as (s1 & E1 & Hc & Hv).
  pose proof (reconcile_one_sealed (envs k) i st (Hq k) Hs) as Hs1. rewrite E1 in Hs1. cbn in Hs1.
  pose proof Hc as (Hsv1 & HK1 & _). fold K d in E1, Hv, Hs1, HK1.
  set (st1 := Build_EngineState s1 (eng_exchanges st)) in *.
  assert (forall id, id <> ri_credential_id i -> visible K id (es_db s1) = visible K id d) as Hother
    by (intros id Hne; by eapply confined_visible).
  assert (forall j, j ∈ rest -> ri_credential_id j <> ri_credential_id i) as Hne.
  { intros j Hj E. apply Hni. rewrite <- E. by apply list_elem_of_fmap_2. }
  destruct (IH (k + 1)%nat st1 Hq Hsv1) as (s2 & E2 & Hout & Hin); [by cbn; rewrite HK1|done..|].
  cbn [eng_store st1 eng_exchanges] in E2, Hout, Hin. rewrite HK1 in E2, Hout, Hin.
  exists s2. cbn [Engine.reconcile_all]. unfold mbind. rewrite E1. fold st1. rewrite E2.
  rewrite verdicts_cons, (verdicts_visible envs (k + 1) K d (es_db s1)) by auto. split; [done|]. split.
  - intros id Hid. rewrite fmap_cons in Hid. apply not_elem_of_cons in Hid as [H1 H2]. by rewrite Hout, Hother.
  - intros [|j] i' Hi'; cbn in Hi'.
    + injection Hi' as <-. rewrite Nat.add_0_r. by rewrite Hout.
    + assert (ri_credential_id i' <> ri_credential_id i) as Hne' by (apply Hne; by eapply list_elem_of_lookup_2).
      rewrite (Hin j i' Hi'), (Hother _ Hne').
      rewrite (verdict_visible _ K d (es_db s1)) by auto. do 2 f_equal. f_equal. lia.
Qed.
End Loop.

Section Boot.
Context `{C : Crypto} `{!CryptoLaws C} `{X : RecordExt} `{!RecordExtLaws X}.
Context {Conn : Type} `{L : SqliteStoreLaws Conn}.

(** The table is keyed by the column it stores. *)
Definition intents_keyed (d : Db) : Prop :=
  forall id i, refresh_intent d !! id = Some i -> ri_credential_id i = id.

Definition intent_list (d : Db) : list RefreshIntent :=
  merge_sort intent_le (row_to_intent <$> (map_to_list (refresh_intent d)).*2).

Lemma intent_list_perm d : intent_list d ≡ₚ row_to_intent <$> (map_to_list (refresh_intent d)).*2.
Proof. apply merge_sort_Permutation. Qed.

Lemma intent_list_ids d :
  intents_keyed d -> ri_credential_id <$> intent_list d ≡ₚ (map_to_list (refresh_intent d)).*1.
Proof.
  intros Hk. rewrite intent_list_perm. rewrite <- !list_fmap_compose. apply Permutation_refl'.
  apply list_fmap_ext. intros j [id i] Hj. cbn. apply Hk. apply elem_of_map_to_list.
  by eapply list_elem_of_lookup_2.
Qed.

Lemma intent_list_elem d id i : refresh_intent d !! id = Some i -> row_to_intent i ∈ intent_list d.
Proof.
  intros Hi. rewrite intent_list_perm. apply list_elem_of_fmap_2, list_elem_of_fmap.
  exists (id, i). split; [done|]. by apply elem_of_map_to_list.
Qed.

Lemma listed_intent d i :
  intents_keyed d -> i ∈ intent_list d -> is_Some (refresh_intent d !! ri_credential_id i).
Proof.
  intros Hk Hi. assert (ri_credential_id i ∈ (map_to_list (refresh_intent d)).*1) as Hin
    by (rewrite <- (intent_list_ids d Hk); by apply list_elem_of_fmap_2).
  apply list_elem_of_fmap in Hin as ([id x] & -> & Hx). exists x. by apply elem_of_map_to_list.
Qed.

Lemma list_intents_runs (s : EncryptedStore Conn) :
  serving s -> exists s', list_intents s = (Ok (intent_list (es_db s)), s') /\
    serving s' /\ keys_of s' = keys_of s /\ es_db s' = es_db s.
Proof.
  intros [Hl Hh]. unfold list_intents.
  destruct (unfenced_runs_to (query intent_list) s Hh) as (s' & E & Hl' & Hh' & HK).
  exists s'. split; [exact E|]. pose proof (unfenced_query_reads _ _ _ _ E) as [Hd _].
  split; [split; congruence|done].
Qed.


(** What [reconcile_resolves_all] is proved from: the verdicts, in the order of the ids. *)
Lemma reconcile_runs envs (st : EngineState Conn) :
  let K := keys_of (eng_store st) in
  let d := es_db (eng_store st) in
  (forall j, undisturbed (envs j)) -> serving (eng_store st) -> vault_sealed K (credentials d) ->
  intents_keyed d -> (forall id, is_Some (refresh_intent d !! id) -> ordinary id) ->
  exists s', Engine.reconcile envs st
               = (Ok (verdicts envs 1 K d (intent_list d)), Build_EngineState s' (eng_exchanges st)) /\
    (forall id i, refresh_intent d !! id = Some i -> exists j, intent_list d !! j = Some (row_to_intent i) /\
       visible K id (es_db s') = after (verdict (envs (j + 1)%nat) K d (row_to_intent i)) (visible K id d)) /\
    (forall id, refresh_intent d !! id = None -> visible K id (es_db s') = visible K id d).
Proof.
  intros K d Hq Hsv Hs Hk Hord. unfold Engine.reconcile. unfold mbind at 1. rewrite quiet_call by done.
  destruct (list_intents_runs (eng_store st) Hsv) as (s1 & E & Hsv1 & HK1 & Hd1).
  rewrite E. cbn [fst snd map_err]. fold K in HK1. fold d in E, Hd1 |- *.
  set (st1 := Build_EngineState s1 (eng_exchanges st)). pose proof (intent_list_ids d Hk) as Hids.
  destruct (reconcile_all_runs envs (intent_list d) 1 st1 Hq Hsv1) as (s' & Er & Hout & Hin).
  { cbn. by rewrite HK1, Hd1. }
  { apply Forall_forall. intros i Hi. by apply Hord, listed_intent. }
  { rewrite Hids. apply NoDup_fst_map_to_list. }
  cbn [eng_store st1 eng_exchanges] in Er, Hout, Hin. rewrite HK1, Hd1 in Er, Hout, Hin.
  exists s'. split; [exact Er|]. split.
  - intros id i Hi. destruct (list_elem_of_lookup_1 _ _ (intent_list_elem d id i Hi)) as [j Hj].
    exists j. split; [exact Hj|]. pose proof (Hin j _ Hj) as Hv.
    change (ri_credential_id (row_to_intent i)) with (ri_credential_id i) in Hv. rewrite (Hk id i Hi) in Hv.
    by rewrite (Nat.add_comm j 1).
  - intros id Hn. apply Hout. rewrite Hids. intros Hx. apply list_elem_of_fmap in Hx as ([id' x] & -> & Hx).
    apply elem_of_map_to_list in Hx. cbn in Hn. by rewrite Hx in Hn.
Qed.


Lemma matched_intent env K d id i :
  intents_keyed d -> intents_match K d -> refresh_intent d !! id = Some i ->
  forall id', verdict env K d (row_to_intent i) <> ReconciledNeedsReauth id' HashMismatch.
Proof.
  intros Hk Hm Hi id'. unfold verdict. change (ri_credential_id (row_to_intent i)) with (ri_credential_id i).
  rewrite (Hk id i Hi). destruct (read_answer K id None d) as [sr|e] eqn:Ea; [|done].
  assert (Engine.hash_mismatch (sr_record sr) (row_to_intent i) = false) as ->.
  2: { case_all; done. }
  unfold read_answer in Ea. destruct (credentials d !! id) as [row|] eqn:Hrow; [|done].
  destruct (state_from_str (cr_state row)); try done.
  destruct (open_existing K id _ _) as [r|] eqn:Ho; [|done]. injection Ea as <-. cbn [sr_record read_of].
  unfold Engine.hash_mismatch. destruct (oauth r) as [o|] eqn:Eo; [|done].
  rewrite bool_decide_eq_true_2; [done|]. symmetry. apply (Hm id i row (refresh_token o) Hi Hrow).
  unfold row_refresh_token. by rewrite Ho, Eo.
Qed.

(** No false alarm at boot. If every intent on disk names the refresh token stored
    beside it, which is what every history of the vault's own calls leaves, then
    reconciliation reports no hash mismatch: that alarm means a write from outside. *)
Theorem reconcile_raises_no_false_alarm envs (st : EngineState Conn) :
  let K := keys_of (eng_store st) in
  let d := es_db (eng_store st) in
  (forall j, undisturbed (envs j)) -> serving (eng_store st) -> vault_sealed K (credentials d) ->
  intents_keyed d -> (forall id, is_Some (refresh_intent d !! id) -> ordinary id) ->
  intents_match K d ->
  exists outs s', Engine.reconcile envs st = (Ok outs, s') /\
    forall id, ReconciledNeedsReauth id HashMismatch ∉ outs.
Proof.
  intros K d Hq Hsv Hs Hk Hord Hm.
  destruct (reconcile_runs envs st Hq Hsv Hs Hk Hord) as (s' & Er & _). do 2 eexists. split; [exact Er|].
  intros id Hin. apply list_elem_of_lookup_1 in Hin as [j Hj]. unfold verdicts in Hj.
  rewrite list_lookup_imap in Hj. destruct (intent_list _ !! j) as [i|] eqn:Ei; [|done].
  apply list_elem_of_lookup_2 in Ei. rewrite intent_list_perm in Ei.
  apply list_elem_of_fmap in Ei as (x & -> & Hx). apply list_elem_of_fmap in Hx as ([id' x'] & -> & Hx).
  apply elem_of_map_to_list in Hx. injection Hj as Hj. by eapply matched_intent in Hj.
Qed.

(** C38: a retained intent is not re-checked. After reconciliation could not run an
    adapter's check and kept the intent, the next reconciliation finds the record
    awaiting re-authentication, drops the intent as an orphan without consulting the
    check, and leaves the credential refused: only an operator restores it. *)
Theorem retained_intent_is_dropped env env' intent (st st1 : EngineState Conn) :
  let id := ri_credential_id intent in
  let K := keys_of (eng_store st) in
  undisturbed env -> undisturbed env' -> serving (eng_store st) ->
  vault_sealed K (credentials (es_db (eng_store st))) -> ordinary id ->
  Engine.reconcile_one env intent st = (Ok (Retained id), st1) ->
  exists st2, Engine.reconcile_one env' intent st1 = (Ok (OrphanCleared id), st2) /\
    visible K id (es_db (eng_store st2)) = (Err NeedsReauth, None).
Proof.
  intros id K Hq Hq' Hsv Hs Hord H1.
  pose proof (reconcile_one_sealed env intent st Hq Hs) as Hs1.
  destruct (reconcile_one_runs env intent st Hq Hsv Hs Hord) as (s1 & E & (Hsv1 & HK1 & _) & Hv).
  rewrite E in H1, Hs1. injection H1 as Ev <-. fold K id in Ev, Hv, HK1. rewrite Ev in Hv. cbn [after] in Hv.
  cbn [snd eng_store] in Hs1. fold K in Hs1. rewrite <- HK1 in Hs1.
  destruct (reconcile_one_runs env' intent (Build_EngineState s1 (eng_exchanges st)) Hq' Hsv1 Hs1 Hord)
    as (s2 & E2 & _ & Hv2). cbn [eng_store] in E2, Hv2. rewrite HK1 in E2, Hv2. fold id in E2, Hv2.
  assert (verdict env' K (es_db s1) intent = OrphanCleared id) as Ev2.
  { unfold verdict. fold id. unfold visible in Hv. by injection Hv as -> _. }
  rewrite Ev2 in E2, Hv2. eexists. split; [exact E2|]. cbn [eng_store]. rewrite Hv2, Hv. done.
Qed.
End Boot.

Module Witness.
Import Calls.Demo Sealed.Witness EngineSpecs.Witness.

Definition boot_env (check : option (result ValidityOutcome RefreshError)) : EngineEnv :=
  {| env_skew_ms := DEFAULT_EXPIRY_SKEW_MS; env_now := fun _ => 500; env_clock := 500;
     env_inputs := fun i => inputs (500 + Z.of_nat i) "-"; env_others := fun _ => [];
     env_adapter := fun _ => true; env_refresh := fun _ _ _ => Ok tokens; env_check := fun _ _ => check;
     env_identity_of_json := fun _ => None; env_permissions_json := fun _ => None;
     env_permissions_of_json := fun _ => None |}.

Definition opened : RefreshIntent :=
  {| ri_credential_id := id; ri_record_version := 1; ri_old_refresh_hash := refresh_token_hash "rt";
     ri_lease_epoch := 1; ri_started_at_ms := 100 |}.

Lemma dangling_intents : refresh_intent (es_db (eng_store dangling)) = {[ id := opened ]}.
Proof. vm_compute. reflexivity. Qed.
Lemma dangling_only i x : refresh_intent (es_db (eng_store dangling)) !! i = Some x -> i = id /\ x = opened.
Proof. rewrite dangling_intents. by intros [-> ->]%lookup_singleton_Some. Qed.
Lemma dangling_keyed : intents_keyed (es_db (eng_store dangling)).
Proof. by intros i x [-> ->]%dangling_only. Qed.
Lemma dangling_ordinary i : is_Some (refresh_intent (es_db (eng_store dangling)) !! i) -> ordinary i.
Proof. intros [x [-> _]%dangling_only]. by split. Qed.
Lemma dangling_serving : serving (eng_store dangling).
Proof. by split. Qed.
Lemma dangling_sealed :
  vault_sealed (keys_of (eng_store dangling)) (credentials (es_db (eng_store dangling))).
Proof.
  destruct (calls_sealed [CallOpenIntent (inputs 100 "-") id 1 (refresh_token_hash "rt")] vault) as [HK Hs];
    [apply vault_is_sealed|by repeat constructor|].
  unfold dangling. cbn [eng_store]. by rewrite HK.
Qed.


Lemma dangling_matches : intents_match (keys_of (eng_store dangling)) (es_db (eng_store dangling)).
Proof.
  intros i x row tok [-> ->]%dangling_only Hrow Htok.
  assert (match credentials (es_db (eng_store dangling)) !! id with
          | Some row => row_refresh_token (keys_of (eng_store dangling)) id row
          | None => None end = Some "rt") as E by (vm_compute; reflexivity).
  rewrite Hrow, Htok in E. by injection E as ->.
Qed.

Lemma no_false_alarm_witness :
  exists outs s', Engine.reconcile (fun _ => boot_env None) dangling = (Ok outs, s') /\
    forall i, ReconciledNeedsReauth i HashMismatch ∉ outs.
Proof.
  exact (reconcile_raises_no_false_alarm (fun _ => boot_env None) dangling (fun _ _ => eq_refl)
    dangling_serving dangling_sealed dangling_keyed dangling_ordinary dangling_matches).
Defined.

Lemma retained_dropped_witness :
  exists st2, Engine.reconcile_one (boot_env None) opened
      (snd (Engine.reconcile_one (boot_env (Some (Err (Transport "t")))) opened dangling))
    = (Ok (OrphanCleared id), st2) /\
    visible (keys_of (eng_store dangling)) id (es_db (eng_store st2)) = (Err NeedsReauth, None).
Proof.
  assert (fst (Engine.reconcile_one (boot_env (Some (Err (Transport "t")))) opened dangling) = Ok (Retained id)) as E
    by (vm_compute; reflexivity).
  apply (retained_intent_is_dropped (boot_env (Some (Err (Transport "t")))) (boot_env None) opened dangling
    _ (fun _ => eq_refl) (fun _ => eq_refl) dangling_serving dangling_sealed); [by split|].
  change (ri_credential_id opened) with id. rewrite <- E. apply surjective_pairing.
Defined.
End Witness.
