(* ===== verification/Lock.v ===== *)
(** * What the per-credential lock buys

    A read may interleave with other reads, reports, admin writes and diagnostics. Here
    the interference is constrained only by what the lock of [with_admin_lock] and
    [inflight_lock] excludes: while a read of [id] holds it, nobody else writes the tokens
    of [id] or opens an intent for it ([respects_lock]). Under that discipline a read keeps
    the vault [sound]: rows sealed, intents keyed by their credential and naming the token
    stored beside them, whatever the provider answers and wherever the read stops. *)

From S2P Require Import Prelude Text Crypto Record Envelope AuditLog Database Store Calls Sealed StoreSpecs Accounting Engine EngineSpecs Reconcile.

Section Keyed.
Context `{C : Crypto} `{X : RecordExt} {Conn : Type} `{L : SqliteStoreLaws Conn}.
Abbreviation R := (on refresh_intent (keeps (fun m => forall id i, m !! id = Some i -> ri_credential_id i = id))).

Lemma clear_keyed id : tx_rel R (clear_intent_tx id).
Proof.
  intros d n d' H1. apply clear_intent_effect in H1 as ->. unfold on, keeps. cbn. intros Hk id' i Hi.
  apply lookup_delete_Some in Hi as [_ Hi]. by apply Hk.
Qed.
Lemma open_keyed id i : ri_credential_id i = id -> tx_rel R (exec (with_refresh_intent (insert id i))).
Proof.
  intros Ei d n d' [= _ <-]. unfold on, keeps. cbn. intros Hk id' i' Hi.
  apply lookup_insert_Some in Hi as [[<- <-]|[_ Hi]]; [done|by apply Hk].
Qed.
#[local] Hint Resolve clear_keyed : rel.
#[local] Hint Extern 1 (tx_rel _ (exec (with_refresh_intent _))) => (apply open_keyed; reflexivity) : rel.

(** Every call keeps the intents keyed by their credential. *)
Lemma call_keyed K c : op_rel K R (call_op (Conn := Conn) c).
Proof. revert c. calls_solve. Qed.
End Keyed.

Section Token.
Context `{C : Crypto} `{!CryptoLaws C} `{X : RecordExt} `{!RecordExtLaws X}.
Context {Conn : Type} `{L : SqliteStoreLaws Conn}.
Context (K : Keys) (id tok : string).

(** If the row of [id] holds a refresh token, it is [tok]. *)
Definition holds_token (m : gmap string CredRow) : Prop :=
  forall row t, m !! id = Some row -> row_refresh_token K id row = Some t -> t = tok.
Abbreviation R := (on credentials (keeps holds_token)).

Lemma token_update_other id' g upd : id' <> id -> tx_rel R (update_credential id' g upd).
Proof.
  intros Hne d n d' H1 Hh row t Hrow Ht. unfold update_credential in H1.
  destruct (credentials d !! id') as [r|] eqn:E; [|simplify_eq; by eapply Hh].
  destruct (g r); [|simplify_eq; by eapply Hh].
  assert (credentials d' = <[id' := upd r]> (credentials d)) as Hc by (destruct (bool_decide _); by simplify_eq).
  rewrite Hc, lookup_insert_ne in Hrow by done. by eapply Hh.
Qed.
Lemma token_update_same id' g upd :
  (forall row, cr_record_version (upd row) = cr_record_version row /\ cr_envelope (upd row) = cr_envelope row) ->
  tx_rel R (update_credential id' g upd).
Proof.
  intros Hu. destruct (decide (id' = id)) as [->|]; [|by apply token_update_other].
  intros d n d' H1 Hh row t Hrow Ht. unfold update_credential in H1.
  destruct (credentials d !! id) as [r|] eqn:E; [|simplify_eq; by eapply Hh].
  destruct (g r); [|simplify_eq; by eapply Hh].
  assert (credentials d' = <[id := upd r]> (credentials d)) as Hc by (destruct (bool_decide _); by simplify_eq).
  rewrite Hc, lookup_insert_eq in Hrow. injection Hrow as <-. eapply Hh; [exact E|].
  unfold row_refresh_token in *. by destruct (Hu r) as [<- <-].
Qed.
Lemma token_insert_other fresh id' row : id' <> id -> tx_rel R (insert_credential fresh id' row).
Proof.
  intros Hne d n d' H1 Hh row' t Hrow Ht. unfold insert_credential in H1.
  case_all; simplify_eq; cbn in Hrow; try (rewrite lookup_insert_ne in Hrow by done); by eapply Hh.
Qed.
Lemma token_delete id' : tx_rel R (delete_credential id').
Proof.
  intros d n d' H1 Hh row t Hrow Ht. unfold delete_credential in H1.
  case_all; simplify_eq; cbn in Hrow; try (apply lookup_delete_Some in Hrow as [_ Hrow]); by eapply Hh.
Qed.
#[local] Hint Resolve token_update_other token_insert_other token_delete : rel.
#[local] Hint Extern 1 (tx_rel _ (update_credential _ _ (set_row_state _ _))) => (by apply token_update_same) : rel.
#[local] Hint Extern 1 (tx_rel _ (update_credential _ _ mark_row_stale)) => (by apply token_update_same) : rel.
#[local] Hint Extern 1 (tx_rel _ (update_credential _ _ (set_permissions _))) => (by apply token_update_same) : rel.

(** The calls the source makes only under the lock of [id]: writes of its tokens. *)
Definition needs_lock (c : Call) : Prop :=
  match c with
  | CallCreate _ i _ _ | CallOverwriteCas _ i _ _ _ | CallOverwrite _ i _ _ _ | CallSetIdentity _ i _ _
  | CallOpenIntent _ i _ _ | CallCommitRefresh _ i _ _ => i = id
  | _ => False
  end.

Lemma call_keeps_token c : ~ needs_lock c -> op_rel K R (call_op (Conn := Conn) c).
Proof. intros Hc. destruct c; cbn in Hc; call_solve fail. Qed.
End Token.

Section Lock.
Context `{C : Crypto} `{!CryptoLaws C} `{X : RecordExt} `{!RecordExtLaws X}.
Context {Conn : Type} `{L : SqliteStoreLaws Conn}.
Context (K : Keys) (env : EngineEnv) (id : string).
Abbreviation Eng A := (M (EngineState Conn) EngineError A).

Record sound (s : EncryptedStore Conn) : Prop := {
  sound_keys : keys_of s = K;
  sound_sealed : vault_sealed K (credentials (es_db s));
  sound_match : intents_match K (es_db s);
  sound_keyed : intents_keyed (es_db s);
}.

(** What every task owes the others, call by call: inputs of the right length, and an
    intent opened only with the hash of the token the row holds at that moment, which is
    what the lock of that row lets its holder know. *)
Definition owes (d : Db) (c : Call) : Prop :=
  call_ok c /\ match c with CallOpenIntent _ i _ h => opened_for K h i d | _ => True end.

(** The lock of [id] is taken before the engine's store call 2 and held to the end: from
    then on nobody else makes the calls the source makes only under it. *)
Record respects_lock : Prop := {
  others_owe i f d : f ∈ env_others env i -> owes d (f d);
  others_excluded i f d : (2 < i)%nat -> f ∈ env_others env i -> ~ needs_lock id (f d);
}.

Lemma call_sound c s : owes (es_db s) c -> sound s -> sound (run_call s c).
Proof.
  intros [Hc Ho] [HK Hs Hm Hk]. unfold run_call. pose proof (surjective_pairing (call_op c s)) as E.
  destruct (call_sealed K c Hc s _ _ HK E) as (HK' & Hs' & _).
  destruct (call_keyed K c s _ _ HK E) as (_ & Hk' & _).
  split; [done|exact (Hs' Hs)| |exact (Hk' Hk)].
  destruct (decide (match c with CallOpenIntent _ _ _ _ => true | _ => false end = true)) as [Ec|Ec].
  - destruct c; try done. by eapply open_intent_match.
  - assert (~ opens_intent c) as Hn by (intros Hx; apply Ec; by destruct c). destruct (call_match K c Hc Hn s _ _ HK E) as (_ & Hm' & _).
    exact (Hm' Hm).
Qed.

(** ** Whose step is whose

    A run as the list of its steps, the read's own marked. The read's own steps keep what
    it owes the others and need no other credential's lock; the rest are the others'. *)

Abbreviation steps := (list (bool * Call)).
Definition run_steps (tr : steps) (s : EncryptedStore Conn) : EncryptedStore Conn := run_calls (map snd tr) s.

Fixpoint accountable (tr : steps) (s : EncryptedStore Conn) : Prop :=
  match tr with
  | [] => True
  | (mine, c) :: tr =>
      (if mine : bool then owes (es_db s) c /\ forall id', id' <> id -> ~ needs_lock id' c
       else exists i f, f ∈ env_others env i /\ c = f (es_db s)) /\
      accountable tr (run_call s c)
  end.

Lemma accountable_app tr tr' s :
  accountable tr s -> accountable tr' (run_steps tr s) -> accountable (tr ++ tr') s.
Proof.
  revert s. induction tr as [|[mine c] tr IH]; intros s; cbn; [done|]. intros [? ?] ?. split; [done|by apply IH].
Qed.
Lemma run_steps_app tr tr' s : run_steps (tr ++ tr') s = run_steps tr' (run_steps tr s).
Proof. unfold run_steps, run_calls. by rewrite map_app, fold_left_app. Qed.

(** A run from [s] to [s'] whose steps are accounted for and that ends sound. *)
Definition good_run (s s' : EncryptedStore Conn) : Prop :=
  exists tr, s' = run_steps tr s /\ accountable tr s /\ sound s'.

Lemma good_refl s : sound s -> good_run s s.
Proof. intros. by exists []. Qed.
Lemma good_trans s1 s2 s3 : good_run s1 s2 -> good_run s2 s3 -> good_run s1 s3.
Proof.
  intros (t1 & -> & Ha & _) (t2 & -> & Hb & Hs). exists (t1 ++ t2). rewrite run_steps_app.
  split_and!; [done|by apply accountable_app|done].
Qed.
Lemma good_sound s s' : good_run s s' -> sound s'.
Proof. by intros (? & _ & _ & ?). Qed.
Lemma good_own s c :
  sound s -> owes (es_db s) c -> (forall id', id' <> id -> ~ needs_lock id' c) -> good_run s (run_call s c).
Proof. intros Hs Ho Hn. exists [(true, c)]. split_and!; [done|done|by apply call_sound]. Qed.

Hypothesis Hlock : respects_lock.
Hypothesis Hinputs : forall k, inputs_ok (env_inputs env k).

Lemma good_others i s : sound s -> good_run s (Engine.run_others (env_others env i) s).
Proof.
  intros Hs. assert (forall f, f ∈ env_others env i -> f ∈ env_others env i) as Hsub by done. revert Hsub.
  generalize (env_others env i) at 1 3 as fs. intros fs. revert s Hs.
  induction fs as [|f fs IH]; intros s Hs Hsub; [by apply good_refl|]. cbn.
  assert (f ∈ env_others env i) as Hf by (apply Hsub; left).
  pose proof (call_sound (f (es_db s)) s (others_owe Hlock _ _ _ Hf) Hs) as Hs1.
  apply (good_trans _ (run_call s (f (es_db s)))); [|apply IH; [done|intros g ?; apply Hsub; by right]].
  exists [(false, f (es_db s))]. split_and!; [done|cbn; eauto|done].
Qed.

Lemma others_token i s tok :
  (2 < i)%nat -> keys_of s = K -> holds_token K id tok (credentials (es_db s)) ->
  holds_token K id tok (credentials (es_db (Engine.run_others (env_others env i) s))).
Proof.
  intros Hi. assert (forall f d, f ∈ env_others env i -> ~ needs_lock id (f d)) as Hn by (intros; by eapply others_excluded).
  revert Hn s. generalize (env_others env i) as fs. induction fs as [|f fs IH]; intros Hn s HK Ht; [done|]. cbn.
  destruct (call_keeps_token K id tok (f (es_db s)) (Hn f _ ltac:(left)) s _ _ HK (surjective_pairing _)) as (HK' & Hr & _).
  apply IH; [intros g ??; apply Hn; by right|done|exact (Hr Ht)].
Qed.

Definition keeps_sound {A} (m : Eng A) : Prop :=
  forall st, sound (eng_store st) -> good_run (eng_store st) (eng_store (snd (m st))).

Lemma sound_ret {A} (a : A) : keeps_sound (mret a).
Proof. intros st Hs. by apply good_refl. Qed.
Lemma sound_err {A} e : keeps_sound (merr (A := A) e).
Proof. intros st Hs. by apply good_refl. Qed.
Lemma sound_lift {A} (r : result A EngineError) : keeps_sound (mlift r).
Proof. intros st Hs. by apply good_refl. Qed.
Lemma sound_bind {A B} (m : Eng A) (k : A -> Eng B) :
  keeps_sound m -> (forall a, keeps_sound (k a)) -> keeps_sound (mbind m k).
Proof.
  intros Hm Hk st Hs. unfold mbind. specialize (Hm st Hs). destruct (m st) as [[a|e] st1]; [|done].
  apply (good_trans _ _ _ Hm). apply Hk. by eapply good_sound.
Qed.
Lemma sound_try {A} i (m : M (EncryptedStore Conn) StoreOpError A) c :
  performs m c -> call_ok c -> ~ opens_intent c -> (forall id', id' <> id -> ~ needs_lock id' c) ->
  keeps_sound (Engine.store_try env i m).
Proof.
  intros Hm Hc Hn Hl st Hs. rewrite store_try_eq. cbn. rewrite Hm. pose proof (good_others i _ Hs) as Hg.
  apply (good_trans _ _ _ Hg). apply good_own; [by eapply good_sound| |done]. split; [done|by destruct c].
Qed.
Lemma sound_call {A} i (m : M (EncryptedStore Conn) StoreOpError A) c :
  performs m c -> call_ok c -> ~ opens_intent c -> (forall id', id' <> id -> ~ needs_lock id' c) ->
  keeps_sound (Engine.store_call env i m).
Proof. intros. apply sound_bind; [by eapply sound_try|]. intros a. apply sound_lift. Qed.
End Lock.

Ltac sound_step :=
  lazymatch goal with
  | |- keeps_sound _ _ _ (mbind _ _) => apply sound_bind; [|intros ?]
  | |- keeps_sound _ _ _ (mret _) => apply sound_ret
  | |- keeps_sound _ _ _ (merr _) => apply sound_err
  | |- keeps_sound _ _ _ (Engine.store_try _ _ _) =>
      eapply sound_try; [eassumption|performing|cbn; auto|by intros []|cbn; intros ? Hne; try (intros ->; by apply Hne); auto]
  | |- keeps_sound _ _ _ (Engine.store_call _ _ _) =>
      eapply sound_call; [eassumption|performing|cbn; auto|by intros []|cbn; intros ? Hne; try (intros ->; by apply Hne); auto]
  | |- keeps_sound _ _ _ (if ?b then _ else _) => destruct b
  | |- keeps_sound _ _ _ (match ?x with _ => _ end) => destruct x
  end.

(** Close a goal on a program whose every step keeps the vault sound. *)
Ltac keeping_sound :=
  lazymatch goal with
  | |- good_run ?K ?env ?id (eng_store ?st) (eng_store (snd (?m ?st))) =>
      let Hk := fresh "Hk" in
      assert (keeps_sound K env id m) as Hk by (repeat first [progress cbn zeta | sound_step]; auto); by apply Hk
  end.

Section LockSpec.
Context `{C : Crypto} `{!CryptoLaws C} `{X : RecordExt} `{!RecordExtLaws X}.
Context {Conn : Type} `{L : SqliteStoreLaws Conn}.
Context (K : Keys) (env : EngineEnv) (id : string).
Hypothesis Hlock : respects_lock K env id.
Hypothesis Hinputs : forall k, inputs_ok (env_inputs env k).
Abbreviation good := (good_run (Conn := Conn) K env id).

Lemma resolve_sound a r o answer :
  in_u64 (record_version r) -> keeps_sound (Conn := Conn) K env id (Engine.resolve_answer env id a r o answer).
Proof.
  intros Hu. unfold Engine.resolve_answer, Engine.commit_tokens. destruct answer as [t|[]];
    repeat (cbn zeta; sound_step).
Qed.

Lemma do_refresh_sound r st :
  in_u64 (record_version r) -> sound K (eng_store st) ->
  (forall o, oauth r = Some o -> holds_token K id (refresh_token o) (credentials (es_db (eng_store st)))) ->
  good (eng_store st) (eng_store (snd (Engine.do_refresh env id r st))).
Proof.
  intros Hu Hs Ht. unfold Engine.do_refresh. unfold mbind at 1, mlift, ok_or.
  destruct (oauth r) as [o|]; [|by apply good_refl]. specialize (Ht o eq_refl). unfold mbind at 1.
  destruct (refresh_adapter r) as [a|]; [|by apply good_refl]. destruct (negb _); [by apply good_refl|]. cbn zeta.
  unfold mbind at 1. rewrite store_call_eq.
  set (s0 := Engine.run_others (env_others env 7) (eng_store st)).
  pose proof (good_others K env id Hlock 7 _ Hs) as Hg0. fold s0 in Hg0.
  assert (holds_token K id (refresh_token o) (credentials (es_db s0))) as Ht0.
  { apply (others_token K env id Hlock); [lia|apply (sound_keys _ _ Hs)|done]. }
  set (c := CallOpenIntent (env_inputs env 7) id (record_version r) (refresh_token_hash (refresh_token o))).
  assert (good s0 (run_call s0 c)) as Hg1.
  { apply good_own; [by eapply good_sound| |intros id' Hne Ec; by apply Hne].
    split; [done|]. intros row t Hrow Htok. by rewrite (Ht0 row t Hrow Htok). }
  change (run_call s0 c) with (snd (open_intent (env_inputs env 7) id (record_version r) (refresh_token_hash (refresh_token o)) s0)) in Hg1.
  pose proof (good_trans _ _ _ _ _ _ Hg0 Hg1) as Hg.
  destruct (open_intent _ _ _ _ s0) as [[u|e] s1]; cbn [fst snd map_err] in *; [|exact Hg].
  apply (good_trans _ _ _ _ _ _ Hg). unfold mbind, Engine.exchange.
  apply (resolve_sound a r o (env_refresh env a id o) Hu (Build_EngineState s1 _)). by eapply good_sound.
Qed.

(** A read that succeeded on a sealed vault knows the token of its row. *)
Lemma read_holds_token inp exp (s s' : EncryptedStore Conn) x :
  sound K s -> read_snapshot inp id exp s = (Ok x, s') ->
  in_u64 (record_version (sr_record x)) /\
  forall o, oauth (sr_record x) = Some o -> holds_token K id (refresh_token o) (credentials (es_db s')).
Proof.
  intros [HK Hs Hm Hk] H1. apply read_ok_inv in H1 as (row & r & Hrow & _ & _ & Hop & -> & Hd & HK').
  rewrite HK in Hop, HK'. cbn [read_of sr_record]. split.
  - destruct (Hs id row Hrow) as ((r' & Hop' & Hv) & _). rewrite Hop in Hop'. injection Hop' as <-.
    rewrite Hv. apply as_u64_range.
  - intros o Ho row' t Hrow' Ht. rewrite Hd in Hrow'. rewrite Hrow in Hrow'. injection Hrow' as <-.
    unfold row_refresh_token in Ht. rewrite Hop in Ht. rewrite Ho in Ht. cbn in Ht. by injection Ht.
Qed.

(** One of the read's own calls, after the others'. *)
Lemma good_call {A} i (m : M (EncryptedStore Conn) StoreOpError A) c s :
  performs m c -> call_ok c -> ~ opens_intent c -> (forall id', id' <> id -> ~ needs_lock id' c) -> sound K s ->
  good s (snd (m (Engine.run_others (env_others env i) s))).
Proof.
  intros Hm Hc Hn Hl Hs.
  pose proof (sound_try K env id Hlock i m c Hm Hc Hn Hl (Build_EngineState s []) Hs) as Hg.
  by rewrite store_try_eq in Hg.
Qed.

Lemma locked_sound inc v0 min_ttl force :
  keeps_sound (Conn := Conn) K env id (Engine.get_locked env id inc v0 min_ttl force).
Proof.
  intros st Hs. unfold Engine.get_locked, get_snapshot. unfold mbind at 1. rewrite store_call_eq.
  set (c := CallRead (env_inputs env 2) id (Some inc)).
  pose proof (good_call 2 (read_snapshot (env_inputs env 2) id (Some inc)) c (eng_store st)
    (performs_ignore _ c eq_refl) I ltac:(by intros []) ltac:(by intros ? _ []) Hs) as Hg1.
  pose proof (good_sound _ _ _ _ _ (good_others K env id Hlock 2 _ Hs)) as Hs0.
  destruct (read_snapshot _ id _ (Engine.run_others _ _)) as [[x|e] s1] eqn:Er; cbn [fst snd map_err] in *; [|exact Hg1].
  apply read_holds_token in Er as (Hu & Ht); [|done]. pose proof (good_sound _ _ _ _ _ Hg1) as Hs1.
  unfold mbind at 1. rewrite store_call_eq. cbn [eng_store eng_exchanges].
  pose proof (good_call 3 (has_refresh_intent id) (CallHasIntent id) s1
    (performs_ignore _ (CallHasIntent id) eq_refl) I ltac:(by intros []) ltac:(by intros ? _ []) Hs1) as Hg2.
  set (s2 := Engine.run_others _ s1) in *.
  assert (forall o, oauth (sr_record x) = Some o -> holds_token K id (refresh_token o) (credentials (es_db s2))) as Ht2.
  { intros o Ho. apply (others_token K env id Hlock); [lia|apply (sound_keys _ _ Hs1)|by apply Ht]. }
  pose proof (good_trans _ _ _ _ _ _ Hg1 Hg2) as Hg. clear Hg1 Hg2.
  destruct (has_refresh_intent id s2) as [r s3] eqn:Eh. cbn [snd] in Hg. pose proof (good_sound _ _ _ _ _ Hg) as Hs3.
  destruct (unfenced_query_reads _ _ _ _ Eh) as [Hd3 _]. rewrite <- Hd3 in Ht2.
  destruct r as [b|e]; cbn [fst snd map_err]; [|exact Hg]. destruct b; [exact Hg|].
  apply (good_trans _ _ _ _ _ _ Hg). change s3 with (eng_store (Build_EngineState s3 (eng_exchanges st))) at 1.
  destruct (negb (bool_decide _)); [by apply good_refl|]. cbn zeta.
  destruct (sm_pending _ && negb (is_refreshable _)).
  { keeping_sound. }
  destruct (negb _ || negb _); [by apply good_refl|]. destruct (sm_pending _ && negb force && negb _ && _); [keeping_sound|].
  unfold mbind at 1. pose proof (do_refresh_sound (sr_record x) (Build_EngineState s3 (eng_exchanges st)) Hu Hs3 Ht2) as Hs4.
  destruct (Engine.do_refresh env id (sr_record x) _) as [[u|e] st4]; cbn [snd] in Hs4; [|exact Hs4].
  apply (good_trans _ _ _ _ _ _ Hs4). apply good_sound in Hs4. keeping_sound.
Qed.

(** C2: a read keeps the vault sound among other tasks. Between its store calls other
    tasks make any calls they choose by what they see, except those the lock of [id]
    excludes while the read holds it, as long as an intent they open, for any credential
    whose lock they hold, names the token of its row. Then, whatever the clocks read,
    whatever the provider answers and wherever the read fails, every row stays sealed and
    every intent names the refresh token stored beside it, so a crash at any later moment
    is one boot reconciliation resolves without a mismatch. And the read owes the others
    no less: its run is a sequence of calls of which the others' are the ones they chose,
    and each of its own keeps the same discipline and needs no other credential's lock. *)
Theorem get_keeps_vault_sound exp min_ttl force (st : EngineState Conn) :
  sound K (eng_store st) ->
  let s' := eng_store (snd (Engine.get_for_incarnation env id exp min_ttl force st)) in
  sound K s' /\
  exists tr, s' = run_steps tr (eng_store st) /\ accountable K env id tr (eng_store st).
Proof.
  intros Hs. cbv zeta.
  assert (forall a b c d, keeps_sound (Conn := Conn) K env id (Engine.get_locked env id a b c d)) as Hl
    by (intros; apply locked_sound).
  assert (good (eng_store st) (eng_store (snd (Engine.get_for_incarnation env id exp min_ttl force st)))) as (tr & E & Ha & Hs').
  { unfold Engine.get_for_incarnation. keeping_sound. }
  eauto.
Qed.
End LockSpec.

Module Witness.
Import Calls.Demo Sealed.Witness EngineSpecs.Witness.

Definition other : string := "oauth:xai".
Definition other_record : VaultRecord := new_oauth "s" "xai" oauth_material (str_bytes "at").
Definition vault2 : EncryptedStore ToyConn := run_call vault (CallCreate (inputs 14 "a2") other other_record (ctx_vault Put)).

(** A task that holds the lock of [other] and read the token [tok] under it: it opens an
    intent for that token, or finds the row changed and only looks. *)
Definition opening (K : Keys) (tok : string) (d : Db) : Call :=
  match credentials d !! other ≫= row_refresh_token K other with
  | Some t => if bool_decide (t = tok) then CallOpenIntent (inputs 8 "-") other 1 (refresh_token_hash tok)
              else CallHasIntent other
  | None => CallHasIntent other
  end.

(** Before every store call another task reads this very credential, and a third refreshes
    the other one: it opens an intent and commits the rotated tokens. *)
Definition busy (K : Keys) : EngineEnv :=
  {| env_skew_ms := DEFAULT_EXPIRY_SKEW_MS; env_now := fun _ => 500; env_clock := 500;
     env_inputs := fun i => inputs (500 + Z.of_nat i) "-";
     env_others := fun _ => [fun _ => CallRead (inputs 7 "-") id None; opening K "rt";
                             fun _ => CallCommitRefresh (inputs 9 "-") other 1 (set_version 2 other_record)];
     env_adapter := fun _ => true; env_refresh := fun _ _ _ => Ok tokens; env_check := fun _ _ => None;
     env_identity_of_json := fun _ => None; env_permissions_json := fun _ => None;
     env_permissions_of_json := fun _ => None |}.

Lemma inputs_good t : inputs_ok (inputs t "-").
Proof. intros j n [= <-]. reflexivity. Qed.

Lemma opening_owes K d : owes K d (opening K "rt" d).
Proof.
  unfold opening. destruct (credentials d !! other) as [row|] eqn:Er; cbn; [|done].
  destruct (row_refresh_token K other row) as [t|] eqn:Et; [|done]. case_bool_decide as E; [|done].
  split; [done|]. intros row' tok Hrow Htok. cbn in Hrow. rewrite Er in Hrow. injection Hrow as <-. rewrite Et in Htok. injection Htok as <-. by subst t.
Qed.

Lemma busy_respects K : respects_lock K (busy K) id.
Proof.
  split.
  - intros i f d [->|[->|[->|[]%elem_of_nil]%elem_of_cons]%elem_of_cons]%elem_of_cons; [done|apply opening_owes|].
    split; [|done]. split; [apply inputs_good|by unfold in_u64, u64_max].
  - intros i f d _ [->|[->|[->|[]%elem_of_nil]%elem_of_cons]%elem_of_cons]%elem_of_cons; [by intros []| |intros E; by vm_compute in E].
    unfold opening. destruct (_ ≫= _); [case_bool_decide|]; intros E; by vm_compute in E.
Qed.
Lemma busy_inputs K k : inputs_ok (env_inputs (busy K) k).
Proof. apply inputs_good. Qed.

Lemma vault_sound : sound (keys_of vault) vault.
Proof.
  assert (refresh_intent (es_db vault) = ∅) as Hno by (vm_compute; reflexivity).
  split; [done|apply vault_is_sealed| |]; [intros i x ?? Hi|intros i x Hi]; by rewrite Hno in Hi.
Qed.
Lemma vault2_sound : sound (keys_of vault) vault2.
Proof. apply call_sound; [|apply vault_sound]. split; [|done]. intros j n [= <-]. reflexivity. Qed.

Definition start2 : EngineState ToyConn := {| eng_store := vault2; eng_exchanges := [] |}.
Abbreviation read2 := (Engine.get_for_incarnation (busy (keys_of vault)) id None None true start2).

(** Both refreshes went through. *)
Example both_refreshed :
  match fst read2 with Ok g => access_token <$> oauth (gs_record g) | Err _ => None end = Some "at2" /\
  (cr_record_version <$> credentials (es_db (eng_store (snd read2))) !! other) = Some 2.
Proof. split; vm_compute; reflexivity. Qed.

Lemma get_keeps_sound_witness :
  sound (keys_of vault) (eng_store (snd read2)) /\
  exists tr, eng_store (snd read2) = run_steps tr vault2 /\ accountable (keys_of vault) (busy (keys_of vault)) id tr vault2.
Proof.
  exact (get_keeps_vault_sound (keys_of vault) (busy (keys_of vault)) id (busy_respects _) (busy_inputs _)
           None None true start2 vault2_sound).
Defined.
End Witness.
