(* ===== verification/Grants.v ===== *)
(** * Scoped authorization ([credentials-core/src/store.rs]: grants, coverage, listing)

    Grants of an operation to a principal, by exact credential id, by category or by
    audience; the evaluation of one request against them; the listing of everything a
    principal reaches; and the operator's metadata (categories, provider ids, plan tier)
    with its two table families, local records and records of other members. *)

From stdpp Require Import gmap sorting pretty.
From S2P Require Import Prelude Text Crypto Record CredentialId Catalog Envelope AuditLog Database Store TxLogic Calls.

(** ** Vocabulary *)

Inductive GrantOperation := OpRead | OpSign | OpOpen | OpList | OpDeposit | OpAccountToken | OpSeal.
#[global] Instance GrantOperation_eq_dec : EqDecision GrantOperation.
Proof. solve_decision. Defined.

(** In declaration order, which is the order of a [BTreeSet] of them. *)
Definition all_operations : list GrantOperation :=
  [OpRead; OpSign; OpOpen; OpList; OpDeposit; OpAccountToken; OpSeal].

Definition operation_as_str (o : GrantOperation) : string :=
  match o with
  | OpRead => "read" | OpSign => "sign" | OpOpen => "open" | OpList => "list"
  | OpDeposit => "deposit" | OpAccountToken => "account_token" | OpSeal => "seal"
  end.

Definition operation_from_str (value : string) : result GrantOperation string :=
  if bool_decide (value = "read") then Ok OpRead
  else if bool_decide (value = "sign") then Ok OpSign
  else if bool_decide (value = "open") then Ok OpOpen
  else if bool_decide (value = "list") then Ok OpList
  else if bool_decide (value = "deposit") then Ok OpDeposit
  else if bool_decide (value = "account_token") then Ok OpAccountToken
  else if bool_decide (value = "seal") then Ok OpSeal
  else Err ("unknown grant operation '" ++ value ++
            "' (expected read, sign, open, list, deposit, account_token, or seal)")%string.

Inductive SelectorKind := Exact | Category | Audience.
#[global] Instance SelectorKind_eq_dec : EqDecision SelectorKind.
Proof. solve_decision. Defined.

Definition selector_as_str (k : SelectorKind) : string :=
  match k with Exact => "exact" | Category => "category" | Audience => "audience" end.

Definition selector_from_str (value : string) : result SelectorKind string :=
  if bool_decide (value = "exact") then Ok Exact
  else if bool_decide (value = "category") then Ok Category
  else if bool_decide (value = "audience") then Ok Audience
  else Err ("unknown selector kind '" ++ value ++ "' (expected exact, category, or audience)")%string.

Definition validate_operation (k : SelectorKind) (o : GrantOperation) : result unit string :=
  if negb (Bool.eqb (bool_decide (k = Audience)) (bool_decide (o = OpAccountToken)))
  then Err "account_token requires selector-kind audience, and audience requires operation account_token"
  else if bool_decide (o = OpSeal) && negb (bool_decide (k = Exact))
  then Err "seal requires selector-kind exact: it names one KEM key, never a category"
  else Ok tt.

Record ReadGrant := {
  g_principal_kind : string;
  g_principal_id : string;
  g_selector_kind : SelectorKind;
  g_selector : string;
  g_operation : GrantOperation;
  g_created_at_ms : Z;
}.

Definition valid_enrollment_name (name : string) : bool := valid_category_name name.

Definition TRANSFER_ANNOUNCE_PRINCIPAL : string := "reserved:callosum".

Definition transfer_key_admits_grant (id principal : string) (o : GrantOperation) : result unit string :=
  if negb (is_vault_transfer_id id) then Ok tt
  else if bool_decide (o = OpRead) && bool_decide (principal = TRANSFER_ANNOUNCE_PRINCIPAL) then Ok tt
  else Err ("transfer_key_reserved: " ++ id ++ " is the vault transfer key; its only grant is read to " ++
            TRANSFER_ANNOUNCE_PRINCIPAL ++ " for the public-key announce")%string.

Record ScopedCoverage := {
  covered : bool;
  caller_active_grants : Z;
  holds_category_selector : bool;
  id_exists : bool;
  id_category_count : option Z;
}.

Inductive ListAuthMethod := LApikey | LChatgpt | LAntigravity | LOauth.

Definition list_auth_method (k : CredentialKind) (adapter : option string) : option ListAuthMethod :=
  match k with
  | ApiKey => Some LApikey
  | Oauth =>
      match adapter with
      | None => None
      | Some a =>
          if bool_decide (a = "openai") then Some LChatgpt
          else if bool_decide (a = "antigravity") then Some LAntigravity
          else if bool_decide (a ∈ ["anthropic"; "google"; "xai"; "kimi"; "meta"; "cursor"; "github-copilot"])
          then Some LOauth
          else None
      end
  | Dsn | Cookie | Opaque | SigningKey | KemKey => None
  end.

(** [plan_detection::effective_plan]: the tier and where it comes from. *)
Definition effective_plan (operator : option string) (detected : option DetectedPlan)
  : option string * option string :=
  match operator with
  | Some tier => (Some tier, Some "operator")
  | None =>
      match detected ≫= plan_tier with
      | Some tier => (Some tier, Some "detected")
      | None => (None, None)
      end
  end.

Record ScopedListRow := {
  sl_id : string;
  sl_categories : list string;
  sl_state : RecordState;
  sl_record_version : Z;
  sl_operations : list GrantOperation;
  sl_identity : option RecordIdentity;
  sl_refresh_adapter : option string;
  sl_provider_ids : list string;
  sl_plan_tier : option string;
  sl_plan_tier_source : option string;
  sl_auth_method : option ListAuthMethod;
}.

Record ScopedListSnapshot := { snap_rows : list ScopedListRow; snap_grants : list ReadGrant }.

Inductive SetCategoryMode := CatSet | CatAdd | CatRemove.
Inductive SetProvidersMode := ProvSet | ProvAdd | ProvRemove.

(** ** Provider ids ([provider_ids.rs]) and plan tiers ([plan_tier.rs]) *)

Definition MIN_PROVIDER_ID_LEN : nat := 2.
Definition MAX_PROVIDER_ID_LEN : nat := 64.
Definition MAX_PROVIDER_IDS_PER_CREDENTIAL : nat := 32.

Definition charset_ok (id : string) : bool :=
  match id with
  | String first rest => is_ascii_lowercase first && str_forallb label_char rest
  | EmptyString => false
  end.

Definition length_ok (id : string) : bool :=
  (MIN_PROVIDER_ID_LEN <=? String.length id)%nat && (String.length id <=? MAX_PROVIDER_ID_LEN)%nat.

Fixpoint check_each_provider_id (ids : list string) : result unit StoreOpError :=
  match ids with
  | [] => Ok tt
  | id :: rest =>
      if negb (charset_ok id) then Err (InvalidProviderId RuleCharset id)
      else if negb (length_ok id) then Err (InvalidProviderId RuleLength id)
      else check_each_provider_id rest
  end.

Fixpoint check_provider_duplicates (seen : gset string) (ids : list string) : result unit StoreOpError :=
  match ids with
  | [] => Ok tt
  | id :: rest =>
      if bool_decide (id ∈ seen) then Err (InvalidProviderId RuleDuplicate id)
      else check_provider_duplicates ({[ id ]} ∪ seen) rest
  end.

Definition check_provider_ids (ids : list string) : result unit StoreOpError :=
  let? _ := check_each_provider_id ids in check_provider_duplicates ∅ ids.

Definition MAX_PLAN_TIER_LEN : nat := 32.
Definition valid_plan_tier (tier : string) : bool :=
  (1 <=? String.length tier)%nat && (String.length tier <=? MAX_PLAN_TIER_LEN)%nat &&
  match tier with String c _ => is_ascii_lowercase c | EmptyString => false end &&
  str_forallb (fun c => is_ascii_lowercase c || is_ascii_digit c || Ascii.eqb c "_") tier.

(** ** Reading the tables *)

Definition SELECTOR_SCHEMA_VERSION : Z := 10.
Definition PROVIDER_ID_SCHEMA_VERSION : Z := 15.
Definition REMOTE_METADATA_SCHEMA_VERSION : Z := 20.
Definition MEMBER_GRANTS_SCHEMA_VERSION : Z := 22.
(** The migration that creates [read_grants]. *)
Definition GRANTS_TABLE_SCHEMA_VERSION : Z := 4.

(** Text columns in order, compared as [ORDER BY] compares them. *)
Fixpoint columns_leb (xs ys : list string) : bool :=
  match xs, ys with
  | [], _ => true
  | _ :: _, [] => false
  | x :: xs', y :: ys' => if String.eqb x y then columns_leb xs' ys' else String.leb x y
  end.

Definition key_columns (k : GrantKey) : list string :=
  let '(pk, pid, sk, sel, o) := k in [pk; pid; sk; sel; o].

Definition grant_le (x y : GrantKey * Z) : Prop := Is_true (columns_leb (key_columns x.1) (key_columns y.1)).
#[global] Instance grant_le_dec : RelDecision grant_le.
Proof. intros x y. unfold grant_le. apply _. Defined.

Definition conversion_failure (column : Z) (type err : string) : SqlError :=
  Sql ("Conversion error from type " ++ type ++ " at index: " ++ pretty column ++ ", " ++ err).

(** The row parser of [read_grants_from_conn]. *)
Definition parse_grant (row : GrantKey * Z) : result ReadGrant SqlError :=
  let '((pk, pid, sk, sel, o), created) := row in
  let? k := map_err (conversion_failure 2 "Text") (selector_from_str sk) in
  let? op := map_err (conversion_failure 4 "Text") (operation_from_str o) in
  Ok {| g_principal_kind := pk; g_principal_id := pid; g_selector_kind := k; g_selector := sel;
        g_operation := op; g_created_at_ms := created |}.

Fixpoint collect_results {A B E} (f : A -> result B E) (xs : list A) : result (list B) E :=
  match xs with
  | [] => Ok []
  | x :: rest => let? y := f x in let? ys := collect_results f rest in Ok (y :: ys)
  end.

Definition of_principal (principal : option (string * string)) (row : GrantKey * Z) : bool :=
  match principal with
  | None => true
  | Some (kind, id) => let '(pk, pid, _, _, _) := row.1 in bool_decide (pk = kind) && bool_decide (pid = id)
  end.

Definition read_grants_from_conn (principal : option (string * string)) (schema_version : Z) : Tx (list ReadGrant) :=
  fun d =>
    if schema_version <? SELECTOR_SCHEMA_VERSION then
      if db_schema_version d <? GRANTS_TABLE_SCHEMA_VERSION then (Ok [], d)
      else (Err (Sql ("Invalid parameter name: store schema " ++ pretty schema_version ++
              ": current selector kinds arrive with migration 10; " ++
              "restart the daemon on this build to migrate the store, or read it with the " ++
              "ck-auth that matches the store")), d)
    else (collect_results parse_grant
            (merge_sort grant_le (List.filter (of_principal principal) (map_to_list (read_grants (access d))))), d).

Inductive MetadataTables := Local | Remote.
#[global] Instance MetadataTables_eq_dec : EqDecision MetadataTables.
Proof. solve_decision. Defined.

Definition metadata_tables_for (id : string) (d : Db) : option MetadataTables :=
  if is_some (credentials d !! id) then Some Local
  else if db_schema_version d <? REMOTE_METADATA_SCHEMA_VERSION then None
  else if bool_decide (id ∈ remote_records d) then Some Remote else None.

(** The pairs of a metadata table under one id, in ascending byte order. *)
Definition values_of (id : string) (t : gset (string * string)) : list string :=
  merge_sort string_le (map snd (List.filter (fun p => bool_decide (fst p = id)) (elements t))).

Definition categories_table (t : MetadataTables) (d : Db) : gset (string * string) :=
  match t with Local => credential_categories d | Remote => remote_record_categories (access d) end.
Definition provider_ids_table (t : MetadataTables) (d : Db) : gset (string * string) :=
  match t with Local => credential_provider_ids d | Remote => remote_record_provider_ids (access d) end.
Definition plan_tiers_table (t : MetadataTables) (d : Db) : gmap string string :=
  match t with Local => credential_plan_tiers d | Remote => remote_record_plan_tiers (access d) end.

Definition with_categories_table (t : MetadataTables) (f : gset (string * string) -> gset (string * string)) : Db -> Db :=
  match t with Local => with_credential_categories f | Remote => with_remote_categories f end.
Definition with_provider_ids_table (t : MetadataTables) (f : gset (string * string) -> gset (string * string)) : Db -> Db :=
  match t with Local => with_credential_provider_ids f | Remote => with_remote_provider_ids f end.
Definition with_plan_tiers_table (t : MetadataTables) (f : gmap string string -> gmap string string) : Db -> Db :=
  match t with Local => with_credential_plan_tiers f | Remote => with_remote_plan_tiers f end.

(** [group_concat(.., ',')] of the ordered values, then [split_categories]. *)
Definition split_categories (joined : string) : list string :=
  if str_is_empty joined then []
  else let '(first, rest) := split_on ","%char joined in first :: rest.

Definition split_provider_ids (joined : string) : list string := merge_sort string_le (split_categories joined).

Definition provider_ids_from_conn (id : string) (schema_version : Z) (d : Db) : list string :=
  if schema_version <? PROVIDER_ID_SCHEMA_VERSION then [] else values_of id (credential_provider_ids d).

(** ** Operations *)

Section Operations.
Context `{C : Crypto} `{X : RecordExt} {Conn : Type} `{S : SqliteStore Conn}.

Abbreviation Store := (EncryptedStore Conn).
Abbreviation Op A := (M Store StoreOpError A).

Definition grant_key (pk pid : string) (k : SelectorKind) (sel : string) (o : GrantOperation) : GrantKey :=
  (pk, pid, selector_as_str k, sel, operation_as_str o).

Definition grant_target (pk pid : string) (k : SelectorKind) (sel : string) (o : GrantOperation) : string :=
  ("grant:" ++ operation_as_str o ++ ":" ++ pk ++ ":" ++ pid ++ ":" ++ selector_as_str k ++ "|" ++ sel)%string.

(** A statement that changes one grant row or none, and what follows a change. *)
Definition change_grant (ak : bytes) (ts : Z) (ctx : AuditCtx) (target : string) (stmt : Tx nat) : Tx nat :=
  do! changed <- stmt ;;
  do! _ <- (if (0 <? changed)%nat then
              do! _ <- append_audit_tx ak ts (ctx_record ctx (ctx_op ctx) target None) ;;
              bump_grants_generation_tx
            else mret tt) ;;
  mret changed.

Definition insert_grant (k : GrantKey) (now : Z) : Tx nat :=
  fun d =>
    if is_some (read_grants (access d) !! k) then (Ok 0%nat, d)
    else (Ok 1%nat, with_read_grants (insert k now) d).

Definition delete_grant (k : GrantKey) : Tx nat :=
  fun d =>
    if is_some (read_grants (access d) !! k) then (Ok 1%nat, with_read_grants (delete k) d)
    else (Ok 0%nat, d).

Definition principal_ok (pk pid : string) : bool :=
  (bool_decide (pk = "reserved") || bool_decide (pk = "enrolled")) &&
  negb (str_is_empty pid) && negb (str_contains_char "|" pid).

Definition create_read_grant_audited (inp : Inputs) (pk pid : string) (k : SelectorKind) (sel : string)
    (o : GrantOperation) (ctx : AuditCtx) : Op unit :=
  do! _ <- mlift (map_err StoreFailure (validate_operation k o)) ;;
  if bool_decide (k = Exact) && is_deposit_key sel then merr NotFound else
  do! _ <- mlift (if bool_decide (k = Exact)
                  then map_err (fun _ => TransferKeyReserved)
                         (transfer_key_admits_grant sel (pk ++ ":" ++ pid)%string o)
                  else Ok tt) ;;
  if negb (principal_ok pk pid) || (bool_decide (pk = "enrolled") && negb (valid_enrollment_name pid))
  then merr InvalidPrincipal else
  if bool_decide (o = OpDeposit) &&
     (negb (bool_decide (pk = "reserved")) || negb (bool_decide (k = Category)) ||
      negb (bool_decide (sel = "browser-session")))
  then merr InvalidDepositGrant else
  if str_is_empty sel then merr InvalidCategoryName else
  if bool_decide (k = Category) && negb (valid_category_name sel) then merr InvalidCategoryName else
  with_self (fun K =>
  do! changed <- fenced (change_grant (k_audit_key K) (in_now inp 1) ctx (grant_target pk pid k sel o)
                   (insert_grant (grant_key pk pid k sel o) (in_now inp 0))) ;;
  if (changed =? 0)%nat then merr AlreadyExists else mret tt).

Definition revoke_read_grant_audited (inp : Inputs) (pk pid : string) (k : SelectorKind) (sel : string)
    (o : GrantOperation) (ctx : AuditCtx) : Op unit :=
  do! _ <- mlift (map_err StoreFailure (validate_operation k o)) ;;
  do! _ <- mlift (if bool_decide (k = Exact)
                  then map_err (fun _ => TransferKeyReserved)
                         (transfer_key_admits_grant sel (pk ++ ":" ++ pid)%string o)
                  else Ok tt) ;;
  if negb (principal_ok pk pid) then merr InvalidPrincipal else
  if str_is_empty sel then merr InvalidCategoryName else
  with_self (fun K =>
  do! changed <- fenced (change_grant (k_audit_key K) (in_now inp 0) ctx (grant_target pk pid k sel o)
                   (delete_grant (grant_key pk pid k sel o))) ;;
  if (changed =? 0)%nat then merr NotFound else mret tt).

(** *** Coverage of one request *)

(** The selectors a principal holds for one operation: [(selector_kind, selector)]. *)
Definition selectors_held (pk pid : string) (o : GrantOperation) (d : Db) : list (string * string) :=
  map (fun row => let '(_, _, sk, sel, _) := row.1 in (sk, sel))
    (List.filter (fun row => of_principal (Some (pk, pid)) row &&
       (let '(_, _, _, _, op) := row.1 in bool_decide (op = operation_as_str o)))
       (map_to_list (read_grants (access d)))).

Definition as_u32 (z : Z) : Z := z mod 2 ^ 32.

Definition coverage_of (pk pid id : string) (o : GrantOperation) (d : Db) : ScopedCoverage :=
  let grants := selectors_held pk pid o d in
  let active := as_u32 (Z.of_nat (length grants)) in
  let is_kind k (g : string * string) := bool_decide (g.1 = selector_as_str k) in
  let categorical := existsb (is_kind Category) grants in
  if bool_decide (o = OpAccountToken) then
    {| covered := existsb (fun g => is_kind Audience g && bool_decide (id = g.2)) grants;
       caller_active_grants := active; holds_category_selector := false; id_exists := false;
       id_category_count := None |}
  else if bool_decide (o = OpDeposit) then
    let categories := category_defaults id in
    {| covered := existsb (fun g => is_kind Category g && bool_decide (g.2 ∈ categories)) grants;
       caller_active_grants := active; holds_category_selector := categorical; id_exists := false;
       id_category_count := Some (as_u32 (Z.of_nat (length categories))) |}
  else
    let exact := existsb (fun g => is_kind Exact g && bool_decide (id = g.2)) grants in
    let tables := metadata_tables_for id d in
    if negb exact && categorical then
      let categories := values_of id (categories_table (default Local tables) d) in
      {| covered := existsb (fun g => is_kind Category g && existsb (String.eqb g.2) categories) grants;
         caller_active_grants := active; holds_category_selector := categorical;
         id_exists := is_some tables;
         id_category_count := Some (as_u32 (Z.of_nat (length categories))) |}
    else
      {| covered := exact; caller_active_grants := active; holds_category_selector := categorical;
         id_exists := is_some tables; id_category_count := None |}.

Definition evaluate_scoped_coverage (pk pid id : string) (o : GrantOperation) : Op ScopedCoverage :=
  if is_deposit_key id then merr NotFound else unfenced (query (coverage_of pk pid id o)).

Definition read_grant_covers (pk pid id : string) (o : GrantOperation) : Op bool :=
  do! c <- evaluate_scoped_coverage pk pid id o ;; mret (covered c).

Definition grants_generation_of : Op Z := unfenced (query (fun d => as_u64 (grants_generation d))).

Definition list_read_grants : Op (list ReadGrant) :=
  unfenced (fun d => read_grants_from_conn None (db_schema_version d) d).

(** *** The listing *)

(** Which rows a grant reaches. *)
Definition grant_reaches (id : string) (categories : list string) (g : ReadGrant) : bool :=
  match g_selector_kind g with
  | Exact => bool_decide (id = g_selector g)
  | Audience => false
  | Category => existsb (String.eqb (g_selector g)) categories
  end.

Definition operations_on (id : string) (categories : list string) (grants : list ReadGrant) : list GrantOperation :=
  List.filter (fun o => existsb (fun g =>
      negb (bool_decide (g_operation g = OpDeposit)) && grant_reaches id categories g &&
      bool_decide (g_operation g = o)) grants) all_operations.

(** Unseal a candidate for its metadata. *)
Definition open_candidate (K : Keys) (id : string) (row : CredRow) : result VaultRecord SqlError :=
  let? plaintext := map_err (fun e => conversion_failure 3 "Blob" (display_envelope_error e))
    (open (k_key K) (cr_envelope row)
       {| rb_credential_id := id; rb_record_version := as_u64 (cr_record_version row) |}) in
  map_err (conversion_failure 3 "Blob") (decode plaintext).

Definition list_row (K : Keys) (include_keys : bool) (grants : list ReadGrant) (d : Db) (id : string) (row : CredRow)
  : result (option ScopedListRow * option (string * Z)) SqlError :=
  let categories := split_categories (String.concat "," (values_of id (credential_categories d))) in
  let provider_ids := if PROVIDER_ID_SCHEMA_VERSION <=? db_schema_version d
    then split_provider_ids (String.concat "," (values_of id (credential_provider_ids d))) else [] in
  let state := state_from_str (cr_state row) in
  let version := as_u64 (cr_record_version row) in
  let operations := operations_on id categories grants in
  if is_deposit_key id || bool_decide (operations = []) then Ok (None, None) else
  let disclose := bool_decide (OpRead ∈ operations) || bool_decide (OpList ∈ operations) in
  let? decoded :=
    (if negb (bool_decide (state = CorruptState)) && (include_keys || disclose)
     then let? r := open_candidate K id row in Ok (Some r) else Ok None) in
  let shown := if disclose then decoded else None in
  let key := match decoded with
             | Some r => if include_keys && is_vault_held_key (kind r) then Some (id, version) else None
             | None => None
             end in
  let '(tier, source) := effective_plan
    (match shown with Some _ => plan_tier_from_conn id d | None => None end) (shown ≫= detected_plan) in
  Ok (Some {| sl_id := id; sl_categories := categories; sl_state := state; sl_record_version := version;
              sl_operations := operations; sl_identity := identity <$> shown;
              sl_refresh_adapter := shown ≫= refresh_adapter; sl_provider_ids := provider_ids;
              sl_plan_tier := tier; sl_plan_tier_source := source;
              sl_auth_method := shown ≫= (fun r => list_auth_method (kind r) (refresh_adapter r)) |}, key).

Definition cred_le (x y : string * CredRow) : Prop := string_le x.1 y.1.
#[global] Instance cred_le_dec : RelDecision cred_le.
Proof. intros x y. unfold cred_le. apply _. Defined.

Definition list_scoped_snapshot_inner (pk pid : string) (include_keys : bool)
  : Op (ScopedListSnapshot * list (string * Z)) :=
  with_self (fun K => unfenced (
    do! schema_version <- query db_schema_version ;;
    do! all <- read_grants_from_conn (Some (pk, pid)) schema_version ;;
    let grants := List.filter (fun g => negb (bool_decide (g_selector_kind g = Exact)) ||
                                        negb (is_deposit_key (g_selector g))) all in
    fun d =>
      (let? rows := collect_results (fun kv => list_row K include_keys grants d kv.1 kv.2)
                      (merge_sort cred_le (map_to_list (credentials d))) in
       Ok ({| snap_rows := omap fst rows; snap_grants := grants |}, omap snd rows), d))).

Definition list_scoped_snapshot (pk pid : string) : Op ScopedListSnapshot :=
  do! r <- list_scoped_snapshot_inner pk pid false ;; mret r.1.

Definition watch_scoped_snapshot (pk pid : string) : Op (ScopedListSnapshot * list (string * Z)) :=
  list_scoped_snapshot_inner pk pid true.

(** *** Metadata *)

Definition categories (id : string) : Op (list string) :=
  unfenced (query (fun d => values_of id (categories_table (default Local (metadata_tables_for id d)) d))).

(** [DELETE] of the id's rows, then one [INSERT] per value. *)
Definition replace_values (id : string) (values : gset string) (t : gset (string * string)) : gset (string * string) :=
  filter (fun p => p.1 <> id) t ∪ set_map (pair id) values.

Definition sorted (s : gset string) : list string := merge_sort string_le (elements s).

Definition set_categories_tx (ak : bytes) (ts : Z) (id : string) (mode : SetCategoryMode)
    (requested : gset string) (ctx : AuditCtx) : Tx (option bool) :=
  do! tables <- query (metadata_tables_for id) ;;
  match tables with
  | None => mret None
  | Some t =>
      do! current <- query (fun d => list_to_set (C := gset string) (values_of id (categories_table t d))) ;;
      let resulting := match mode with
                       | CatSet => requested
                       | CatAdd => current ∪ requested
                       | CatRemove => current ∖ requested
                       end in
      if bool_decide (resulting = current) then mret (Some false) else
      do! _ <- exec (with_categories_table t (replace_values id resulting)) ;;
      do! _ <- append_audit_tx ak ts (ctx_record ctx (ctx_op ctx)
                 ("category:" ++ id ++ "|" ++ String.concat "," (sorted resulting))%string None) ;;
      do! _ <- bump_grants_generation_tx ;;
      mret (Some true)
  end.

Definition set_categories_audited (inp : Inputs) (id : string) (mode : SetCategoryMode)
    (cats : list string) (ctx : AuditCtx) : Op bool :=
  if str_contains_char "|" id then merr InvalidCredentialId else
  if negb (forallb valid_category_name cats) then merr InvalidCategoryName else
  with_self (fun K =>
  do! outcome <- fenced (set_categories_tx (k_audit_key K) (in_now inp 0) id mode (list_to_set cats) ctx) ;;
  mlift (ok_or outcome NotFound)).

Definition provider_ids (id : string) : Op (list string) :=
  unfenced (query (fun d =>
    if bool_decide (metadata_tables_for id d = Some Remote)
    then values_of id (remote_record_provider_ids (access d))
    else provider_ids_from_conn id (db_schema_version d) d)).

(** Grow the set in request order; the refusal names the id that crosses the cap. *)
Fixpoint grow_provider_ids (resulting : gset string) (ids : list string) : result (gset string) StoreOpError :=
  match ids with
  | [] => Ok resulting
  | id :: rest =>
      let grown := {[ id ]} ∪ resulting in
      if (MAX_PROVIDER_IDS_PER_CREDENTIAL <? size grown)%nat
      then Err (InvalidProviderId RuleCount id) else grow_provider_ids grown rest
  end.

Definition set_providers_tx (ak : bytes) (ts : Z) (id : string) (mode : SetProvidersMode)
    (ids : list string) (ctx : AuditCtx) : Tx (result (list string) StoreOpError) :=
  do! tables <- query (metadata_tables_for id) ;;
  match tables with
  | None => mret (Err NotFound)
  | Some t =>
      do! current <- query (fun d => list_to_set (C := gset string) (values_of id (provider_ids_table t d))) ;;
      match (match mode with
             | ProvRemove => Ok (current ∖ list_to_set ids)
             | ProvSet => grow_provider_ids ∅ ids
             | ProvAdd => grow_provider_ids current ids
             end) with
      | Err e => mret (Err e)
      | Ok resulting =>
          if bool_decide (resulting = current) then mret (Ok (sorted resulting)) else
          do! _ <- exec (with_provider_ids_table t (replace_values id resulting)) ;;
          do! _ <- append_audit_tx ak ts (ctx_record ctx (ctx_op ctx)
                     ("providers:" ++ id ++ "|" ++ String.concat "," (sorted resulting))%string None) ;;
          mret (Ok (sorted resulting))
      end
  end.

(** A closure that returns its own refusal: the trailing [?] or [outcome]. *)
Definition flatten {A} (m : Op (result A StoreOpError)) : Op A := do! r <- m ;; mlift r.

Definition set_providers_audited (inp : Inputs) (id : string) (mode : SetProvidersMode)
    (ids : list string) (ctx : AuditCtx) : Op (list string) :=
  do! _ <- mlift (check_provider_ids ids) ;;
  with_self (fun K => flatten (fenced (set_providers_tx (k_audit_key K) (in_now inp 0) id mode ids ctx))).

Definition write_plan_tier_in_tx (ak : bytes) (ts : Z) (t : MetadataTables) (id : string)
    (tier : option string) (ctx : AuditCtx) : Tx unit :=
  do! old <- query (fun d => match t with
                             | Local => plan_tier_from_conn id d
                             | Remote => remote_record_plan_tiers (access d) !! id
                             end) ;;
  if bool_decide (old = tier) then mret tt else
  do! _ <- exec (with_plan_tiers_table t (delete id)) ;;
  do! _ <- match tier with
           | Some x => exec (with_plan_tiers_table t (insert id x))
           | None => mret tt
           end ;;
  do! _ <- append_audit_tx ak ts (ctx_record ctx SetPlan
             ("plan:" ++ id ++ "|" ++ default "" old ++ "|" ++ default "" tier)%string None) ;;
  mret tt.

Definition set_plan_audited (inp : Inputs) (id : string) (tier : option string) (ctx : AuditCtx)
  : Op (option string) :=
  if match tier with Some t => negb (valid_plan_tier t) | None => false end then merr InvalidPlanTier else
  with_self (fun K => flatten (fenced (
    do! tables <- query (metadata_tables_for id) ;;
    match tables with
    | None => mret (Err NotFound)
    | Some t =>
        do! _ <- write_plan_tier_in_tx (k_audit_key K) (in_now inp 0) t id tier ctx ;;
        mret (Ok tier)
    end))).

(** *** Reclassification *)

Definition granted_categories (d : Db) : gset string :=
  list_to_set (map (fun row => let '(_, _, _, sel, _) := row.1 in sel)
    (List.filter (fun row => let '(_, _, sk, _, _) := row.1 in bool_decide (sk = "category"))
       (map_to_list (read_grants (access d)))))
  ∪ (if MEMBER_GRANTS_SCHEMA_VERSION <=? db_schema_version d then member_category_selectors (access d) else ∅).

Definition reclassify_refusal (category id : string) : string :=
  ("refusing: reclassify --force would remove category '" ++ category ++ "' from " ++ id ++
   ", and an active grant selects on it. That category is not in the registry, so --force cannot " ++
   "restore it and the grant would reach fewer credentials or none. Assign it with `ck auth " ++
   "set-category <id> --add " ++ category ++ "` or revoke the grant first.")%string.

Fixpoint reclassify_loop (ak : bytes) (now : nat -> Z) (force : bool) (granted : gset string)
    (ctx : AuditCtx) (changed : nat) (ids : list string) : Tx nat :=
  match ids with
  | [] => mret changed
  | id :: rest =>
      let defaults := list_to_set (C := gset string) (category_defaults id) in
      if bool_decide (defaults = ∅) || str_contains_char "|" id
      then reclassify_loop ak now force granted ctx changed rest else
      do! current <- query (fun d => list_to_set (C := gset string) (values_of id (credential_categories d))) ;;
      if (negb force && negb (bool_decide (current = ∅))) || bool_decide (current = defaults)
      then reclassify_loop ak now force granted ctx changed rest else
      match sorted (filter (fun c => c ∈ granted) (current ∖ defaults)) with
      | category :: _ => merr (Sql (reclassify_refusal category id))
      | [] =>
          do! _ <- exec (with_credential_categories (replace_values id defaults)) ;;
          do! _ <- append_audit_tx ak (now changed) (ctx_record ctx (ctx_op ctx)
                     ("category:" ++ id ++ "|" ++ String.concat "," (sorted defaults))%string None) ;;
          reclassify_loop ak now force granted ctx (changed + 1) rest
      end
  end.

Definition reclassify_tx (ak : bytes) (now : nat -> Z) (force : bool) (ctx : AuditCtx) : Tx nat :=
  do! ids <- query (fun d => sorted (dom (credentials d))) ;;
  do! granted <- query granted_categories ;;
  do! changed <- reclassify_loop ak now force granted ctx 0 ids ;;
  do! _ <- (if (0 <? changed)%nat then bump_grants_generation_tx else mret tt) ;;
  mret changed.

Definition reclassify_audited (inp : Inputs) (force : bool) (ctx : AuditCtx) : Op nat :=
  with_self (fun K => fenced (reclassify_tx (k_audit_key K) (in_now inp) force ctx)).
End Operations.

(** ** Lemmas *)

Lemma operation_roundtrip o : operation_from_str (operation_as_str o) = Ok o.
Proof. by destruct o. Qed.
Lemma operation_from_inv s o : operation_from_str s = Ok o -> s = operation_as_str o.
Proof. unfold operation_from_str. repeat case_bool_decide; intros; by simplify_eq. Qed.
Lemma selector_roundtrip k : selector_from_str (selector_as_str k) = Ok k.
Proof. by destruct k. Qed.
Lemma selector_from_inv s k : selector_from_str s = Ok k -> s = selector_as_str k.
Proof. unfold selector_from_str. repeat case_bool_decide; intros; by simplify_eq. Qed.
Lemma operation_as_str_inj o o' : operation_as_str o = operation_as_str o' -> o = o'.
Proof. by destruct o, o'. Qed.
Lemma selector_as_str_inj k k' : selector_as_str k = selector_as_str k' -> k = k'.
Proof. by destruct k, k'. Qed.

Lemma collect_results_ok {A B E} (f : A -> result B E) xs ys :
  collect_results f xs = Ok ys -> Forall2 (fun x y => f x = Ok y) xs ys.
Proof.
  revert ys. induction xs as [|x xs IH]; intros ys H; cbn in H; [simplify_eq; constructor|].
  destruct (f x) as [y|] eqn:Ey; [|done]. destruct (collect_results f xs) as [zs|] eqn:Ez; [|done].
  simplify_eq. constructor; auto.
Qed.

(** Membership in what a loop over results collected. *)
Lemma collect_results_in {A B E} (f : A -> result B E) xs ys y :
  collect_results f xs = Ok ys -> (y ∈ ys <-> exists x, x ∈ xs /\ f x = Ok y).
Proof.
  intros H%collect_results_ok. induction H as [|x z xs ys Hf HF IH]; [set_solver|].
  rewrite elem_of_cons, IH. setoid_rewrite elem_of_cons. split.
  - intros [->|(x' & ? & ?)]; eauto.
  - intros (x' & [->|?] & Hx'); [left; congruence|eauto].
Qed.

Lemma collect_results_each {A B E} (f : A -> result B E) xs ys x :
  collect_results f xs = Ok ys -> x ∈ xs -> exists y, f x = Ok y.
Proof.
  intros H%collect_results_ok. induction H; [set_solver|].
  intros [->|?]%elem_of_cons; eauto.
Qed.

Lemma list_filter_in {A} (p : A -> bool) (xs : list A) x : x ∈ List.filter p xs <-> x ∈ xs /\ p x = true.
Proof. rewrite !list_elem_of_In. apply filter_In. Qed.

Lemma existsb_elem {A} (p : A -> bool) (xs : list A) : existsb p xs = true <-> exists x, x ∈ xs /\ p x = true.
Proof. rewrite existsb_exists. by setoid_rewrite list_elem_of_In. Qed.

Lemma existsb_eqb (x : string) xs : existsb (String.eqb x) xs = true <-> x ∈ xs.
Proof.
  rewrite existsb_elem. split; [|intros; exists x; by rewrite String.eqb_refl].
  by intros (y & Hy & ->%String.eqb_eq).
Qed.

Lemma elem_of_values_of id t c : c ∈ values_of id t <-> (id, c) ∈ t.
Proof.
  unfold values_of. rewrite merge_sort_Permutation, list_elem_of_In, in_map_iff. split.
  - intros ([i c'] & <- & [Hin Hd]%filter_In). case_bool_decide; [|done]. cbn in *. subst.
    by apply elem_of_elements, list_elem_of_In.
  - intros H. exists (id, c). split; [done|]. apply filter_In.
    rewrite <- list_elem_of_In, elem_of_elements. split; [done|]. by apply bool_decide_eq_true.
Qed.

Definition char_free (c : ascii) (s : string) : Prop := str_contains_char c s = false.

Lemma char_free_cons c d s : char_free c (String d s) -> Ascii.eqb c d = false /\ char_free c s.
Proof.
  unfold char_free, str_contains_char. rewrite !negb_false_iff. cbn.
  intros [H1 H2]%andb_true_iff. by apply negb_true_iff in H1.
Qed.

Lemma split_on_free c s : char_free c s -> split_on c s = (s, []).
Proof.
  induction s as [|d s IH]; [done|]. intros [Hd Hs]%char_free_cons. cbn [split_on].
  by rewrite (IH Hs), Hd.
Qed.

Lemma split_on_sep c s t :
  char_free c s -> split_on c (s ++ String c t)%string = (s, (split_on c t).1 :: (split_on c t).2).
Proof.
  induction s as [|d s IH]; intros H.
  - change ("" ++ String c t)%string with (String c t). cbn [split_on]. destruct (split_on c t).
    by rewrite Ascii.eqb_refl.
  - apply char_free_cons in H as [Hd Hs].
    change (String d s ++ String c t)%string with (String d (s ++ String c t)). cbn [split_on].
    by rewrite (IH Hs), Hd.
Qed.

(** Joining with a separator none of the pieces contains, then splitting, is the identity. *)
Lemma split_on_join c x xs :
  Forall (char_free c) (x :: xs) -> split_on c (String.concat (String c "") (x :: xs)) = (x, xs).
Proof.
  revert x. induction xs as [|y ys IH]; intros x H; inversion H as [|? ? Hx Hxs]; subst.
  - cbn. by apply split_on_free.
  - change (String.concat (String c "") (x :: y :: ys))
      with (x ++ String c "" ++ String.concat (String c "") (y :: ys))%string.
    change (String c "" ++ String.concat (String c "") (y :: ys))%string
      with (String c (String.concat (String c "") (y :: ys))).
    rewrite split_on_sep by done. by rewrite IH.
Qed.

Lemma concat_empty_inv c x xs : String.concat (String c "") (x :: xs) = "" -> x = "".
Proof. destruct xs; cbn; [done|]. by destruct x. Qed.

Lemma split_categories_join cats :
  Forall (fun c => char_free "," c /\ c <> "") cats -> split_categories (String.concat "," cats) = cats.
Proof.
  intros H. unfold split_categories, str_is_empty. destruct cats as [|x xs]; [done|].
  inversion H as [|? ? [_ Hx] _]; subst.
  destruct (String.eqb_spec (String.concat "," (x :: xs)) "") as [E%concat_empty_inv|_]; [done|].
  rewrite split_on_join; [done|]. eapply Forall_impl; [done|]. by intros ? [? _].
Qed.

Lemma str_forallb_free (p : ascii -> bool) c s : p c = false -> str_forallb p s = true -> char_free c s.
Proof.
  intros Hc. unfold char_free, str_contains_char. rewrite negb_false_iff.
  induction s as [|d s IH]; [done|]. cbn. intros [Hd Hs]%andb_true_iff. rewrite (IH Hs), andb_true_r.
  destruct (Ascii.eqb_spec c d); [congruence|done].
Qed.

Lemma valid_category_plain c : valid_category_name c = true -> char_free "," c /\ c <> "".
Proof.
  unfold valid_category_name. destruct c as [|a c]; [done|]. intros H. bool_hyps. split; [|done].
  apply (str_forallb_free label_char); [done|]. cbn.
  apply andb_true_iff. split; [|done]. unfold label_char. by rewrite H0.
Qed.

(** Every stored category is a name the grammar admits. *)
Definition categories_valid (d : Db) : Prop :=
  forall id c, (id, c) ∈ credential_categories d -> valid_category_name c = true.

Lemma listed_categories id d :
  categories_valid d ->
  split_categories (String.concat "," (values_of id (credential_categories d))) =
    values_of id (credential_categories d).
Proof.
  intros Hv. apply split_categories_join, list.Forall_forall. intros c Hc%elem_of_values_of.
  apply valid_category_plain. by eapply Hv.
Qed.

(** *** The grants that may exist *)

Record admissible (pk pid : string) (k : SelectorKind) (sel : string) (o : GrantOperation) : Prop := {
  ad_principal : principal_ok pk pid = true;
  ad_enrolled : pk = "enrolled" -> valid_enrollment_name pid = true;
  ad_operation : validate_operation k o = Ok tt;
  ad_exact : k = Exact -> is_deposit_key sel = false /\
    transfer_key_admits_grant sel (pk ++ ":" ++ pid)%string o = Ok tt;
  ad_deposit : o = OpDeposit -> pk = "reserved" /\ k = Category /\ sel = "browser-session";
  ad_selector : sel <> "";
  ad_category : k = Category -> valid_category_name sel = true;
}.

(** What the guards of [create_read_grant_audited] let through. *)
Lemma guards_admissible pk pid k sel o a a0 :
  map_err StoreFailure (validate_operation k o) = Ok a ->
  bool_decide (k = Exact) && is_deposit_key sel = false ->
  (if bool_decide (k = Exact)
   then map_err (fun _ => TransferKeyReserved) (transfer_key_admits_grant sel (pk ++ ":" ++ pid)%string o)
   else Ok tt) = Ok a0 ->
  negb (principal_ok pk pid) || bool_decide (pk = "enrolled") && negb (valid_enrollment_name pid) = false ->
  bool_decide (o = OpDeposit) &&
    (negb (bool_decide (pk = "reserved")) || negb (bool_decide (k = Category)) ||
     negb (bool_decide (sel = "browser-session"))) = false ->
  str_is_empty sel = false -> bool_decide (k = Category) && negb (valid_category_name sel) = false ->
  admissible pk pid k sel o.
Proof.
  intros Hv Hd Ht Hp Hdep Hs Hc. apply orb_false_iff in Hp as [Hp He]. bool_hyps. split.
  - done.
  - intros Hk. rewrite (bool_decide_eq_true_2 _ Hk) in He. rewrite andb_true_l in He. by bool_hyps.
  - destruct (validate_operation k o) as [[]|]; done.
  - intros Hk. rewrite (bool_decide_eq_true_2 _ Hk) in Hd, Ht. split; [done|].
    destruct (transfer_key_admits_grant _ _ _) as [[]|]; done.
  - intros Ho. rewrite (bool_decide_eq_true_2 _ Ho) in Hdep. rewrite andb_true_l in Hdep. by bool_hyps.
  - by intros ->.
  - intros Hk. rewrite (bool_decide_eq_true_2 _ Hk) in Hc. rewrite andb_true_l in Hc. by bool_hyps.
Qed.

(** *** Grants as rows and as values *)

Definition stored_grant (g : ReadGrant) : GrantKey :=
  grant_key (g_principal_kind g) (g_principal_id g) (g_selector_kind g) (g_selector g) (g_operation g).

Lemma parse_grant_inv row g :
  parse_grant row = Ok g -> row = (stored_grant g, g_created_at_ms g).
Proof.
  destruct row as [[[[[pk pid] sk] sel] o] t]. cbn.
  destruct (selector_from_str sk) as [k|] eqn:Ek; [|done].
  destruct (operation_from_str o) as [op|] eqn:Eo; [|done]. cbn. intros [= <-].
  apply selector_from_inv in Ek as ->. apply operation_from_inv in Eo as ->. done.
Qed.

Lemma principal_grants_in pk pid v d all d' g :
  read_grants_from_conn (Some (pk, pid)) v d = (Ok all, d') -> SELECTOR_SCHEMA_VERSION <= v ->
  (g ∈ all <-> g_principal_kind g = pk /\ g_principal_id g = pid /\
               read_grants (access d) !! stored_grant g = Some (g_created_at_ms g)).
Proof.
  intros H Hv. unfold read_grants_from_conn in H.
  rewrite (proj2 (Z.ltb_ge v SELECTOR_SCHEMA_VERSION) Hv) in H. injection H as H _.
  assert (forall row, row ∈ merge_sort grant_le (List.filter (of_principal (Some (pk, pid)))
            (map_to_list (read_grants (access d)))) <->
          read_grants (access d) !! row.1 = Some row.2 /\ of_principal (Some (pk, pid)) row = true) as Hrows.
  { intros [k t]. by rewrite merge_sort_Permutation, list_filter_in, elem_of_map_to_list. }
  assert (forall g, of_principal (Some (pk, pid)) (stored_grant g, g_created_at_ms g) = true <->
            g_principal_kind g = pk /\ g_principal_id g = pid) as Hp.
  { intros g0. unfold of_principal, stored_grant, grant_key. cbn.
    by rewrite andb_true_iff, !bool_decide_eq_true. }
  rewrite (collect_results_in _ _ _ _ H). split.
  - intros (row & [Hrow Hof]%Hrows & ->%parse_grant_inv). apply Hp in Hof. tauto.
  - intros (Hk & Hi & Hl). exists (stored_grant g, g_created_at_ms g). split.
    { apply Hrows. split; [done|]. by apply Hp. }
    cbn. rewrite selector_roundtrip, operation_roundtrip. by destruct g.
Qed.

Lemma selectors_held_in pk pid o d sk sel :
  (sk, sel) ∈ selectors_held pk pid o d <->
  is_Some (read_grants (access d) !! ((pk, pid, sk, sel, operation_as_str o) : GrantKey)).
Proof.
  unfold selectors_held. rewrite list_elem_of_In, in_map_iff. split.
  - intros ([[[[[pk' pid'] sk'] sel'] o'] t] & [= -> ->] & [Hin Hf]%filter_In).
    apply list_elem_of_In, elem_of_map_to_list in Hin. cbn in Hf. bool_hyps. subst. eauto.
  - intros [t Ht]. exists ((pk, pid, sk, sel, operation_as_str o), t). split; [done|].
    apply filter_In. rewrite <- list_elem_of_In, elem_of_map_to_list. split; [done|]. cbn.
    by rewrite !bool_decide_eq_true_2.
Qed.

(** Whether a principal holds a grant. *)
Definition holds (pk pid : string) (k : SelectorKind) (sel : string) (o : GrantOperation) (d : Db) : Prop :=
  is_Some (read_grants (access d) !! grant_key pk pid k sel o).

Lemma holding pk pid k o d (p : string -> bool) :
  existsb (fun g => bool_decide (g.1 = selector_as_str k) && p g.2) (selectors_held pk pid o d) = true <->
  exists sel, holds pk pid k sel o d /\ p sel = true.
Proof.
  rewrite existsb_elem. split.
  - intros ([sk sel] & Hin & H). cbn in H. bool_hyps. subst. exists sel. split; [|done].
    by apply selectors_held_in in Hin.
  - intros (sel & Hh & Hp). exists (selector_as_str k, sel). split; [by apply selectors_held_in|].
    cbn. by rewrite bool_decide_eq_true_2.
Qed.

(** The reference definition of reach over a stored credential. *)
Definition reaches (pk pid id : string) (o : GrantOperation) (d : Db) : Prop :=
  holds pk pid Exact id o d \/
  exists c, holds pk pid Category c o d /\
    c ∈ values_of id (categories_table (default Local (metadata_tables_for id d)) d).

Lemma coverage_is_reach pk pid id o d :
  o <> OpDeposit -> o <> OpAccountToken ->
  covered (coverage_of pk pid id o d) = true <-> reaches pk pid id o d.
Proof.
  intros Hd Ha. unfold coverage_of. rewrite (bool_decide_eq_false_2 (o = OpAccountToken)) by done.
  rewrite (bool_decide_eq_false_2 (o = OpDeposit)) by done. cbv zeta.
  set (ex := existsb (fun g => _ && bool_decide (id = g.2)) _).
  assert (ex = true <-> holds pk pid Exact id o d) as Hex.
  { pose proof (holding pk pid Exact o d (fun sel => bool_decide (id = sel))) as Hh.
    subst ex. etrans; [exact Hh|]. clear Hh. split.
    - intros (sel & Hh & He). bool_hyps. by subst.
    - intros Hh. exists id. by rewrite bool_decide_eq_true_2. }
  set (cats := values_of id _).
  assert (existsb (fun g => bool_decide (g.1 = selector_as_str Category) && existsb (String.eqb g.2) cats)
            (selectors_held pk pid o d) = true <->
          exists c, holds pk pid Category c o d /\ c ∈ cats) as Hcat.
  { etrans; [apply (holding pk pid Category o d (fun sel => existsb (String.eqb sel) cats))|].
    by setoid_rewrite existsb_eqb. }
  assert (existsb (fun g => bool_decide (g.1 = selector_as_str Category)) (selectors_held pk pid o d) = false ->
          ~ exists c, holds pk pid Category c o d /\ c ∈ cats) as Hnone.
  { intros Hf Hc. destruct Hc as (c & Hc & _). apply not_true_iff_false in Hf. apply Hf.
    apply existsb_elem. exists (selector_as_str Category, c). split; [by apply selectors_held_in|].
    by apply bool_decide_eq_true. }
  unfold reaches. fold cats. rewrite <- Hex, <- Hcat. rewrite <- Hcat in Hnone.
  clear Hex Hcat. clearbody ex.
  match type of Hnone with ?a = false -> ?b <> true => destruct a, b end;
    destruct ex; cbn [negb andb covered]; intuition.
Qed.

Lemma operations_on_in id cats grants o :
  o ∈ operations_on id cats grants <->
  exists g, g ∈ grants /\ g_operation g = o /\ o <> OpDeposit /\ grant_reaches id cats g = true.
Proof.
  unfold operations_on. rewrite list_filter_in, existsb_elem. split.
  - intros [_ (g & Hg & H)]. bool_hyps. subst. eauto.
  - intros (g & Hg & <- & Hd & Hr). split; [destruct (g_operation g); set_solver|].
    exists g. split; [done|]. by rewrite Hr, (bool_decide_eq_false_2 _ Hd), bool_decide_eq_true_2.
Qed.

(** What a listed row says. *)
Lemma list_row_inv `{C : Crypto} `{X : RecordExt} K ik grants d id row r k :
  list_row K ik grants d id row = Ok (Some r, k) ->
  is_deposit_key id = false /\ sl_id r = id /\
  sl_operations r = operations_on id (split_categories (String.concat "," (values_of id (credential_categories d)))) grants /\
  sl_operations r <> [] /\
  ((is_Some (sl_identity r) \/ is_Some (sl_refresh_adapter r) \/ is_Some (sl_plan_tier r) \/
    is_Some (sl_auth_method r)) ->
   OpRead ∈ sl_operations r \/ OpList ∈ sl_operations r).
Proof.
  unfold list_row. cbv zeta. destruct (is_deposit_key id || _) eqn:E; [done|]. bool_hyps.
  destruct (if negb _ && _ then _ else _) as [decoded|]; [|done].
  set (disclose := _ || _).
  destruct (effective_plan _ _) as [tier source] eqn:Ep. intros [= <- <-]. cbn.
  split_and!; try done. intros Hs.
  destruct disclose eqn:Ed; [subst disclose|].
  - apply orb_true_iff in Ed as [Ed|Ed]; bool_hyps; auto.
  - cbn in *. unfold effective_plan in Ep. simplify_eq. destruct Hs as [[]|[[]|[[]|[]]]]; done.
Qed.

Lemma list_row_kept `{C : Crypto} `{X : RecordExt} K ik grants d id row x :
  list_row K ik grants d id row = Ok x -> is_deposit_key id = false ->
  operations_on id (split_categories (String.concat "," (values_of id (credential_categories d)))) grants <> [] ->
  exists r k, x = (Some r, k).
Proof.
  unfold list_row. cbv zeta. intros H Hdep Hops. rewrite Hdep, bool_decide_eq_false_2 in H by done. cbn in H.
  destruct (if negb _ && _ then _ else _); [|done]. destruct (effective_plan _ _). simplify_eq. eauto.
Qed.

Section Listing.
Context `{C : Crypto} `{X : RecordExt} {Conn : Type} `{L : SqliteStoreLaws Conn}.

Lemma unfenced_ok_inv {A} (f : Tx A) (s : EncryptedStore Conn) a s' :
  unfenced f s = (Ok a, s') -> f (es_db s) = (Ok a, es_db s').
Proof.
  unfold unfenced. destruct (with_conn f (es_conn s)) as [[x|e] c] eqn:E; [|done].
  intros [= -> <-]. by apply conn_commits in E.
Qed.

(** A snapshot reads one database and is made of its rows. *)
Lemma snapshot_inv pk pid ik (s s' : EncryptedStore Conn) snap ks :
  list_scoped_snapshot_inner pk pid ik s = (Ok (snap, ks), s') ->
  es_db s' = es_db s /\
  exists all rows,
    read_grants_from_conn (Some (pk, pid)) (db_schema_version (es_db s)) (es_db s) = (Ok all, es_db s) /\
    snap_grants snap = List.filter (fun g => negb (bool_decide (g_selector_kind g = Exact)) ||
                                             negb (is_deposit_key (g_selector g))) all /\
    collect_results (fun kv => list_row (keys_of s) ik (snap_grants snap) (es_db s) kv.1 kv.2)
      (merge_sort cred_le (map_to_list (credentials (es_db s)))) = Ok rows /\
    snap_rows snap = omap fst rows.
Proof.
  unfold list_scoped_snapshot_inner, with_self. intros H1%unfenced_ok_inv.
  unfold mbind, query in H1.
  destruct (read_grants_from_conn _ _ _) as [[all|e] d1] eqn:Eg; [|done].
  assert (d1 = es_db s) as ->.
  { unfold read_grants_from_conn in Eg. by repeat case_match; simplify_eq. }
  destruct (collect_results _ _) as [rows|] eqn:Er; [|done].
  injection H1 as <- <- <-. split; [done|]. exists all, rows. cbn. split_and!; first [exact Er|done].
Qed.

Lemma reach_by_grant pk pid v d all d' id o :
  read_grants_from_conn (Some (pk, pid)) v d = (Ok all, d') -> SELECTOR_SCHEMA_VERSION <= v ->
  is_deposit_key id = false -> is_Some (credentials d !! id) -> o <> OpDeposit ->
  (exists g, g ∈ List.filter (fun g => negb (bool_decide (g_selector_kind g = Exact)) ||
                                       negb (is_deposit_key (g_selector g))) all /\
     g_operation g = o /\ o <> OpDeposit /\ grant_reaches id (values_of id (credential_categories d)) g = true)
  <-> reaches pk pid id o d.
Proof.
  intros Hr Hv Hdep Hrow Ho.
  assert (categories_table (default Local (metadata_tables_for id d)) d = credential_categories d) as Ht.
  { unfold metadata_tables_for. by rewrite (proj2 (is_some_true _) Hrow). }
  unfold reaches. rewrite Ht. split.
  - intros (g & [Hg _]%list_filter_in & <- & _ & Hreach).
    apply (principal_grants_in _ _ _ _ _ _ _ Hr Hv) in Hg as (<- & <- & Hl).
    unfold grant_reaches in Hreach. unfold holds. destruct (g_selector_kind g) eqn:Ek; [| |done].
    + left. bool_hyps. subst. unfold stored_grant in Hl. rewrite Ek in Hl. eauto.
    + right. apply existsb_eqb in Hreach. exists (g_selector g). unfold stored_grant in Hl. rewrite Ek in Hl. eauto.
  - assert (forall k sel, holds pk pid k sel o d -> (k = Exact -> is_deposit_key sel = false) ->
      grant_reaches id (values_of id (credential_categories d))
        {| g_principal_kind := pk; g_principal_id := pid; g_selector_kind := k; g_selector := sel;
           g_operation := o; g_created_at_ms := 0 |} = true ->
      exists g, g ∈ List.filter (fun g => negb (bool_decide (g_selector_kind g = Exact)) ||
                                       negb (is_deposit_key (g_selector g))) all /\
        g_operation g = o /\ o <> OpDeposit /\
        grant_reaches id (values_of id (credential_categories d)) g = true) as Hmk.
    { intros k sel [t Ht'] Hk Hreach.
      exists {| g_principal_kind := pk; g_principal_id := pid; g_selector_kind := k; g_selector := sel;
                g_operation := o; g_created_at_ms := t |}.
      split_and!; try done. apply list_filter_in. split.
      - by apply (principal_grants_in _ _ _ _ _ _ _ Hr Hv).
      - cbn. case_bool_decide; [by rewrite Hk|done]. }
    intros [Hex|(c & Hc & Hin)].
    + apply (Hmk Exact id); [done..|]. cbn. by apply bool_decide_eq_true.
    + apply (Hmk Category c); [done..|]. cbn. by apply existsb_eqb.
Qed.

(** C20: the listing and the per-request check, which read the grants in different ways,
    authorize the same: a stored credential is listed with an operation exactly when the
    evaluation of that operation covers it; a listed row is a stored credential that is
    not a deposit key, and it carries identity, adapter, plan or method only when [read]
    or [list] covers it. *)
Theorem listing_agrees_with_coverage pk pid (s s' : EncryptedStore Conn) snap :
  list_scoped_snapshot pk pid s = (Ok snap, s') ->
  SELECTOR_SCHEMA_VERSION <= db_schema_version (es_db s) -> categories_valid (es_db s) ->
  (forall id o, is_Some (credentials (es_db s) !! id) -> is_deposit_key id = false ->
     o <> OpDeposit -> o <> OpAccountToken ->
     (exists r, r ∈ snap_rows snap /\ sl_id r = id /\ o ∈ sl_operations r) <->
     covered (coverage_of pk pid id o (es_db s)) = true) /\
  (forall r, r ∈ snap_rows snap ->
     is_Some (credentials (es_db s) !! sl_id r) /\ is_deposit_key (sl_id r) = false /\
     (is_Some (sl_identity r) \/ is_Some (sl_refresh_adapter r) \/ is_Some (sl_plan_tier r) \/
      is_Some (sl_auth_method r) ->
      covered (coverage_of pk pid (sl_id r) OpRead (es_db s)) = true \/
      covered (coverage_of pk pid (sl_id r) OpList (es_db s)) = true)).
Proof.
  unfold list_scoped_snapshot, mbind. intros H1 Hv Hcats.
  destruct (list_scoped_snapshot_inner pk pid false s) as [[[sn ks]|e] s1] eqn:E; [|done].
  injection H1 as <- <-. cbn.
  apply snapshot_inv in E as (_ & all & rows & Hall & Hg & Hrows & Hsn).
  assert (forall id o, is_Some (credentials (es_db s) !! id) -> is_deposit_key id = false -> o <> OpDeposit ->
     o ∈ operations_on id (split_categories (String.concat "," (values_of id (credential_categories (es_db s)))))
           (snap_grants sn) <-> reaches pk pid id o (es_db s)) as Hops.
  { intros id o Hrow Hdep Ho. rewrite operations_on_in, listed_categories, Hg by done.
    by eapply reach_by_grant. }
  assert (forall r, r ∈ snap_rows sn -> exists id row k, credentials (es_db s) !! id = Some row /\
            list_row (keys_of s) false (snap_grants sn) (es_db s) id row = Ok (Some r, k)) as Hr.
  { intros r. rewrite Hsn, list_elem_of_omap. intros ([r' k] & Hin & [= ->]).
    apply (collect_results_in _ _ _ _ Hrows) in Hin as ([id row] & Hin & Hl).
    rewrite merge_sort_Permutation, elem_of_map_to_list in Hin. eauto. }
  split.
  - intros id o Hrow Hdep Ho Ha. rewrite coverage_is_reach, <- Hops by done. split.
    + intros (r & (id' & row & k & Hrow' & Hl)%Hr & Hid & Hin).
      apply list_row_inv in Hl as (_ & Hid' & Hl & _). rewrite Hid in Hid'. subst id'. by rewrite <- Hl.
    + intros Hin. destruct Hrow as [row Hrow].
      assert ((id, row) ∈ merge_sort cred_le (map_to_list (credentials (es_db s)))) as Hmem
        by (by rewrite merge_sort_Permutation, elem_of_map_to_list).
      destruct (collect_results_each _ _ _ _ Hrows Hmem) as [x Hx]. cbn in Hx.
      destruct (list_row_kept _ _ _ _ _ _ _ Hx Hdep) as (r & k & ->); [intros Hn; rewrite Hn in Hin; by apply not_elem_of_nil in Hin|].
      pose proof Hx as (_ & Hid & Hl & _)%list_row_inv. exists r. split_and!; [|done|by rewrite Hl].
      rewrite Hsn, list_elem_of_omap. exists (Some r, k). split; [|done].
      apply (collect_results_in _ _ _ _ Hrows). eauto.
  - intros r (id & row & k & Hrow & Hl)%Hr. apply list_row_inv in Hl as (Hdep & Hid & Hl & _ & Hdis).
    rewrite Hid. split_and!; [by eauto|done|]. rewrite !coverage_is_reach by done.
    rewrite <- !Hops, <- Hl by eauto. exact Hdis.
Qed.
End Listing.

(** ** Reclassification keeps every grant's reach *)

Section Reclassify.
Context `{C : Crypto} `{X : RecordExt} {Conn : Type} `{L : SqliteStoreLaws Conn}.

(** What reclassifying may change: categories of local records that no grant selects on,
    and without [force] only those of records that had none. *)
Record reclassified (force : bool) (granted : gset string) (d d' : Db) : Prop := {
  rc_frame : (access d', credentials d', remote_records d', db_schema_version d') =
             (access d, credentials d, remote_records d, db_schema_version d);
  rc_granted : forall id c, c ∈ granted -> (id, c) ∈ credential_categories d -> (id, c) ∈ credential_categories d';
  rc_unforced : force = false -> forall id, values_of id (credential_categories d) <> [] ->
    forall c, (id, c) ∈ credential_categories d' <-> (id, c) ∈ credential_categories d;
}.

Lemma reclassified_refl force granted d d' :
  (access d', credentials d', remote_records d', db_schema_version d', credential_categories d') =
  (access d, credentials d, remote_records d, db_schema_version d, credential_categories d) ->
  reclassified force granted d d'.
Proof. intros [= E1 E2 E3 E4 E5]. split; [congruence|by rewrite E5|by rewrite E5]. Qed.

Lemma reclassified_trans force granted d1 d2 d3 :
  reclassified force granted d1 d2 -> reclassified force granted d2 d3 -> reclassified force granted d1 d3.
Proof.
  intros [F1 G1 U1] [F2 G2 U2]. split; [congruence|auto|]. intros Hf id Hv c.
  specialize (U1 Hf id Hv). rewrite (U2 Hf); [apply U1|]. intros Hn. apply Hv.
  destruct (values_of id (credential_categories d1)) as [|x l] eqn:Ev; [done|].
  assert (x ∈ values_of id (credential_categories d2)) as Hx.
  { apply elem_of_values_of, U1, elem_of_values_of. rewrite Ev. set_solver. }
  rewrite Hn in Hx. by apply not_elem_of_nil in Hx.
Qed.

Lemma values_of_nodup id t : NoDup (values_of id t).
Proof.
  unfold values_of. rewrite merge_sort_Permutation. pose proof (NoDup_elements t) as Hn.
  induction (elements t) as [|[i c] l IH]; [constructor|]. apply NoDup_cons in Hn as [Hx Hl]. cbn.
  case_bool_decide as Hi; [|by auto]. cbn. apply NoDup_cons. split; [|by auto].
  rewrite list_elem_of_In, in_map_iff. intros ([j c'] & Hc & [Hin Hj]%filter_In). bool_hyps. cbn in *. subst.
  by apply Hx, list_elem_of_In.
Qed.

Lemma sorted_nil (s : gset string) : sorted s = [] -> s = ∅.
Proof.
  unfold sorted. intros Hs. apply leibniz_equiv, elements_empty_inv.
  apply Permutation_nil. rewrite <- Hs. apply merge_sort_Permutation.
Qed.

Lemma replaced_reclassified force granted id (defaults : gset string) d :
  let current := list_to_set (C := gset string) (values_of id (credential_categories d)) in
  (negb force && negb (bool_decide (current = ∅))) = false ->
  sorted (filter (fun c => c ∈ granted) (current ∖ defaults)) = [] ->
  reclassified force granted d (with_credential_categories (replace_values id defaults) d).
Proof.
  intros current Hf Hs%sorted_nil. split; [done| |]; cbn [credential_categories with_credential_categories].
  - intros i c Hg Hc. unfold replace_values. destruct (decide (i = id)) as [->|Hne]; [|set_solver].
    destruct (decide (c ∈ defaults)); [set_solver|]. exfalso.
    assert (c ∈ current) by (subst current; by apply elem_of_list_to_set, elem_of_values_of). set_solver.
  - intros -> i Hv c. cbn in Hf. bool_hyps. unfold replace_values.
    destruct (decide (i = id)) as [->|Hne]; [|set_solver]. exfalso.
    destruct (values_of id (credential_categories d)) as [|x l] eqn:Ev; [done|]. subst current. set_solver.
Qed.

Lemma loop_reclassifies ak now force granted ctx changed ids d :
  wp (reclassify_loop ak now force granted ctx changed ids) (fun _ d' => reclassified force granted d d') d.
Proof.
  revert changed d. induction ids as [|id ids IH]; intros changed d; cbn [reclassify_loop];
    [apply wp_ret; by apply reclassified_refl|].
  repeat lazymatch goal with
    | |- wp (reclassify_loop _ _ _ _ _ _ _) _ _ => fail
    | |- _ => wp_step
    end; try apply IH.
  match goal with H : _ || _ = false |- _ => apply orb_false_iff in H as [Hf _] end.
  eapply wp_mono; [apply IH|]. intros n d' Hd'. eapply reclassified_trans; [by apply replaced_reclassified|].
  eapply reclassified_trans; [|exact Hd']. by apply reclassified_refl.
Qed.

Lemma held_granted pk pid c o d : holds pk pid Category c o d -> c ∈ granted_categories d.
Proof.
  intros [t Ht]. unfold granted_categories. apply elem_of_union. left.
  apply elem_of_list_to_set, list_elem_of_In, in_map_iff. exists (grant_key pk pid Category c o, t).
  split; [done|]. apply filter_In. split; [|done]. by apply list_elem_of_In, elem_of_map_to_list.
Qed.

(** A reclassification takes no principal's reach away: whatever a grant reached before
    it reaches afterwards, forced or not; and an unforced one leaves the categories of
    every record that had any as they were. *)
Theorem reclassify_keeps_reach inp force ctx n (s s' : EncryptedStore Conn) :
  reclassify_audited inp force ctx s = (Ok n, s') ->
  (forall pk pid id o, reaches pk pid id o (es_db s) -> reaches pk pid id o (es_db s')) /\
  (force = false -> forall id, values_of id (credential_categories (es_db s)) <> [] ->
     values_of id (credential_categories (es_db s')) ≡ₚ values_of id (credential_categories (es_db s))).
Proof.
  unfold reclassify_audited, with_self. intros H1.
  assert (wp (reclassify_tx (k_audit_key (keys_of s)) (in_now inp) force ctx)
    (fun _ d' => reclassified force (granted_categories (es_db s)) (es_db s) d') (es_db s)) as Hw.
  { unfold reclassify_tx. do 4 wp_step. apply wp_bind. eapply wp_mono; [apply loop_reclassifies|].
    intros k d' Hd'. wp_go; [|done]. eapply reclassified_trans; [exact Hd'|]. by apply reclassified_refl. }
  pose proof (fenced_wp _ _ _ _ _ Hw H1) as [[= Ha Hcr Hrr Hsv] Hg Hu]. split.
  - intros pk pid id o [He|(c & Hc & Hin)]; [left; unfold holds in *; by rewrite Ha|right].
    exists c. split; [unfold holds in *; by rewrite Ha|].
    unfold metadata_tables_for in *. rewrite Hcr, Hrr, Hsv.
    apply elem_of_values_of. apply elem_of_values_of in Hin. revert Hin. repeat case_match; cbn; rewrite ?Ha; auto;
      intros Hin; apply Hg; auto; by eapply held_granted.
  - intros Hf id Hv. apply NoDup_Permutation; [apply values_of_nodup..|]. intros c.
    rewrite !elem_of_values_of. by apply Hu.
Qed.
End Reclassify.

(** ** A vault with grants *)

Module GrantDemo.
Export Calls.Demo.

Definition reader_grant (s : EncryptedStore ToyConn) : EncryptedStore ToyConn :=
  snd (create_read_grant_audited (inputs 80 "-") "reserved" "ops" Exact id OpRead (ctx_vault GrantCreate) s).
Definition lister_grant (s : EncryptedStore ToyConn) : EncryptedStore ToyConn :=
  snd (create_read_grant_audited (inputs 90 "-") "enrolled" "ci" Category "browser-session" OpList (ctx_vault GrantCreate) s).
Definition granted : EncryptedStore ToyConn := lister_grant (reader_grant vault).

Definition listing : result ScopedListSnapshot StoreOpError * EncryptedStore ToyConn :=
  list_scoped_snapshot "reserved" "ops" granted.
Definition snapshot : ScopedListSnapshot :=
  match fst listing with Ok s => s | Err _ => {| snap_rows := []; snap_grants := [] |} end.

Lemma snapshot_taken : fst listing = Ok snapshot.
Proof.
  assert (match fst listing with Ok _ => true | Err _ => false end = true) as E by (vm_compute; reflexivity).
  unfold snapshot. destruct (fst listing); [reflexivity|discriminate E].
Qed.

Example listing_shows : map (fun r => (sl_id r, sl_operations r)) (snap_rows snapshot) = [(id, [OpRead])].
Proof. vm_compute. reflexivity. Qed.

Lemma granted_categories_valid : categories_valid (es_db granted).
Proof.
  assert (forallb (fun p => valid_category_name p.2) (elements (credential_categories (es_db granted))) = true) as Hf
    by (vm_compute; reflexivity).
  intros i c Hc%elem_of_elements%list_elem_of_In. rewrite forallb_forall in Hf. by apply (Hf (i, c)).
Qed.
End GrantDemo.

Module GrantWitness.
Import GrantDemo.

Lemma listing_agrees_witness :
  (exists r, r ∈ snap_rows snapshot /\ sl_id r = id /\ OpRead ∈ sl_operations r) <->
  covered (coverage_of "reserved" "ops" id OpRead (es_db granted)) = true.
Proof.
  apply (listing_agrees_with_coverage "reserved" "ops" granted (snd listing) snapshot).
  - transitivity (fst listing, snd listing); [apply surjective_pairing|].
    rewrite snapshot_taken. reflexivity.
  - apply Z.leb_le. vm_compute. reflexivity.
  - apply granted_categories_valid.
  - eexists. vm_compute. reflexivity.
  - vm_compute. reflexivity.
  - discriminate.
  - discriminate.
Defined.

Definition reclassifying : result nat StoreOpError * EncryptedStore ToyConn :=
  reclassify_audited (inputs 100 "-") true (ctx_vault SetCategory) granted.

Lemma reclassify_witness :
  fst reclassifying = Ok 0%nat /\ reaches "reserved" "ops" id OpRead (es_db (snd reclassifying)).
Proof.
  assert (fst reclassifying = Ok 0%nat) as E by (vm_compute; reflexivity). split; [exact E|].
  apply (reclassify_keeps_reach (inputs 100 "-") true (ctx_vault SetCategory) 0 granted (snd reclassifying)).
  - transitivity (fst reclassifying, snd reclassifying); [apply surjective_pairing|]. rewrite E. reflexivity.
  - left. eexists. vm_compute. reflexivity.
Defined.
End GrantWitness.
