(* ===== verification/Enrollment.v ===== *)
(** * Consumer enrollment ([credentials-core/src/enrollment.rs] and the enrollment methods
    of [store.rs])

    A consumer proposes a name with the hash of a secret it keeps, an operator approves or
    denies the request, the consumer polls with its secret and receives a token once, and
    the token can later be rotated, reissued or revoked. Requests are rows of
    [pending_enrollments], consumers rows of [enrolled_consumers]; a secret and a token
    are both 64 lower-case hex digits and are stored as the digest of the bytes they spell.

    The file holds the operations, the invariant of the two tables and the histories of
    the ceremony; reading [i] of the clock and draw [i] of the random source are those of
    [Inputs]. *)

From stdpp Require Import gmap sorting.
From S2P Require Import Prelude Text Crypto Record CredentialId Catalog Envelope AuditLog Database Store TxLogic Calls Grants.

(** ** Wire primitives *)

Definition ENROLLMENT_LIVE_LIMIT : Z := 16.
Definition ENROLLMENT_PENDING_TTL_MS : Z := 15 * 60 * 1000.
Definition ENROLLMENT_TERMINAL_MAX_ROWS : Z := 256.
Definition ENROLLMENT_TERMINAL_RETENTION_MS : Z := 24 * 60 * 60 * 1000.

Definition ENROLL_PROPOSE_SUBJECT : string := "auth.enroll_propose".
Definition ENROLL_POLL_SUBJECT : string := "auth.enroll_poll".
Definition ENROLL_EXPIRE_SUBJECT : string := "auth.enroll_expire".

Inductive EnrollmentDisposition := Permanent | Transient.

Inductive EnrollmentRefusal :=
| InvalidParams | PendingExists | PendingQueueFull | EnrollNotFound | AlreadyConsumed | Superseded
| StaleGeneration.

Definition refusal_code (r : EnrollmentRefusal) : string :=
  match r with
  | InvalidParams => "invalid_params"
  | PendingExists => "pending_exists"
  | PendingQueueFull => "pending_queue_full"
  | EnrollNotFound => "not_found"
  | AlreadyConsumed => "already_consumed"
  | Superseded => "superseded"
  | StaleGeneration => "stale_generation"
  end.

Definition refusal_disposition (r : EnrollmentRefusal) : EnrollmentDisposition :=
  match r with
  | PendingQueueFull => Transient
  | InvalidParams | PendingExists | EnrollNotFound | AlreadyConsumed | Superseded | StaleGeneration => Permanent
  end.

Inductive EnrollmentError := Refused (r : EnrollmentRefusal) | EnrollStore (e : StoreOpError).

Definition enrollment_code (e : EnrollmentError) : string :=
  match e with Refused r => refusal_code r | EnrollStore _ => "store_error" end.

Definition enrollment_disposition (e : EnrollmentError) : EnrollmentDisposition :=
  match e with Refused r => refusal_disposition r | EnrollStore _ => Transient end.

Inductive EnrollmentPoll :=
| PollPending
| PollDenied
| PollApproved (name token : string) (token_generation : Z).

Record EnrollmentRotation := { rot_token : string; rot_token_generation : Z }.

Definition is_lower_hex_32 (value : string) : bool :=
  (String.length value =? 64)%nat && str_forallb is_lower_hex_char value.

Definition hex_nibble (c : ascii) : option Z :=
  let n := Z.of_N (N_of_ascii c) in
  if (48 <=? n) && (n <=? 57) then Some (n - 48)
  else if (97 <=? n) && (n <=? 102) then Some (n - 97 + 10)
  else None.

(** The loop of [decode_lower_hex_32] over the pairs of digits. *)
Fixpoint decode_nibbles (s : string) : option bytes :=
  match s with
  | EmptyString => Some []
  | String a (String b rest) =>
      match hex_nibble a, hex_nibble b with
      | Some hi, Some lo => cons (byte_of_Z (Z.lor (Z.shiftl hi 4) lo)) <$> decode_nibbles rest
      | _, _ => None
      end
  | String _ EmptyString => None
  end.

Definition decode_lower_hex_32 (value : string) : option bytes :=
  if negb (is_lower_hex_32 value) then None else decode_nibbles value.

Definition constant_time_hash_eq (left right : string) : bool :=
  (String.length left =? 64)%nat && (String.length right =? 64)%nat && String.eqb left right.

Definition enrollment_secret_hash `{Crypto} (value : string) : option string :=
  (fun decoded => hex (sha256 decoded)) <$> decode_lower_hex_32 value.

(** [mint_hex_32] on what [getrandom] returned; the source's own message follows the
    prefix in the code and is not kept here. The digest of a minted token exists for
    every 32-byte draw, so the [expect] of its callers never fires. *)
Definition mint_hex_32 (draw : option bytes) : result string StoreOpError :=
  match draw with
  | Some bs => Ok (hex bs)
  | None => Err (EncodeError "enrollment csprng")
  end.

Definition mint_hex_32_sqlite (draw : option bytes) : result string SqlError :=
  map_err (fun _ => Sql "enrollment csprng") (mint_hex_32 draw).

(** ** Statements *)

Definition pendings (d : Db) : gmap string PendingRow := pending_enrollments (access d).
Definition consumers (d : Db) : gmap string ConsumerRow := enrolled_consumers (access d).

(** [state IN ('pending','approved')] and [state IN ('denied','consumed','expired')]. *)
Definition state_live (st : string) : bool :=
  bool_decide (st = "pending") || bool_decide (st = "approved").
Definition state_terminal (st : string) : bool :=
  bool_decide (st = "denied") || bool_decide (st = "consumed") || bool_decide (st = "expired").

Definition request_live (r : PendingRow) : bool := state_live (pe_state r).
Definition consumer_live (r : ConsumerRow) : bool := negb (is_some (ec_revoked_at_ms r)).

Definition set_request_state (st : string) (r : PendingRow) : PendingRow :=
  {| pe_proposed_name := pe_proposed_name r; pe_final_name := pe_final_name r;
     pe_enrollment_id := pe_enrollment_id r; pe_request_secret_hash := pe_request_secret_hash r;
     pe_state := st; pe_approved_by := pe_approved_by r; pe_approved_at_ms := pe_approved_at_ms r;
     pe_created_at_ms := pe_created_at_ms r; pe_expires_at_ms := pe_expires_at_ms r;
     pe_proposer_kind := pe_proposer_kind r; pe_proposer_id := pe_proposer_id r |}.

Definition approve_request (final_name eid actor : string) (now : Z) (r : PendingRow) : PendingRow :=
  {| pe_proposed_name := pe_proposed_name r; pe_final_name := Some final_name;
     pe_enrollment_id := Some eid; pe_request_secret_hash := pe_request_secret_hash r;
     pe_state := "approved"; pe_approved_by := Some actor; pe_approved_at_ms := Some now;
     pe_created_at_ms := pe_created_at_ms r; pe_expires_at_ms := pe_expires_at_ms r;
     pe_proposer_kind := pe_proposer_kind r; pe_proposer_id := pe_proposer_id r |}.

Definition set_token (hash : string) (generation : Z) (r : ConsumerRow) : ConsumerRow :=
  {| ec_name := ec_name r; ec_token_hash := Some hash; ec_token_generation := generation;
     ec_approved_at_ms := ec_approved_at_ms r; ec_approved_by := ec_approved_by r;
     ec_revoked_at_ms := ec_revoked_at_ms r |}.

Definition set_revoked (now : Z) (r : ConsumerRow) : ConsumerRow :=
  {| ec_name := ec_name r; ec_token_hash := ec_token_hash r;
     ec_token_generation := ec_token_generation r; ec_approved_at_ms := ec_approved_at_ms r;
     ec_approved_by := ec_approved_by r; ec_revoked_at_ms := Some now |}.

(** The first row a [SELECT] without an order returns. *)
Definition select_row {A} (p : A -> bool) (m : gmap string A) : option (string * A) :=
  List.find (fun kv => p kv.2) (map_to_list m).

(** [UPDATE .. WHERE request_id = id AND guard] and its consumer counterpart: the number
    of rows changed. *)
Definition update_pending (id : string) (guard : PendingRow -> bool) (f : PendingRow -> PendingRow) : Tx nat :=
  fun d =>
    match pendings d !! id with
    | Some r => if guard r then (Ok 1%nat, with_pending (insert id (f r)) d) else (Ok 0%nat, d)
    | None => (Ok 0%nat, d)
    end.

Definition update_consumer (id : string) (guard : ConsumerRow -> bool) (f : ConsumerRow -> ConsumerRow) : Tx nat :=
  fun d =>
    match consumers d !! id with
    | Some r => if guard r then (Ok 1%nat, with_consumers (insert id (f r)) d) else (Ok 0%nat, d)
    | None => (Ok 0%nat, d)
    end.

(** The two inserts, with the primary keys and the partial unique indexes
    [pending_enrollments_live_name] and [enrolled_consumers_live_name]. *)
Definition insert_pending (id : string) (row : PendingRow) : Tx unit :=
  fun d =>
    if is_some (pendings d !! id) then (Err (Sql "UNIQUE constraint failed: pending_enrollments.request_id"), d)
    else if is_some (select_row (fun r => request_live r && bool_decide (pe_proposed_name r = pe_proposed_name row))
                      (pendings d))
    then (Err (Sql "UNIQUE constraint failed: pending_enrollments.proposed_name"), d)
    else (Ok tt, with_pending (insert id row) d).

Definition insert_consumer (id : string) (row : ConsumerRow) : Tx unit :=
  fun d =>
    if is_some (consumers d !! id) then (Err (Sql "UNIQUE constraint failed: enrolled_consumers.enrollment_id"), d)
    else if is_some (select_row (fun r => consumer_live r && bool_decide (ec_name r = ec_name row)) (consumers d))
    then (Err (Sql "UNIQUE constraint failed: enrolled_consumers.name"), d)
    else (Ok tt, with_consumers (insert id row) d).

Definition append_enrollment_event_tx (subject detail : string) (now : Z)
    (principal : option AuthEventPrincipal) : Tx unit :=
  append_secret_auth_event_tx now subject
    {| obs_kind := event_kind_as_str EvEnrollment; obs_provider_status := None;
       obs_detail := Some detail; obs_reporter_source := None; obs_principal := principal |}
    None false.

(** *** The sweep *)

Definition due (now : Z) (r : PendingRow) : bool := request_live r && (pe_expires_at_ms r <=? now).

Definition expire_due (now : Z) (m : gmap string PendingRow) : gmap string PendingRow :=
  (fun r => if due now r then set_request_state "expired" r else r) <$> m.

Definition drop_old (cutoff : Z) (m : gmap string PendingRow) : gmap string PendingRow :=
  filter (fun kv => Is_true (negb (state_terminal (pe_state kv.2) && (pe_created_at_ms kv.2 <? cutoff)))) m.

(** [ORDER BY created_at_ms ASC, request_id ASC]. *)
Definition older_le (x y : string * PendingRow) : Prop :=
  Is_true ((pe_created_at_ms x.2 <? pe_created_at_ms y.2) ||
           ((pe_created_at_ms x.2 =? pe_created_at_ms y.2) && String.leb x.1 y.1)).
#[global] Instance older_le_dec : RelDecision older_le.
Proof. intros x y. unfold older_le. apply _. Defined.

(** The oldest [n] terminal requests. *)
Definition oldest_terminal (n : nat) (m : gmap string PendingRow) : list string :=
  (take n (merge_sort older_le
     (List.filter (fun kv => state_terminal (pe_state kv.2)) (map_to_list m)))).*1.

Definition drop_excess (excess : Z) (m : gmap string PendingRow) : gmap string PendingRow :=
  if 0 <? excess then filter (fun kv => kv.1 ∉ oldest_terminal (Z.to_nat excess) m) m else m.

Definition sweep_pending_enrollments_tx (now reserve_rows : Z) : Tx unit :=
  do! expired <- query (fun d => size (filter (fun kv => Is_true (due now kv.2)) (pendings d))) ;;
  do! _ <- exec (with_pending (expire_due now)) ;;
  do! _ <- (if (0 <? expired)%nat
            then append_enrollment_event_tx ENROLL_EXPIRE_SUBJECT "expired" now None else mret tt) ;;
  let retention_cutoff := i64_saturating_sub now ENROLLMENT_TERMINAL_RETENTION_MS in
  do! _ <- exec (with_pending (drop_old retention_cutoff)) ;;
  do! count <- query (fun d => Z.of_nat (size (pendings d))) ;;
  let target := i64_saturating_sub ENROLLMENT_TERMINAL_MAX_ROWS reserve_rows in
  let excess := i64_saturating_sub count target in
  exec (with_pending (drop_excess excess)).

(** ** Operations *)

Section Operations.
Context `{C : Crypto} {Conn : Type} `{S : SqliteStore Conn}.

Abbreviation Store := (EncryptedStore Conn).
Abbreviation Op A := (M Store StoreOpError A).
Abbreviation EnrollOp A := (M Store EnrollmentError A).

(** A store call whose closure may refuse: [.map_err(StoreOpError::from)?] followed by
    [outcome.map_err(EnrollmentError::Refused)]. *)
Definition refusable {A} (m : Op (result A EnrollmentRefusal)) : EnrollOp A :=
  fun s =>
    let '(out, s') := m s in
    (match out with
     | Ok (Ok a) => Ok a
     | Ok (Err r) => Err (Refused r)
     | Err e => Err (EnrollStore e)
     end, s').

(** Record a diagnostic event and refuse with [r]. *)
Definition refuse_with {A} (subject detail : string) (now : Z) (principal : option AuthEventPrincipal)
    (r : EnrollmentRefusal) : Tx (result A EnrollmentRefusal) :=
  do! _ <- append_enrollment_event_tx subject detail now principal ;; mret (Err r).

Definition new_pending (proposed_name hash : string) (now expires : Z)
    (principal : option AuthEventPrincipal) : PendingRow :=
  {| pe_proposed_name := proposed_name; pe_final_name := None; pe_enrollment_id := None;
     pe_request_secret_hash := hash; pe_state := "pending"; pe_approved_by := None;
     pe_approved_at_ms := None; pe_created_at_ms := now; pe_expires_at_ms := expires;
     pe_proposer_kind := principal_kind <$> principal;
     pe_proposer_id := principal ≫= principal_id |}.

(** The closure of [propose_enrollment_inner]. *)
Definition propose_tx (request_id proposed_name hash : string) (now : Z)
    (principal : option AuthEventPrincipal) : Tx (result string EnrollmentRefusal) :=
  do! _ <- sweep_pending_enrollments_tx now 1 ;;
  do! resumable <- query (fun d => select_row (fun r =>
      bool_decide (pe_proposed_name r = proposed_name) &&
      bool_decide (pe_request_secret_hash r = hash) && bool_decide (pe_state r = "pending")) (pendings d)) ;;
  match resumable with
  | Some (existing_id, _) =>
      do! _ <- append_enrollment_event_tx ENROLL_PROPOSE_SUBJECT "resumed" now principal ;;
      mret (Ok existing_id)
  | None =>
      do! name_in_use <- query (fun d => is_some (select_row (fun r =>
          bool_decide (pe_proposed_name r = proposed_name) && request_live r) (pendings d))) ;;
      if name_in_use : bool
      then refuse_with ENROLL_PROPOSE_SUBJECT "pending_exists" now principal PendingExists else
      do! live_count <- query (fun d =>
          Z.of_nat (size (filter (fun kv => Is_true (request_live kv.2)) (pendings d)))) ;;
      if ENROLLMENT_LIVE_LIMIT <=? live_count
      then refuse_with ENROLL_PROPOSE_SUBJECT "pending_queue_full" now principal PendingQueueFull else
      do! _ <- insert_pending request_id (new_pending proposed_name hash now
                 (i64_saturating_add now ENROLLMENT_PENDING_TTL_MS) principal) ;;
      do! _ <- append_enrollment_event_tx ENROLL_PROPOSE_SUBJECT "accepted" now principal ;;
      mret (Ok request_id)
  end.

(** [propose_enrollment_by]: [propose_enrollment_inner] at [now_ms()]. *)
Definition propose_enrollment_by (inp : Inputs) (principal : option AuthEventPrincipal)
    (proposed_name request_secret_hash : string) : EnrollOp string :=
  if negb (valid_enrollment_name proposed_name) || negb (is_lower_hex_32 request_secret_hash)
  then merr (Refused InvalidParams) else
  do! request_id <- mlift (map_err EnrollStore (mint_hex_32 (in_rnd inp 0))) ;;
  refusable (fenced (propose_tx request_id proposed_name request_secret_hash (in_now inp 0) principal)).

(** The arm of a poll on an approved request. *)
Definition deliver_token (draw : option bytes) (request_id : string) (now : Z)
    (principal : option AuthEventPrincipal) (final_name enrollment_id : option string)
  : Tx (result EnrollmentPoll EnrollmentRefusal) :=
  let superseded := refuse_with ENROLL_POLL_SUBJECT "superseded" now principal Superseded in
  match enrollment_id with
  | None => superseded
  | Some eid =>
      do! incarnation <- query (fun d => consumers d !! eid) ;;
      match incarnation with
      | None => superseded
      | Some c =>
          if is_some (ec_revoked_at_ms c) || is_some (ec_token_hash c) ||
             negb (ec_token_generation c =? 0) then superseded
          else if negb (bool_decide (final_name = Some (ec_name c))) then superseded
          else
            do! token <- mlift (mint_hex_32_sqlite draw) ;;
            do! token_hash <- mlift (ok_or (enrollment_secret_hash token)
                                 (Sql "a freshly minted 32-byte hex token is valid")) ;;
            do! changed <- update_consumer eid (fun c =>
                negb (is_some (ec_token_hash c)) && (ec_token_generation c =? 0) &&
                negb (is_some (ec_revoked_at_ms c))) (set_token token_hash 1) ;;
            if negb (changed =? 1)%nat then superseded
            else
              do! _ <- update_pending request_id (fun _ => true) (set_request_state "consumed") ;;
              do! _ <- append_enrollment_event_tx ENROLL_POLL_SUBJECT "approved" now principal ;;
              mret (Ok (PollApproved (ec_name c) token 1))
      end
  end.

Definition ZERO_HASH : string := "0000000000000000000000000000000000000000000000000000000000000000".

(** The closure of [poll_enrollment_inner]. *)
Definition poll_tx (draw : option bytes) (request_id presented_hash : string) (now : Z)
    (principal : option AuthEventPrincipal) : Tx (result EnrollmentPoll EnrollmentRefusal) :=
  do! row <- query (fun d => pendings d !! request_id) ;;
  let stored_hash := match row with Some r => pe_request_secret_hash r | None => ZERO_HASH end in
  let secret_matches := constant_time_hash_eq presented_hash stored_hash in
  match row with
  | None => refuse_with ENROLL_POLL_SUBJECT "not_found" now principal EnrollNotFound
  | Some r =>
      if negb secret_matches then refuse_with ENROLL_POLL_SUBJECT "not_found" now principal EnrollNotFound
      else if state_live (pe_state r) && (pe_expires_at_ms r <=? now) then
        do! _ <- update_pending request_id (fun _ => true) (set_request_state "expired") ;;
        do! _ <- append_enrollment_event_tx ENROLL_EXPIRE_SUBJECT "expired" now principal ;;
        refuse_with ENROLL_POLL_SUBJECT "superseded" now principal Superseded
      else if bool_decide (pe_state r = "pending") then mret (Ok PollPending)
      else if bool_decide (pe_state r = "denied") then
        do! _ <- append_enrollment_event_tx ENROLL_POLL_SUBJECT "denied" now principal ;;
        mret (Ok PollDenied)
      else if bool_decide (pe_state r = "consumed") then
        refuse_with ENROLL_POLL_SUBJECT "already_consumed" now principal AlreadyConsumed
      else if bool_decide (pe_state r = "expired") then
        refuse_with ENROLL_POLL_SUBJECT "superseded" now principal Superseded
      else if bool_decide (pe_state r = "approved") then
        deliver_token draw request_id now principal (pe_final_name r) (pe_enrollment_id r)
      else merr (Sql "Query is not read-only")
  end.

(** [poll_enrollment_by]: [poll_enrollment_inner] at [now_ms()]. *)
Definition poll_enrollment_by (inp : Inputs) (principal : option AuthEventPrincipal)
    (request_id request_secret : string) : EnrollOp EnrollmentPoll :=
  if negb (is_lower_hex_32 request_secret) then merr (Refused InvalidParams) else
  do! presented_hash <- mlift (ok_or (enrollment_secret_hash request_secret) (Refused InvalidParams)) ;;
  refusable (fenced (poll_tx (in_rnd inp 0) request_id presented_hash (in_now inp 0) principal)).

(** The last candidate whose hash is the presented one. *)
Definition match_token (presented_hash : string) (m : gmap string ConsumerRow)
  : option (string * ConsumerRow * string) :=
  foldl (fun matched kv =>
      match ec_token_hash kv.2 with
      | Some h => if constant_time_hash_eq presented_hash h then Some (kv.1, kv.2, h) else matched
      | None => matched
      end) None
    (List.filter (fun kv => consumer_live kv.2 && is_some (ec_token_hash kv.2)) (map_to_list m)).

Definition rotate_tx (ak : bytes) (ts : Z) (draw : option bytes) (presented_hash : string)
    (expected_token_generation : Z) : Tx (result EnrollmentRotation EnrollmentRefusal) :=
  do! matched <- query (fun d => match_token presented_hash (consumers d)) ;;
  match matched with
  | None => mret (Err EnrollNotFound)
  | Some (eid, c, old_hash) =>
      let generation := ec_token_generation c in
      if (generation <? 0) || negb (as_u64 generation =? expected_token_generation)
      then mret (Err StaleGeneration) else
      do! replacement <- mlift (mint_hex_32_sqlite draw) ;;
      do! replacement_hash <- mlift (ok_or (enrollment_secret_hash replacement)
                                 (Sql "a freshly minted 32-byte hex token is valid")) ;;
      do! next_generation <- mlift (if generation + 1 <=? i64_max then Ok (generation + 1)
                                    else Err (Sql "Integer 9223372036854775807 out of range at index 3")) ;;
      do! changed <- update_consumer eid (fun c' =>
          bool_decide (ec_token_hash c' = Some old_hash) && (ec_token_generation c' =? generation) &&
          negb (is_some (ec_revoked_at_ms c'))) (set_token replacement_hash next_generation) ;;
      if negb (changed =? 1)%nat then mret (Err EnrollNotFound) else
      do! _ <- append_audit_tx ak ts
                 {| rec_op := EnrollRotate; rec_credential_id := Some eid; rec_payload_hash := None;
                    rec_actor := ("enrolled:" ++ ec_name c)%string; rec_alarm := None |} ;;
      mret (Ok {| rot_token := replacement; rot_token_generation := as_u64 next_generation |})
  end.

Definition rotate_enrollment (inp : Inputs) (token : string) (expected_token_generation : Z)
  : EnrollOp EnrollmentRotation :=
  if negb (is_lower_hex_32 token) then merr (Refused InvalidParams) else
  do! presented_hash <- mlift (ok_or (enrollment_secret_hash token) (Refused InvalidParams)) ;;
  refusable (with_self (fun K =>
    fenced (rotate_tx (k_audit_key K) (in_now inp 0) (in_rnd inp 0) presented_hash expected_token_generation))).

(** The closure of [approve_enrollment_with_grants]: [Ok None] when the request is gone. *)
Definition approve_tx (ak : bytes) (ts now : Z) (eid request_id final_name : string) (keep_grants : bool)
    (actor : string) : Tx (result (option string) StoreOpError) :=
  do! state <- query (fun d => pendings d !! request_id) ;;
  match state with
  | None => mret (Ok None)
  | Some r =>
      if negb (bool_decide (pe_state r = "pending")) || (pe_expires_at_ms r <=? now) then
        do! _ <- (if bool_decide (pe_state r = "pending") && (pe_expires_at_ms r <=? now) then
                    do! _ <- update_pending request_id (fun _ => true) (set_request_state "expired") ;;
                    append_enrollment_event_tx ENROLL_EXPIRE_SUBJECT "expired" now None
                  else mret tt) ;;
        mret (Ok None)
      else
        do! live_name <- query (fun d => is_some (select_row (fun c =>
            bool_decide (ec_name c = final_name) && consumer_live c) (consumers d))) ;;
        if live_name : bool then merr (Sql "enrollment name already in use") else
        do! has_grants <- query (fun d => existsb (of_principal (Some ("enrolled", final_name)))
                                            (map_to_list (read_grants (access d)))) ;;
        if has_grants && negb keep_grants then mret (Err (EnrollmentNameHasGrants final_name)) else
        do! _ <- insert_consumer eid
                   {| ec_name := final_name; ec_token_hash := None; ec_token_generation := 0;
                      ec_approved_at_ms := now; ec_approved_by := actor; ec_revoked_at_ms := None |} ;;
        do! _ <- update_pending request_id (fun _ => true) (approve_request final_name eid actor now) ;;
        do! _ <- append_audit_tx ak ts
                   {| rec_op := EnrollApprove; rec_credential_id := Some eid; rec_payload_hash := None;
                      rec_actor := actor; rec_alarm := None |} ;;
        mret (Ok (Some eid))
  end.

Definition approve_enrollment_with_grants (inp : Inputs) (request_id final_name : string)
    (keep_grants : bool) (actor : string) : Op string :=
  if negb (valid_enrollment_name final_name) then merr InvalidPrincipal else
  do! eid <- mlift (mint_hex_32 (in_rnd inp 0)) ;;
  with_self (fun K =>
  do! outcome <- flatten (fenced (approve_tx (k_audit_key K) (in_now inp 1) (in_now inp 0) eid request_id
                                    final_name keep_grants actor)) ;;
  mlift (ok_or outcome NotFound)).

Definition deny_tx (ak : bytes) (ts now : Z) (request_id actor : string) : Tx bool :=
  do! expired <- update_pending request_id
      (fun r => bool_decide (pe_state r = "pending") && (pe_expires_at_ms r <=? now))
      (set_request_state "expired") ;;
  if (0 <? expired)%nat then
    do! _ <- append_enrollment_event_tx ENROLL_EXPIRE_SUBJECT "expired" now None ;;
    mret false
  else
    do! changed <- update_pending request_id (fun r => bool_decide (pe_state r = "pending"))
                     (set_request_state "denied") ;;
    if negb (changed =? 1)%nat then mret false else
    do! _ <- append_audit_tx ak ts
               {| rec_op := EnrollDeny; rec_credential_id := Some request_id; rec_payload_hash := None;
                  rec_actor := actor; rec_alarm := None |} ;;
    mret true.

Definition deny_enrollment (inp : Inputs) (request_id actor : string) : Op unit :=
  with_self (fun K =>
  do! denied <- fenced (deny_tx (k_audit_key K) (in_now inp 1) (in_now inp 0) request_id actor) ;;
  if denied : bool then mret tt else merr NotFound).

(** The live consumer holding a token digest, as the resolver's [SELECT] finds it. *)
Definition token_holder (hash : string) (m : gmap string ConsumerRow) : option (string * Z) :=
  (fun kv => (ec_name kv.2, ec_token_generation kv.2)) <$>
    select_row (fun c => bool_decide (ec_token_hash c = Some hash) && consumer_live c) m.

Definition resolve_enrollment_token (token : string) : Op (option (string * Z)) :=
  match enrollment_secret_hash token with
  | None => mret None
  | Some hash => unfenced (query (fun d => token_holder hash (consumers d)))
  end.

(** One audit entry per removed grant. *)
Fixpoint audit_removed_grants (ak : bytes) (now : nat -> Z) (name actor : string) (k : nat)
    (grants : list ReadGrant) : Tx nat :=
  match grants with
  | [] => mret k
  | g :: rest =>
      do! _ <- append_audit_tx ak (now k)
                 {| rec_op := GrantRevoke;
                    rec_credential_id := Some ("grant:" ++ operation_as_str (g_operation g) ++ ":enrolled:" ++
                      name ++ ":" ++ selector_as_str (g_selector_kind g) ++ "|" ++ g_selector g)%string;
                    rec_payload_hash := None; rec_actor := actor; rec_alarm := None |} ;;
      audit_removed_grants ak now name actor (k + 1) rest
  end.

Definition newest_migration_version : Z := 33.

Definition revoke_tx (ak : bytes) (clock : nat -> Z) (now : Z) (name actor : string)
  : Tx (option (list ReadGrant)) :=
  do! enrollment <- query (fun d => select_row (fun c =>
      bool_decide (ec_name c = name) && consumer_live c) (consumers d)) ;;
  match enrollment with
  | None => mret None
  | Some (eid, _) =>
      do! removed <- read_grants_from_conn (Some ("enrolled", name)) newest_migration_version ;;
      do! _ <- exec (with_read_grants
                 (filter (fun kv => of_principal (Some ("enrolled", name)) kv = false))) ;;
      do! k <- audit_removed_grants ak clock name actor 1 removed ;;
      do! _ <- (if bool_decide (removed = []) then mret tt else bump_grants_generation_tx) ;;
      do! _ <- update_consumer eid (fun _ => true) (set_revoked now) ;;
      do! _ <- append_audit_tx ak (clock k)
                 {| rec_op := EnrollRevoke; rec_credential_id := Some eid; rec_payload_hash := None;
                    rec_actor := actor; rec_alarm := None |} ;;
      mret (Some removed)
  end.

Definition revoke_enrollment (inp : Inputs) (name actor : string) : Op (list ReadGrant) :=
  with_self (fun K =>
  do! removed <- fenced (revoke_tx (k_audit_key K) (in_now inp) (in_now inp 0) name actor) ;;
  mlift (ok_or removed NotFound)).

Definition reissue_tx (ak : bytes) (ts : Z) (draw : option bytes) (name actor : string)
  : Tx (option EnrollmentRotation) :=
  do! enrollment <- query (fun d => select_row (fun c =>
      bool_decide (ec_name c = name) && consumer_live c) (consumers d)) ;;
  match enrollment with
  | None => mret None
  | Some (eid, c) =>
      do! token <- mlift (mint_hex_32_sqlite draw) ;;
      do! token_hash <- mlift (ok_or (enrollment_secret_hash token)
                           (Sql "a freshly minted 32-byte hex token is valid")) ;;
      do! next_generation <- mlift (if ec_token_generation c + 1 <=? i64_max then Ok (ec_token_generation c + 1)
                                    else Err (Sql "Integer 9223372036854775807 out of range at index 1")) ;;
      do! _ <- update_consumer eid (fun _ => true) (set_token token_hash next_generation) ;;
      do! _ <- append_audit_tx ak ts
                 {| rec_op := EnrollReissue; rec_credential_id := Some eid; rec_payload_hash := None;
                    rec_actor := actor; rec_alarm := None |} ;;
      mret (Some {| rot_token := token; rot_token_generation := as_u64 next_generation |})
  end.

Definition reissue_enrollment (inp : Inputs) (name actor : string) : Op EnrollmentRotation :=
  with_self (fun K =>
  do! r <- fenced (reissue_tx (k_audit_key K) (in_now inp 0) (in_rnd inp 0) name actor) ;;
  mlift (ok_or r NotFound)).

(** The sweep runs outside [fenced_write]: a lost lease is not an error and neither
    latches the store nor signals a write. *)
Definition sweep_pending_enrollments_on_open (now : Z) : Op unit :=
  fun s =>
    let '(out, c) := with_conn_fenced (sweep_pending_enrollments_tx now 0) (es_conn s) in
    (match out with
     | Ok _ => Ok tt
     | Err (SFenced _ _) => Ok tt
     | Err error => Err (from_store_error error)
     end, set_conn c false 0 s).

(** *** The operator's ledger *)

Record EnrollmentRow := {
  er_key : string;
  er_name : string;
  er_state : string;
  er_created_at_ms : Z;
  er_token_generation : Z;
  er_proposer_kind : option string;
  er_proposer_id : option string;
}.

Definition ENROLLMENT_PROPOSER_SCHEMA_VERSION : Z := 12.

Definition ledger_le (x y : EnrollmentRow) : Prop := er_created_at_ms x <= er_created_at_ms y.
#[global] Instance ledger_le_dec : RelDecision ledger_le.
Proof. intros x y. unfold ledger_le. apply _. Defined.

(** [list_enrollments_read_only_with_schema] on a database with the enrollment tables. *)
Definition list_enrollments (d : Db) : list EnrollmentRow :=
  let proposer := ENROLLMENT_PROPOSER_SCHEMA_VERSION <=? db_schema_version d in
  (merge_sort ledger_le
    (map (fun kv : string * PendingRow =>
       {| er_key := kv.1; er_name := pe_proposed_name kv.2; er_state := pe_state kv.2;
          er_created_at_ms := pe_created_at_ms kv.2; er_token_generation := 0;
          er_proposer_kind := if proposer then pe_proposer_kind kv.2 else None;
          er_proposer_id := if proposer then pe_proposer_id kv.2 else None |})
      (List.filter (fun kv => bool_decide (pe_state kv.2 = "pending")) (map_to_list (pendings d)))) ++
   merge_sort ledger_le
    (map (fun kv : string * ConsumerRow =>
       {| er_key := ec_name kv.2; er_name := ec_name kv.2;
          er_state := if is_some (ec_token_hash kv.2) then "live" else "awaiting-poll";
          er_created_at_ms := ec_approved_at_ms kv.2; er_token_generation := ec_token_generation kv.2;
          er_proposer_kind := None; er_proposer_id := None |})
      (List.filter (fun kv => consumer_live kv.2) (map_to_list (consumers d)))))%list.
End Operations.

(** ** Lemmas on rows and maps *)

Lemma state_cases st : state_live st = true -> state_terminal st = false.
Proof. unfold state_live, state_terminal. intros [H|H]%orb_true_iff; bool_hyps; by subst. Qed.

Lemma hex_nibble_digit n : 0 <= n < 16 -> hex_nibble (hex_digit n) = Some n.
Proof.
  intros H. rewrite <- (Z2Nat.id n) by lia. assert (Z.to_nat n < 16)%nat as Hn by lia.
  revert Hn. generalize (Z.to_nat n). clear. intros k Hk.
  do 16 (destruct k as [|k]; [done|]). lia.
Qed.

(** Decoding inverts the printer, so a token and the bytes it was minted from agree. *)
Lemma decode_nibbles_hex bs : decode_nibbles (hex bs) = Some bs.
Proof.
  induction bs as [|b bs IH]; [done|]. rewrite hex_cons. cbn [decode_nibbles].
  pose proof (Byte.to_N_bounded b) as Hb.
  assert (0 <= Z_of_byte b < 256) as Hz by (unfold Z_of_byte; lia).
  rewrite !hex_nibble_digit, IH by (split; [apply Z.div_pos || apply Z.mod_pos_bound|
    apply Z.div_lt_upper_bound || apply Z.mod_pos_bound]; lia).
  cbn. do 2 f_equal. rewrite <- (byte_of_Z_of_byte b) at 3. f_equal. by destruct b.
Qed.

Lemma is_lower_hex_32_hex bs : length bs = 32%nat -> is_lower_hex_32 (hex bs) = true.
Proof. intros H. unfold is_lower_hex_32. by rewrite length_hex, H, hex_lower. Qed.

Lemma minted_hash `{Crypto} bs :
  length bs = 32%nat -> enrollment_secret_hash (hex bs) = Some (hex (sha256 bs)).
Proof.
  intros H1. unfold enrollment_secret_hash, decode_lower_hex_32.
  by rewrite is_lower_hex_32_hex, decode_nibbles_hex by done.
Qed.

(** Minting spells 32 bytes; decoding the token gives them back, and the digest of a
    token determines those bytes up to a collision of the hash. *)
Lemma enrollment_hash_inv `{Crypto} t h :
  enrollment_secret_hash t = Some h -> exists bs, decode_lower_hex_32 t = Some bs /\ h = hex (sha256 bs).
Proof. unfold enrollment_secret_hash. destruct (decode_lower_hex_32 t); intros; simplify_eq/=; eauto. Qed.

Lemma hash_length `{C : Crypto} `{!CryptoLaws C} t h :
  enrollment_secret_hash t = Some h -> String.length h = 64%nat.
Proof. intros (bs & _ & ->)%enrollment_hash_inv. by rewrite length_hex, sha256_length. Qed.

Lemma constant_time_hash_eq_iff l r :
  String.length l = 64%nat -> constant_time_hash_eq l r = true <-> l = r.
Proof.
  intros Hl. unfold constant_time_hash_eq. rewrite Hl. cbn. split.
  - intros H. bool_hyps. by apply String.eqb_eq.
  - intros <-. by rewrite Hl, String.eqb_refl.
Qed.

Lemma select_row_some {A} (p : A -> bool) (m : gmap string A) k a :
  select_row p m = Some (k, a) -> m !! k = Some a /\ p a = true.
Proof.
  unfold select_row. intros [Hin Hp]%find_some.
  by rewrite <- list_elem_of_In, elem_of_map_to_list in Hin.
Qed.

Lemma select_row_none {A} (p : A -> bool) (m : gmap string A) k a :
  select_row p m = None -> m !! k = Some a -> p a = false.
Proof.
  unfold select_row. intros Hn Hk. apply (find_none _ _ Hn (k, a)).
  by rewrite <- list_elem_of_In, elem_of_map_to_list.
Qed.

Lemma is_some_select {A} (p : A -> bool) (m : gmap string A) :
  is_some (select_row p m) = false -> forall k a, m !! k = Some a -> p a = false.
Proof. intros H%is_some_false k a. by apply select_row_none. Qed.

(** Dropping listed keys of a map drops that many rows. *)
Lemma size_filter_notin {A} (ks : list string) (m : gmap string A) :
  NoDup ks -> (forall k, k ∈ ks -> is_Some (m !! k)) ->
  (size (filter (fun kv => kv.1 ∉ ks) m) + length ks)%nat = size m.
Proof.
  induction ks as [|k ks IH]; intros Hnd Hin.
  - rewrite map_filter_id; [cbn; lia|]. intros ? ? _. cbn. apply not_elem_of_nil.
  - apply NoDup_cons in Hnd as [Hk Hnd].
    assert (filter (fun kv => kv.1 ∉ k :: ks) m = delete k (filter (fun kv => kv.1 ∉ ks) m)) as ->.
    { apply map_eq. intros i. apply option_eq. intros x.
      rewrite lookup_delete_Some, !map_lookup_filter_Some. cbn. rewrite not_elem_of_cons. naive_solver. }
    rewrite map_size_delete. destruct (Hin k) as [a Ha]; [set_solver|].
    assert (filter (fun kv => kv.1 ∉ ks) m !! k = Some a) as ->
      by (by apply map_lookup_filter_Some).
    specialize (IH Hnd). rewrite <- IH by set_solver.
    assert (0 < size (filter (fun kv => kv.1 ∉ ks) m))%nat as Hs.
    { apply Nat.neq_0_lt_0. intros E%map_size_empty_inv.
      assert (filter (fun kv => kv.1 ∉ ks) m !! k = Some a) as E'
        by (by apply map_lookup_filter_Some). by rewrite E in E'. }
    cbn. lia.
Qed.

Lemma NoDup_filter_fst {A} (p : string * A -> bool) (l : list (string * A)) :
  NoDup l.*1 -> NoDup (List.filter p l).*1.
Proof.
  induction l as [|x l IH]; [done|]. cbn. intros [Hx Hl]%NoDup_cons. destruct (p x); [|by auto].
  cbn. apply NoDup_cons. split; [|by auto]. intros (y & Hy & Hin)%list_elem_of_fmap. apply Hx.
  apply list_elem_of_fmap. exists y. split; [done|]. by apply list_filter_in in Hin as [? _].
Qed.

Lemma partition_length {A} (p q : A -> bool) (l : list A) :
  (forall x, x ∈ l -> q x = negb (p x)) ->
  (length (List.filter p l) + length (List.filter q l))%nat = length l.
Proof.
  induction l as [|x l IH]; intros H; [done|]. cbn.
  rewrite (H x) by set_solver. specialize (IH ltac:(set_solver)). destruct (p x); cbn; lia.
Qed.

Lemma size_filter_list {A} (p : A -> bool) (m : gmap string A) :
  size (filter (fun kv => Is_true (p kv.2)) m) = length (List.filter (fun kv => p kv.2) (map_to_list m)).
Proof.
  rewrite map_filter_alt, map_size_list_to_map.
  - f_equal. induction (map_to_list m) as [|x l IH]; [done|]. rewrite filter_cons. cbn [List.filter].
    destruct (p x.2) eqn:E; case_decide; cbn; rewrite ?IH; try done.
  - pose proof (NoDup_fst_map_to_list m) as Hnd.
    induction (map_to_list m) as [|x l IH]; [done|]. cbn in Hnd. apply NoDup_cons in Hnd as [Hx Hl].
    rewrite filter_cons. case_decide; [|by auto]. cbn. apply NoDup_cons. split; [|by auto].
    intros (y & Hy & [_ Hin]%list_elem_of_filter)%list_elem_of_fmap. apply Hx.
    apply list_elem_of_fmap. eauto.
Qed.

(** ** The invariant of the ceremony *)

Definition live_rows (m : gmap string PendingRow) : gmap string PendingRow :=
  filter (fun kv => Is_true (request_live kv.2)) m.

(** Requests: every state is one the schema admits, at most sixteen are live, at most
    256 rows are kept, and no two live requests propose the same name. *)
Record requests_ok (m : gmap string PendingRow) : Prop := {
  rq_state : forall id r, m !! id = Some r -> state_live (pe_state r) || state_terminal (pe_state r) = true;
  rq_live : Z.of_nat (size (live_rows m)) <= ENROLLMENT_LIVE_LIMIT;
  rq_rows : Z.of_nat (size m) <= ENROLLMENT_TERMINAL_MAX_ROWS;
  rq_names : forall i j r r', m !! i = Some r -> m !! j = Some r' -> request_live r = true ->
    request_live r' = true -> pe_proposed_name r = pe_proposed_name r' -> i = j;
}.

(** Consumers: no two live ones share a name, a generation is a machine integer, and it
    is zero exactly while no token was delivered. *)
Record consumers_ok (m : gmap string ConsumerRow) : Prop := {
  co_names : forall i j c c', m !! i = Some c -> m !! j = Some c' -> consumer_live c = true ->
    consumer_live c' = true -> ec_name c = ec_name c' -> i = j;
  co_generation : forall i c, m !! i = Some c -> 0 <= ec_token_generation c <= i64_max /\
    (ec_token_generation c = 0 <-> ec_token_hash c = None);
}.

(** An approved request names the consumer row its approval created. *)
Definition linked (ps : gmap string PendingRow) (cs : gmap string ConsumerRow) : Prop :=
  forall id r, ps !! id = Some r -> pe_state r = "approved" ->
    exists eid c, pe_enrollment_id r = Some eid /\ cs !! eid = Some c /\ pe_final_name r = Some (ec_name c).

Record enroll_ok (a : AccessTables) : Prop := {
  eo_requests : requests_ok (pending_enrollments a);
  eo_consumers : consumers_ok (enrolled_consumers a);
  eo_linked : linked (pending_enrollments a) (enrolled_consumers a);
}.

Lemma live_rows_in m id r : live_rows m !! id = Some r <-> m !! id = Some r /\ request_live r = true.
Proof. unfold live_rows. rewrite map_lookup_filter_Some. cbn. by rewrite Is_true_true. Qed.

Lemma requests_ok_smaller m m' :
  requests_ok m -> (forall id r, m' !! id = Some r -> request_live r = true -> m !! id = Some r) ->
  (forall id r, m' !! id = Some r -> state_live (pe_state r) || state_terminal (pe_state r) = true) ->
  (size m' <= size m)%nat -> requests_ok m'.
Proof.
  intros [Hs Hl Hr Hn] Hsub Hst Hsz. split; [done| |lia|].
  - assert (live_rows m' ⊆ live_rows m) as Hle.
    { apply map_subseteq_spec. intros i r [Hi Hlv]%live_rows_in. apply live_rows_in. auto. }
    apply map_subseteq_size in Hle. lia.
  - intros i j r r' Hi Hj Hli Hlj. eapply Hn; eauto.
Qed.

Lemma requests_ok_subset m m' : m' ⊆ m -> requests_ok m -> requests_ok m'.
Proof.
  intros Hsub Hm. assert (forall id r, m' !! id = Some r -> m !! id = Some r) as H
    by (intros id r Hid; by eapply lookup_weaken).
  apply (requests_ok_smaller m); [done|by auto| |by apply map_subseteq_size].
  intros id r Hid. by eapply rq_state, H.
Qed.

Lemma requests_ok_settle m id r st :
  requests_ok m -> m !! id = Some r -> state_terminal st = true ->
  requests_ok (<[id := set_request_state st r]> m).
Proof.
  intros Hm Hid Hst.
  assert (state_live st = false) as Hlive.
  { destruct (state_live st) eqn:E; [|done]. apply state_cases in E. congruence. }
  apply (requests_ok_smaller m); [done| | |by rewrite map_size_insert_Some].
  - intros j r'. destruct (decide (j = id)) as [->|Hne]; [|by rewrite lookup_insert_ne].
    rewrite lookup_insert_eq. intros [= <-]. unfold request_live. cbn. by rewrite Hlive.
  - intros j r'. destruct (decide (j = id)) as [->|Hne].
    + rewrite lookup_insert_eq. intros [= <-]. cbn. by rewrite Hst, orb_true_r.
    + rewrite lookup_insert_ne by done. by eapply rq_state.
Qed.

Lemma requests_ok_expire now m : requests_ok m -> requests_ok (expire_due now m).
Proof.
  intros Hm. unfold expire_due.
  apply (requests_ok_smaller m); [done| | |by rewrite map_size_fmap].
  - intros j r. rewrite lookup_fmap. intros (r0 & E & ->)%fmap_Some.
    destruct (due now r0) eqn:Ed; [by intros ?|done].
  - intros j r. rewrite lookup_fmap. intros (r0 & E & ->)%fmap_Some.
    destruct (due now r0); [done|]. by eapply rq_state.
Qed.

Lemma requests_ok_approve m id r n eid actor now :
  requests_ok m -> m !! id = Some r -> pe_state r = "pending" ->
  requests_ok (<[id := approve_request n eid actor now r]> m).
Proof.
  intros [Hs Hl Hr Hn] Hid Hst.
  assert (live_rows m !! id = Some r) as Hlid
    by (apply live_rows_in; unfold request_live; by rewrite Hst).
  assert (forall j r', <[id := approve_request n eid actor now r]> m !! j = Some r' ->
    exists r0, m !! j = Some r0 /\ request_live r0 = request_live r' /\
      pe_proposed_name r0 = pe_proposed_name r' /\
      (state_live (pe_state r') || state_terminal (pe_state r') = true)) as Hold.
  { intros j r'. destruct (decide (j = id)) as [->|Hne].
    - rewrite lookup_insert_eq. intros [= <-]. exists r. unfold request_live. by rewrite Hst.
    - rewrite lookup_insert_ne by done. intros Hj. exists r'. eauto. }
  split.
  - intros j r' Hj. by apply Hold in Hj as (_ & _ & _ & _ & ?).
  - unfold live_rows. rewrite map_filter_insert_True by done. by rewrite map_size_insert_Some by done.
  - by rewrite map_size_insert_Some.
  - intros i j a b (a0 & Ha & Hla & Hna & _)%Hold (b0 & Hb & Hlb & Hnb & _)%Hold H1 H2 H3.
    eapply Hn; eauto; congruence.
Qed.

Lemma requests_ok_insert m id row :
  requests_ok m -> m !! id = None -> pe_state row = "pending" ->
  (forall j r, m !! j = Some r -> request_live r && bool_decide (pe_proposed_name r = pe_proposed_name row) = false) ->
  Z.of_nat (size (live_rows m)) < ENROLLMENT_LIVE_LIMIT ->
  Z.of_nat (size m) < ENROLLMENT_TERMINAL_MAX_ROWS -> requests_ok (<[id := row]> m).
Proof.
  intros [Hs Hl Hr Hn] Hid Hst Huniq Hlive Hrows.
  assert (forall j r, <[id := row]> m !! j = Some r -> (j = id /\ r = row) \/ (j <> id /\ m !! j = Some r)) as Hc.
  { intros j r. destruct (decide (j = id)) as [->|Hne].
    - rewrite lookup_insert_eq. intros [= <-]. by left.
    - rewrite lookup_insert_ne by done. by right. }
  split.
  - intros j r [[-> ->]|[_ Hj]]%Hc; [by rewrite Hst|eauto].
  - unfold live_rows. rewrite map_filter_insert_True by (unfold request_live; cbn; by rewrite Hst).
    rewrite map_size_insert. fold (live_rows m). case_match; unfold Datatypes.id; cbn; lia.
  - rewrite map_size_insert_None by done. lia.
  - intros i j a b [[-> ->]|[Hni Hi]]%Hc [[-> ->]|[Hnj Hj]]%Hc Hla Hlb Hnm; [done|..|by eauto].
    + specialize (Huniq _ _ Hj). rewrite Hlb, bool_decide_eq_true_2 in Huniq by done. done.
    + specialize (Huniq _ _ Hi). rewrite Hla, bool_decide_eq_true_2 in Huniq by done. done.
Qed.

(** *** The sweep makes room *)

Lemma oldest_terminal_nodup n m : NoDup (oldest_terminal n m).
Proof.
  unfold oldest_terminal. rewrite fmap_take. eapply sublist_NoDup; [|apply sublist_take].
  rewrite (fmap_Permutation fst _ _ (merge_sort_Permutation older_le _)).
  apply NoDup_filter_fst, NoDup_fst_map_to_list.
Qed.

Lemma oldest_terminal_in n m k :
  k ∈ oldest_terminal n m -> exists r, m !! k = Some r /\ state_terminal (pe_state r) = true.
Proof.
  unfold oldest_terminal. intros ([k' r] & -> & Hin)%list_elem_of_fmap.
  eapply elem_of_sublist in Hin; [|apply sublist_take].
  rewrite merge_sort_Permutation, list_filter_in, elem_of_map_to_list in Hin. cbn in *. eauto.
Qed.

Lemma oldest_terminal_length n m :
  requests_ok m -> (n + Z.to_nat ENROLLMENT_LIVE_LIMIT <= size m)%nat -> length (oldest_terminal n m) = n.
Proof.
  intros Hm Hn. unfold oldest_terminal. rewrite length_fmap, length_take, merge_sort_Permutation.
  pose proof (rq_live _ Hm) as Hl. unfold live_rows in Hl. rewrite size_filter_list in Hl.
  pose proof (partition_length (fun kv : string * PendingRow => request_live kv.2)
    (fun kv => state_terminal (pe_state kv.2)) (map_to_list m)) as Hp.
  rewrite length_map_to_list in Hp. unfold ENROLLMENT_LIVE_LIMIT in *.
  enough (length (List.filter (fun kv : string * PendingRow => state_terminal (pe_state kv.2)) (map_to_list m)) >= n)%nat by lia.
  rewrite <- Hp in Hn; [lia|].
  intros [k r] Hin. apply elem_of_map_to_list in Hin. cbn. unfold request_live.
  pose proof (rq_state _ Hm _ _ Hin) as Hst. destruct (state_live (pe_state r)) eqn:E; [|done].
  by rewrite (state_cases _ E).
Qed.

Lemma drop_excess_subset e m : drop_excess e m ⊆ m.
Proof. unfold drop_excess. case_match; [apply map_filter_subseteq|done]. Qed.

Lemma drop_excess_size target m :
  requests_ok m -> ENROLLMENT_LIVE_LIMIT <= target <= ENROLLMENT_TERMINAL_MAX_ROWS ->
  Z.of_nat (size (drop_excess (i64_saturating_sub (Z.of_nat (size m)) target) m)) <= target.
Proof.
  intros Hm Ht. pose proof (rq_rows _ Hm) as Hr. unfold ENROLLMENT_TERMINAL_MAX_ROWS, ENROLLMENT_LIVE_LIMIT in *.
  unfold i64_saturating_sub. rewrite clamp_id by (unfold i64_min, i64_max; lia).
  unfold drop_excess. destruct (Z.ltb_spec 0 (Z.of_nat (size m) - target)); [|lia].
  pose proof (size_filter_notin (oldest_terminal (Z.to_nat (Z.of_nat (size m) - target)) m) m
    (oldest_terminal_nodup _ _)) as Hsz.
  rewrite oldest_terminal_length in Hsz by (done || unfold ENROLLMENT_LIVE_LIMIT; lia).
  specialize (Hsz (fun k Hk => let '(ex_intro _ r (conj Hr' _)) := oldest_terminal_in _ _ _ Hk in
                               ex_intro _ r Hr')). lia.
Qed.

Definition swept (now reserve : Z) (m : gmap string PendingRow) : gmap string PendingRow :=
  let m1 := drop_old (i64_saturating_sub now ENROLLMENT_TERMINAL_RETENTION_MS) (expire_due now m) in
  drop_excess (i64_saturating_sub (Z.of_nat (size m1))
                 (i64_saturating_sub ENROLLMENT_TERMINAL_MAX_ROWS reserve)) m1.

Lemma drop_old_subset c m : drop_old c m ⊆ m.
Proof. apply map_filter_subseteq. Qed.

Lemma swept_ok now reserve m :
  requests_ok m -> 0 <= reserve <= 1 ->
  requests_ok (swept now reserve m) /\
  Z.of_nat (size (swept now reserve m)) <= ENROLLMENT_TERMINAL_MAX_ROWS - reserve.
Proof.
  intros Hm Hr. unfold swept. cbv zeta.
  assert (requests_ok (drop_old (i64_saturating_sub now ENROLLMENT_TERMINAL_RETENTION_MS) (expire_due now m))) as H1
    by (eapply requests_ok_subset; [apply drop_old_subset|by apply requests_ok_expire]).
  split; [eapply requests_ok_subset; [apply drop_excess_subset|done]|].
  unfold i64_saturating_sub at 3. rewrite clamp_id by
    (unfold ENROLLMENT_TERMINAL_MAX_ROWS, i64_min, i64_max; lia).
  apply drop_excess_size; [done|]. unfold ENROLLMENT_TERMINAL_MAX_ROWS, ENROLLMENT_LIVE_LIMIT. lia.
Qed.

Lemma swept_rows now reserve m id r :
  swept now reserve m !! id = Some r ->
  exists r0, m !! id = Some r0 /\ (r = r0 \/ r = set_request_state "expired" r0).
Proof.
  unfold swept. cbv zeta. intros H.
  eapply lookup_weaken in H; [|apply drop_excess_subset].
  eapply lookup_weaken in H; [|apply drop_old_subset].
  unfold expire_due in H. rewrite lookup_fmap in H. apply fmap_Some in H as (r0 & E & ->).
  exists r0. destruct (due now r0); auto.
Qed.

(** What the sweep does to the database, whatever event it records. *)
Lemma wp_sweep now reserve (Q : unit -> Db -> Prop) d :
  (forall f, Q tt (with_auth_events f (with_pending (swept now reserve) d))) ->
  wp (sweep_pending_enrollments_tx now reserve) Q d.
Proof.
  intros HQ. unfold sweep_pending_enrollments_tx, append_enrollment_event_tx. do 4 wp_step.
  destruct (0 <? _)%nat; wp_go; destruct d.
  - apply HQ.
  - apply (HQ (fun e => e)).
Qed.

Lemma wp_update_pending id g f (Q : nat -> Db -> Prop) d :
  (forall r, pendings d !! id = Some r -> g r = true -> Q 1%nat (with_pending (insert id (f r)) d)) ->
  ((forall r, pendings d !! id = Some r -> g r = false) -> Q 0%nat d) -> wp (update_pending id g f) Q d.
Proof.
  unfold wp, update_pending. intros H1 H0. destruct (pendings d !! id) as [r|] eqn:E; [destruct (g r) eqn:Eg|].
  - by apply H1.
  - apply H0. congruence.
  - apply H0. congruence.
Qed.

Lemma wp_update_consumer id g f (Q : nat -> Db -> Prop) d :
  (forall r, consumers d !! id = Some r -> g r = true -> Q 1%nat (with_consumers (insert id (f r)) d)) ->
  ((forall r, consumers d !! id = Some r -> g r = false) -> Q 0%nat d) -> wp (update_consumer id g f) Q d.
Proof.
  unfold wp, update_consumer. intros H1 H0. destruct (consumers d !! id) as [r|] eqn:E; [destruct (g r) eqn:Eg|].
  - by apply H1.
  - apply H0. congruence.
  - apply H0. congruence.
Qed.

Lemma wp_insert_pending id row (Q : unit -> Db -> Prop) d :
  (pendings d !! id = None ->
   (forall j r, pendings d !! j = Some r ->
      request_live r && bool_decide (pe_proposed_name r = pe_proposed_name row) = false) ->
   Q tt (with_pending (insert id row) d)) -> wp (insert_pending id row) Q d.
Proof.
  unfold wp, insert_pending. intros HQ. destruct (is_some (pendings d !! id)) eqn:E1; [done|].
  destruct (is_some (select_row _ _)) eqn:E2; [done|]. apply HQ; [by apply is_some_false|].
  by apply is_some_select.
Qed.

Lemma wp_insert_consumer id row (Q : unit -> Db -> Prop) d :
  (consumers d !! id = None ->
   (forall j c, consumers d !! j = Some c -> consumer_live c && bool_decide (ec_name c = ec_name row) = false) ->
   Q tt (with_consumers (insert id row) d)) -> wp (insert_consumer id row) Q d.
Proof.
  unfold wp, insert_consumer. intros HQ. destruct (is_some (consumers d !! id)) eqn:E1; [done|].
  destruct (is_some (select_row _ _)) eqn:E2; [done|]. apply HQ; [by apply is_some_false|].
  by apply is_some_select.
Qed.

Lemma wp_read_grants p v (Q : list ReadGrant -> Db -> Prop) d :
  (forall gs, read_grants_from_conn p v d = (Ok gs, d) -> Q gs d) -> wp (read_grants_from_conn p v) Q d.
Proof.
  intros HQ. apply wp_intro. intros gs d' E. assert (d' = d) as ->; [|by apply HQ].
  unfold read_grants_from_conn in E. by repeat case_match; simplify_eq.
Qed.

Lemma wp_audit_removed `{Crypto} ak clock name actor grants (Q : nat -> Db -> Prop) k d :
  (forall k' f, (forall l, l `prefix_of` f l) -> Q k' (with_audit_log f d)) ->
  wp (audit_removed_grants ak clock name actor k grants) Q d.
Proof.
  revert k d. induction grants as [|g gs IH]; intros k d HQ; cbn [audit_removed_grants].
  - wp_go. specialize (HQ k (fun l => l) (fun l => reflexivity l)). by destruct d.
  - apply wp_bind, wp_audit, IH. intros k' f Hf.
    match goal with |- Q k' (with_audit_log f (with_audit_log ?g d)) =>
      assert (forall l, l `prefix_of` f (g l)) as Hp end.
    { intros l. etrans; [|apply Hf]. by eexists. }
    specialize (HQ k' _ Hp). by destruct d.
Qed.

(** Run a body of the ceremony. *)
Ltac enroll_step :=
  lazymatch goal with
  | |- wp (sweep_pending_enrollments_tx _ _) _ _ => apply wp_sweep; intros ?
  | |- wp (update_pending _ _ _) _ _ => apply wp_update_pending; [intros ? ? ?|intros ?]
  | |- wp (update_consumer _ _ _) _ _ => apply wp_update_consumer; [intros ? ? ?|intros ?]
  | |- wp (insert_pending _ _) _ _ => apply wp_insert_pending; intros ? ?
  | |- wp (insert_consumer _ _) _ _ => apply wp_insert_consumer; intros ? ?
  | |- wp (read_grants_from_conn _ _) _ _ => apply wp_read_grants; intros ? ?
  | |- wp (audit_removed_grants _ _ _ _ _ _) _ _ => apply wp_audit_removed; intros ? ? ?
  | |- wp (refuse_with _ _ _ _ _) _ _ => unfold refuse_with
  | |- wp (append_enrollment_event_tx _ _ _ _) _ _ => unfold append_enrollment_event_tx
  | _ => wp_step
  end.
Ltac enroll_go := repeat enroll_step.

(** *** Each table step keeps the invariant *)

Lemma ok_settle d id r st :
  enroll_ok (access d) -> pendings d !! id = Some r -> state_terminal st = true ->
  enroll_ok (access (with_pending (insert id (set_request_state st r)) d)).
Proof.
  intros [Hr Hc Hl] Hid Hst. split; cbn; [by apply requests_ok_settle|done|].
  intros j r'. destruct (decide (j = id)) as [->|Hne].
  - rewrite lookup_insert_eq. intros [= <-] Ha. cbn in Ha. by subst.
  - rewrite lookup_insert_ne by done. apply Hl.
Qed.

Lemma ok_swept d now reserve :
  enroll_ok (access d) -> 0 <= reserve <= 1 ->
  enroll_ok (access (with_pending (swept now reserve) d)).
Proof.
  intros [Hr Hc Hl] Hres. split; cbn; [by apply swept_ok|done|].
  intros j r (r0 & Hj & [->| ->])%swept_rows Ha; [by apply (Hl j)|done].
Qed.

Lemma ok_insert_request d id row :
  enroll_ok (access d) -> pe_state row = "pending" -> pendings d !! id = None ->
  (forall j r, pendings d !! j = Some r ->
     request_live r && bool_decide (pe_proposed_name r = pe_proposed_name row) = false) ->
  Z.of_nat (size (live_rows (pendings d))) < ENROLLMENT_LIVE_LIMIT ->
  Z.of_nat (size (pendings d)) < ENROLLMENT_TERMINAL_MAX_ROWS ->
  enroll_ok (access (with_pending (insert id row) d)).
Proof.
  intros [Hr Hc Hl] Hst Hid Hn H1 H2. split; cbn; [by apply requests_ok_insert|done|].
  intros j r. destruct (decide (j = id)) as [->|Hne].
  - rewrite lookup_insert_eq. intros [= <-]. by rewrite Hst.
  - rewrite lookup_insert_ne by done. apply Hl.
Qed.

(** Rewriting a consumer row without its name. *)
Lemma ok_consumer d eid c c' :
  enroll_ok (access d) -> consumers d !! eid = Some c -> ec_name c' = ec_name c ->
  (consumer_live c' = true -> consumer_live c = true) ->
  0 <= ec_token_generation c' <= i64_max /\ (ec_token_generation c' = 0 <-> ec_token_hash c' = None) ->
  enroll_ok (access (with_consumers (insert eid c') d)).
Proof.
  intros [Hr Hc Hl] Hid Hn Hlv Hg.
  assert (forall j x, <[eid := c']> (consumers d) !! j = Some x ->
    exists y, consumers d !! j = Some y /\ ec_name x = ec_name y /\
      (consumer_live x = true -> consumer_live y = true) /\
      (0 <= ec_token_generation x <= i64_max /\ (ec_token_generation x = 0 <-> ec_token_hash x = None))) as Hold.
  { intros j x. destruct (decide (j = eid)) as [->|Hne].
    - rewrite lookup_insert_eq. intros [= <-]. eauto.
    - rewrite lookup_insert_ne by done. intros Hj. exists x. split_and!; try done; by eapply (co_generation _ Hc). }
  split; cbn; [done|split|].
  - intros i j x y (x0 & Hi & Hnx & Hlx & _)%Hold (y0 & Hj & Hny & Hly & _)%Hold H1 H2 H3.
    eapply (co_names _ Hc); eauto; congruence.
  - intros i x (x0 & _ & _ & _ & Hgx)%Hold. exact Hgx.
  - intros j r Hj Ha. destruct (Hl j r Hj Ha) as (e & y & He & Hy & Hf).
    destruct (decide (e = eid)) as [->|Hne].
    + exists eid, c'. rewrite lookup_insert_eq. unfold consumers in Hid.
      rewrite Hy in Hid. simplify_eq. by rewrite Hn.
    + exists e, y. by rewrite lookup_insert_ne.
Qed.

Lemma ok_insert_consumer d eid name actor now :
  enroll_ok (access d) -> consumers d !! eid = None ->
  (forall j c, consumers d !! j = Some c -> consumer_live c && bool_decide (ec_name c = name) = false) ->
  enroll_ok (access (with_consumers (insert eid
    {| ec_name := name; ec_token_hash := None; ec_token_generation := 0; ec_approved_at_ms := now;
       ec_approved_by := actor; ec_revoked_at_ms := None |}) d)).
Proof.
  intros [Hr Hc Hl] Hid Hn. set (row := {| ec_name := name |}).
  assert (forall j x, <[eid := row]> (consumers d) !! j = Some x ->
    (j = eid /\ x = row) \/ (j <> eid /\ consumers d !! j = Some x)) as Hcases.
  { intros j x. destruct (decide (j = eid)) as [->|Hne].
    - rewrite lookup_insert_eq. intros [= <-]. auto.
    - rewrite lookup_insert_ne by done. auto. }
  split; cbn; [done|split|].
  - intros i j x y [[-> ->]|[? Hi]]%Hcases [[-> ->]|[? Hj]]%Hcases H1 H2 H3; [done|..|by eapply (co_names _ Hc)].
    + specialize (Hn _ _ Hj). rewrite H2, bool_decide_eq_true_2 in Hn by done. done.
    + specialize (Hn _ _ Hi). rewrite H1, bool_decide_eq_true_2 in Hn by done. done.
  - intros i x [[-> ->]|[? Hi]]%Hcases; [|by eapply (co_generation _ Hc)].
    cbn. unfold i64_max. split; [lia|done].
  - intros j r Hj Ha. destruct (Hl j r Hj Ha) as (e & y & He & Hy & Hf). exists e, y.
    rewrite lookup_insert_ne; [done|]. intros ->. unfold consumers in Hid. congruence.
Qed.

Lemma ok_approve d id r eid c name actor now :
  enroll_ok (access d) -> pendings d !! id = Some r -> pe_state r = "pending" ->
  consumers d !! eid = Some c -> ec_name c = name ->
  enroll_ok (access (with_pending (insert id (approve_request name eid actor now r)) d)).
Proof.
  intros [Hr Hc Hl] Hid Hst Hcn Hnm. split; cbn; [by apply requests_ok_approve|done|].
  intros j r'. destruct (decide (j = id)) as [->|Hne].
  - rewrite lookup_insert_eq. intros [= <-] _. exists eid, c. subst. done.
  - rewrite lookup_insert_ne by done. apply Hl.
Qed.

(** *** Every transaction keeps the invariant *)

Section Invariant.
Context `{C : Crypto}.

Definition keeps_ok {A} (m : Tx A) : Prop :=
  forall d, enroll_ok (access d) -> wp m (fun _ d' => enroll_ok (access d')) d.

Lemma propose_ok rid name hash now p : keeps_ok (propose_tx rid name hash now p).
Proof.
  intros d Hd. unfold propose_tx. do 2 enroll_step.
  pose proof (ok_swept d now 1 Hd ltac:(lia)) as Hs.
  destruct (swept_ok now 1 (pendings d) (eo_requests _ Hd) ltac:(lia)) as [_ Hsz].
  enroll_go; try exact Hs. apply ok_insert_request; [exact Hs|done|done|done| |].
  - apply Z.leb_gt. done.
  - change (Z.of_nat (size (swept now 1 (pendings d))) < ENROLLMENT_TERMINAL_MAX_ROWS). lia.
Qed.

Lemma ok_token d eid c h g :
  enroll_ok (access d) -> consumers d !! eid = Some c -> 1 <= g <= i64_max ->
  enroll_ok (access (with_consumers (insert eid (set_token h g c)) d)).
Proof.
  intros Hd Hc Hg. eapply ok_consumer; [done|exact Hc|done|done|]. cbn. split; [lia|]. split; [lia|done].
Qed.

Lemma deliver_ok draw rid now p fname eid : keeps_ok (deliver_token draw rid now p fname eid).
Proof.
  intros d Hd. unfold deliver_token. enroll_go; try exact Hd;
    try (apply ok_token; [exact Hd|done|unfold i64_max; lia]).
  apply ok_settle; [|done|done]. apply ok_token; [exact Hd|done|unfold i64_max; lia].
Qed.

Lemma poll_ok draw rid h now p : keeps_ok (poll_tx draw rid h now p).
Proof.
  intros d Hd. unfold poll_tx. do 2 enroll_step. destruct (pendings d !! rid) eqn:E; [|enroll_go; exact Hd].
  repeat lazymatch goal with
    | |- wp (deliver_token _ _ _ _ _ _) _ _ => by apply deliver_ok
    | |- _ => enroll_step
    end; try exact Hd.
  by apply ok_settle.
Qed.

Lemma match_token_in h m eid c old :
  match_token h m = Some (eid, c, old) ->
  m !! eid = Some c /\ ec_token_hash c = Some old /\ consumer_live c = true /\ constant_time_hash_eq h old = true.
Proof.
  unfold match_token.
  assert (forall l acc, foldl (fun matched kv =>
      match ec_token_hash kv.2 with
      | Some h0 => if constant_time_hash_eq h h0 then Some (kv.1, kv.2, h0) else matched
      | None => matched
      end) acc l = Some (eid, c, old) ->
    acc = Some (eid, c, old) \/
    ((eid, c) ∈ l /\ ec_token_hash c = Some old /\ constant_time_hash_eq h old = true)) as Hf.
  { induction l as [|[k x] l IH]; intros acc Hm; [by left|]. cbn in Hm.
    apply IH in Hm as [Hm|(Hin & Hrest)]; [|right; split; [set_solver|done]].
    destruct (ec_token_hash x) as [h0|] eqn:Eh; [|by left].
    destruct (constant_time_hash_eq h h0) eqn:Ee; [|by left]. simplify_eq. right. set_solver. }
  intros [?|(Hin & Hh & He)]%Hf; [done|].
  apply list_filter_in in Hin as [Hin Hl]. apply elem_of_map_to_list in Hin. cbn in Hl. bool_hyps. done.
Qed.

Lemma rotate_ok ak ts draw h g : keeps_ok (rotate_tx ak ts draw h g).
Proof.
  intros d Hd. unfold rotate_tx. enroll_go; try exact Hd; subst; 
    apply match_token_in in Heqo as (Hc & _); pose proof (co_generation _ (eo_consumers _ Hd) _ _ Hc) as [Hg _];
    match goal with H : (if ?b then _ else _) = Ok _ |- _ => destruct b eqn:Hb; simplify_eq end;
    apply Z.leb_le in Hb;
    apply ok_token; try exact Hd; try done; lia.
Qed.

Lemma approve_ok ak ts now eid rid name keep actor : keeps_ok (approve_tx ak ts now eid rid name keep actor).
Proof.
  intros d Hd. unfold approve_tx. do 2 enroll_step. destruct (pendings d !! rid) as [r|] eqn:E; [|by enroll_go].
  destruct (negb _ || _) eqn:Eb; [enroll_go; try exact Hd; by apply ok_settle|]. bool_hyps.
  enroll_go; try exact Hd;
    try (by apply ok_insert_consumer).
  match goal with Hr : pendings (with_consumers _ _) !! rid = Some ?x |- _ =>
    change (pendings d !! rid = Some x) in Hr; rewrite E in Hr; injection Hr as <- end.
  eapply ok_approve; [by apply ok_insert_consumer|done|done| |].
  - cbn. apply lookup_insert_eq.
  - done.
Qed.

Lemma deny_ok ak ts now rid actor : keeps_ok (deny_tx ak ts now rid actor).
Proof. intros d Hd. unfold deny_tx. enroll_go; try exact Hd; by apply ok_settle. Qed.

Lemma ok_grants d f : enroll_ok (access d) -> enroll_ok (access (with_read_grants f d)).
Proof. by intros []. Qed.

Lemma revoke_ok ak clock now name actor : keeps_ok (revoke_tx ak clock now name actor).
Proof.
  intros d Hd. unfold revoke_tx. enroll_go; try exact Hd; try (apply ok_grants; exact Hd);
    (eapply ok_consumer; [exact (ok_grants _ _ Hd)|done|done|done|]; cbn;
     eapply (co_generation _ (eo_consumers _ Hd)); eassumption).
Qed.

Lemma reissue_ok ak ts draw name actor : keeps_ok (reissue_tx ak ts draw name actor).
Proof.
  intros d Hd. unfold reissue_tx. enroll_go; try exact Hd; subst;
    match goal with H : select_row _ _ = Some _ |- _ => apply select_row_some in H as [Hc _] end;
    pose proof (co_generation _ (eo_consumers _ Hd) _ _ Hc) as [Hg _];
    match goal with H : (if ?b then _ else _) = Ok _ |- _ => destruct b eqn:Hb; simplify_eq end;
    apply Z.leb_le in Hb; apply ok_token; try exact Hd; try done; lia.
Qed.

Lemma sweep_ok now : keeps_ok (sweep_pending_enrollments_tx now 0).
Proof. intros d Hd. enroll_go. apply (ok_swept d now 0); [done|lia]. Qed.
End Invariant.
