(* ===== verification/Access.v ===== *)
(** * Histories of the vault: store calls, grants, enrollment and agent secrets together

    [AccessCall] names each mutating operation of [Grants] and [Enrollment] with its
    arguments; [VaultCall] mixes them with the store calls of [Calls] and the secret calls
    of [SecretCalls], and [run_vault] is a history of the whole vault. A preorder respected by every transaction of a history
    relates its two ends ([vault_rel]); the properties below instantiate it. *)

From stdpp Require Import gmap sorting.
From S2P Require Import Prelude Text Crypto Record CredentialId Catalog Envelope AuditLog Database Store TxLogic Calls SecretStore SecretCalls Sealed Grants Enrollment.

Inductive AccessCall :=
| AcCreateGrant (inp : Inputs) (pk pid : string) (k : SelectorKind) (sel : string) (o : GrantOperation) (ctx : AuditCtx)
| AcRevokeGrant (inp : Inputs) (pk pid : string) (k : SelectorKind) (sel : string) (o : GrantOperation) (ctx : AuditCtx)
| AcSetCategories (inp : Inputs) (id : string) (mode : SetCategoryMode) (cats : list string) (ctx : AuditCtx)
| AcSetProviders (inp : Inputs) (id : string) (mode : SetProvidersMode) (ids : list string) (ctx : AuditCtx)
| AcSetPlan (inp : Inputs) (id : string) (tier : option string) (ctx : AuditCtx)
| AcReclassify (inp : Inputs) (force : bool) (ctx : AuditCtx)
| AcPropose (inp : Inputs) (principal : option AuthEventPrincipal) (name hash : string)
| AcPoll (inp : Inputs) (principal : option AuthEventPrincipal) (request_id secret : string)
| AcRotate (inp : Inputs) (token : string) (expected_generation : Z)
| AcApprove (inp : Inputs) (request_id name : string) (keep_grants : bool) (actor : string)
| AcDeny (inp : Inputs) (request_id actor : string)
| AcRevoke (inp : Inputs) (name actor : string)
| AcReissue (inp : Inputs) (name actor : string)
| AcSweepOnOpen (now : Z).

Section Run.
Context `{C : Crypto} `{X : RecordExt} `{SE : SecretEnv} {Conn : Type} `{S : SqliteStore Conn}.

Definition access_op (c : AccessCall) : M (EncryptedStore Conn) StoreOpError unit :=
  match c with
  | AcCreateGrant inp pk pid k sel o ctx => effect (create_read_grant_audited inp pk pid k sel o ctx)
  | AcRevokeGrant inp pk pid k sel o ctx => effect (revoke_read_grant_audited inp pk pid k sel o ctx)
  | AcSetCategories inp id mode cats ctx => effect (set_categories_audited inp id mode cats ctx)
  | AcSetProviders inp id mode ids ctx => effect (set_providers_audited inp id mode ids ctx)
  | AcSetPlan inp id tier ctx => effect (set_plan_audited inp id tier ctx)
  | AcReclassify inp force ctx => effect (reclassify_audited inp force ctx)
  | AcPropose inp p name hash => effect (propose_enrollment_by inp p name hash)
  | AcPoll inp p rid secret => effect (poll_enrollment_by inp p rid secret)
  | AcRotate inp token g => effect (rotate_enrollment inp token g)
  | AcApprove inp rid name keep actor => effect (approve_enrollment_with_grants inp rid name keep actor)
  | AcDeny inp rid actor => effect (deny_enrollment inp rid actor)
  | AcRevoke inp name actor => effect (revoke_enrollment inp name actor)
  | AcReissue inp name actor => effect (reissue_enrollment inp name actor)
  | AcSweepOnOpen now => effect (sweep_pending_enrollments_on_open now)
  end.

Inductive VaultCall := OnStore (c : Call) | OnAccess (c : AccessCall) | OnSecret (c : SecretCall).

Definition vault_op (c : VaultCall) : M (EncryptedStore Conn) StoreOpError unit :=
  match c with OnStore c => call_op c | OnAccess c => access_op c | OnSecret c => secret_op c end.

Definition run_vault (cs : list VaultCall) (s : EncryptedStore Conn) : EncryptedStore Conn :=
  fold_left (fun s c => snd (vault_op c s)) cs s.
End Run.

(** ** From transactions to histories *)

Section VaultRel.
Context `{C : Crypto} `{X : RecordExt} `{SE : SecretEnv} {Conn : Type} `{L : SqliteStoreLaws Conn}.
Context (K : Keys) (R : Db -> Db -> Prop) `{!PreOrder R}.

(** The transactions a call can commit respect [R]. *)
Definition call_respects (c : AccessCall) : Prop :=
  match c with
  | AcCreateGrant inp pk pid k sel o ctx =>
      admissible pk pid k sel o ->
      tx_rel R (change_grant (k_audit_key K) (in_now inp 1) ctx (grant_target pk pid k sel o)
                  (insert_grant (grant_key pk pid k sel o) (in_now inp 0)))
  | AcRevokeGrant inp pk pid k sel o ctx =>
      tx_rel R (change_grant (k_audit_key K) (in_now inp 0) ctx (grant_target pk pid k sel o)
                  (delete_grant (grant_key pk pid k sel o)))
  | AcSetCategories inp id mode cats ctx =>
      forallb valid_category_name cats = true ->
      tx_rel R (set_categories_tx (k_audit_key K) (in_now inp 0) id mode (list_to_set cats) ctx)
  | AcSetProviders inp id mode ids ctx =>
      check_provider_ids ids = Ok tt -> tx_rel R (set_providers_tx (k_audit_key K) (in_now inp 0) id mode ids ctx)
  | AcSetPlan inp id tier ctx =>
      forall t, tx_rel R (write_plan_tier_in_tx (k_audit_key K) (in_now inp 0) t id tier ctx)
  | AcReclassify inp force ctx => tx_rel R (reclassify_tx (k_audit_key K) (in_now inp) force ctx)
  | AcPropose inp p name hash =>
      forall rid, mint_hex_32 (in_rnd inp 0) = Ok rid -> tx_rel R (propose_tx rid name hash (in_now inp 0) p)
  | AcPoll inp p rid secret =>
      forall h, enrollment_secret_hash secret = Some h ->
        tx_rel R (poll_tx (in_rnd inp 0) rid h (in_now inp 0) p)
  | AcRotate inp token g =>
      forall h, enrollment_secret_hash token = Some h ->
        tx_rel R (rotate_tx (k_audit_key K) (in_now inp 0) (in_rnd inp 0) h g)
  | AcApprove inp rid name keep actor =>
      forall eid, mint_hex_32 (in_rnd inp 0) = Ok eid -> valid_enrollment_name name = true ->
        tx_rel R (approve_tx (k_audit_key K) (in_now inp 1) (in_now inp 0) eid rid name keep actor)
  | AcDeny inp rid actor => tx_rel R (deny_tx (k_audit_key K) (in_now inp 1) (in_now inp 0) rid actor)
  | AcRevoke inp name actor => tx_rel R (revoke_tx (k_audit_key K) (in_now inp) (in_now inp 0) name actor)
  | AcReissue inp name actor =>
      tx_rel R (reissue_tx (k_audit_key K) (in_now inp 0) (in_rnd inp 0) name actor)
  | AcSweepOnOpen now => tx_rel R (sweep_pending_enrollments_tx now 0)
  end.

Lemma op_rel_effect_refusable {A} (m : M (EncryptedStore Conn) StoreOpError (result A EnrollmentRefusal)) :
  op_rel K R m -> op_rel K R (effect (refusable m)).
Proof.
  intros Hm s r s' HK [= _ <-]. unfold refusable. destruct (m s) as [out s1] eqn:E. cbn. by eapply Hm.
Qed.

Lemma op_rel_effect_err {E A} (e : E) : op_rel K R (effect (merr (A := A) e)).
Proof. intros s r s' HK [= _ <-]. done. Qed.

Lemma op_rel_effect_lift {E A B} (x : result A E) (k : A -> M (EncryptedStore Conn) E B) :
  (forall a, x = Ok a -> op_rel K R (effect (k a))) -> op_rel K R (effect (mbind (mlift x) k)).
Proof.
  intros Hk s r s' HK [= _ <-]. unfold mbind, mlift. destruct x as [a|e]; [|done].
  by eapply (Hk a eq_refl); [|reflexivity].
Qed.

(** The sweep on open: fenced, but outside [fenced_write]. *)
Lemma op_rel_sweep_on_open now :
  tx_rel R (sweep_pending_enrollments_tx now 0) -> op_rel (Conn := Conn) K R (sweep_pending_enrollments_on_open now).
Proof.
  intros Hf s r s' HK H1. unfold sweep_pending_enrollments_on_open in H1.
  destruct (with_conn_fenced _ (es_conn s)) as [out c] eqn:E. simplify_eq.
  split; [done|]. split; [|by intros Hfo; cbn; rewrite Hfo].
  unfold es_db, set_conn. cbn. destruct out as [a|e].
  - apply (Hf _ a). by apply fenced_commits.
  - apply fenced_rolls_back in E. rewrite E. reflexivity.
Qed.

Lemma op_rel_flatten {A} (m : M (EncryptedStore Conn) StoreOpError (result A StoreOpError)) :
  op_rel K R m -> op_rel K R (flatten m).
Proof. intros. unfold flatten. rel_solve. Qed.

Lemma access_rel c : call_respects c -> op_rel K R (access_op (Conn := Conn) c).
Proof.
  intros Hc. destruct c; cbn [access_op call_respects] in *.
  - apply op_rel_effect. unfold create_read_grant_audited. rel_solve. apply Hc.
    eapply guards_admissible; eassumption.
  - apply op_rel_effect. unfold revoke_read_grant_audited. rel_solve.
  - apply op_rel_effect. unfold set_categories_audited. rel_solve. apply Hc. by bool_hyps.
  - apply op_rel_effect. unfold set_providers_audited. rel_solve. apply op_rel_flatten. rel_solve.
    destruct a. auto.
  - apply op_rel_effect. unfold set_plan_audited. rel_solve; apply op_rel_flatten; rel_solve.
  - apply op_rel_effect. unfold reclassify_audited. rel_solve.
  - unfold propose_enrollment_by. destruct (_ || _); [apply op_rel_effect_err|].
    apply op_rel_effect_lift. intros rid Hrid. apply op_rel_effect_refusable, op_rel_fenced; [done|]. apply Hc.
    destruct (mint_hex_32 (in_rnd inp 0)); [by injection Hrid as <-|done].
  - unfold poll_enrollment_by. destruct (negb _); [apply op_rel_effect_err|].
    apply op_rel_effect_lift. intros h Hh. apply op_rel_effect_refusable, op_rel_fenced; [done|]. apply Hc.
    destruct (enrollment_secret_hash _); [by injection Hh as <-|done].
  - unfold rotate_enrollment. destruct (negb _); [apply op_rel_effect_err|].
    apply op_rel_effect_lift. intros h Hh. apply op_rel_effect_refusable, op_rel_self, op_rel_fenced; [done|]. apply Hc.
    destruct (enrollment_secret_hash _); [by injection Hh as <-|done].
  - apply op_rel_effect. unfold approve_enrollment_with_grants. rel_solve. apply op_rel_flatten, op_rel_fenced; [done|].
    apply Hc; [done|]. by bool_hyps.
  - apply op_rel_effect. unfold deny_enrollment. rel_solve.
  - apply op_rel_effect. unfold revoke_enrollment. rel_solve.
  - apply op_rel_effect. unfold reissue_enrollment. rel_solve.
  - by apply op_rel_effect, op_rel_sweep_on_open.
Qed.

(** A relation every call of a history respects relates its ends. *)
Lemma vault_rel cs (s : EncryptedStore Conn) :
  Forall (fun c => match c with
                   | OnStore c => op_rel K R (call_op (Conn := Conn) c)
                   | OnAccess c => call_respects c
                   | OnSecret c => refusals_respect K R /\ secret_respects K R c
                   end) cs -> keys_of s = K ->
  keys_of (run_vault cs s) = K /\ R (es_db s) (es_db (run_vault cs s)).
Proof.
  intros Hcs. revert s. induction Hcs as [|c cs Hc Hcs IH]; intros s HK; [by split|].
  assert (op_rel K R (vault_op (Conn := Conn) c)) as Hop
    by (destruct c; [exact Hc|by apply access_rel|destruct Hc; by apply secret_rel]).
  cbn. destruct (Hop s _ _ HK (surjective_pairing _)) as (HK1 & HR1 & _).
  destruct (IH (snd (vault_op c s))) as (HK2 & HR2); [done|].
  split; [done|by etrans].
Qed.
End VaultRel.

(** ** Statements that leave a part of the database alone *)

(** Run one statement of [Grants] or [Enrollment] and close the goal when the part of the
    database in view did not change. *)
Ltac access_frame :=
  lazymatch goal with
  | |- tx_rel _ _ =>
      let H := fresh "H" in
      intros ?d ?a ?d' H;
      unfold append_secret_auth_event_tx, trim_auth_events_tx, mbind, update_pending, update_consumer, insert_pending, insert_consumer, insert_grant,
        delete_grant, read_grants_from_conn, exec, with_categories_table, with_provider_ids_table,
        with_plan_tiers_table in H;
      repeat match type of H with context [match ?x with _ => _ end] => destruct x eqn:? end;
      simplify_eq; cbv zeta beta; unfold on; reflexivity
  end.

(** Unfold the bodies of the two components down to their statements. *)
Ltac access_unfold :=
  unfold change_grant, set_categories_tx, set_providers_tx, write_plan_tier_in_tx, reclassify_tx,
    propose_tx, poll_tx, deliver_token, rotate_tx, approve_tx, deny_tx, revoke_tx, reissue_tx,
    sweep_pending_enrollments_tx, refuse_with, append_enrollment_event_tx in *.

Section LoopRel.
Context `{C : Crypto} (R : Db -> Db -> Prop) `{!PreOrder R}.

Lemma tx_rel_reclassify_loop ak now force granted ctx changed ids :
  (forall f, tx_rel R (exec (with_credential_categories f))) ->
  (forall ts r, tx_rel R (append_audit_tx ak ts r)) ->
  tx_rel R (reclassify_loop ak now force granted ctx changed ids).
Proof. intros H1 H2. revert changed. induction ids; intros changed; cbn [reclassify_loop]; rel_solve. Qed.

Lemma tx_rel_audit_removed ak now name actor k grants :
  (forall ts r, tx_rel R (append_audit_tx ak ts r)) ->
  tx_rel R (audit_removed_grants ak now name actor k grants).
Proof. intros H1. revert k. induction grants; intros k; cbn [audit_removed_grants]; rel_solve. Qed.
End LoopRel.

(** Prove that a call respects a relation, from what its statements do; [tac] is tried
    first. *)
Ltac access_solve tac :=
  cbn [call_respects]; intros;
  repeat first
    [ tac
    | lazymatch goal with
      | |- tx_rel _ (reclassify_loop _ _ _ _ _ _ _) => apply tx_rel_reclassify_loop; intros
      | |- tx_rel _ (audit_removed_grants _ _ _ _ _ _) => apply tx_rel_audit_removed; intros
      end
    | rel_step
    | progress access_unfold ];
  try access_frame; auto with rel typeclass_instances.

Section Frames.
Context `{C : Crypto} `{X : RecordExt} {Conn : Type} `{L : SqliteStoreLaws Conn}.
Context (K : Keys).

(** What grants and enrollment never touch. *)
Definition records_view (d : Db) :=
  (credentials d, refresh_intent d, handles d, vault_secrets d, agent_secrets d, remote_records d,
   held_detected_plans d, remote_issue_seen d).

Lemma access_keeps_records c : call_respects K (on records_view eq) c.
Proof. destruct c; access_solve ltac:(fail). Qed.

Lemma access_log_grows c : call_respects K (on audit_log (log_grows K)) c.
Proof. destruct c; access_solve ltac:(apply append_audit_grows). Qed.

Lemma access_events_bounded c : call_respects K (on auth_events (keeps events_bounded)) c.
Proof. destruct c; access_solve ltac:(apply append_event_bounded). Qed.

Lemma call_keeps_access c : op_rel K (on access eq) (call_op (Conn := Conn) c).
Proof. revert c. calls_solve. Qed.
End Frames.

Lemma op_rel_weaken {Conn} `{SqliteStore Conn} K (R R' : Db -> Db -> Prop) {A}
    (m : M (EncryptedStore Conn) StoreOpError A) :
  (forall d d', R d d' -> R' d d') -> op_rel K R m -> op_rel K R' m.
Proof. intros HR Hm s r s' HK E. destruct (Hm s r s' HK E) as (? & ? & ?). auto. Qed.

Lemma tx_rel_weaken (R R' : Db -> Db -> Prop) {A} (m : Tx A) :
  (forall d d', R d d' -> R' d d') -> tx_rel R m -> tx_rel R' m.
Proof. intros HR Hm d a d' E. by eapply HR, Hm. Qed.

Lemma call_respects_weaken `{Crypto} K (R R' : Db -> Db -> Prop) c :
  (forall d d', R d d' -> R' d d') -> call_respects K R c -> call_respects K R' c.
Proof. intros HR Hc. destruct c; cbn in *; intros; eapply tx_rel_weaken; eauto. Qed.

(** ** The ceremony's tables over any history *)

Section Ceremony.
Context `{C : Crypto} `{X : RecordExt} `{SE : SecretEnv} {Conn : Type} `{L : SqliteStoreLaws Conn}.
Context (K : Keys).

Definition ceremony_view (d : Db) := (pendings d, consumers d).

(** Which calls of a component touch the ceremony at all. *)
Definition is_grant_call (c : AccessCall) : bool :=
  match c with
  | AcCreateGrant _ _ _ _ _ _ _ | AcRevokeGrant _ _ _ _ _ _ _ | AcSetCategories _ _ _ _ _
  | AcSetProviders _ _ _ _ _ | AcSetPlan _ _ _ _ | AcReclassify _ _ _ => true
  | _ => false
  end.

Lemma grant_calls_keep_ceremony c :
  is_grant_call c = true -> call_respects K (on ceremony_view eq) c.
Proof. destruct c; intros Hc; try discriminate Hc; clear Hc; access_solve ltac:(fail). Qed.

Lemma view_enroll_ok d d' :
  on ceremony_view eq d d' -> on access (keeps enroll_ok) d d'.
Proof.
  unfold on, ceremony_view, keeps, pendings, consumers. intros [= E1 E2] [H1 H2 H3].
  split; by rewrite <- ?E1, <- ?E2.
Qed.

Lemma keeps_ok_rel {A} (m : Tx A) : keeps_ok m -> tx_rel (on access (keeps enroll_ok)) m.
Proof. intros Hm d a d' E Hd. by apply (wp_run _ _ _ _ _ (Hm d Hd) E). Qed.

Lemma access_enroll_ok c : call_respects K (on access (keeps enroll_ok)) c.
Proof.
  destruct (is_grant_call c) eqn:Eg.
  { by eapply call_respects_weaken; [apply view_enroll_ok|apply grant_calls_keep_ceremony]. }
  destruct c; try discriminate Eg; cbn [call_respects]; intros; apply keeps_ok_rel;
    auto using propose_ok, poll_ok, rotate_ok, approve_ok, deny_ok, revoke_ok, reissue_ok, sweep_ok.
Qed.

Lemma store_call_access (P : AccessTables -> Prop) c :
  op_rel K (on access (keeps P)) (call_op (Conn := Conn) c).
Proof.
  eapply op_rel_weaken; [|apply call_keeps_access]. unfold on, keeps. by intros d d' <-.
Qed.

Lemma secret_call_access (P : AccessTables -> Prop) c :
  let R := on access (keeps P) in refusals_respect K R /\ secret_respects K R c.
Proof.
  eapply secret_respects_weaken; [|apply secret_keeps_vault]. intros d d' E. unfold on, keeps in *.
  apply (f_equal (fun v => fst (fst (fst (fst (fst (fst (fst (fst (fst v)))))))))) in E. cbn in E. by rewrite <- E.
Qed.

(** Carry a predicate of the access tables through a history. *)
Lemma vault_keeps (P : AccessTables -> Prop) cs (s : EncryptedStore Conn) :
  (forall c, OnAccess c ∈ cs -> call_respects K (on access (keeps P)) c) -> keys_of s = K ->
  P (access (es_db s)) -> P (access (es_db (run_vault cs s))).
Proof.
  intros Hcs HK HP. edestruct (vault_rel K (on access (keeps P)) cs s) as [_ HR]; [|done|by apply HR].
  apply list.Forall_forall. intros [c|c|c] Hin; [apply store_call_access|by apply Hcs|apply secret_call_access].
Qed.
End Ceremony.

(** ** Tokens *)

Section Tokens.
Context `{C : Crypto} `{X : RecordExt}.

(** No live consumer holds the digest. *)
Definition token_dead (h : string) (a : AccessTables) : Prop :=
  forall eid c, enrolled_consumers a !! eid = Some c -> consumer_live c = true -> ec_token_hash c <> Some h.

(** The digest of the token a draw mints. *)
Definition minted_digest (draw : option bytes) (h : string) : Prop :=
  exists bs, draw = Some bs /\ enrollment_secret_hash (hex bs) = Some h.

(** The call would store a token of digest [h]. *)
Definition mints_token (h : string) (c : AccessCall) : Prop :=
  match c with
  | AcPoll inp _ _ _ | AcRotate inp _ _ | AcReissue inp _ _ => minted_digest (in_rnd inp 0) h
  | _ => False
  end.

Lemma minted_in draw token h :
  mint_hex_32_sqlite draw = Ok token ->
  ok_or (enrollment_secret_hash token) (Sql "a freshly minted 32-byte hex token is valid") = Ok h ->
  minted_digest draw h.
Proof.
  unfold mint_hex_32_sqlite, mint_hex_32. destruct draw as [bs|]; [|done]. intros [= <-].
  destruct (enrollment_secret_hash (hex bs)) eqn:E; [|done]. intros [= <-]. exists bs. done.
Qed.

Lemma dead_set_token d h eid c h' g :
  token_dead h (access d) -> h' <> h ->
  token_dead h (access (with_consumers (insert eid (set_token h' g c)) d)).
Proof.
  intros Hd Hne j x. cbn. destruct (decide (j = eid)) as [->|Hj].
  - rewrite lookup_insert_eq. intros [= <-] _. cbn. congruence.
  - rewrite lookup_insert_ne by done. apply Hd.
Qed.

Lemma dead_grants h d f : token_dead h (access d) -> token_dead h (access (with_read_grants f d)).
Proof. done. Qed.

Definition keeps_dead {A} (h : string) (m : Tx A) : Prop :=
  forall d, token_dead h (access d) -> wp m (fun _ d' => token_dead h (access d')) d.

Lemma poll_dead h draw rid ph now p : ~ minted_digest draw h -> keeps_dead h (poll_tx draw rid ph now p).
Proof.
  intros Hm d Hd. unfold poll_tx, deliver_token. enroll_go; try exact Hd;
    (apply (dead_set_token d); [exact Hd|intros ->; by eapply Hm, minted_in]).
Qed.

Lemma rotate_dead h ak ts draw ph g : ~ minted_digest draw h -> keeps_dead h (rotate_tx ak ts draw ph g).
Proof.
  intros Hm d Hd. unfold rotate_tx. enroll_go; try exact Hd;
    (apply (dead_set_token d); [exact Hd|intros ->; by eapply Hm, minted_in]).
Qed.

Lemma reissue_dead h ak ts draw name actor : ~ minted_digest draw h -> keeps_dead h (reissue_tx ak ts draw name actor).
Proof.
  intros Hm d Hd. unfold reissue_tx. enroll_go; try exact Hd;
    (apply (dead_set_token d); [exact Hd|intros ->; by eapply Hm, minted_in]).
Qed.

Lemma approve_dead h ak ts now eid rid name keep actor :
  keeps_dead h (approve_tx ak ts now eid rid name keep actor).
Proof.
  intros d Hd. unfold approve_tx. enroll_go; try exact Hd;
    (intros j x; cbn; destruct (decide (j = eid)) as [->|Hj];
     [rewrite lookup_insert_eq; by intros [= <-]|rewrite lookup_insert_ne by done; apply Hd]).
Qed.

Lemma revoke_dead h ak clock now name actor : keeps_dead h (revoke_tx ak clock now name actor).
Proof.
  intros d Hd. unfold revoke_tx. enroll_go; try exact Hd;
    (intros j x; cbn; destruct (decide (j = s)) as [->|Hj];
     [rewrite lookup_insert_eq; by intros [= <-]|rewrite lookup_insert_ne by done; apply Hd]).
Qed.

(** Which calls touch the consumers. *)
Definition is_consumer_call (c : AccessCall) : bool :=
  match c with
  | AcPoll _ _ _ _ | AcRotate _ _ _ | AcApprove _ _ _ _ _ | AcRevoke _ _ _ | AcReissue _ _ _ => true
  | _ => false
  end.

Lemma others_keep_consumers K c : is_consumer_call c = false -> call_respects K (on consumers eq) c.
Proof. destruct c; intros Hc; try discriminate Hc; clear Hc; access_solve ltac:(fail). Qed.

Lemma access_token_dead K h c :
  ~ mints_token h c -> call_respects K (on access (keeps (token_dead h))) c.
Proof.
  intros Hm. destruct (is_consumer_call c) eqn:Ec.
  - assert (forall A (m : Tx A), keeps_dead h m -> tx_rel (on access (keeps (token_dead h))) m) as Hk.
    { intros A m Hd d a d' E HP. by apply (wp_run _ _ _ _ _ (Hd d HP) E). }
    destruct c; try discriminate Ec; cbn [call_respects]; intros; apply Hk;
      auto using poll_dead, rotate_dead, reissue_dead, approve_dead, revoke_dead.
  - eapply call_respects_weaken; [|by apply others_keep_consumers].
    unfold on, keeps, token_dead, consumers. intros d d' <-. auto.
Qed.

(** *** Retiring a token *)

(** No two live consumers hold the same digest. *)
Definition tokens_distinct (a : AccessTables) : Prop :=
  forall i j c c' h, enrolled_consumers a !! i = Some c -> enrolled_consumers a !! j = Some c' ->
    consumer_live c = true -> consumer_live c' = true ->
    ec_token_hash c = Some h -> ec_token_hash c' = Some h -> i = j.

Lemma holder_in h m name g :
  token_holder h m = Some (name, g) ->
  exists eid c, m !! eid = Some c /\ ec_token_hash c = Some h /\ consumer_live c = true /\
    ec_name c = name /\ ec_token_generation c = g.
Proof.
  unfold token_holder. intros ([eid c] & Hs & [= -> ->])%fmap_Some.
  apply select_row_some in Hs as [Hc Hb]. cbn in *. bool_hyps. eauto 10.
Qed.

Lemma dead_no_holder h a : token_dead h a -> token_holder h (enrolled_consumers a) = None.
Proof.
  intros Hd. unfold token_holder. destruct (select_row _ _) as [[eid c]|] eqn:E; [|done].
  apply select_row_some in E as [Hc Hb]. bool_hyps. exfalso. by apply (Hd eid c).
Qed.

(** Replacing the row of the one live holder of a digest kills the digest. *)
Lemma replace_kills d eid c c' h :
  tokens_distinct (access d) -> consumers d !! eid = Some c -> ec_token_hash c = Some h ->
  consumer_live c = true -> (consumer_live c' = true -> ec_token_hash c' <> Some h) ->
  token_dead h (access (with_consumers (insert eid c') d)).
Proof.
  intros Hu Hc Hh Hl Hc' j x. cbn. destruct (decide (j = eid)) as [->|Hj].
  - rewrite lookup_insert_eq. intros [= <-]. auto.
  - rewrite lookup_insert_ne by done. intros Hx Hlx Hhx. by apply Hj, (Hu j eid x c h).
Qed.

Context `{!CryptoLaws C}.

Lemma rotate_kills d ak ts draw h g :
  tokens_distinct (access d) -> String.length h = 64%nat -> ~ minted_digest draw h ->
  wp (rotate_tx ak ts draw h g) (fun r d' => match r with Ok _ => token_dead h (access d') | Err _ => True end) d.
Proof.
  intros Hu Hlen Hm. unfold rotate_tx. enroll_go; try exact I.
  match goal with H : match_token _ _ = Some _ |- _ => apply match_token_in in H as (Hc & Hh & Hl & He) end.
  apply constant_time_hash_eq_iff in He; [|done]. subst.
  eapply (replace_kills d); [done|exact Hc|done|done|]. intros _ [= ->]. by eapply Hm, minted_in.
Qed.

(** A consumer found by name is the one holder of its digest. *)
Lemma named_holder d name h g eid c :
  consumers_ok (consumers d) -> token_holder h (consumers d) = Some (name, g) ->
  select_row (fun c => bool_decide (ec_name c = name) && consumer_live c) (consumers d) = Some (eid, c) ->
  consumers d !! eid = Some c /\ ec_token_hash c = Some h /\ consumer_live c = true.
Proof.
  intros Hok (eid' & c' & Hc' & Hh & Hl & Hn & _)%holder_in [Hc Hb]%select_row_some. bool_hyps.
  assert (eid = eid') as -> by (eapply (co_names _ Hok); eauto; congruence).
  by simplify_eq.
Qed.

Lemma revoke_kills d ak clock now name actor h g :
  tokens_distinct (access d) -> consumers_ok (consumers d) -> token_holder h (consumers d) = Some (name, g) ->
  wp (revoke_tx ak clock now name actor)
    (fun r d' => match r with Some _ => token_dead h (access d') | None => True end) d.
Proof.
  intros Hu Hok Hh. unfold revoke_tx. enroll_go; try exact I; subst;
    match goal with H : select_row _ _ = Some _ |- _ =>
      destruct (named_holder _ _ _ _ _ _ Hok Hh H) as (Hc & Hch & Hl) end;
    try (exfalso; match goal with H : forall r, _ -> true = false |- _ => by apply H in Hc end);
    (eapply (replace_kills (with_read_grants _ d)); [exact Hu|exact Hc|done|done|by intros ?]).
Qed.

Lemma reissue_kills d ak ts draw name actor h g :
  tokens_distinct (access d) -> consumers_ok (consumers d) -> token_holder h (consumers d) = Some (name, g) ->
  ~ minted_digest draw h ->
  wp (reissue_tx ak ts draw name actor)
    (fun r d' => match r with Some _ => token_dead h (access d') | None => True end) d.
Proof.
  intros Hu Hok Hh Hm. unfold reissue_tx. enroll_go; try exact I; subst;
    match goal with H : select_row _ _ = Some _ |- _ =>
      destruct (named_holder _ _ _ _ _ _ Hok Hh H) as (Hc & Hch & Hl) end;
    try (exfalso; match goal with H : forall r, _ -> true = false |- _ => by apply H in Hc end).
  eapply (replace_kills d); [exact Hu|exact Hc|done|done|]. intros _ [= ->]. by eapply Hm, minted_in.
Qed.

Context {Conn : Type} `{L : SqliteStoreLaws Conn}.

(** A token that resolves to [name] is retired by rotating it, by revoking the consumer
    or by reissuing its token. *)
Inductive retires (token name : string) (h : string) (s s' : EncryptedStore Conn) : Prop :=
| RetiredByRotate inp g r :
    ~ minted_digest (in_rnd inp 0) h -> rotate_enrollment inp token g s = (Ok r, s') -> retires token name h s s'
| RetiredByRevoke inp actor gs :
    revoke_enrollment inp name actor s = (Ok gs, s') -> retires token name h s s'
| RetiredByReissue inp actor r :
    ~ minted_digest (in_rnd inp 0) h -> reissue_enrollment inp name actor s = (Ok r, s') -> retires token name h s s'.

Lemma refusable_ok_inv {A} (m : M (EncryptedStore Conn) StoreOpError (result A EnrollmentRefusal)) s a s' :
  refusable m s = (Ok a, s') -> m s = (Ok (Ok a), s').
Proof. unfold refusable. destruct (m s) as [[[x|x]|e] s1]; intros; by simplify_eq. Qed.

Lemma ok_or_inv {A E} (o : option A) (e : E) a : ok_or o e = Ok a -> o = Some a.
Proof. destruct o; intros; by simplify_eq/=. Qed.

Lemma retires_kills token name h g (s s' : EncryptedStore Conn) :
  enrollment_secret_hash token = Some h -> consumers_ok (consumers (es_db s)) -> tokens_distinct (access (es_db s)) ->
  token_holder h (consumers (es_db s)) = Some (name, g) -> retires token name h s s' ->
  token_dead h (access (es_db s')).
Proof.
  intros Ht Hok Hu Hh [inp g' r Hm H1|inp actor gs H1|inp actor r Hm H1].
  - unfold rotate_enrollment in H1. ok_inv H1. rewrite Ht in E. injection E as <-.
    apply refusable_ok_inv in H1. unfold with_self in H1.
    exact (fenced_wp _ _ _ _ _ (rotate_kills _ _ _ _ _ g' Hu (hash_length _ _ Ht) Hm) H1).
  - unfold revoke_enrollment, with_self in H1. ok_inv H1. unfold mlift in H1. injection H1 as H1 <-.
    apply ok_or_inv in H1 as ->.
    exact (fenced_wp _ _ _ _ _ (revoke_kills _ _ _ _ _ _ _ _ Hu Hok Hh) E).
  - unfold reissue_enrollment, with_self in H1. ok_inv H1. unfold mlift in H1. injection H1 as H1 <-.
    apply ok_or_inv in H1 as ->.
    exact (fenced_wp _ _ _ _ _ (reissue_kills _ _ _ _ _ _ _ _ Hu Hok Hh Hm) E).
Qed.
End Tokens.

(** ** Requests *)

Section Requests.
Context `{C : Crypto} `{X : RecordExt}.

(** The request is not (or no longer) open. *)
Definition request_settled (rid : string) (a : AccessTables) : Prop :=
  forall r, pending_enrollments a !! rid = Some r -> request_live r = false.

(** The call would open a request under this id. *)
Definition proposes (rid : string) (c : AccessCall) : Prop :=
  match c with AcPropose inp _ _ _ => mint_hex_32 (in_rnd inp 0) = Ok rid | _ => False end.

Definition keeps_settled {A} (rid : string) (m : Tx A) : Prop :=
  forall d, request_settled rid (access d) -> wp m (fun _ d' => request_settled rid (access d')) d.

Lemma settled_insert d rid i r :
  request_settled rid (access d) -> (i = rid -> request_live r = false) ->
  request_settled rid (access (with_pending (insert i r) d)).
Proof.
  intros Hd Hr x. cbn. destruct (decide (i = rid)) as [->|Hne].
  - rewrite lookup_insert_eq. intros [= <-]. auto.
  - rewrite lookup_insert_ne by done. apply Hd.
Qed.

Lemma settled_swept d rid now reserve :
  request_settled rid (access d) -> request_settled rid (access (with_pending (swept now reserve) d)).
Proof. intros Hd x (r & Hr & [->| ->])%swept_rows; [by apply Hd|done]. Qed.

Lemma propose_settled rid rid' name hash now p : rid' <> rid -> keeps_settled rid (propose_tx rid' name hash now p).
Proof.
  intros Hne d Hd. unfold propose_tx. do 2 enroll_step. pose proof (settled_swept d rid now 1 Hd) as Hs.
  enroll_go; try exact Hs. by apply settled_insert.
Qed.

Lemma sweep_settled rid now : keeps_settled rid (sweep_pending_enrollments_tx now 0).
Proof. intros d Hd. enroll_go. by apply (settled_swept d). Qed.

Lemma poll_settled rid draw rid' ph now p : keeps_settled rid (poll_tx draw rid' ph now p).
Proof.
  intros d Hd. unfold poll_tx, deliver_token. enroll_go; try exact Hd; by apply settled_insert.
Qed.

Lemma deny_settled rid ak ts now rid' actor : keeps_settled rid (deny_tx ak ts now rid' actor).
Proof. intros d Hd. unfold deny_tx. enroll_go; try exact Hd; by apply settled_insert. Qed.

Lemma approve_settled rid ak ts now eid rid' name keep actor :
  keeps_settled rid (approve_tx ak ts now eid rid' name keep actor).
Proof.
  intros d Hd. unfold approve_tx. do 2 enroll_step.
  destruct (pendings d !! rid') as [r|] eqn:E; [|by enroll_go].
  destruct (negb _ || _) eqn:Eb; [enroll_go; try exact Hd; by apply settled_insert|]. bool_hyps.
  enroll_go; try exact Hd. apply settled_insert; [exact Hd|]. intros ->.
  apply Hd in E. unfold request_live, state_live in E. bool_hyps. done.
Qed.

(** Which calls touch the requests. *)
Definition is_request_call (c : AccessCall) : bool :=
  match c with
  | AcPropose _ _ _ _ | AcPoll _ _ _ _ | AcApprove _ _ _ _ _ | AcDeny _ _ _ | AcSweepOnOpen _ => true
  | _ => false
  end.

Lemma others_keep_requests K c : is_request_call c = false -> call_respects K (on pendings eq) c.
Proof. destruct c; intros Hc; try discriminate Hc; clear Hc; access_solve ltac:(fail). Qed.

Lemma access_settled K rid c :
  ~ proposes rid c -> call_respects K (on access (keeps (request_settled rid))) c.
Proof.
  intros Hm. destruct (is_request_call c) eqn:Ec.
  - assert (forall A (m : Tx A), keeps_settled rid m -> tx_rel (on access (keeps (request_settled rid))) m) as Hk.
    { intros A m Hd d a d' E HP. by apply (wp_run _ _ _ _ _ (Hd d HP) E). }
    destruct c; try discriminate Ec; cbn [call_respects proposes] in *; intros; apply Hk;
      auto using poll_settled, approve_settled, deny_settled, sweep_settled.
    apply propose_settled. congruence.
  - eapply call_respects_weaken; [|by apply others_keep_requests].
    unfold on, keeps, request_settled, pendings. intros d d' <-. auto.
Qed.

(** A poll answers with a token or with "pending" only while the request is live. *)
Lemma poll_of_settled d draw rid ph now p :
  request_settled rid (access d) ->
  wp (poll_tx draw rid ph now p)
    (fun r _ => match r with Ok PollDenied | Err _ => True | Ok _ => False end) d.
Proof.
  intros Hd. unfold poll_tx. do 2 enroll_step. destruct (pendings d !! rid) as [r|] eqn:E; [|by enroll_go].
  apply Hd in E. unfold request_live, state_live in E. bool_hyps.
  enroll_go; try exact I; bool_hyps; congruence.
Qed.

(** What a delivering poll found and left. *)
Lemma poll_delivers d draw rid ph now p :
  wp (poll_tx draw rid ph now p)
    (fun out d' =>
       match out with
       | Ok (PollApproved name token g) =>
           exists r eid c bs h,
             pendings d !! rid = Some r /\ constant_time_hash_eq ph (pe_request_secret_hash r) = true /\
             pe_state r = "approved" /\ now < pe_expires_at_ms r /\ pe_enrollment_id r = Some eid /\
             pe_final_name r = Some name /\
             consumers d !! eid = Some c /\ ec_name c = name /\ consumer_live c = true /\
             ec_token_hash c = None /\ ec_token_generation c = 0 /\
             draw = Some bs /\ token = hex bs /\ g = 1 /\ enrollment_secret_hash token = Some h /\
             pendings d' = <[rid := set_request_state "consumed" r]> (pendings d) /\
             consumers d' = <[eid := set_token h 1 c]> (consumers d)
       | _ => True
       end) d.
Proof.
  unfold poll_tx. do 2 enroll_step. destruct (pendings d !! rid) as [r|] eqn:E; [|by enroll_go].
  destruct (negb _) eqn:Em; [by enroll_go|]. destruct (state_live _ && _) eqn:Ex; [by enroll_go|].
  do 4 (destruct (bool_decide _) eqn:?; [by enroll_go|]).
  destruct (bool_decide (pe_state r = "approved")) eqn:Ea; [|by enroll_go]. unfold deliver_token.
  enroll_go; try exact I.
  - bool_hyps.
    match goal with H : mint_hex_32_sqlite draw = Ok ?t |- _ =>
      unfold mint_hex_32_sqlite, mint_hex_32 in H; destruct draw as [bs|]; [|discriminate H];
      injection H as <- end.
    match goal with H : ok_or _ _ = Ok ?h |- _ => apply ok_or_inv in H end.
    match goal with H : consumers d !! _ = Some ?x, H' : consumers d !! _ = Some ?y |- _ =>
      rewrite H in H'; injection H' as <- end.
    rewrite Ea in Ex. cbn in Ex. apply Z.leb_gt in Ex.
    match goal with H : pendings (with_consumers _ _) !! rid = Some ?x |- _ =>
      change (pendings d !! rid = Some x) in H; rewrite E in H; injection H as <- end.
    do 5 eexists. split_and!; try done; try by apply Z.eqb_eq.
    unfold consumer_live. match goal with H : ec_revoked_at_ms c = None |- _ => by rewrite H end.
  - exfalso. match goal with H : forall r, _ -> true = false |- _ => by apply H in E end.
Qed.

(** After a token was delivered the request is settled. *)
Lemma delivered_settles d draw rid ph now p :
  wp (poll_tx draw rid ph now p)
    (fun out d' => match out with Ok (PollApproved _ _ _) => request_settled rid (access d') | _ => True end) d.
Proof.
  eapply wp_mono; [apply poll_delivers|]. intros [[| |name token g]|] d'; try done.
  intros (r & eid & c & bs & h & H). destruct_and! H. unfold request_settled. intros x.
  match goal with H : pendings d' = _ |- _ => unfold pendings at 1 in H; rewrite H end.
  rewrite lookup_insert_eq. by intros [= <-].
Qed.
End Requests.

(** ** Grants *)

Section GrantHistory.
Context `{C : Crypto} `{X : RecordExt}.

(** Every stored grant is one the operator may create. *)
Definition grants_admissible (a : AccessTables) : Prop :=
  forall key, is_Some (read_grants a !! key) ->
    exists pk pid k sel o, key = grant_key pk pid k sel o /\ admissible pk pid k sel o.

Definition is_read_grant_call (c : AccessCall) : bool :=
  match c with AcCreateGrant _ _ _ _ _ _ _ | AcRevokeGrant _ _ _ _ _ _ _ | AcRevoke _ _ _ => true | _ => false end.

Lemma others_keep_grants K c :
  is_read_grant_call c = false -> call_respects K (on (fun d => read_grants (access d)) eq) c.
Proof. destruct c; intros Hc; try discriminate Hc; clear Hc; access_solve ltac:(fail). Qed.

Lemma admissible_subset a a' :
  read_grants a' ⊆ read_grants a -> grants_admissible a -> grants_admissible a'.
Proof. intros Hs Ha key [t Ht]. apply Ha. exists t. by eapply lookup_weaken. Qed.

Lemma wp_insert_grant key now (Q : nat -> Db -> Prop) d :
  (read_grants (access d) !! key = None -> Q 1%nat (with_read_grants (insert key now) d)) ->
  (is_Some (read_grants (access d) !! key) -> Q 0%nat d) -> wp (insert_grant key now) Q d.
Proof.
  unfold wp, insert_grant. intros H1 H0. destruct (is_some _) eqn:E.
  - by apply H0, is_some_true.
  - by apply H1, is_some_false.
Qed.

Lemma wp_delete_grant key (Q : nat -> Db -> Prop) d :
  (is_Some (read_grants (access d) !! key) -> Q 1%nat (with_read_grants (delete key) d)) ->
  (read_grants (access d) !! key = None -> Q 0%nat d) -> wp (delete_grant key) Q d.
Proof.
  unfold wp, delete_grant. intros H1 H0. destruct (is_some _) eqn:E.
  - by apply H1, is_some_true.
  - by apply H0, is_some_false.
Qed.

Ltac grant_go :=
  repeat first
    [ lazymatch goal with
      | |- wp (insert_grant _ _) _ _ => apply wp_insert_grant; intros ?
      | |- wp (delete_grant _) _ _ => apply wp_delete_grant; intros ?
      | |- wp (change_grant _ _ _ _ _) _ _ => unfold change_grant
      end
    | enroll_step ].

Lemma access_grants_admissible K c : call_respects K (on access (keeps grants_admissible)) c.
Proof.
  destruct (is_read_grant_call c) eqn:Eg.
  - assert (forall A (m : Tx A), (forall d, grants_admissible (access d) ->
      wp m (fun _ d' => grants_admissible (access d')) d) -> tx_rel (on access (keeps grants_admissible)) m) as Hk.
    { intros A m Hd d a d' E HP. by apply (wp_run _ _ _ _ _ (Hd d HP) E). }
    destruct c; try discriminate Eg; cbn [call_respects]; intros; apply Hk; intros d Hd.
    + grant_go; try exact Hd. intros key. cbn. intros [t Ht].
      destruct (decide (key = grant_key pk pid k sel o)) as [->|Hne]; [eauto 10|].
      rewrite lookup_insert_ne in Ht by done. eapply Hd; eauto.
    + grant_go; try exact Hd. eapply admissible_subset; [|exact Hd]. apply delete_subseteq.
    + unfold revoke_tx. grant_go; try exact Hd;
        (eapply admissible_subset; [|exact Hd]; apply map_filter_subseteq).
  - eapply call_respects_weaken; [|by apply others_keep_grants].
    unfold on, keeps, grants_admissible. intros d d' <-. auto.
Qed.

(** ** The generation *)

(** The generation never goes back, and as long as it stands still so do the grants and
    the categories of every record. *)
Definition reach_view (d : Db) :=
  (read_grants (access d), credential_categories d, remote_record_categories (access d)).
Definition generation_tracks (d d' : Db) : Prop :=
  grants_generation d <= grants_generation d' /\
  (grants_generation d = grants_generation d' -> reach_view d = reach_view d').

#[global] Instance generation_tracks_preorder : PreOrder generation_tracks.
Proof.
  split.
  - intros d. split; [lia|done].
  - intros x y z [H1 H2] [H3 H4]. split; [lia|]. intros E. rewrite H2, H4 by lia. done.
Qed.

Lemma same_reach_tracks d d' :
  on (fun d => (grants_generation d, reach_view d)) eq d d' -> generation_tracks d d'.
Proof. unfold on. intros [= E1 E2 E3 E4]. split; [lia|]. intros _. unfold reach_view. congruence. Qed.

Lemma bumped_tracks d d' : grants_generation d < grants_generation d' -> generation_tracks d d'.
Proof. intros. split; lia. Qed.

Definition is_reach_call (c : AccessCall) : bool :=
  match c with
  | AcCreateGrant _ _ _ _ _ _ _ | AcRevokeGrant _ _ _ _ _ _ _ | AcSetCategories _ _ _ _ _
  | AcReclassify _ _ _ | AcRevoke _ _ _ => true
  | _ => false
  end.

Lemma others_keep_reach K c :
  is_reach_call c = false -> call_respects K (on (fun d => (grants_generation d, reach_view d)) eq) c.
Proof. destruct c; intros Hc; try discriminate Hc; clear Hc; access_solve ltac:(fail). Qed.

(** The loop of a reclassification changes nothing until it counts a change. *)
Lemma reclassify_loop_counts ak now force granted ctx changed ids d :
  wp (reclassify_loop ak now force granted ctx changed ids)
    (fun n d' => (changed <= n)%nat /\ grants_generation d' = grants_generation d /\
                 (n = changed -> reach_view d' = reach_view d)) d.
Proof.
  revert changed d. induction ids as [|id ids IH]; intros changed d; cbn [reclassify_loop]; [by wp_go|].
  repeat lazymatch goal with
    | |- wp (reclassify_loop _ _ _ _ _ _ _) _ _ => fail
    | |- _ => wp_step
    end; try apply IH.
  eapply wp_mono; [apply IH|]. cbn. intros n d' (Hn & Hg & _). split_and!; [lia|done|lia].
Qed.

(** No grants listed for a principal means none stored. *)
Lemma no_grants_listed pk pid v d :
  SELECTOR_SCHEMA_VERSION <= v -> read_grants_from_conn (Some (pk, pid)) v d = (Ok [], d) ->
  filter (fun kv => of_principal (Some (pk, pid)) kv = false) (read_grants (access d)) = read_grants (access d).
Proof.
  intros Hv Hr. apply map_filter_id. intros key t Hk.
  unfold read_grants_from_conn in Hr. rewrite (proj2 (Z.ltb_ge v SELECTOR_SCHEMA_VERSION) Hv) in Hr.
  injection Hr as Hr%collect_results_ok. apply Forall2_nil_inv_r in Hr.
  destruct (of_principal (Some (pk, pid)) (key, t)) eqn:E; [|done]. exfalso.
  assert ((key, t) ∈ merge_sort grant_le (List.filter (of_principal (Some (pk, pid)))
            (map_to_list (read_grants (access d))))) as Hin
    by (by rewrite merge_sort_Permutation, list_filter_in, elem_of_map_to_list).
  rewrite Hr in Hin. by apply not_elem_of_nil in Hin.
Qed.

Lemma access_generation_tracks K c : call_respects K generation_tracks c.
Proof.
  destruct (is_reach_call c) eqn:Eg.
  - destruct c; try discriminate Eg; cbn [call_respects]; intros; apply wp_tx_rel; intros d.
    + grant_go; try reflexivity; apply bumped_tracks; cbn; lia.
    + grant_go; try reflexivity; apply bumped_tracks; cbn; lia.
    + unfold set_categories_tx. wp_go; try reflexivity; apply bumped_tracks; destruct m; cbn; lia.
    + unfold reclassify_tx. do 3 (apply wp_bind; try apply wp_query; cbv beta).
      eapply wp_mono; [apply reclassify_loop_counts|]. intros n d' (_ & Hg & Hn).
      wp_go; [apply bumped_tracks; cbn; lia|]. split; [lia|]. intros _.
      apply Nat.ltb_ge in Heqb. symmetry. apply Hn. lia.
    + unfold revoke_tx. grant_go; try reflexivity; bool_hyps; subst;
        try (apply bumped_tracks; cbn; lia);
        (apply same_reach_tracks; unfold on, reach_view; cbn; do 3 f_equal;
         symmetry; by apply (no_grants_listed _ _ newest_migration_version)).
  - eapply call_respects_weaken; [apply same_reach_tracks|by apply others_keep_reach].
Qed.
End GrantHistory.

Section StoreGeneration.
Context `{C : Crypto} `{X : RecordExt} {Conn : Type} `{L : SqliteStoreLaws Conn}.
Context (K : Keys).

Abbreviation reach_same := (on (fun d => (grants_generation d, reach_view d)) eq).

#[local] Hint Extern 4 (tx_rel generation_tracks _) =>
  (eapply tx_rel_weaken; [apply same_reach_tracks|]; tx_frame) : rel.

Lemma default_categories_track id cats : tx_rel generation_tracks (insert_default_categories id cats).
Proof.
  apply wp_tx_rel. intros d. revert d. induction cats as [|c cats IH]; intros d; cbn [insert_default_categories].
  { by wp_go. }
  apply wp_bind, wp_intro. intros u d1 E. unfold insert_category in E.
  destruct (bool_decide _); simplify_eq. wp_step. wp_step.
  eapply wp_mono; [apply IH|]. intros u d2 [Hle _]. apply bumped_tracks. cbn in Hle. lia.
Qed.

Lemma wp_bump_times n (Q : unit -> Db -> Prop) d :
  Q tt (with_grants_generation (Z.add (Z.of_nat n)) d) -> wp (bump_generation_times n) Q d.
Proof.
  revert d. induction n as [|n IH]; intros d HQ; cbn [bump_generation_times]; wp_go; [by destruct d|].
  apply IH.
  replace (with_grants_generation (Z.add (Z.of_nat n)) (with_grants_generation (Z.add 1) d))
    with (with_grants_generation (Z.add (Z.of_nat (S n))) d); [done|].
  destruct d. unfold with_grants_generation. cbn [Database.grants_generation]. f_equal. lia.
Qed.

Lemma filter_none_id (P : string * string -> Prop) `{!forall p, Decision (P p)} (t : gset (string * string)) :
  size (filter P t) = 0%nat -> filter (fun p => ~ P p) t = t.
Proof.
  intros Hs. apply set_eq. intros p. rewrite elem_of_filter. split; [tauto|]. intros Hp. split; [|done].
  intros HP. apply size_empty_inv in Hs. apply (not_elem_of_empty (C := gset (string * string)) p), Hs.
  by apply elem_of_filter.
Qed.

(** Run a statement that leaves the reach alone, remembering only that. *)
Ltac same_step :=
  lazymatch goal with
  | |- wp (mbind _ _) _ _ => apply wp_bind
  | |- wp (query _) _ _ => apply wp_query
  | |- wp (mret _) _ _ => apply wp_ret
  | |- wp (if ?b then _ else _) _ _ => destruct b
  | |- wp _ _ _ => apply (wp_rel reach_same); [tx_frame|intros ? ? ?]
  end; cbv beta.

Lemma remove_tracks inp id ctx : op_rel (Conn := Conn) K generation_tracks (remove_audited inp id ctx).
Proof.
  unfold remove_audited. rel_step. apply op_rel_bind; [apply _|apply op_rel_check; apply _|]. intros _.
  apply op_rel_bind; [apply _| |intros [? ?]; rel_solve].
  apply op_rel_fenced; [apply _|]. apply wp_tx_rel. intros d.
  do 4 same_step. destruct (0 <? _)%nat; [|apply wp_ret; by apply same_reach_tracks].
  do 6 same_step. apply wp_bind, wp_exec. cbv beta.
  apply wp_bind, wp_bump_times. cbv beta.
  match goal with |- wp _ _ ?d1 => assert (generation_tracks d d1) as Ht end.
  { match goal with H1 : reach_same d ?a, H2 : reach_same ?a ?b, H3 : reach_same ?b ?e |- _ =>
      assert (reach_same d e) as Hs by (unfold on in *; congruence) end.
    unfold on, reach_view in Hs. injection Hs as Hg Hr Hc Hm.
    destruct (size _) as [|n] eqn:En.
    - apply same_reach_tracks. unfold on, reach_view. cbn. rewrite <- Hg, <- Hr, <- Hc, <- Hm.
      do 3 f_equal. f_equal. symmetry. by apply (filter_none_id (fun p => p.1 = id)).
    - apply bumped_tracks. cbn. lia. }
  repeat same_step;
    (etrans; [exact Ht|]; apply same_reach_tracks; unfold on in *; congruence).
Qed.

Lemma call_generation_tracks c : op_rel K generation_tracks (call_op (Conn := Conn) c).
Proof.
  destruct c; try (cbn [call_op]; apply op_rel_ignore; [apply _|apply remove_tracks]; fail);
    call_solve ltac:(apply default_categories_track).
Qed.
End StoreGeneration.

(** ** Consumers and the audit log *)

Section Accounted.
Context `{C : Crypto} `{X : RecordExt}.

Definition logged (o : AuditOp) (eid : string) (log : list AuditEntry) : Prop :=
  exists e, e ∈ log /\ op e = op_as_str o /\ credential_id e = Some eid.

(** The rotations and reissues logged for a consumer. *)
Definition reissues (eid : string) (log : list AuditEntry) : Z :=
  Z.of_nat (length (filter (fun e =>
    (op e = op_as_str EnrollRotate \/ op e = op_as_str EnrollReissue) /\ credential_id e = Some eid) log)).

(** The log accounts for a consumer: its approval, its revocation, and every token past
    the first. *)
Record consumer_accounted (log : list AuditEntry) (eid : string) (c : ConsumerRow) : Prop := {
  ca_approved : logged EnrollApprove eid log;
  ca_revoked : consumer_live c = false -> logged EnrollRevoke eid log;
  ca_tokens : ec_token_generation c <= 1 + reissues eid log;
}.

Definition consumers_accounted (d : Db) : Prop :=
  forall eid c, consumers d !! eid = Some c -> consumer_accounted (audit_log d) eid c.

Lemma logged_mono o eid l l' : l `prefix_of` l' -> logged o eid l -> logged o eid l'.
Proof. intros [k ->] (e & He & ?). exists e. split; [set_solver|done]. Qed.

Lemma reissues_app eid l l' : reissues eid (l ++ l') = reissues eid l + reissues eid l'.
Proof. unfold reissues. rewrite filter_app, length_app. lia. Qed.

Lemma reissues_nonneg eid l : 0 <= reissues eid l.
Proof. unfold reissues. lia. Qed.

Lemma accounted_mono l l' eid c :
  l `prefix_of` l' -> consumer_accounted l eid c -> consumer_accounted l' eid c.
Proof.
  intros Hp [Ha Hr Ht]. split; [by eapply logged_mono|intros; eapply logged_mono; eauto|].
  destruct Hp as [k ->]. rewrite reissues_app. pose proof (reissues_nonneg eid k). lia.
Qed.

(** Neither the consumers nor what the log already says change. *)
Definition log_extends (d d' : Db) : Prop :=
  consumers d' = consumers d /\ audit_log d `prefix_of` audit_log d'.

Lemma extends_accounted d d' : log_extends d d' -> keeps consumers_accounted d d'.
Proof. intros [Hc Hp] Hd eid c. rewrite Hc. intros E. by eapply accounted_mono, Hd. Qed.

Lemma accounted_insert d d' eid c :
  consumers_accounted d -> consumers d' = <[eid := c]> (consumers d) ->
  audit_log d `prefix_of` audit_log d' -> consumer_accounted (audit_log d') eid c -> consumers_accounted d'.
Proof.
  intros Hd Hc Hp He j x. rewrite Hc. destruct (decide (j = eid)) as [->|Hne].
  - rewrite lookup_insert_eq. by intros [= <-].
  - rewrite lookup_insert_ne by done. intros Hx. eapply accounted_mono; [exact Hp|by apply Hd].
Qed.

Lemma logged_here ak ts r log eid :
  rec_credential_id r = Some eid -> logged (rec_op r) eid (append_audit ak ts r log).
Proof.
  intros Hr. eexists. split; [apply elem_of_app; right; by apply list_elem_of_singleton|]. done.
Qed.

Lemma prefix_append ak ts r log : log `prefix_of` append_audit ak ts r log.
Proof. by eexists. Qed.

Lemma reissues_here ak ts r log eid :
  rec_credential_id r = Some eid -> rec_op r = EnrollRotate \/ rec_op r = EnrollReissue ->
  reissues eid (append_audit ak ts r log) = reissues eid log + 1.
Proof.
  intros Hr Ho. unfold append_audit. rewrite reissues_app. f_equal. unfold reissues.
  rewrite filter_cons_True; [done|]. cbn. rewrite Hr. split; [|done]. destruct Ho as [-> | ->]; auto.
Qed.

Definition keeps_accounted {A} (m : Tx A) : Prop :=
  forall d, consumers_accounted d -> wp m (fun _ d' => consumers_accounted d') d.

Lemma poll_accounted draw rid ph now p : keeps_accounted (poll_tx draw rid ph now p).
Proof.
  intros d Hd. eapply (wp_mono _ (fun out d' => log_extends d d' \/
    exists eid c h, consumers d !! eid = Some c /\ ec_token_generation c = 0 /\ audit_log d' = audit_log d /\
      consumers d' = <[eid := set_token h 1 c]> (consumers d))).
  - unfold poll_tx, deliver_token. enroll_go; try (by left);
      (right; bool_hyps; do 3 eexists; split_and!; [eassumption|by apply Z.eqb_eq|done|done]).
  - intros out d' [He|(eid & c & h & Hc & Hg & Hl & Hc')]; [by eapply extends_accounted|].
    eapply accounted_insert; [done|exact Hc'|by rewrite Hl|]. rewrite Hl.
    destruct (Hd _ _ Hc) as [Ha Hr Ht]. split; [done|exact Hr|]. cbn. pose proof (reissues_nonneg eid (audit_log d)). lia.
Qed.

Lemma retoken_accounted d eid c h ak ts r :
  consumers_accounted d -> consumers d !! eid = Some c -> rec_credential_id r = Some eid ->
  rec_op r = EnrollRotate \/ rec_op r = EnrollReissue ->
  consumers_accounted (with_audit_log (append_audit ak ts r)
    (with_consumers (insert eid (set_token h (ec_token_generation c + 1) c)) d)).
Proof.
  intros Hd Hc Hr Ho. eapply accounted_insert; [exact Hd|done|apply prefix_append|].
  destruct (Hd _ _ Hc) as [Ha Hrv Ht]. pose proof (prefix_append ak ts r (audit_log d)) as Hp.
  split; cbn [audit_log with_audit_log with_consumers with_access].
  - by eapply logged_mono.
  - intros Hl. eapply logged_mono; [exact Hp|by apply Hrv].
  - rewrite reissues_here by done. cbn. lia.
Qed.

Lemma rotate_accounted ak ts draw ph g : keeps_accounted (rotate_tx ak ts draw ph g).
Proof.
  intros d Hd. unfold rotate_tx. enroll_go; try exact Hd. subst.
  match goal with H : match_token _ _ = Some _ |- _ => apply match_token_in in H as (Hc & _) end.
  match goal with H : consumers d !! _ = Some ?x |- context [set_token _ _ ?x] => rewrite Hc in H; injection H as <- end.
  match goal with H : (if ?b then _ else _) = Ok _ |- _ => destruct b; [injection H as <-|discriminate H] end.
  apply retoken_accounted; auto.
Qed.

Lemma reissue_accounted ak ts draw name actor : keeps_accounted (reissue_tx ak ts draw name actor).
Proof.
  intros d Hd. unfold reissue_tx. enroll_go; try exact Hd; subst;
    match goal with H : select_row _ _ = Some _ |- _ => apply select_row_some in H as [Hc _] end;
    match goal with H : (if ?b then _ else _) = Ok _ |- _ => destruct b; [injection H as <-|discriminate H] end.
  - match goal with H : consumers d !! _ = Some ?x |- context [set_token _ _ ?x] => rewrite Hc in H; injection H as <- end.
    apply retoken_accounted; auto.
  - eapply extends_accounted; [|exact Hd]. split; [done|apply prefix_append].
Qed.

Lemma approve_accounted ak ts now eid rid name keep actor :
  keeps_accounted (approve_tx ak ts now eid rid name keep actor).
Proof.
  intros d Hd. unfold approve_tx. enroll_go; try exact Hd;
    (eapply accounted_insert; [exact Hd|done|apply prefix_append|];
     split; [by apply logged_here|done|]; cbn [ec_token_generation];
     match goal with |- 0 <= 1 + reissues ?e ?l => pose proof (reissues_nonneg e l); lia end).
Qed.

(** A revocation: the log grows by the grants it removed, then by its own entry. *)
Lemma revoked_accounted d d0 eid c ak ts r f now :
  consumers_accounted d -> (forall l, l `prefix_of` f l) -> audit_log d0 = f (audit_log d) ->
  consumers d0 = consumers d -> consumers d !! eid = Some c ->
  rec_op r = EnrollRevoke -> rec_credential_id r = Some eid ->
  consumers_accounted (with_audit_log (append_audit ak ts r) (with_consumers (insert eid (set_revoked now c)) d0)).
Proof.
  intros Hd Hf Hl Hc0 Hc Ho Hr.
  assert (audit_log d `prefix_of` append_audit ak ts r (audit_log d0)) as Hp.
  { rewrite Hl. etrans; [apply Hf|apply prefix_append]. }
  eapply (accounted_insert d); [exact Hd|by cbn; rewrite <- Hc0|exact Hp|].
  pose proof (accounted_mono _ _ _ _ Hp (Hd _ _ Hc)) as [Ha _ Ht].
  split; [done| |exact Ht]. intros _. rewrite <- Ho. by apply logged_here.
Qed.

Lemma revoke_accounted ak clock now name actor : keeps_accounted (revoke_tx ak clock now name actor).
Proof.
  intros d Hd. unfold revoke_tx. enroll_go; try exact Hd; subst;
    match goal with Hf : forall l, l `prefix_of` ?f l |- _ =>
      first [ eapply (revoked_accounted d); [exact Hd|exact Hf|done|done|eassumption|done|done]
            | eapply extends_accounted; [|exact Hd]; split; [done|];
              etrans; [apply (Hf (audit_log d))|apply prefix_append] ] end.
Qed.

Lemma access_accounted K c : call_respects K (keeps consumers_accounted) c.
Proof.
  destruct (is_consumer_call c) eqn:Ec.
  - assert (forall A (m : Tx A), keeps_accounted m -> tx_rel (keeps consumers_accounted) m) as Hk.
    { intros A m Hd d a d' E HP. by apply (wp_run _ _ _ _ _ (Hd d HP) E). }
    destruct c; try discriminate Ec; cbn [call_respects]; intros; apply Hk;
      auto using poll_accounted, rotate_accounted, reissue_accounted, approve_accounted, revoke_accounted.
  - intros. pose proof (others_keep_consumers K c Ec) as H1. pose proof (access_log_grows K c) as H2.
    assert (forall A (m : Tx A), tx_rel (on consumers eq) m -> tx_rel (on audit_log (log_grows K)) m ->
              tx_rel (keeps consumers_accounted) m) as Hk.
    { intros A m Hm1 Hm2 d a d' E. apply extends_accounted. split; [symmetry; by eapply Hm1|].
      by destruct (Hm2 _ _ _ E). }
    destruct c; try discriminate Ec; cbn [call_respects] in *; intros; apply Hk; auto.
Qed.

Context {Conn : Type} `{L : SqliteStoreLaws Conn}.

Lemma call_consumers_accounted K c : op_rel K (keeps consumers_accounted) (call_op (Conn := Conn) c).
Proof.
  intros s r s' HK E. destruct (call_keeps_access K c s r s' HK E) as (Hk & Ha & Hf).
  destruct (call_log_grows K c s r s' HK E) as (_ & [Hp _] & _).
  split_and!; [done| |done]. apply extends_accounted. split; [|done].
  unfold consumers. by rewrite Ha.
Qed.

Lemma secret_consumers_accounted `{SE : SecretEnv} K c :
  refusals_respect K (keeps consumers_accounted) /\ secret_respects K (keeps consumers_accounted) c.
Proof.
  eapply secret_respects_weaken;
    [|apply secret_respects_both; [apply (secret_keeps_vault K)|apply (secret_log_grows K)]].
  intros d d' [Ev [Hp _]]. apply extends_accounted. split; [|done]. unfold consumers.
  unfold on, vault_view in Ev. congruence.
Qed.
End Accounted.

(** ** Histories of the whole vault *)

Section Histories.
Context `{C : Crypto} `{!CryptoLaws C} `{X : RecordExt} `{SE : SecretEnv} {Conn : Type} `{L : SqliteStoreLaws Conn}.

(** What resolving and polling read. *)
Lemma resolve_holder token (s : EncryptedStore Conn) h who :
  enrollment_secret_hash token = Some h -> fst (resolve_enrollment_token token s) = Ok (Some who) ->
  token_holder h (consumers (es_db s)) = Some who.
Proof.
  unfold resolve_enrollment_token. intros ->.
  destruct (unfenced _ s) as [out s1] eqn:E. cbn. intros ->. apply unfenced_ok_inv in E. by injection E.
Qed.

Lemma poll_ok_inv inp p rid secret (s s' : EncryptedStore Conn) answer :
  poll_enrollment_by inp p rid secret s = (Ok answer, s') ->
  exists h, enrollment_secret_hash secret = Some h /\
    fenced (poll_tx (in_rnd inp 0) rid h (in_now inp 0) p) s = (Ok (Ok answer), s').
Proof.
  unfold poll_enrollment_by. intros H1. ok_inv H1. apply refusable_ok_inv in H1. apply ok_or_inv in E. eauto.
Qed.

(** C30: any sequence of store, grant and enrollment calls, in any order and whatever each
    answers, keeps the ceremony's tables sound: at most sixteen requests are live and at
    most 256 rows are kept, live requests and live consumers have distinct names, a
    consumer's generation is zero exactly while no token was delivered, and an approved
    request points at the consumer its approval created. *)
Theorem history_keeps_enrollment_sound cs (s : EncryptedStore Conn) :
  enroll_ok (access (es_db s)) -> enroll_ok (access (es_db (run_vault cs s))).
Proof. apply (vault_keeps (keys_of s)); [|done]. intros. apply access_enroll_ok. Qed.

(** C25: a token that resolves and is then rotated, reissued, or whose consumer is revoked,
    resolves to nobody after any further history that does not mint its digest again. *)
Theorem retired_token_never_resolves token name h g cs (s s' : EncryptedStore Conn) :
  enrollment_secret_hash token = Some h -> enroll_ok (access (es_db s)) -> tokens_distinct (access (es_db s)) ->
  fst (resolve_enrollment_token token s) = Ok (Some (name, g)) -> retires token name h s s' ->
  (forall c, OnAccess c ∈ cs -> ~ mints_token h c) ->
  forall who, fst (resolve_enrollment_token token (run_vault cs s')) <> Ok (Some who).
Proof.
  intros Ht Hok Hu Hres Hret Hcs who. apply (resolve_holder _ _ h) in Hres; [|done].
  assert (token_dead h (access (es_db (run_vault cs s')))) as Hd.
  { apply (vault_keeps (keys_of s')); [|done|].
    - intros c Hc. by apply access_token_dead, Hcs.
    - eapply retires_kills; [done|apply Hok|done|exact Hres|done]. }
  intros Hr%(resolve_holder _ _ h); [|done]. unfold consumers in Hr. by rewrite dead_no_holder in Hr.
Qed.

(** C26: a poll that delivered a token is the last to deliver one for its request: after
    any history that does not open a request under the same id, no poll of it, with
    whatever secret and at whatever time, answers with a token or with "pending". *)
Theorem token_delivered_at_most_once inp p rid secret name token g cs (s s' : EncryptedStore Conn) :
  poll_enrollment_by inp p rid secret s = (Ok (PollApproved name token g), s') ->
  (forall c, OnAccess c ∈ cs -> ~ proposes rid c) ->
  forall inp' p' secret' answer,
    fst (poll_enrollment_by inp' p' rid secret' (run_vault cs s')) = Ok answer -> answer = PollDenied.
Proof.
  intros H1 Hcs inp' p' secret' answer H2.
  assert (request_settled rid (access (es_db (run_vault cs s')))) as Hset.
  { apply (vault_keeps (keys_of s')); [|done|].
    - intros c Hc. by apply access_settled, Hcs.
    - apply poll_ok_inv in H1 as (h & _ & H1). exact (fenced_wp _ _ _ _ _ (delivered_settles _ _ _ _ _ _) H1). }
  destruct (poll_enrollment_by inp' p' rid secret' _) as [out s2] eqn:E. cbn in H2. subst out.
  apply poll_ok_inv in E as (h & _ & E).
  pose proof (fenced_wp _ _ _ _ _ (poll_of_settled _ (in_rnd inp' 0) _ h (in_now inp' 0) p' Hset) E) as Hp.
  by destruct answer.
Qed.

(** Every grant the vault holds stays one an operator may create (its operation fits
    its selector, it names no deposit key and no foreign transfer key, its principal is a
    reserved id or a valid enrolled name, a deposit grant is the browser-session category
    of a reserved principal), whatever history runs. *)
Theorem grants_stay_admissible cs (s : EncryptedStore Conn) :
  grants_admissible (access (es_db s)) -> grants_admissible (access (es_db (run_vault cs s))).
Proof. apply (vault_keeps (keys_of s)); [|done]. intros. apply access_grants_admissible. Qed.

(** C31: the grants generation is a faithful version of who may reach what: over any history
    it never decreases, and if it is unchanged then so are every grant and the categories
    of every local and remote record. *)
Theorem unchanged_generation_unchanged_reach cs (s : EncryptedStore Conn) :
  generation_tracks (es_db s) (es_db (run_vault cs s)).
Proof.
  apply (vault_rel (keys_of s) generation_tracks cs s); [|done].
  apply list.Forall_forall. intros [c|c|c] _; [apply call_generation_tracks|apply access_generation_tracks|].
  eapply secret_respects_weaken; [|apply (secret_keeps_vault (keys_of s))].
  unfold on, vault_view. intros d d' Ev. apply same_reach_tracks. unfold on, reach_view. congruence.
Qed.

(** The audit log accounts for every consumer after any history: a consumer row has
    its approval logged under its id, a revoked one its revocation, and a token generation
    past the first needs that many logged rotations and reissues. *)
Theorem consumers_stay_accounted cs (s : EncryptedStore Conn) :
  consumers_accounted (es_db s) -> consumers_accounted (es_db (run_vault cs s)).
Proof.
  apply (vault_rel (keys_of s) (keeps consumers_accounted) cs s); [|done].
  apply list.Forall_forall. intros [c|c|c] _;
    [apply call_consumers_accounted|apply access_accounted|apply secret_consumers_accounted].
Qed.

(** C19: every history of the vault, whatever each call returned, only appends to the
    audit log, keeps it a chain (links, MACs and the sequence from 1), and leaves a
    store whose own [verify_audit_chain] reports no broken entry. *)
Theorem history_keeps_audit_chain cs (s : EncryptedStore Conn) :
  chain_ok (es_audit_key s) (audit_log (es_db s)) ->
  let s' := run_vault cs s in
  audit_log (es_db s) `prefix_of` audit_log (es_db s') /\
  chain_ok (es_audit_key s) (audit_log (es_db s')) /\
  (conn_healthy (es_conn s') = true -> fst (verify_audit_chain s') = Ok None).
Proof.
  intros Hc s'.
  destruct (vault_rel (keys_of s) (on audit_log (log_grows (keys_of s))) cs s) as (HK & [Hp Hk]); [|done|].
  { apply list.Forall_forall. intros [c|c|c] _; [apply call_log_grows|apply access_log_grows|apply secret_log_grows]. }
  split; [done|]. split; [by apply Hk|]. intros Hh. apply chain_verifies; [|done].
  apply (f_equal k_audit_key) in HK. cbn in HK. fold s' in HK. rewrite HK. by apply Hk.
Qed.

(** The diagnostic table never holds more than 64 rows of one subject after any
    history of the vault. *)
Theorem history_bounds_auth_events cs (s : EncryptedStore Conn) :
  events_bounded (auth_events (es_db s)) -> events_bounded (auth_events (es_db (run_vault cs s))).
Proof.
  apply (vault_rel (keys_of s) (on auth_events (keeps events_bounded)) cs s); [|done].
  apply list.Forall_forall. intros [c|c|c] _;
    [apply call_events_bounded|apply access_events_bounded|apply secret_events_bounded].
Qed.
End Histories.

(** ** The ceremony, step by step *)

Section Ceremonies.
Context `{C : Crypto} `{!CryptoLaws C} `{X : RecordExt} {Conn : Type} `{L : SqliteStoreLaws Conn}.

(** A poll hands out a token only for an approved, unexpired request, to the holder of
    the secret it was opened with, and only while the consumer it created is live and has
    none; it is the hex of the 32 bytes drawn for it, of generation 1. The digest stored
    is the delivered token's, and no other request or consumer row changes. *)
Theorem token_goes_to_the_proposer inp p rid secret name token g (s s' : EncryptedStore Conn) :
  poll_enrollment_by inp p rid secret s = (Ok (PollApproved name token g), s') ->
  exists r eid c bs h,
    pendings (es_db s) !! rid = Some r /\ enrollment_secret_hash secret = Some (pe_request_secret_hash r) /\
    pe_state r = "approved" /\ in_now inp 0 < pe_expires_at_ms r /\ pe_enrollment_id r = Some eid /\
    consumers (es_db s) !! eid = Some c /\ ec_name c = name /\ consumer_live c = true /\
    ec_token_hash c = None /\
    in_rnd inp 0 = Some bs /\ token = hex bs /\ g = 1 /\ enrollment_secret_hash token = Some h /\
    ceremony_view (es_db s') =
      (<[rid := set_request_state "consumed" r]> (pendings (es_db s)),
       <[eid := set_token h 1 c]> (consumers (es_db s))).
Proof.
  intros (ph & Hph & H1)%poll_ok_inv.
  pose proof (fenced_wp _ _ _ _ _ (poll_delivers _ _ _ _ _ _) H1) as (r & eid & c & bs & h & Hp). cbn in Hp.
  destruct Hp as (Hr & Hm & Hst & Hex & Heid & _ & Hc & Hn & Hl & Hth & _ & Hb & Ht & Hg & Hh & Hp' & Hc').
  apply constant_time_hash_eq_iff in Hm; [|by eapply hash_length].
  exists r, eid, c, bs, h. unfold ceremony_view. rewrite Hp', Hc'. subst ph. split_and!; done.
Qed.

(** A poll that names no request, or presents another secret. *)
Definition wrong_poll (d : Db) (rid secret : string) : Prop :=
  is_lower_hex_32 secret = true /\
  forall r, pendings d !! rid = Some r -> enrollment_secret_hash secret <> Some (pe_request_secret_hash r).

Lemma decode_nibbles_total n s :
  (String.length s <= n)%nat -> Nat.even (String.length s) = true -> str_forallb is_lower_hex_char s = true ->
  exists bs, decode_nibbles s = Some bs.
Proof.
  revert s. induction n as [|n IH]; intros [|a [|b s]] Hn He Hs; try discriminate He;
    [by exists []|cbn in Hn; lia|by exists []|].
  cbn in Hs. bool_hyps. destruct (IH s) as [bs Hb]; [cbn in Hn; lia|done|done|].
  assert (forall c, is_lower_hex_char c = true -> exists z, hex_nibble c = Some z) as Hd.
  { intros [[] [] [] [] [] [] [] []]; vm_compute; intros; try discriminate; eauto. }
  destruct (Hd a) as [x Hx]; [done|]. destruct (Hd b) as [y Hy]; [done|].
  cbn [decode_nibbles]. rewrite Hx, Hy, Hb. cbn. eauto.
Qed.

Lemma lower_hex_hashes secret : is_lower_hex_32 secret = true -> exists h, enrollment_secret_hash secret = Some h.
Proof.
  intros Hh. unfold enrollment_secret_hash, decode_lower_hex_32. rewrite Hh. cbn [negb].
  unfold is_lower_hex_32 in Hh. bool_hyps.
  match goal with H : (_ =? 64)%nat = true |- _ => apply Nat.eqb_eq in H; rename H into Hl end.
  destruct (decode_nibbles_total 64 secret) as [bs ->]; [lia|by rewrite Hl|done|]. cbn. eauto.
Qed.

(** The diagnostic rows after one more enrollment event. *)
Definition enrollment_events (subject detail : string) (now : Z) (p : option AuthEventPrincipal)
  : list AuthEventRow -> list AuthEventRow :=
  events_after now subject
    {| obs_kind := event_kind_as_str EvEnrollment; obs_provider_status := None; obs_detail := Some detail;
       obs_reporter_source := None; obs_principal := p |} None false.

Lemma refuse_runs {A} subject detail now p r d :
  refuse_with (A := A) subject detail now p r d =
  (Ok (Err r), with_auth_events (enrollment_events subject detail now p) d).
Proof. reflexivity. Qed.

Lemma wrong_poll_tx draw rid h now p d :
  (forall r, pendings d !! rid = Some r -> h <> pe_request_secret_hash r) -> String.length h = 64%nat ->
  runs (poll_tx draw rid h now p)
    (fun a d' => a = Err EnrollNotFound /\
       exists f, d' = with_auth_events f d /\
         forall draw' rid' h',
           (forall r, pendings d !! rid' = Some r -> h' <> pe_request_secret_hash r) -> String.length h' = 64%nat ->
           poll_tx draw' rid' h' now p d = (Ok (Err EnrollNotFound), with_auth_events f d)) d.
Proof.
  assert (forall draw rid h, (forall r, pendings d !! rid = Some r -> h <> pe_request_secret_hash r) ->
    String.length h = 64%nat ->
    poll_tx draw rid h now p d = refuse_with ENROLL_POLL_SUBJECT "not_found" now p EnrollNotFound d) as Hw.
  { clear. intros draw rid h Hr Hl. unfold poll_tx, mbind, query.
    destruct (pendings d !! rid) as [r|] eqn:E; [|done].
    destruct (constant_time_hash_eq h (pe_request_secret_hash r)) eqn:Ec; [|done].
    apply constant_time_hash_eq_iff in Ec; [|done]. exfalso. by eapply Hr. }
  intros Hr Hl. unfold runs. rewrite Hw, refuse_runs by done. split; [done|]. eexists. split; [reflexivity|].
  intros draw' rid' h' Hr' Hl'. by rewrite Hw, refuse_runs.
Qed.

(** Polling does not reveal which requests exist: a poll of an unknown request and a
    poll of a known one with the wrong secret get the same refusal and leave the same
    database, diagnostic events included. *)
Theorem poll_does_not_enumerate inp p rid rid' secret secret' (s : EncryptedStore Conn) :
  conn_lease (es_conn s) = true -> conn_healthy (es_conn s) = true ->
  wrong_poll (es_db s) rid secret -> wrong_poll (es_db s) rid' secret' ->
  let a := poll_enrollment_by inp p rid secret s in
  let b := poll_enrollment_by inp p rid' secret' s in
  fst a = Err (Refused EnrollNotFound) /\ fst b = fst a /\ es_db (snd b) = es_db (snd a).
Proof.
  intros Hl Hh [Hs Hr] [Hs' Hr'].
  destruct (lower_hex_hashes _ Hs) as [h Eh], (lower_hex_hashes _ Hs') as [h' Eh'].
  assert (forall r, pendings (es_db s) !! rid = Some r -> h <> pe_request_secret_hash r) as Hn
    by (intros r Hx ->; by eapply Hr).
  assert (forall r, pendings (es_db s) !! rid' = Some r -> h' <> pe_request_secret_hash r) as Hn'
    by (intros r Hx ->; by eapply Hr').
  pose proof (wrong_poll_tx (in_rnd inp 0) rid h (in_now inp 0) p _ Hn (hash_length _ _ Eh)) as Hw.
  destruct (fenced_total _ _ s Hl Hh Hw) as (a & s1 & E1 & (-> & f & Hd & Hall) & _).
  specialize (Hall (in_rnd inp 0) rid' h' Hn' (hash_length _ _ Eh')).
  assert (runs (poll_tx (in_rnd inp 0) rid' h' (in_now inp 0) p)
    (fun a d' => a = Err EnrollNotFound /\ d' = with_auth_events f (es_db s)) (es_db s)) as Hw'
    by (unfold runs; by rewrite Hall).
  destruct (fenced_total _ _ s Hl Hh Hw') as (b & s2 & E2 & (-> & Hd') & _).
  unfold poll_enrollment_by, mbind, mlift, refusable. rewrite Hs, Hs', Eh, Eh'. cbn. rewrite E1, E2. cbn.
  by rewrite Hd, Hd'.
Qed.
End Ceremonies.

(** ** The ceremony completes *)

Lemma select_row_is_none {A} (p : A -> bool) (m : gmap string A) :
  (forall k a, m !! k = Some a -> p a = false) -> select_row p m = None.
Proof.
  intros H. destruct (select_row p m) as [[k a]|] eqn:E; [|done].
  apply select_row_some in E as [Hk Hp]. by rewrite (H _ _ Hk) in Hp.
Qed.

Lemma select_row_only {A} (p : A -> bool) (m : gmap string A) k a :
  m !! k = Some a -> p a = true -> (forall j b, m !! j = Some b -> p b = true -> j = k) ->
  select_row p m = Some (k, a).
Proof.
  intros Hk Hp Hu. destruct (select_row p m) as [[j b]|] eqn:E.
  - apply select_row_some in E as [Hj Hb]. assert (j = k) as -> by eauto. by simplify_eq.
  - by rewrite (select_row_none _ _ _ _ E Hk) in Hp.
Qed.

Section Completes.
Context `{C : Crypto} `{!CryptoLaws C} `{X : RecordExt} {Conn : Type} `{L : SqliteStoreLaws Conn}.

Lemma runs_sweep now reserve (Q : unit -> Db -> Prop) d :
  (forall f, Q tt (with_auth_events f (with_pending (swept now reserve) d))) ->
  runs (sweep_pending_enrollments_tx now reserve) Q d.
Proof.
  intros HQ. unfold sweep_pending_enrollments_tx, append_enrollment_event_tx. do 4 runs_step.
  destruct (0 <? _)%nat; repeat runs_step; destruct d; [apply HQ|apply (HQ (fun e => e))].
Qed.

(** No live request proposes the name. *)
Definition name_free (name : string) (m : gmap string PendingRow) : Prop :=
  forall i r, m !! i = Some r -> request_live r = true -> pe_proposed_name r <> name.

Lemma name_free_none name m (p : PendingRow -> bool) :
  name_free name m -> (forall r, p r = true -> request_live r = true /\ pe_proposed_name r = name) ->
  select_row p m = None.
Proof.
  intros Hf Hp. apply select_row_is_none. intros k r Hk. destruct (p r) eqn:E; [|done].
  apply Hp in E as [? ?]. exfalso. by eapply Hf.
Qed.

Lemma propose_runs rid name hash now p d :
  let m := swept now 1 (pendings d) in
  name_free name m -> Z.of_nat (size (live_rows m)) < ENROLLMENT_LIVE_LIMIT -> m !! rid = None ->
  runs (propose_tx rid name hash now p)
    (fun a d' => a = Ok rid /\ consumers d' = consumers d /\ read_grants (access d') = read_grants (access d) /\
       pendings d' !! rid = Some (new_pending name hash now (i64_saturating_add now ENROLLMENT_PENDING_TTL_MS) p)) d.
Proof.
  intros m Hf Hn Hr. unfold propose_tx. apply runs_bind, runs_sweep. intros f. do 2 runs_step.
  assert (pendings (with_auth_events f (with_pending (swept now 1) d)) = m) as -> by done.
  rewrite (name_free_none name) by (done || intros r Hb; bool_hyps; unfold request_live;
    match goal with H : pe_state _ = _ |- _ => by rewrite H end).
  do 2 runs_step.
  assert (pendings (with_auth_events f (with_pending (swept now 1) d)) = m) as -> by done.
  rewrite (name_free_none name) by (done || intros r Hb; by bool_hyps). cbn [is_some].
  do 2 runs_step.
  assert (pendings (with_auth_events f (with_pending (swept now 1) d)) = m) as -> by done.
  fold (live_rows m). rewrite (proj2 (Z.leb_gt _ _) Hn). apply runs_bind.
  unfold runs at 1, insert_pending.
  assert (pendings (with_auth_events f (with_pending (swept now 1) d)) = m) as -> by done.
  rewrite Hr. cbn [is_some].
  rewrite (name_free_none name) by (done || intros r Hb; by bool_hyps). cbn [is_some].
  unfold append_enrollment_event_tx. repeat runs_step. split_and!; [done|done|done|].
  cbn. apply lookup_insert_eq.
Qed.

Lemma approve_runs ak ts now eid rid name keep actor r d :
  pendings d !! rid = Some r -> pe_state r = "pending" -> now < pe_expires_at_ms r ->
  (forall j c, consumers d !! j = Some c -> consumer_live c = true -> ec_name c <> name) ->
  consumers d !! eid = None ->
  existsb (of_principal (Some ("enrolled", name))) (map_to_list (read_grants (access d))) && negb keep = false ->
  runs (approve_tx ak ts now eid rid name keep actor)
    (fun a d' => a = Ok (Some eid) /\ pendings d' !! rid = Some (approve_request name eid actor now r) /\
       consumers d' = <[eid := {| ec_name := name; ec_token_hash := None; ec_token_generation := 0;
          ec_approved_at_ms := now; ec_approved_by := actor; ec_revoked_at_ms := None |}]> (consumers d)) d.
Proof.
  intros Hr Hst Hex Hf He Hg. unfold approve_tx. do 2 runs_step. rewrite Hr.
  rewrite Hst, (proj2 (Z.leb_gt _ _) Hex). cbn [negb orb bool_decide].
  rewrite bool_decide_eq_true_2 by done. cbn [negb orb]. do 2 runs_step.
  assert (forall p : ConsumerRow -> bool, (forall c, p c = true -> consumer_live c = true /\ ec_name c = name) ->
    select_row p (consumers d) = None) as Hnone.
  { intros p Hp. apply select_row_is_none. intros k c Hk. destruct (p c) eqn:E; [|done].
    apply Hp in E as [? ?]. exfalso. by eapply Hf. }
  rewrite Hnone by (intros c Hb; by bool_hyps). cbn [is_some]. do 2 runs_step. rewrite Hg.
  apply runs_bind. unfold runs at 1, insert_consumer. rewrite He. cbn [is_some].
  rewrite Hnone by (intros c Hb; by bool_hyps). cbn [is_some].
  apply runs_bind. unfold runs at 1, update_pending.
  match goal with |- context [pendings (with_consumers ?f d)] => change (pendings (with_consumers f d)) with (pendings d) end.
  rewrite Hr. repeat runs_step. split_and!; [done| |done]. cbn. apply lookup_insert_eq.
Qed.

Lemma poll_runs rid ph now p r eid c bs d :
  pendings d !! rid = Some r -> pe_state r = "approved" -> pe_request_secret_hash r = ph ->
  String.length ph = 64%nat -> now < pe_expires_at_ms r -> pe_enrollment_id r = Some eid ->
  pe_final_name r = Some (ec_name c) -> consumers d !! eid = Some c -> ec_token_hash c = None ->
  ec_token_generation c = 0 -> ec_revoked_at_ms c = None -> length bs = 32%nat ->
  runs (poll_tx (Some bs) rid ph now p)
    (fun a d' => a = Ok (PollApproved (ec_name c) (hex bs) 1) /\
       consumers d' = <[eid := set_token (hex (sha256 bs)) 1 c]> (consumers d)) d.
Proof.
  intros Hr Hst Hph Hlen Hex Heid Hfn Hc Hth Htg Hrv Hbs. unfold poll_tx. do 2 runs_step. rewrite Hr, Hph.
  rewrite (proj2 (constant_time_hash_eq_iff ph ph Hlen) eq_refl), Hst, (proj2 (Z.leb_gt _ _) Hex).
  change (negb true) with false. rewrite andb_false_r. cbn match.
  do 4 (rewrite bool_decide_eq_false_2 by done). rewrite bool_decide_eq_true_2 by done.
  unfold deliver_token. rewrite Heid. do 2 runs_step. rewrite Hc, Hth, Htg, Hrv. cbn [is_some orb negb Z.eqb].
  rewrite bool_decide_eq_true_2 by done. cbn [negb].
  apply runs_bind, (runs_lift _ _ (hex bs)); [done|].
  apply runs_bind, (runs_lift _ _ (hex (sha256 bs))); [by rewrite minted_hash|].
  apply runs_bind. unfold runs at 1, update_consumer. rewrite Hc, Hth, Htg, Hrv. cbn [is_some orb negb Z.eqb andb Nat.eqb].
  apply runs_bind. unfold runs at 1, update_pending.
  match goal with |- context [pendings (with_consumers ?f d)] => change (pendings (with_consumers f d)) with (pendings d) end.
  rewrite Hr. unfold append_enrollment_event_tx. repeat runs_step. done.
Qed.
End Completes.

Section Liveness.
Context `{C : Crypto} `{!CryptoLaws C} `{X : RecordExt} {Conn : Type} `{L : SqliteStoreLaws Conn}.

(** What the ceremony for [name] needs: a valid name nobody holds or proposes, room in the
    queue once it is swept, fresh ids and token, and approval and poll before the request
    expires. [i1], [i2], [i3] are the inputs of the three calls. *)
Record ceremony_ready (d : Db) (name : string) (keep : bool) (i1 i2 i3 : Inputs) (secret rid eid token : bytes) : Prop := {
  cr_name : valid_enrollment_name name = true;
  cr_free : name_free name (swept (in_now i1 0) 1 (pendings d));
  cr_room : Z.of_nat (size (live_rows (swept (in_now i1 0) 1 (pendings d)))) < ENROLLMENT_LIVE_LIMIT;
  cr_unclaimed : forall j c, consumers d !! j = Some c -> consumer_live c = true ->
    ec_name c <> name /\ ec_token_hash c <> Some (hex (sha256 token));
  cr_grants : existsb (of_principal (Some ("enrolled", name))) (map_to_list (read_grants (access d))) && negb keep = false;
  cr_secret : length secret = 32%nat;
  cr_rid : in_rnd i1 0 = Some rid /\ swept (in_now i1 0) 1 (pendings d) !! hex rid = None;
  cr_eid : in_rnd i2 0 = Some eid /\ consumers d !! hex eid = None;
  cr_token : in_rnd i3 0 = Some token /\ length token = 32%nat;
  cr_time : in_now i2 0 < i64_saturating_add (in_now i1 0) ENROLLMENT_PENDING_TTL_MS /\
            in_now i3 0 < i64_saturating_add (in_now i1 0) ENROLLMENT_PENDING_TTL_MS;
}.

(** C28: the ceremony completes. With the lease, a working backend and fresh random draws,
    a valid name that no live request and no live consumer has, room in the queue (fewer
    than sixteen live requests) and no grants standing on the name unless the approval
    keeps them, a proposal, its approval and a poll with the proposer's secret, both within
    the request's lifetime, succeed one after the other, and the token the poll delivers
    resolves to the approved name at generation 1. *)
Theorem ceremony_completes p p' name keep actor i1 i2 i3 secret rid eid token (s : EncryptedStore Conn) :
  conn_lease (es_conn s) = true -> conn_healthy (es_conn s) = true ->
  ceremony_ready (es_db s) name keep i1 i2 i3 secret rid eid token ->
  exists s1 s2 s3,
    propose_enrollment_by i1 p name (hex (sha256 secret)) s = (Ok (hex rid), s1) /\
    approve_enrollment_with_grants i2 (hex rid) name keep actor s1 = (Ok (hex eid), s2) /\
    poll_enrollment_by i3 p' (hex rid) (hex secret) s2 = (Ok (PollApproved name (hex token) 1), s3) /\
    fst (resolve_enrollment_token (hex token) s3) = Ok (Some (name, 1)).
Proof.
  intros Hl Hh [Hn Hf Hroom Huc Hg Hsec [Hrid Hfresh] [Heid Hfe] [Htok Hlt] [Ht2 Ht3]].
  pose proof (propose_runs (hex rid) name (hex (sha256 secret)) (in_now i1 0) p _ Hf Hroom Hfresh) as Hp.
  destruct (fenced_total _ _ s Hl Hh Hp) as (a & s1 & E1 & (-> & Hc1 & Hg1 & Hr1) & Hl1 & Hh1 & _).
  assert (forall j c, consumers (es_db s1) !! j = Some c -> consumer_live c = true -> ec_name c <> name) as Hf1
    by (intros j c; rewrite Hc1; intros; by eapply Huc).
  rewrite <- Hc1 in Hfe. rewrite <- Hg1 in Hg.
  pose proof (approve_runs (k_audit_key (keys_of s1)) (in_now i2 1) _ _ _ _ keep actor _ _ Hr1 eq_refl Ht2 Hf1 Hfe Hg) as Ha.
  destruct (fenced_total _ _ s1 Hl1 Hh1 Ha) as (a & s2 & E2 & (-> & Hr2 & Hc2) & Hl2 & Hh2 & _).
  pose proof (f_equal (fun m => m !! hex eid) Hc2) as He2. cbn beta in He2. rewrite lookup_insert_eq in He2.
  assert (String.length (hex (sha256 secret)) = 64%nat) as Hlen by (by rewrite length_hex, sha256_length).
  pose proof (fun E => poll_runs _ (hex (sha256 secret)) (in_now i3 0) p' _ _ _ token _ Hr2 eq_refl eq_refl Hlen Ht3 eq_refl E He2
                eq_refl eq_refl eq_refl Hlt) as Hpo. specialize (Hpo eq_refl).
  destruct (fenced_total _ _ s2 Hl2 Hh2 Hpo) as (a & s3 & E3 & (-> & Hc3) & _ & Hh3 & _).
  exists s1, s2, s3. split_and!.
  - unfold propose_enrollment_by, refusable, mbind, mlift.
    rewrite Hn, is_lower_hex_32_hex, Hrid by (by rewrite sha256_length). cbn. by rewrite E1.
  - unfold approve_enrollment_with_grants, with_self, flatten, mbind, mlift. rewrite Hn, Heid.
    cbn [negb mint_hex_32]. by rewrite E2.
  - unfold poll_enrollment_by, refusable, mbind, mlift.
    rewrite is_lower_hex_32_hex, minted_hash, Htok by done. cbn. by rewrite E3.
  - unfold resolve_enrollment_token. rewrite minted_hash by done. rewrite unfenced_query_runs by done.
    f_equal. unfold token_holder. rewrite Hc3, (select_row_only _ _ (hex eid) _ (lookup_insert_eq _ _ _)); [done| |].
    + cbn. by rewrite bool_decide_eq_true_2.
    + intros j b Hj Hb. bool_hyps. destruct (decide (j = hex eid)) as [|Hne]; [done|].
      rewrite lookup_insert_ne, Hc2, lookup_insert_ne, Hc1 in Hj by done. exfalso.
      destruct (Huc j b Hj) as [_ Hx]; [done|]. done.
Qed.
End Liveness.

(** ** An enrollment on a concrete vault *)

Lemma pair_eta {A B} (p : A * B) a : fst p = a -> p = (a, snd p).
Proof. destruct p. by intros <-. Qed.

Lemma poll_effect `{Crypto} `{RecordExt} `{SecretEnv} {Conn} `{SqliteStore Conn} i p r x (st : EncryptedStore Conn) :
  run_vault [OnAccess (AcPoll i p r x)] st = snd (poll_enrollment_by i p r x st).
Proof. reflexivity. Qed.

Lemma single_distinct (a : AccessTables) k :
  (map_to_list (enrolled_consumers a)).*1 = [k] -> tokens_distinct a.
Proof.
  intros E i j c c' h Hi Hj _ _ _ _.
  apply elem_of_map_to_list, (list_elem_of_fmap_2 fst) in Hi, Hj.
  rewrite E, list_elem_of_singleton in Hi, Hj. cbn in Hi, Hj. congruence.
Qed.

Lemma ok_answer {A E S} (p : result A E * S) (dflt : A) :
  match fst p with Ok _ => true | Err _ => false end = true ->
  p = (Ok match fst p with Ok a => a | Err _ => dflt end, snd p).
Proof. by destruct p as [[]]. Qed.

Module EnrollDemo.
Export GrantDemo ToySecrets.

Definition draw (b : byte) : bytes := replicate 32 b.
Definition inp (t : Z) (b : byte) : Inputs :=
  {| in_now i := t + Z.of_nat i; in_rnd _ := Some (draw b); in_fresh := "-" |}.

Definition secret : string := hex (draw x41).
Definition secret_hash : string := hex (sha256 (draw x41)).
Definition rid : string := hex (draw x01).
Definition token : string := hex (draw x03).
Definition token_hash : string := hex (sha256 (draw x03)).

Definition opening : list VaultCall :=
  [OnAccess (AcPropose (inp 10 x01) None "ci" secret_hash);
   OnAccess (AcApprove (inp 20 x02) rid "ci" true "operator")].
Definition approved : EncryptedStore ToyConn := run_vault opening granted.
Definition polled : result EnrollmentPoll EnrollmentError * EncryptedStore ToyConn :=
  poll_enrollment_by (inp 30 x03) None rid secret approved.
Definition enrolled : EncryptedStore ToyConn := snd polled.

Lemma poll_answers :
  poll_enrollment_by (inp 30 x03) None rid secret approved = (Ok (PollApproved "ci" token 1), enrolled).
Proof.
  unfold enrolled, polled. apply pair_eta. vm_compute. reflexivity.
Qed.

Example token_resolves : fst (resolve_enrollment_token token enrolled) = Ok (Some ("ci", 1)).
Proof. vm_compute. reflexivity. Qed.

(** The empty tables are sound. *)
Lemma nothing_enrolled : enroll_ok (access empty_db).
Proof.
  split; [split| |].
  - intros ? ? Hx. cbn in Hx; by apply lookup_empty_Some in Hx.
  - by vm_compute.
  - by vm_compute.
  - intros ? ? ? ? Hx. cbn in Hx; by apply lookup_empty_Some in Hx.
  - split; [intros ? ? ? ? Hx|intros ? ? Hx]; cbn in Hx; by apply lookup_empty_Some in Hx.
  - intros ? ? Hx. cbn in Hx; by apply lookup_empty_Some in Hx.
Qed.

Lemma enrolled_sound : enroll_ok (access (es_db enrolled)).
Proof.
  unfold enrolled, polled. rewrite <- poll_effect.
  apply (vault_keeps (keys_of approved)); [intros; apply access_enroll_ok|reflexivity|]. unfold approved.
  apply (vault_keeps (keys_of granted)); [intros; apply access_enroll_ok|reflexivity|].
  assert (pending_enrollments (access (es_db granted)) = ∅) as E1 by (vm_compute; reflexivity).
  assert (enrolled_consumers (access (es_db granted)) = ∅) as E2 by (vm_compute; reflexivity).
  pose proof nothing_enrolled as [H1 H2 H3]. by split; rewrite ?E1, ?E2.
Qed.

Lemma enrolled_distinct : tokens_distinct (access (es_db enrolled)).
Proof. apply (single_distinct _ (hex (draw x02))). vm_compute. reflexivity. Qed.

Definition revoking : result (list ReadGrant) StoreOpError * EncryptedStore ToyConn :=
  revoke_enrollment (inp 40 x04) "ci" "operator" enrolled.
Definition afterwards : list VaultCall := [OnAccess (AcReissue (inp 50 x05) "ci" "operator")].

Definition removed : list ReadGrant := match fst revoking with Ok gs => gs | Err _ => [] end.

Lemma revoke_answers : revoke_enrollment (inp 40 x04) "ci" "operator" enrolled = (Ok removed, snd revoking).
Proof.
  unfold removed, revoking. apply ok_answer. vm_compute. reflexivity.
Qed.

Lemma not_minted_again c : OnAccess c ∈ afterwards -> ~ mints_token token_hash c.
Proof.
  intros Hc. apply list_elem_of_singleton in Hc. injection Hc as ->.
  intros (bs & [= <-] & Hh). revert Hh. vm_compute. discriminate.
Qed.
End EnrollDemo.

Module AccessWitness.
Import EnrollDemo.

Lemma enrollment_sound_witness :
  enroll_ok (access (es_db (store_over empty_db))) /\
  enroll_ok (access (es_db (run_vault opening (store_over empty_db)))).
Proof.
  split; [exact nothing_enrolled|].
  apply (history_keeps_enrollment_sound opening (store_over empty_db)). exact nothing_enrolled.
Defined.

Lemma grants_admissible_witness :
  grants_admissible (access (es_db (run_vault [OnAccess (AcCreateGrant (inputs 80 "-") "reserved" "ops" Exact id
    OpRead (ctx_vault GrantCreate))] (store_over empty_db)))).
Proof.
  apply (grants_stay_admissible _ (store_over empty_db)). intros key [t Ht]. cbn in Ht; by apply lookup_empty_Some in Ht.
Defined.

Lemma generation_witness :
  grants_generation (es_db vault) <> grants_generation (es_db granted) /\
  generation_tracks (es_db vault) (es_db (run_vault opening vault)).
Proof.
  split; [vm_compute; discriminate|]. apply (unchanged_generation_unchanged_reach opening vault).
Defined.

Lemma consumers_accounted_witness : consumers_accounted (es_db (run_vault opening (store_over empty_db))).
Proof.
  apply (consumers_stay_accounted opening (store_over empty_db)).
  intros eid c Hc. cbn in Hc; by apply lookup_empty_Some in Hc.
Defined.

Lemma history_keeps_audit_chain_witness :
  chain_ok audit_key (audit_log (es_db (store_over empty_db))) /\
  length (audit_log (es_db (run_vault opening (store_over empty_db)))) = 1%nat /\
  fst (verify_audit_chain (run_vault opening (store_over empty_db))) = Ok None.
Proof.
  split; [done|]. split; [vm_compute; reflexivity|].
  apply (history_keeps_audit_chain opening (store_over empty_db)); [exact I|vm_compute; reflexivity].
Defined.

Lemma history_bounds_auth_events_witness :
  events_bounded (auth_events (es_db (store_over empty_db))) /\
  events_bounded (auth_events (es_db (run_vault opening (store_over empty_db)))).
Proof.
  assert (events_bounded (auth_events (es_db (store_over empty_db)))) as H0
    by (intros s; cbn; unfold AUTH_EVENTS_PER_CREDENTIAL; lia).
  split; [exact H0|]. apply (history_bounds_auth_events _ _ H0).
Defined.

Lemma delivered_once_witness :
  fst polled = Ok (PollApproved "ci" token 1) /\
  (forall answer, fst (poll_enrollment_by (inp 40 x04) None rid secret (run_vault [] enrolled)) = Ok answer ->
     answer = PollDenied).
Proof.
  split; [vm_compute; reflexivity|].
  apply (token_delivered_at_most_once (inp 30 x03) None rid secret "ci" token 1 [] approved enrolled).
  - exact poll_answers.
  - intros c Hc. by apply not_elem_of_nil in Hc.
Defined.

Lemma proposer_witness :
  exists r, pendings (es_db approved) !! rid = Some r /\ pe_state r = "approved".
Proof.
  destruct (token_goes_to_the_proposer (inp 30 x03) None rid secret "ci" token 1 approved enrolled poll_answers)
    as (r & eid & c & bs & h & Hr & _ & Hst & _).
  exists r. split; [exact Hr|exact Hst].
Defined.

Lemma no_enumeration_witness :
  fst (poll_enrollment_by (inp 30 x03) None rid token approved) = Err (Refused EnrollNotFound) /\
  es_db (snd (poll_enrollment_by (inp 30 x03) None "unknown" secret approved)) =
  es_db (snd (poll_enrollment_by (inp 30 x03) None rid token approved)).
Proof.
  destruct (poll_does_not_enumerate (inp 30 x03) None rid "unknown" token secret approved) as (Ha & _ & Hd).
  - vm_compute. reflexivity.
  - vm_compute. reflexivity.
  - split; [vm_compute; reflexivity|]. intros r Hr Hh.
    assert (pe_request_secret_hash <$> pendings (es_db approved) !! rid = Some secret_hash) as E by (vm_compute; reflexivity).
    rewrite Hr in E. injection E as E. rewrite E in Hh. revert Hh. vm_compute. discriminate.
  - split; [vm_compute; reflexivity|]. intros r Hr.
    assert (pendings (es_db approved) !! "unknown" = None) as E by (vm_compute; reflexivity).
    rewrite E in Hr. discriminate Hr.
  - split; [exact Ha|exact Hd].
Defined.

Lemma ceremony_witness :
  exists s1 s2 s3,
    propose_enrollment_by (inp 10 x01) None "ci" secret_hash vault = (Ok rid, s1) /\
    approve_enrollment_with_grants (inp 20 x02) rid "ci" false "operator" s1 = (Ok (hex (draw x02)), s2) /\
    poll_enrollment_by (inp 30 x03) None rid secret s2 = (Ok (PollApproved "ci" token 1), s3) /\
    fst (resolve_enrollment_token token s3) = Ok (Some ("ci", 1)).
Proof.
  apply (ceremony_completes None None "ci" false "operator" (inp 10 x01) (inp 20 x02) (inp 30 x03)
           (draw x41) (draw x01) (draw x02) (draw x03) vault).
  - vm_compute. reflexivity.
  - vm_compute. reflexivity.
  - assert (swept (in_now (inp 10 x01) 0) 1 (pendings (es_db vault)) = ∅) as E by (vm_compute; reflexivity).
    assert (consumers (es_db vault) = ∅) as Ec by (vm_compute; reflexivity).
    split.
    + vm_compute. reflexivity.
    + rewrite E. intros i r Hr. exact (False_ind _ (lookup_empty_Some _ _ Hr)).
    + rewrite E. vm_compute. reflexivity.
    + intros j c. rewrite Ec. intros Hc. exact (False_ind _ (lookup_empty_Some _ _ Hc)).
    + vm_compute. reflexivity.
    + vm_compute. reflexivity.
    + rewrite E. split; [reflexivity|apply lookup_empty].
    + rewrite Ec. split; [reflexivity|apply lookup_empty].
    + split; vm_compute; reflexivity.
    + split; vm_compute; reflexivity.
Defined.

Lemma retired_token_witness :
  fst (resolve_enrollment_token token enrolled) = Ok (Some ("ci", 1)) /\
  (forall who, fst (resolve_enrollment_token token (run_vault afterwards (snd revoking))) <> Ok (Some who)).
Proof.
  split; [vm_compute; reflexivity|].
  apply (retired_token_never_resolves token "ci" token_hash 1 afterwards enrolled (snd revoking)).
  - vm_compute. reflexivity.
  - exact enrolled_sound.
  - exact enrolled_distinct.
  - vm_compute. reflexivity.
  - exact (RetiredByRevoke _ _ _ _ _ (inp 40 x04) "operator" removed revoke_answers).
  - exact not_minted_again.
Defined.
End AccessWitness.
