(* ===== verification/ReadSurface.v ===== *)
(** * The read surface ([credentials-module/src/read_surface.rs])

    What a consumer can ask of the running vault: a read through a capability handle, a
    read of a credential id under a grant, the listing, the status, the report of a dead
    credential, and the exercise of a vault-held key. The surface composes the store, the
    refresh engine, the scoped authorization, the enrollment resolver and the fetch limiter.

    A request is a function of [ReadEnv]: the clocks, and what other tasks did to the store
    before each of its own store calls ([re_others]), so that a grant can be revoked or a
    record replaced between any two steps of one request. The reader of remote records
    (rows whose home is another member's vault, [federation/remote_read.rs]) is the
    interface [RemoteReader]. *)

From stdpp Require Import gmap sorting pretty.
From S2P Require Import Prelude Text Crypto Record CredentialId Catalog AuditLog Limiter Database Store Secrets Kem Signing Calls SecretCalls Engine Grants Enrollment Access.
From S2P Require Envelope.

(** ** Non-secret metadata ([store.rs]: [meta], [list_meta]) *)

Record RecordMeta := {
  rm_record_version : Z;
  rm_key_id_hex : string;
  rm_state : RecordState;
  rm_stale_pending : bool;
  rm_categories : list string;
  rm_created_by : option string;
  rm_plan_tier : option string;
  rm_provider_ids : list string;
}.

Definition CATEGORY_SCHEMA_VERSION : Z := 9.

Definition row_meta (id : string) (row : CredRow) (categories : list string) (created_by tier : option string)
    (providers : list string) : RecordMeta :=
  {| rm_record_version := as_u64 (cr_record_version row); rm_key_id_hex := cr_key_id row;
     rm_state := state_from_str (cr_state row); rm_stale_pending := cr_stale_pending row;
     rm_categories := categories; rm_created_by := created_by; rm_plan_tier := tier;
     rm_provider_ids := providers |}.

Definition local_categories (id : string) (d : Db) : list string :=
  split_categories (String.concat "," (values_of id (credential_categories d))).

Definition list_meta_from_conn (d : Db) : list (string * RecordMeta) :=
  let schema_version := db_schema_version d in
  map (fun kv =>
    let '(id, row) := kv in
    (id, row_meta id row
       (if CATEGORY_SCHEMA_VERSION <=? schema_version then local_categories id d else [])
       (if 14 <=? schema_version then cr_created_by row else None)
       (plan_tier_from_conn id d)
       (if PROVIDER_ID_SCHEMA_VERSION <=? schema_version
        then split_provider_ids (String.concat "," (values_of id (credential_provider_ids d))) else [])))
    (merge_sort cred_le (map_to_list (credentials d))).

(** ** Diagnostic rows of scoped calls ([store.rs]) *)

Inductive ScopedReadRefusal := RefNoGrant | RefNotFound | RefUncategorized | RefWrongKind | RefStoreError.

Definition refusal_as_str (r : ScopedReadRefusal) : string :=
  match r with
  | RefNoGrant => "no_grant" | RefNotFound => "not_found" | RefUncategorized => "uncategorized"
  | RefWrongKind => "wrong_kind" | RefStoreError => "store_error"
  end.

Definition reporter_source_from_wire (value : string) : ReporterSource :=
  if bool_decide (value = "direct") then RsDirect
  else if bool_decide (value = "relay_status_field") then RelayStatusField
  else if bool_decide (value = "relay_message_parse") then RelayMessageParse
  else Unrecognised.

Definition scoped_refusal_tx (ts : Z) (subject pk : string) (pid : option string) (r : ScopedReadRefusal) : Tx unit :=
  do! _ <- exec (with_auth_events (fun rows => rows ++
    [{| ev_ts_ms := ts; ev_credential_id := subject; ev_kind := event_kind_as_str EvScopedReadRefusal;
        ev_provider_status := None; ev_detail := Some (refusal_as_str r); ev_reporter_source := None;
        ev_record_version := None; ev_applied := false; ev_principal_kind := Some pk;
        ev_principal_id := pid |}])) ;;
  trim_auth_events_tx subject.

(** The row is inserted unless one for the same subject, operation and principal exists. *)
Definition scoped_first_use_tx (ts : Z) (subject pk : string) (pid : option string) (o : GrantOperation) : Tx unit :=
  do! present <- query (fun d => existsb (fun e =>
    bool_decide (ev_credential_id e = subject) &&
    bool_decide (ev_kind e = event_kind_as_str EvScopedFirstUse) &&
    bool_decide (ev_detail e = Some (operation_as_str o)) &&
    bool_decide (ev_principal_kind e = Some pk) && bool_decide (ev_principal_id e = pid)) (auth_events d)) ;;
  do! _ <- (if present then mret tt else exec (with_auth_events (fun rows => rows ++
    [{| ev_ts_ms := ts; ev_credential_id := subject; ev_kind := event_kind_as_str EvScopedFirstUse;
        ev_provider_status := None; ev_detail := Some (operation_as_str o); ev_reporter_source := None;
        ev_record_version := None; ev_applied := true; ev_principal_kind := Some pk;
        ev_principal_id := pid |}]))) ;;
  trim_auth_events_tx subject.

Section StoreReads.
Context {Conn : Type} `{S : SqliteStore Conn}.

Definition meta (id : string) : M (EncryptedStore Conn) StoreOpError RecordMeta :=
  do! found <- unfenced (query (fun d =>
    (fun row => row_meta id row (local_categories id d) (cr_created_by row) (plan_tier_from_conn id d)
                  (provider_ids_from_conn id (db_schema_version d) d)) <$> credentials d !! id)) ;;
  mlift (ok_or found NotFound).

Definition list_meta : M (EncryptedStore Conn) StoreOpError (list (string * RecordMeta)) :=
  unfenced (query list_meta_from_conn).

Definition record_scoped_read_refusal (inp : Inputs) (id pk : string) (pid : option string)
    (r : ScopedReadRefusal) : M (EncryptedStore Conn) StoreOpError unit :=
  unfenced (scoped_refusal_tx (in_now inp 0) (credential_auth_subject id) pk pid r).

Definition record_scoped_first_use (inp : Inputs) (id pk : string) (pid : option string)
    (o : GrantOperation) : M (EncryptedStore Conn) StoreOpError unit :=
  unfenced (scoped_first_use_tx (in_now inp 0) (credential_auth_subject id) pk pid o).

Definition audit_tip_of : M (EncryptedStore Conn) StoreOpError (option (Z * string)) :=
  unfenced (query (fun d => audit_tip (audit_log d))).
End StoreReads.

(** ** The wire vocabulary *)

Inductive ReadError :=
| ReNotFound | ReNeedsReauth | ReRefreshUnsupported | ReRefreshFailed | ReStoreError | ReVaultLocked
| ReCorrupt | ReTooManyItems | ReReportStatusNotCredentialDeath | ReTtlUnsatisfiable | ReKindNotGettable
| ReKindNotSignable | ReSignPayloadTooLarge | ReKindNotOpenable | ReOpenFailed | ReOpenRateLimited
| ReMalformedEncoding | ReSealInputTooLarge | ReInvalidRecipientKey | ReSealRateLimited.
#[global] Instance ReadError_eq_dec : EqDecision ReadError.
Proof. solve_decision. Defined.

Inductive ErrorClass := Transient | Permanent | AuthRequired | ContextOverflow.

Definition read_error_class (e : ReadError) : ErrorClass :=
  match e with
  | ReNotFound | ReCorrupt | ReRefreshUnsupported | ReKindNotGettable | ReKindNotSignable
  | ReKindNotOpenable | ReOpenFailed | ReMalformedEncoding | ReInvalidRecipientKey
  | ReReportStatusNotCredentialDeath => Permanent
  | ReNeedsReauth => AuthRequired
  | ReRefreshFailed | ReStoreError | ReVaultLocked | ReOpenRateLimited | ReSealRateLimited => Transient
  | ReTooManyItems | ReSignPayloadTooLarge | ReSealInputTooLarge | ReTtlUnsatisfiable => ContextOverflow
  end.

Definition map_store_error (e : StoreOpError) : ReadError :=
  match e with
  | NotFound => ReNotFound
  | NeedsReauth => ReNeedsReauth
  | DecryptError (Envelope.KeyMismatch _ _) => ReVaultLocked
  | Quarantined | CorruptRecord _ | DecryptError _ => ReCorrupt
  | _ => ReRefreshFailed
  end.

(** The two [expect]s of [do_refresh] are unreachable; a panic would answer nothing. *)
Definition map_engine_error (e : EngineError) : ReadError :=
  match e with
  | EngineStore se => map_store_error se
  | UnknownAdapter _ => ReRefreshUnsupported
  | RefreshFailed (InvalidGrant _ | SubscriptionRequired) => ReNeedsReauth
  | RefreshFailed _ => ReRefreshFailed
  | Panicked => ReStoreError
  end.

Definition map_seal_error (e : SealError) : ReadError :=
  match e with
  | TooLarge => ReSealInputTooLarge
  | InvalidRecipient => ReInvalidRecipientKey
  | UnusableKey | SealFailed => ReCorrupt
  end.

(** [subc_protocol::Principal]: who the bus says is asking. *)
Inductive Principal := PrReserved (module_id : string) | PrDirect | PrUnverified.

Record GetParams := { gp_handle : string; gp_min_ttl_ms : option Z; gp_force_refresh : bool }.
Record GetScopedParams := {
  gsp_enrollment_token : option string; gsp_min_ttl_ms : option Z; gsp_credential_id : string }.
Record StatusParams := {
  stp_handle : option string; stp_credential_id : option string; stp_enrollment_token : option string }.
Record ReportAuthFailureParams := {
  rp_handle : option string;
  rp_credential_id : option string;
  rp_enrollment_token : option string;
  rp_provider_status : Z;
  rp_record_version : Z;
  rp_reporter_source : option string;
}.

Record GetResult := {
  gr_payload : bytes;
  gr_expires_at_ms : option Z;
  gr_record_version : Z;
  gr_credential_id : option string;
  gr_project_id : option string;
  gr_account_id : option string;
  gr_email : option string;
  gr_org_name : option string;
}.

Record StatusResult := {
  ss_ready : bool;
  ss_last_error_code : option ReadError;
  ss_lease_held : bool;
  ss_credential_id : option string;
  ss_record_version : option Z;
  ss_stale_pending : option bool;
}.

(** ** The transfer-key fence *)

Inductive TransferKeyUse := Ordinary | PublicKeyAnnounce | AnnounceVersion.
Inductive TransferKeyAccess := AccHandle | AccScoped (kind id : string) (usage : TransferKeyUse).

Definition transfer_key_fenced (credential_id : string) (access : TransferKeyAccess) : bool :=
  if is_deposit_key credential_id then true
  else if negb (is_vault_transfer_id credential_id) then false
  else match access with
       | AccScoped kind id (PublicKeyAnnounce | AnnounceVersion) =>
           negb (bool_decide (kind = "reserved") && bool_decide (id = "callosum"))
       | _ => true
       end.

Definition classify_scoped_coverage (c : ScopedCoverage) : option ScopedReadRefusal :=
  if caller_active_grants c =? 0 then Some RefNoGrant
  else if covered c then None
  else if negb (id_exists c) then Some RefNotFound
  else if holds_category_selector c && bool_decide (id_category_count c = Some 0) then Some RefUncategorized
  else Some RefNoGrant.

(** ** Health ([credentials-core/src/health.rs]) *)

Definition MAX_LISTED_IDS : nat := 32.

Inductive VaultHealthStatus := HealthOk | HealthDegraded | HealthFailing.
#[global] Instance VaultHealthStatus_eq_dec : EqDecision VaultHealthStatus.
Proof. solve_decision. Defined.

Record VaultHealth := {
  vh_status : VaultHealthStatus;
  vh_store_readable : bool;
  vh_fenced_out : bool;
  vh_refresher_stalled : bool;
  vh_credentials_total : nat;
  vh_active : nat;
  vh_needs_reauth : nat;
  vh_retired : nat;
  vh_corrupt : nat;
  vh_needs_reauth_ids : list string;
  vh_retired_ids : list string;
  vh_corrupt_ids : list string;
  vh_open_intents : nat;
  vh_audit_seq : option Z;
  vh_audit_tip_mac : option string;
}.

Definition health_unreadable : VaultHealth :=
  {| vh_status := HealthFailing; vh_store_readable := false; vh_fenced_out := false;
     vh_refresher_stalled := false; vh_credentials_total := 0; vh_active := 0; vh_needs_reauth := 0;
     vh_retired := 0; vh_corrupt := 0; vh_needs_reauth_ids := []; vh_retired_ids := [];
     vh_corrupt_ids := []; vh_open_intents := 0; vh_audit_seq := None; vh_audit_tip_mac := None |}.

Definition mark_refresher_stalled (h : VaultHealth) : VaultHealth :=
  {| vh_status := HealthFailing; vh_store_readable := vh_store_readable h; vh_fenced_out := vh_fenced_out h;
     vh_refresher_stalled := true; vh_credentials_total := vh_credentials_total h; vh_active := vh_active h;
     vh_needs_reauth := vh_needs_reauth h; vh_retired := vh_retired h; vh_corrupt := vh_corrupt h;
     vh_needs_reauth_ids := vh_needs_reauth_ids h; vh_retired_ids := vh_retired_ids h;
     vh_corrupt_ids := vh_corrupt_ids h; vh_open_intents := vh_open_intents h;
     vh_audit_seq := vh_audit_seq h; vh_audit_tip_mac := vh_audit_tip_mac h |}.

(** The four counters and three capped lists of the loop in [summarize]. *)
Record Histogram := {
  hg_active : nat; hg_needs_reauth : nat; hg_retired : nat; hg_corrupt : nat;
  hg_needs_reauth_ids : list string; hg_retired_ids : list string; hg_corrupt_ids : list string;
}.

Definition push_capped (ids : list string) (id : string) : list string :=
  if (length ids <? MAX_LISTED_IDS)%nat then ids ++ [id] else ids.

Definition count_meta (h : Histogram) (m : string * RecordMeta) : Histogram :=
  match rm_state m.2 with
  | Active =>
      {| hg_active := S (hg_active h); hg_needs_reauth := hg_needs_reauth h; hg_retired := hg_retired h;
         hg_corrupt := hg_corrupt h; hg_needs_reauth_ids := hg_needs_reauth_ids h;
         hg_retired_ids := hg_retired_ids h; hg_corrupt_ids := hg_corrupt_ids h |}
  | NeedsReauthState =>
      {| hg_active := hg_active h; hg_needs_reauth := S (hg_needs_reauth h); hg_retired := hg_retired h;
         hg_corrupt := hg_corrupt h; hg_needs_reauth_ids := push_capped (hg_needs_reauth_ids h) m.1;
         hg_retired_ids := hg_retired_ids h; hg_corrupt_ids := hg_corrupt_ids h |}
  | Retired =>
      {| hg_active := hg_active h; hg_needs_reauth := hg_needs_reauth h; hg_retired := S (hg_retired h);
         hg_corrupt := hg_corrupt h; hg_needs_reauth_ids := hg_needs_reauth_ids h;
         hg_retired_ids := push_capped (hg_retired_ids h) m.1; hg_corrupt_ids := hg_corrupt_ids h |}
  | CorruptState =>
      {| hg_active := hg_active h; hg_needs_reauth := hg_needs_reauth h; hg_retired := hg_retired h;
         hg_corrupt := S (hg_corrupt h); hg_needs_reauth_ids := hg_needs_reauth_ids h;
         hg_retired_ids := hg_retired_ids h; hg_corrupt_ids := push_capped (hg_corrupt_ids h) m.1 |}
  end.

Definition histogram (metas : list (string * RecordMeta)) : Histogram :=
  fold_left count_meta metas
    {| hg_active := 0; hg_needs_reauth := 0; hg_retired := 0; hg_corrupt := 0;
       hg_needs_reauth_ids := []; hg_retired_ids := []; hg_corrupt_ids := [] |}.

Definition summarize (metas : list (string * RecordMeta)) (open_intents : nat) (fenced_out : bool) : VaultHealth :=
  let h := histogram metas in
  {| vh_status := if fenced_out then HealthFailing
                  else if ((0 <? hg_needs_reauth h) || (0 <? hg_corrupt h))%nat then HealthDegraded
                  else HealthOk;
     vh_store_readable := true; vh_fenced_out := fenced_out; vh_refresher_stalled := false;
     vh_credentials_total := length metas; vh_active := hg_active h;
     vh_needs_reauth := hg_needs_reauth h; vh_retired := hg_retired h; vh_corrupt := hg_corrupt h;
     vh_needs_reauth_ids := hg_needs_reauth_ids h; vh_retired_ids := hg_retired_ids h;
     vh_corrupt_ids := hg_corrupt_ids h; vh_open_intents := open_intents;
     vh_audit_seq := None; vh_audit_tip_mac := None |}.

Definition with_audit_tip (tip : option (Z * string)) (h : VaultHealth) : VaultHealth :=
  match tip with
  | None => h
  | Some (seq, mac) =>
      {| vh_status := vh_status h; vh_store_readable := vh_store_readable h; vh_fenced_out := vh_fenced_out h;
         vh_refresher_stalled := vh_refresher_stalled h; vh_credentials_total := vh_credentials_total h;
         vh_active := vh_active h; vh_needs_reauth := vh_needs_reauth h; vh_retired := vh_retired h;
         vh_corrupt := vh_corrupt h; vh_needs_reauth_ids := vh_needs_reauth_ids h;
         vh_retired_ids := vh_retired_ids h; vh_corrupt_ids := vh_corrupt_ids h;
         vh_open_intents := vh_open_intents h; vh_audit_seq := Some seq; vh_audit_tip_mac := Some mac |}
  end.

(** ** The surface and what surrounds a request *)

Definition HEALTH_STALE_LIMIT : Z := 20 * 1000000000.
Definition OPEN_REFUSAL_WINDOW : Z := 60 * 1000000000.
Definition OPEN_REFUSAL_THRESHOLD : Z := 16.

(** Instants are nanoseconds. *)
Record Surface (Conn : Type) := {
  sf_engine : EngineState Conn;
  sf_limiter : FetchLimiter;
  (** Refused [open] and [seal] requests of a connection: since when, and how many. *)
  sf_open_refusals : gmap Z (Z * Z);
  sf_health : VaultHealth;
  sf_last_refresh : Z;
}.
Arguments sf_engine {_}.
Arguments sf_limiter {_}.
Arguments sf_open_refusals {_}.
Arguments sf_health {_}.
Arguments sf_last_refresh {_}.
Arguments Build_Surface {_}.

(** [federation/remote_read.rs] as the surface calls it. *)
Class RemoteReader (Conn : Type) := {
  RemoteRecord : Type;
  RemoteRefusal : Type;
  remote_record : string -> M (EncryptedStore Conn) StoreOpError (option RemoteRecord);
  remote_get : RemoteRecord -> option Z -> M (EncryptedStore Conn) RemoteRefusal GetResult;
  remote_scoped_rows : list ReadGrant -> M (EncryptedStore Conn) StoreOpError (list ScopedListRow);
}.

(** [re_others i] runs before the [i]-th store call of the request, [re_inputs i] is what
    that call draws; [re_instant] and [re_now_ms] are the two clocks. *)
Record ReadEnv := {
  re_engine : EngineEnv;
  re_inputs : nat -> Inputs;
  re_others : nat -> list VaultCall;
  re_instant : Z;
  re_now_ms : Z;
}.

Definition meets_min_ttl (now : Z) (record : VaultRecord) (min_ttl_ms : Z) : bool :=
  match expires_at_ms record with
  | Some e => i64_saturating_add now min_ttl_ms <? e
  | None => true
  end.

(** [antigravity::effective_project_id]: the second or third [|]-field of the packed token. *)
Definition ANTIGRAVITY_ADAPTER_NAME : string := "antigravity".
Definition effective_project_id (packed_refresh : string) : option string :=
  let '(_, parts) := split_on "|" packed_refresh in
  match parts !! 1%nat ≫= non_empty with
  | Some managed => Some managed
  | None => parts !! 0%nat ≫= non_empty
  end.

Definition channel_actor (connection_id : Z) : string := "conn-" ++ pretty (connection_id mod 2 ^ 16).

(** ** Requests *)

Module ReadSurface.
Section ReadSurface.
Context `{C : Crypto} `{X : RecordExt} `{SE : SecretEnv} {Conn : Type} `{S : SqliteStore Conn} `{RR : !RemoteReader Conn}.

Abbreviation Surf A := (M (Surface Conn) ReadError A).

Definition sf_store (s : Surface Conn) : EncryptedStore Conn := eng_store (sf_engine s).

Definition set_engine (e : EngineState Conn) (s : Surface Conn) : Surface Conn :=
  {| sf_engine := e; sf_limiter := sf_limiter s; sf_open_refusals := sf_open_refusals s;
     sf_health := sf_health s; sf_last_refresh := sf_last_refresh s |}.
Definition set_store (st : EncryptedStore Conn) (s : Surface Conn) : Surface Conn :=
  set_engine {| eng_store := st; eng_exchanges := eng_exchanges (sf_engine s) |} s.
Definition set_limiter (l : FetchLimiter) (s : Surface Conn) : Surface Conn :=
  {| sf_engine := sf_engine s; sf_limiter := l; sf_open_refusals := sf_open_refusals s;
     sf_health := sf_health s; sf_last_refresh := sf_last_refresh s |}.
Definition set_open_refusals (m : gmap Z (Z * Z)) (s : Surface Conn) : Surface Conn :=
  {| sf_engine := sf_engine s; sf_limiter := sf_limiter s; sf_open_refusals := m;
     sf_health := sf_health s; sf_last_refresh := sf_last_refresh s |}.

(** The store as the [i]-th store call finds it. *)
Definition store_before (env : ReadEnv) (i : nat) (s : Surface Conn) : EncryptedStore Conn :=
  run_vault (re_others env i) (sf_store s).

(** The [i]-th store call of the request, with its outcome as a value. *)
Definition surf_try {A E} (env : ReadEnv) (i : nat) (m : M (EncryptedStore Conn) E A) : Surf (result A E) :=
  fun s => let '(r, st) := m (store_before env i s) in (Ok r, set_store st s).

Definition engine_try {A} (m : M (EngineState Conn) EngineError A) : Surf (result A EngineError) :=
  fun s => let '(r, e) := m (sf_engine s) in (Ok r, set_engine e s).

(** *** Diagnostics: never fail the call they explain *)

Definition scoped_principal_identity (principal : option Principal) : string * option string :=
  match principal with
  | Some (PrReserved module_id) => ("reserved", Some module_id)
  | Some PrDirect => ("direct", None)
  | Some PrUnverified | None => ("unverified", None)
  end.

Definition observed_principal (principal : option Principal) : option AuthEventPrincipal :=
  match principal with
  | Some (PrReserved module_id) => Some (PReserved module_id)
  | Some PrDirect => Some PDirect
  | Some PrUnverified => Some PUnverified
  | None => None
  end.

Definition record_scoped_refusal (env : ReadEnv) (i : nat) (principal : option Principal) (id : string)
    (r : ScopedReadRefusal) : Surf unit :=
  let '(pk, pid) := scoped_principal_identity principal in
  do! _ <- surf_try env i (record_scoped_read_refusal (re_inputs env i) id pk pid r) ;; mret tt.

(** [check_limiter]: alarms, never refuses. *)
Definition check_limiter (env : ReadEnv) (connection_id : Z) (probe_key : string) : Surf unit :=
  do! admission <- (fun s =>
    let '(a, l) := limiter_admit (sf_limiter s) connection_id probe_key (re_instant env) in
    (Ok a, set_limiter l s)) ;;
  match admission with
  | Anomaly true =>
      do! _ <- surf_try env 0 (append_audit_op (re_inputs env 0)
        {| rec_op := FetchAnomaly; rec_credential_id := None; rec_payload_hash := None;
           rec_actor := channel_actor connection_id; rec_alarm := Some FetchRateAnomaly |}) ;;
      mret tt
  | _ => mret tt
  end.

(** *** Who is asking, and what they may do *)

(** Store call [i]. A presented token decides alone: a bad one is no identity. *)
Definition scoped_principal (env : ReadEnv) (i : nat) (principal : option Principal) (token : option string)
  : Surf (option (string * string)) :=
  match token with
  | Some token =>
      do! r <- surf_try env i (resolve_enrollment_token token) ;;
      mret (match r with Ok (Some (name, _)) => Some ("enrolled", name) | _ => None end)
  | None =>
      mret (match principal with Some (PrReserved module_id) => Some ("reserved", module_id) | _ => None end)
  end.

Definition refusal_subject (id : string) (o : GrantOperation) : string :=
  if bool_decide (o = OpDeposit) then "credential.deposit_cookie" else id.

(** Store calls 2 to 4. *)
Definition authorize_scoped_for (env : ReadEnv) (principal : option Principal) (token : option string)
    (id : string) (o : GrantOperation) (usage : TransferKeyUse) : Surf (string * string) :=
  do! who <- scoped_principal env 2 principal token ;;
  match who with
  | None =>
      do! _ <- record_scoped_refusal env 4 principal (refusal_subject id o) RefNoGrant ;; merr ReNotFound
  | Some (k, pid) =>
      if transfer_key_fenced id (AccScoped k pid usage) then
        do! _ <- record_scoped_refusal env 4 principal id RefNoGrant ;; merr ReNotFound
      else
        do! coverage <- surf_try env 3 (evaluate_scoped_coverage k pid id o) ;;
        match match coverage with
              | Err _ => Some RefStoreError
              | Ok c => classify_scoped_coverage c
              end with
        | Some refusal =>
            do! _ <- record_scoped_refusal env 4 principal (refusal_subject id o) refusal ;; merr ReNotFound
        | None =>
            do! _ <- (if bool_decide (o = OpDeposit) then mret (Ok tt)
                      else surf_try env 4 (record_scoped_first_use (re_inputs env 4) id k (Some pid) o)) ;;
            mret (k, pid)
        end
  end.

Definition authorize_scoped_as (env : ReadEnv) (principal : option Principal) (token : option string)
    (id : string) (o : GrantOperation) : Surf (string * string) :=
  authorize_scoped_for env principal token id o Ordinary.

(** *** [credential.get] and [credential.get_scoped] *)

Definition account_of (record : VaultRecord) : option string :=
  match (match refresh_adapter record, oauth record with
         | Some adapter, Some o => account_id_for_adapter adapter (access_token o)
         | _, _ => None
         end) with
  | Some a => Some a
  | None => account_id (identity record)
  end.

(** The tail both reads share once the engine answered: what may leave the process. *)
Definition answer_record (env : ReadEnv) (credential_id : string) (min_ttl_ms : option Z)
    (refreshed : GetWithRefreshStatus) : Surf GetResult :=
  if gs_refreshed_for_min_ttl refreshed &&
     match min_ttl_ms with
     | Some m => negb (meets_min_ttl (re_now_ms env) (gs_record refreshed) m)
     | None => false
     end
  then merr ReTtlUnsatisfiable else
  let record := gs_record refreshed in
  if is_vault_held_key (kind record) then merr ReKindNotGettable else
  if bool_decide (payload record = []) then
    do! q <- surf_try env 6 (quarantine_in_incarnation (re_inputs env 6) credential_id
                               (record_version record) (gs_incarnation refreshed)) ;;
    match q with
    | Ok true => merr ReCorrupt
    | Ok false => merr ReRefreshFailed
    | Err e => merr (map_store_error e)
    end
  else
    mret {| gr_payload := payload record; gr_expires_at_ms := expires_at_ms record;
            gr_record_version := record_version record; gr_credential_id := Some credential_id;
            gr_project_id := if bool_decide (refresh_adapter record = Some ANTIGRAVITY_ADAPTER_NAME)
                             then oauth record ≫= (fun o => effective_project_id (refresh_token o)) else None;
            gr_account_id := account_of record; gr_email := email (identity record);
            gr_org_name := org_name (identity record) |}.

(** Resolution of a handle, fenced: store call 1. *)
Definition resolve_presented (env : ReadEnv) (handle : string) : Surf (string * string) :=
  do! resolved <- surf_try env 1 (resolve_handle_with_incarnation handle) ;;
  match resolved with
  | Ok (id, incarnation) =>
      if transfer_key_fenced id AccHandle then merr ReNotFound else mret (id, incarnation)
  | Err NotFound => merr ReNotFound
  | Err e => merr (map_store_error e)
  end.

Definition get (env : ReadEnv) (connection_id : Z) (params : GetParams) : Surf GetResult :=
  do! _ <- check_limiter env connection_id (gp_handle params) ;;
  do! target <- resolve_presented env (gp_handle params) ;;
  let '(credential_id, incarnation) := target in
  do! got <- engine_try (Engine.get_in_incarnation (re_engine env) credential_id incarnation
               (gp_min_ttl_ms params) (gp_force_refresh params)) ;;
  match got with
  | Ok refreshed => answer_record env credential_id (gp_min_ttl_ms params) refreshed
  | Err e => merr (map_engine_error e)
  end.

Fixpoint get_items (envs : nat -> ReadEnv) (k : nat) (connection_id : Z) (items : list GetParams)
  : Surf (list (result GetResult ReadError)) :=
  match items with
  | [] => mret []
  | item :: rest =>
      do! r <- mtry (get (envs k) connection_id item) ;;
      do! rs <- get_items envs (k + 1) connection_id rest ;;
      mret (r :: rs)
  end.

(** [get_many]: the [k]-th item runs under [envs k]. *)
Definition get_many (envs : nat -> ReadEnv) (connection_id : Z) (items : list GetParams)
  : Surf (list (result GetResult ReadError)) :=
  if (Z.to_nat GET_MANY_MAX <? length items)%nat then mret [Err ReTooManyItems]
  else get_items envs 0 connection_id items.

(** The outer result is this vault's refusal, the inner one a home vault's. *)
Definition get_scoped (env : ReadEnv) (principal : option Principal) (params : GetScopedParams)
  : Surf (result GetResult RemoteRefusal) :=
  let id := gsp_credential_id params in
  do! incarnation <- surf_try env 0 (credential_incarnation id) ;;
  do! remote <- surf_try env 1 (remote_record id) ;;
  do! _ <- authorize_scoped_as env principal (gsp_enrollment_token params) id OpRead ;;
  match remote with
  | Ok (Some record) =>
      do! answer <- surf_try env 5 (remote_get record (gsp_min_ttl_ms params)) ;;
      mret (match answer with
            | Ok r => Ok {| gr_payload := gr_payload r; gr_expires_at_ms := gr_expires_at_ms r;
                            gr_record_version := gr_record_version r; gr_credential_id := Some id;
                            gr_project_id := gr_project_id r; gr_account_id := gr_account_id r;
                            gr_email := gr_email r; gr_org_name := gr_org_name r |}
            | Err refusal => Err refusal
            end)
  | Err e => merr (map_store_error e)
  | Ok None =>
      match incarnation with
      | Err e => merr (map_store_error e)
      | Ok incarnation =>
          do! got <- engine_try (Engine.get_in_incarnation (re_engine env) id incarnation
                       (gsp_min_ttl_ms params) false) ;;
          match got with
          | Ok refreshed =>
              do! r <- answer_record env id (gsp_min_ttl_ms params) refreshed ;; mret (Ok r)
          | Err (EngineStore NotFound) =>
              do! _ <- record_scoped_refusal env 7 principal id RefNotFound ;; merr ReNotFound
          | Err e => merr (map_engine_error e)
          end
      end
  end.

(** *** [credential.report_auth_failure] *)

Definition report_address (env : ReadEnv) (connection_id : Z) (principal : option Principal)
    (params : ReportAuthFailureParams) : Surf (string * string * bool) :=
  match rp_handle params, rp_credential_id params with
  | Some handle, None =>
      do! _ <- check_limiter env connection_id handle ;;
      do! target <- resolve_presented env handle ;;
      mret (target, false)
  | None, Some id =>
      do! incarnation <- surf_try env 0 (credential_incarnation id) ;;
      do! _ <- authorize_scoped_as env principal (rp_enrollment_token params) id OpRead ;;
      do! incarnation <- mlift (map_err map_store_error incarnation) ;;
      mret (id, incarnation, true)
  | _, _ => merr ReNotFound
  end.

Definition report_actor (connection_id : Z) (scoped : bool) (resolved : option (string * string)) : string :=
  match scoped, resolved with
  | true, Some (k, name) => if bool_decide (k = "enrolled") then "enrolled:" ++ name else name
  | _, _ => channel_actor connection_id
  end.

Definition report_auth_failure (env : ReadEnv) (connection_id : Z) (principal : option Principal)
    (params : ReportAuthFailureParams) : Surf unit :=
  do! address <- report_address env connection_id principal params ;;
  let '(credential_id, incarnation, scoped) := address in
  if negb (bool_decide (rp_provider_status params = 401) || bool_decide (rp_provider_status params = 403))
  then merr ReReportStatusNotCredentialDeath else
  do! resolved <- scoped_principal env 5 principal (rp_enrollment_token params) ;;
  let parsed := parse_credential_id credential_id in
  let refreshable := is_some (default_refresh_adapter (method parsed) (provider parsed)) in
  let audit := {| ctx_op := ReportAuthFailure; ctx_actor := report_actor connection_id scoped resolved;
                  ctx_alarm := None |} in
  let observation :=
    {| obs_kind := event_kind_as_str (if refreshable then EvConsumerReportStale else EvConsumerReportLatch);
       obs_provider_status := Some (rp_provider_status params); obs_detail := None;
       obs_reporter_source := reporter_source_from_wire <$> rp_reporter_source params;
       obs_principal := match resolved with
                        | Some (k, name) => if bool_decide (k = "enrolled") then Some (PEnrolled name)
                                            else observed_principal principal
                        | None => observed_principal principal
                        end |} in
  do! r <- (if refreshable
            then surf_try env 6 (mark_stale_in_incarnation (re_inputs env 6) credential_id
                   (rp_record_version params) incarnation audit observation)
            else surf_try env 6 (invalidate_in_incarnation (re_inputs env 6) credential_id
                   (rp_record_version params) incarnation audit (Some observation))) ;;
  do! _ <- mlift (map_err map_store_error r) ;;
  mret tt.

(** *** [credential.status] *)

Definition unavailable (lease_held : bool) (code : ReadError) (id : option string) : StatusResult :=
  {| ss_ready := false; ss_last_error_code := Some code; ss_lease_held := lease_held;
     ss_credential_id := id; ss_record_version := None; ss_stale_pending := None |}.

Definition status_of_meta (env : ReadEnv) (principal : option Principal) (fenced_out scoped : bool)
    (id : string) : Surf StatusResult :=
  do! found <- surf_try env 6 (meta id) ;;
  match found with
  | Ok m =>
      let is_active := bool_decide (rm_state m = Active) in
      mret {| ss_ready := negb fenced_out && is_active;
              ss_last_error_code := match rm_state m with
                                    | NeedsReauthState | Retired => Some ReNeedsReauth
                                    | CorruptState => Some ReCorrupt
                                    | Active => None
                                    end;
              ss_lease_held := negb fenced_out; ss_credential_id := Some id;
              ss_record_version := Some (rm_record_version m);
              ss_stale_pending := Some (if is_active then rm_stale_pending m else false) |}
  | Err e =>
      if scoped : bool then
        do! _ <- record_scoped_refusal env 7 principal id
                   (match e with NotFound => RefNotFound | _ => RefStoreError end) ;;
        mret (unavailable (negb fenced_out) ReNotFound None)
      else mret (unavailable (negb fenced_out) (map_store_error e) (Some id))
  end.

Definition status (env : ReadEnv) (connection_id : Z) (principal : option Principal) (params : StatusParams)
  : Surf StatusResult :=
  do! fenced_out <- (fun s => (Ok (is_fenced_out (sf_store s)), s)) ;;
  match stp_handle params, stp_credential_id params with
  | None, None =>
      mret {| ss_ready := negb fenced_out; ss_last_error_code := None; ss_lease_held := negb fenced_out;
              ss_credential_id := None; ss_record_version := None; ss_stale_pending := None |}
  | Some handle, None =>
      do! _ <- check_limiter env connection_id handle ;;
      do! resolved <- surf_try env 1 (resolve_handle handle) ;;
      match (let? id := resolved in
             if transfer_key_fenced id AccHandle then Err NotFound else Ok id) with
      | Ok id => status_of_meta env principal fenced_out false id
      | Err e => mret (unavailable (negb fenced_out) (map_store_error e) None)
      end
  | None, Some id =>
      do! who <- mtry (authorize_scoped_for env principal (stp_enrollment_token params) id OpRead AnnounceVersion) ;;
      match who with
      | Ok _ => status_of_meta env principal fenced_out true id
      | Err _ => mret (unavailable (negb fenced_out) ReNotFound None)
      end
  | Some _, Some _ => mret (unavailable (negb fenced_out) ReNotFound None)
  end.

(** *** Health, off and on the probe path *)

Definition compute_health (env : ReadEnv) : Surf VaultHealth :=
  do! metas <- surf_try env 0 list_meta ;;
  match metas with
  | Err _ => mret health_unreadable
  | Ok metas =>
      do! intents <- surf_try env 1 list_intents ;;
      do! tip <- surf_try env 2 audit_tip_of ;;
      do! fenced_out <- (fun s => (Ok (is_fenced_out (sf_store s)), s)) ;;
      mret (with_audit_tip (match tip with Ok t => t | Err _ => None end)
              (summarize metas (match intents with Ok l => length l | Err _ => 0%nat end) fenced_out))
  end.

Definition refresh_health (env : ReadEnv) : Surf unit :=
  do! fresh <- compute_health env ;;
  fun s => (Ok tt, {| sf_engine := sf_engine s; sf_limiter := sf_limiter s;
                      sf_open_refusals := sf_open_refusals s; sf_health := fresh;
                      sf_last_refresh := re_instant env |}).

Definition health_snapshot_with_refresh_age (age : Z) (s : Surface Conn) : VaultHealth :=
  if HEALTH_STALE_LIMIT <? age then mark_refresher_stalled (sf_health s) else sf_health s.

(** [Instant::elapsed] saturates at zero. *)
Definition health_snapshot (now : Z) (s : Surface Conn) : VaultHealth :=
  health_snapshot_with_refresh_age (Z.max 0 (now - sf_last_refresh s)) s.

Definition surface_drop_channel (channel : Z) (s : Surface Conn) : Surface Conn :=
  set_limiter (drop_channel (sf_limiter s) channel)
    (set_open_refusals (filter (fun kv => kv.1 mod 2 ^ 16 <> channel) (sf_open_refusals s)) s).

Definition surface_drop_connection (connection_id : Z) (s : Surface Conn) : Surface Conn :=
  set_limiter (drop_connection (sf_limiter s) connection_id)
    (set_open_refusals (delete connection_id (sf_open_refusals s)) s).

(** *** Exercising vault-held keys *)

Inductive KeyAddress := KeyHandle (handle : string) | KeyScoped (credential_id : string).

(** [authorization]: exactly one of the two addresses. *)
Definition key_authorization (handle credential_id : option string) : option KeyAddress :=
  match handle, credential_id with
  | Some handle, None => Some (KeyHandle handle)
  | None, Some id => Some (KeyScoped id)
  | _, _ => None
  end.

Record ResolvedKeyAddress := {
  rka_credential_id : string;
  rka_incarnation : string;
  rka_principal : option (string * string);
}.

Definition resolve_key_address (env : ReadEnv) (connection_id : Z) (principal : option Principal)
    (token : option string) (address : KeyAddress) (o : GrantOperation) (usage : TransferKeyUse)
  : Surf ResolvedKeyAddress :=
  match address with
  | KeyHandle handle =>
      do! _ <- check_limiter env connection_id handle ;;
      do! target <- resolve_presented env handle ;;
      mret {| rka_credential_id := target.1; rka_incarnation := target.2; rka_principal := None |}
  | KeyScoped id =>
      do! incarnation <- surf_try env 0 (credential_incarnation id) ;;
      do! who <- authorize_scoped_for env principal token id o usage ;;
      do! incarnation <- mlift (map_err map_store_error incarnation) ;;
      mret {| rka_credential_id := id; rka_incarnation := incarnation; rka_principal := Some who |}
  end.

Definition payload_text (record : VaultRecord) (e : ReadError) : result string ReadError :=
  if utf8_valid (payload record) then Ok (String.string_of_list_byte (payload record)) else Err e.

(** The read of the key record: store call 5. *)
Definition key_record (env : ReadEnv) (principal : option Principal) (scoped : bool) (id incarnation : string)
  : Surf StoredRead :=
  do! found <- surf_try env 5 (get_snapshot (re_inputs env 5) id incarnation) ;;
  match found with
  | Ok r => mret r
  | Err NotFound =>
      if scoped then
        do! _ <- record_scoped_refusal env 7 principal id RefNotFound ;; merr ReNotFound
      else merr (map_store_error NotFound)
  | Err e => merr (map_store_error e)
  end.

Context `{E : Ed25519}.

Record SignParams := {
  sp_handle : option string; sp_credential_id : option string; sp_payload_b64 : string;
  sp_enrollment_token : option string }.

(** No row, no signature and no ciphertext. *)
Definition audit_failure (e : StoreOpError) : ReadError :=
  match e with NotFound => ReNotFound | _ => ReStoreError end.

Definition sign (env : ReadEnv) (connection_id : Z) (principal : option Principal) (params : SignParams)
  : Surf Signature :=
  do! address <- mlift (ok_or (key_authorization (sp_handle params) (sp_credential_id params)) ReNotFound) ;;
  do! resolved <- resolve_key_address env connection_id principal (sp_enrollment_token params) address OpSign Ordinary ;;
  let id := rka_credential_id resolved in
  do! snapshot <- key_record env principal (is_some (sp_credential_id params)) id (rka_incarnation resolved) ;;
  let record := sr_record snapshot in
  if negb (bool_decide (kind record = SigningKey)) then merr ReKindNotSignable else
  do! bytes <- mlift (ok_or (b64_decode (sp_payload_b64 params)) ReMalformedEncoding) ;;
  do! pem <- mlift (payload_text record ReCorrupt) ;;
  do! prepared <- mlift (map_err (fun e => match e with
                                           | SignTooLarge _ _ => ReSignPayloadTooLarge
                                           | UnusableSigningKey _ => ReCorrupt
                                           end) (prepare_ed25519 pem bytes)) ;;
  do! _ <- (if audit_each_signature record then
      do! fallback <- (match rka_principal resolved with
                       | Some who => mret (Some who)
                       | None => scoped_principal env 8 principal None
                       end) ;;
      let actor := match fallback with
                   | Some (k, pid) => (k ++ ":" ++ pid)%string
                   | None => channel_actor connection_id
                   end in
      do! audited <- surf_try env 6 (append_signature_audit (re_inputs env 6) id (record_version record)
                       (sr_incarnation snapshot) bytes actor) ;;
      do! _ <- mlift (map_err audit_failure audited) ;; mret tt
    else mret tt) ;;
  mret (finish_signature prepared).

(** The refusal counter [open] and [seal] share. *)
Definition open_gate (env : ReadEnv) (connection_id : Z) (limited : ReadError) : Surf unit :=
  fun s =>
    match sf_open_refusals s !! connection_id with
    | Some (start, count) =>
        if OPEN_REFUSAL_WINDOW <=? Z.max 0 (re_instant env - start)
        then (Ok tt, set_open_refusals (delete connection_id (sf_open_refusals s)) s)
        else if OPEN_REFUSAL_THRESHOLD <=? count then (Err limited, s) else (Ok tt, s)
    | None => (Ok tt, s)
    end.

Definition count_refusal (env : ReadEnv) (connection_id : Z) : Surf unit :=
  fun s =>
    let '(start, count) := default (re_instant env, 0) (sf_open_refusals s !! connection_id) in
    let '(start, count) := if OPEN_REFUSAL_WINDOW <=? Z.max 0 (re_instant env - start)
                           then (re_instant env, 0) else (start, count) in
    (Ok tt, set_open_refusals (<[connection_id := (start, count + 1)]> (sf_open_refusals s)) s).

(** Answer [not_found] and count it. *)
Definition refuse {A} (env : ReadEnv) (connection_id : Z) : Surf A :=
  do! _ <- count_refusal env connection_id ;; merr ReNotFound.

Record OpenParams := {
  op_credential_id : string; op_enc_b64 : string; op_ciphertext_b64 : string;
  op_info_b64 : string; op_aad_b64 : string; op_enrollment_token : option string }.
Record OpenResult := { or_plaintext_b64 : string; or_key_id : string }.

(** [MAX_SIGN_PAYLOAD.div_ceil(3) * 4 + 12]. *)
Definition ENC_BOUND : Z := (MAX_SIGN_PAYLOAD + 2) / 3 * 4 + 12.

Definition str_len (s : string) : Z := Z.of_nat (String.length s).
Definition bytes_len (b : bytes) : Z := Z.of_nat (length b).

Definition open_fields (params : OpenParams) : result (bytes * bytes * bytes * bytes) ReadError :=
  if ENC_BOUND <? str_len (op_enc_b64 params) + str_len (op_ciphertext_b64 params) +
                  str_len (op_info_b64 params) + str_len (op_aad_b64 params)
  then Err ReSignPayloadTooLarge else
  let decode field := ok_or (b64_decode field) ReMalformedEncoding in
  let? enc := decode (op_enc_b64 params) in
  let? ciphertext := decode (op_ciphertext_b64 params) in
  let? info := decode (op_info_b64 params) in
  let? aad := decode (op_aad_b64 params) in
  if MAX_SIGN_PAYLOAD <? bytes_len enc + bytes_len ciphertext + bytes_len info + bytes_len aad
  then Err ReSignPayloadTooLarge else Ok (enc, ciphertext, info, aad).

Definition open_sealed (env : ReadEnv) (connection_id : Z) (principal : option Principal) (params : OpenParams)
  : Surf OpenResult :=
  do! fields <- mlift (open_fields params) ;;
  let '(enc, ciphertext, info, aad) := fields in
  do! _ <- open_gate env connection_id ReOpenRateLimited ;;
  do! resolved <- mtry (resolve_key_address env connection_id principal (op_enrollment_token params)
                          (KeyScoped (op_credential_id params)) OpOpen Ordinary) ;;
  match resolved with
  | Err ReNotFound => refuse env connection_id
  | Err e => merr e
  | Ok resolved =>
      do! snapshot <- surf_try env 5 (get_snapshot (re_inputs env 5) (rka_credential_id resolved)
                                        (rka_incarnation resolved)) ;;
      do! snapshot <- mlift (map_err map_store_error snapshot) ;;
      let record := sr_record snapshot in
      if negb (bool_decide (kind record = KemKey)) then merr ReKindNotOpenable else
      do! pem <- mlift (payload_text record ReOpenFailed) ;;
      do! half <- mlift (map_err (fun _ => ReOpenFailed) (public_half pem)) ;;
      do! plaintext <- mlift (map_err (fun _ => ReOpenFailed) (open_base pem enc ciphertext info aad)) ;;
      mret {| or_plaintext_b64 := b64_encode plaintext; or_key_id := half.2 |}
  end.

Record SealParams := {
  slp_credential_id : string; slp_recipient_public_key_b64 : string; slp_info_b64 : string;
  slp_aad_b64 : string; slp_plaintext_b64 : string; slp_enrollment_token : option string }.
Record SealResult := { slr_enc_b64 : string; slr_ciphertext_b64 : string; slr_key_id : string }.

(** [cap.div_ceil(3) * 4]. *)
Definition encoded_cap (cap : Z) : Z := (cap + 2) / 3 * 4.

(** Everything checked before anything is authorized or read:
    recipient, plaintext, info, aad. *)
Definition seal_fields (params : SealParams) : result (bytes * bytes * bytes * bytes) ReadError :=
  if (encoded_cap MAX_SEAL_PLAINTEXT <? str_len (slp_plaintext_b64 params)) ||
     (encoded_cap MAX_SEAL_INFO <? str_len (slp_info_b64 params)) ||
     (encoded_cap MAX_SEAL_AAD <? str_len (slp_aad_b64 params)) then Err ReSealInputTooLarge else
  if encoded_cap (Z.of_nat X25519_PUBLIC_KEY_LEN) <? str_len (slp_recipient_public_key_b64 params)
  then Err ReInvalidRecipientKey else
  let decode field := ok_or (b64_decode field) ReMalformedEncoding in
  let? recipient := decode (slp_recipient_public_key_b64 params) in
  let? info := decode (slp_info_b64 params) in
  let? aad := decode (slp_aad_b64 params) in
  let? plaintext := decode (slp_plaintext_b64 params) in
  let? _ := map_err map_seal_error (check_seal_inputs recipient plaintext info aad) in
  Ok (recipient, plaintext, info, aad).

(** The key a seal request names, behind the one refusal for everything about it. *)
Definition sealing_key (env : ReadEnv) (connection_id : Z) (principal : option Principal) (params : SealParams)
  : Surf ((string * string) * StoredRead) :=
  let id := slp_credential_id params in
  do! incarnation <- surf_try env 0 (credential_incarnation id) ;;
  do! who <- mtry (authorize_scoped_as env principal (slp_enrollment_token params) id OpSeal) ;;
  match who with
  | Err _ => refuse env connection_id
  | Ok who =>
      do! snapshot <- (match incarnation with
                       | Ok incarnation => surf_try env 5 (get_snapshot (re_inputs env 5) id incarnation)
                       | Err e => mret (Err e)
                       end) ;;
      match snapshot with
      | Err e =>
          do! _ <- record_scoped_refusal env 7 principal id
                     (match e with NotFound => RefNotFound | _ => RefStoreError end) ;;
          refuse env connection_id
      | Ok snapshot =>
          if negb (bool_decide (kind (sr_record snapshot) = KemKey)) then
            do! _ <- record_scoped_refusal env 7 principal id RefWrongKind ;; refuse env connection_id
          else mret (who, snapshot)
      end
  end.

(** [rnd] is the ephemeral draw of the HPKE crate. *)
Definition seal_message (env : ReadEnv) (rnd : bytes) (connection_id : Z) (principal : option Principal)
    (params : SealParams) : Surf SealResult :=
  do! fields <- mlift (seal_fields params) ;;
  let '(recipient, plaintext, info, aad) := fields in
  do! _ <- open_gate env connection_id ReSealRateLimited ;;
  do! key <- sealing_key env connection_id principal params ;;
  let '(who, snapshot) := key in
  let record := sr_record snapshot in
  do! pem <- mlift (payload_text record ReCorrupt) ;;
  do! half <- mlift (map_err (fun _ => ReCorrupt) (public_half pem)) ;;
  do! sealed <- mlift (map_err map_seal_error (seal_auth rnd pem recipient plaintext info aad)) ;;
  do! audited <- surf_try env 6 (append_seal_audit (re_inputs env 6) (slp_credential_id params)
                   (record_version record) (sr_incarnation snapshot) plaintext (who.1 ++ ":" ++ who.2)%string) ;;
  do! _ <- mlift (map_err audit_failure audited) ;;
  mret {| slr_enc_b64 := b64_encode sealed.1; slr_ciphertext_b64 := b64_encode sealed.2; slr_key_id := half.2 |}.

Record PublicKeyParams := {
  pkp_handle : option string; pkp_credential_id : option string; pkp_enrollment_token : option string }.
Record PublicKeyResult := { pkr_public_key_hex : string; pkr_key_id : string; pkr_algorithm : string }.

Definition public_key (env : ReadEnv) (connection_id : Z) (principal : option Principal) (params : PublicKeyParams)
  : Surf PublicKeyResult :=
  let scoped := is_some (pkp_credential_id params) in
  do! address <- mlift (ok_or (key_authorization (pkp_handle params) (pkp_credential_id params)) ReNotFound) ;;
  do! resolved <- resolve_key_address env connection_id principal (pkp_enrollment_token params) address
                    OpRead PublicKeyAnnounce ;;
  let id := rka_credential_id resolved in
  do! found <- surf_try env 5 (get_snapshot (re_inputs env 5) id (rka_incarnation resolved)) ;;
  match found with
  | Err e =>
      do! _ <- (if scoped
                then record_scoped_refusal env 7 principal id
                       (match e with NotFound => RefNotFound | _ => RefStoreError end)
                else mret tt) ;;
      merr (map_store_error e)
  | Ok snapshot =>
      let record := sr_record snapshot in
      if negb (bool_decide (kind record = SigningKey) || bool_decide (kind record = KemKey)) then
        do! _ <- (if scoped then record_scoped_refusal env 7 principal id RefWrongKind else mret tt) ;;
        merr ReKindNotSignable
      else
        do! pem <- mlift (payload_text record ReCorrupt) ;;
        if bool_decide (kind record = KemKey) then
          do! half <- mlift (map_err (fun _ => ReCorrupt) (public_half pem)) ;;
          mret {| pkr_public_key_hex := hex half.1; pkr_key_id := half.2; pkr_algorithm := "x25519" |}
        else
          do! public <- mlift (map_err (fun _ => ReCorrupt) (public_key_ed25519 pem)) ;;
          mret {| pkr_public_key_hex := pk_public_key_hex public; pkr_key_id := pk_key_id public;
                  pkr_algorithm := "ed25519" |}
  end.

(** *** [credential.list_scoped] and the digests of [auth.watch_scoped] *)

Record GrantTuple := { gt_selector_kind : string; gt_selector : string; gt_operation : string }.

Record ListScopedCredential := {
  lc_id : string;
  lc_categories : list string;
  lc_credential_type : string;
  lc_serves : list ModelVendor;
  lc_refresh_adapter : option string;
  lc_state : string;
  lc_record_version : Z;
  lc_operations : list string;
  lc_account_id : option string;
  lc_email : option string;
  lc_org_name : option string;
  lc_provider_ids : list string;
  lc_plan_tier : option string;
  lc_plan_tier_source : option string;
  lc_auth_method : option string;
}.

Record ListScopedResult := {
  lr_credentials : list ListScopedCredential;
  lr_grants : nat;
  lr_grant_tuples : list GrantTuple;
  lr_view : string;
}.

(** [(value as u32).to_be_bytes()]. *)
Definition push_u32 (n : nat) : bytes := rev (le_bytes 4 (Z.of_nat n)).
Definition push_string (s : string) : bytes := push_u32 (String.length s) ++ str_bytes s.
Definition push_optional_string (o : option string) : bytes :=
  match o with Some s => x01 :: push_string s | None => [x00] end.
Definition push_strings (l : list string) : bytes := push_u32 (length l) ++ concat (map push_string l).

Definition encoded_grant_tuple (t : GrantTuple) : bytes :=
  push_string (gt_selector_kind t) ++ push_string (gt_selector t) ++ push_string (gt_operation t).

Definition encoded_credential (c : ListScopedCredential) : bytes :=
  push_string (lc_id c) ++ push_strings (lc_categories c) ++ push_string (lc_state c) ++
  push_strings (lc_operations c) ++ push_optional_string (lc_account_id c) ++
  push_optional_string (lc_email c) ++ push_optional_string (lc_org_name c) ++
  push_strings (lc_provider_ids c) ++ push_optional_string (lc_auth_method c) ++
  push_optional_string (lc_plan_tier c) ++ push_optional_string (lc_plan_tier_source c).

(** The digest's input. *)
Definition view_input (credentials : list ListScopedCredential) (grants : list GrantTuple) : bytes :=
  str_bytes "claustrum.list_scoped.view.v1" ++ [x01] ++ push_u32 (length credentials) ++
  concat (map encoded_credential credentials) ++
  [x02] ++ push_u32 (length grants) ++ concat (map encoded_grant_tuple grants).

Definition list_scoped_view (credentials : list ListScopedCredential) (grants : list GrantTuple) : string :=
  b64_encode (sha256 (view_input credentials grants)).

Definition list_method_as_str (m : ListAuthMethod) : string :=
  match m with LApikey => "apikey" | LChatgpt => "chatgpt" | LAntigravity => "antigravity" | LOauth => "oauth" end.

Definition grant_tuple (g : ReadGrant) : GrantTuple :=
  {| gt_selector_kind := selector_as_str (g_selector_kind g); gt_selector := g_selector g;
     gt_operation := operation_as_str (g_operation g) |}.

Definition project_row (row : ScopedListRow) : ListScopedCredential :=
  {| lc_id := sl_id row; lc_categories := sl_categories row; lc_credential_type := credential_type (sl_id row);
     lc_serves := serves_for (sl_id row); lc_refresh_adapter := sl_refresh_adapter row;
     lc_state := state_as_str (sl_state row); lc_record_version := sl_record_version row;
     lc_operations := map operation_as_str (sl_operations row);
     lc_account_id := sl_identity row ≫= account_id; lc_email := sl_identity row ≫= email;
     lc_org_name := sl_identity row ≫= org_name; lc_provider_ids := sl_provider_ids row;
     lc_plan_tier := sl_plan_tier row; lc_plan_tier_source := sl_plan_tier_source row;
     lc_auth_method := list_method_as_str <$> sl_auth_method row |}.

Definition tuple_le (x y : GrantTuple) : Prop :=
  Is_true (String.leb (String.string_of_list_byte (encoded_grant_tuple x))
                      (String.string_of_list_byte (encoded_grant_tuple y))).
#[local] Instance tuple_le_dec : RelDecision tuple_le.
Proof. intros x y. unfold tuple_le. apply _. Defined.

Definition listed_le (x y : ListScopedCredential) : Prop := string_le (lc_id x) (lc_id y).
#[local] Instance listed_le_dec : RelDecision listed_le.
Proof. intros x y. unfold listed_le. apply _. Defined.

Definition project_list_scoped (snapshot : ScopedListSnapshot) : ListScopedResult :=
  let tuples := merge_sort tuple_le (map grant_tuple
    (List.filter (fun g => negb (bool_decide (g_operation g = OpDeposit))) (snap_grants snapshot))) in
  let credentials := merge_sort listed_le (map project_row (snap_rows snapshot)) in
  {| lr_credentials := credentials; lr_grants := length tuples; lr_grant_tuples := tuples;
     lr_view := list_scoped_view credentials tuples |}.

Definition list_scoped_first_use_operations (rows : list ScopedListRow) : list GrantOperation :=
  let has o row := bool_decide (o ∈ sl_operations row) in
  let read := existsb (has OpRead) rows in
  let list := existsb (fun row => negb (has OpRead row) && has OpList row) rows in
  match read, list with
  | true, true => [OpRead; OpList]
  | false, true => [OpList]
  | _, _ => [OpRead]
  end.

Definition row_le (x y : ScopedListRow) : Prop := string_le (sl_id x) (sl_id y).
#[local] Instance row_le_dec : RelDecision row_le.
Proof. intros x y. unfold row_le. apply _. Defined.

(** Store call 5. *)
Definition add_remote_rows (env : ReadEnv) (snapshot : ScopedListSnapshot) : Surf ScopedListSnapshot :=
  do! remote <- surf_try env 5 (remote_scoped_rows (snap_grants snapshot)) ;;
  match remote with
  | Err _ => merr ReStoreError
  | Ok [] => mret snapshot
  | Ok rows => mret {| snap_rows := merge_sort row_le (snap_rows snapshot ++ rows);
                       snap_grants := snap_grants snapshot |}
  end.

(** No listing shows the transfer key or a deposit key. *)
Definition fence_rows (k pid : string) (snapshot : ScopedListSnapshot) : ScopedListSnapshot :=
  {| snap_rows := List.filter (fun row => negb (transfer_key_fenced (sl_id row) (AccScoped k pid Ordinary)))
                    (snap_rows snapshot);
     snap_grants := snap_grants snapshot |}.

Fixpoint record_first_uses (env : ReadEnv) (i : nat) (k pid : string) (ops : list GrantOperation) : Surf unit :=
  match ops with
  | [] => mret tt
  | o :: rest =>
      do! _ <- surf_try env i (record_scoped_first_use (re_inputs env i) "credential.list_scoped" k (Some pid) o) ;;
      record_first_uses env (i + 1) k pid rest
  end.

Definition list_scoped (env : ReadEnv) (principal : option Principal) (token : option string)
  : Surf ListScopedResult :=
  do! who <- scoped_principal env 2 principal token ;;
  match who with
  | None =>
      do! _ <- record_scoped_refusal env 4 principal "credential.list_scoped" RefNoGrant ;; merr ReNotFound
  | Some (k, pid) =>
      do! snapshot <- surf_try env 3 (list_scoped_snapshot k pid) ;;
      match snapshot with
      | Err _ => merr ReStoreError
      | Ok snapshot =>
          do! snapshot <- add_remote_rows env snapshot ;;
          let snapshot := fence_rows k pid snapshot in
          do! _ <- record_first_uses env 6 k pid (list_scoped_first_use_operations (snap_rows snapshot)) ;;
          mret (project_list_scoped snapshot)
      end
  end.

Definition key_le (x y : string * Z) : Prop := string_le x.1 y.1.
#[local] Instance key_le_dec : RelDecision key_le.
Proof. intros x y. unfold key_le. apply _. Defined.

Definition push_u64 (z : Z) : bytes := rev (le_bytes 8 z).

Definition keys_input (keys : list (string * Z)) : bytes :=
  str_bytes "claustrum.watch_scoped.keys.v1" ++ [x01] ++ push_u32 (length keys) ++
  concat (map (fun kv => push_string kv.1 ++ push_u64 kv.2) keys).

(** The digests of a watcher's inventory and of the keys it holds: writes nothing. *)
Definition watch_scoped (env : ReadEnv) (principal : option Principal) (token : option string)
  : Surf (string * string) :=
  do! who <- scoped_principal env 2 principal token ;;
  match who with
  | None => merr ReNotFound
  | Some (k, pid) =>
      do! found <- surf_try env 3 (watch_scoped_snapshot k pid) ;;
      match found with
      | Err _ => merr ReStoreError
      | Ok (snapshot, keys) =>
          do! snapshot <- add_remote_rows env snapshot ;;
          let snapshot := fence_rows k pid snapshot in
          let keys := merge_sort key_le (List.filter (fun kv =>
            negb (transfer_key_fenced kv.1 (AccScoped k pid AnnounceVersion))) keys) in
          mret (lr_view (project_list_scoped snapshot), b64_encode (sha256 (keys_input keys)))
      end
  end.
End ReadSurface.
End ReadSurface.
