(* ===== verification/SecretSpecs.v ===== *)
(** * What the operations on agent secrets keep and need

    [secrets_ok] is the invariant of the secret tables over histories of the whole vault;
    [winds_down] relates databases between which nothing was stored or granted. The
    release theorems say what a released secret needs, the grant theorems where a grant
    comes from. *)

From stdpp Require Import gmap sorting.
From S2P Require Import Prelude Text Crypto Json Record CredentialId Catalog Envelope AuditLog Database Store TxLogic Secrets Kem SecretStore Calls SecretCalls Grants Enrollment Access.

(** ** Nothing is stored or granted *)

(** The columns of a row that never change while it lives. *)
Definition grant_identity : SecretGrantRow -> SecretGrantRow := set_released 0.
Definition flow_grant_identity : FlowGrantRow -> FlowGrantRow := touch_flow_grant true None.

Record winds_down (d d' : Db) : Prop := {
  wd_secrets : corrupt_secret <$> agent_secrets d' = corrupt_secret <$> agent_secrets d;
  wd_grants : grant_identity <$> secret_grants (secrets d') ⊆ grant_identity <$> secret_grants (secrets d);
  wd_flows : flow_grant_identity <$> secret_flow_grants (secrets d') ⊆ flow_grant_identity <$> secret_flow_grants (secrets d);
  wd_requests : consume_request <$> secret_pending_requests (secrets d') ⊆ consume_request <$> secret_pending_requests (secrets d);
  wd_home : read_setting SECRET_HOME_SETTING d' = read_setting SECRET_HOME_SETTING d;
  wd_log : audit_log d `prefix_of` audit_log d';
}.

#[global] Instance winds_down_preorder : PreOrder winds_down.
Proof.
  split; [by intros d; split|]. intros x y z [] []. split; try (by etrans); congruence.
Qed.

(** What an operation may do to one table on the way down. *)
Lemma fmap_alter_same {V W} (f : V -> W) (h : V -> V) (i : string) (m : gmap string V) :
  (forall v, f (h v) = f v) -> f <$> alter h i m = f <$> m.
Proof.
  intros Hf. apply map_eq. intros j. rewrite !lookup_fmap. destruct (decide (i = j)) as [->|Hj].
  - rewrite lookup_alter_eq. destruct (m !! j); cbn; by rewrite ?Hf.
  - by rewrite lookup_alter_ne.
Qed.

Lemma fmap_shrinks {V W} (f : V -> W) (m m' : gmap string V) : m' ⊆ m -> f <$> m' ⊆ f <$> m.
Proof. apply map_fmap_mono. Qed.

Lemma drop_rows_shrinks {V} (p : string * V -> bool) (m : gmap string V) : drop_rows p m ⊆ m.
Proof. apply map_filter_subseteq. Qed.

Lemma winds_down_grants f :
  (forall m, grant_identity <$> f m ⊆ grant_identity <$> m) -> tx_rel winds_down (exec (with_secret_grants f)).
Proof. intros Hf d a d' [= _ <-]. split; first [done|apply Hf]. Qed.
Lemma winds_down_flows f :
  (forall m, flow_grant_identity <$> f m ⊆ flow_grant_identity <$> m) -> tx_rel winds_down (exec (with_flow_grants f)).
Proof. intros Hf d a d' [= _ <-]. split; first [done|apply Hf]. Qed.

Lemma winds_down_requests f :
  (forall m, consume_request <$> f m ⊆ consume_request <$> m) -> tx_rel winds_down (exec (with_requests f)).
Proof. intros Hf d a d' [= _ <-]. split; first [done|apply Hf]. Qed.

Lemma winds_down_corrupt cond : tx_rel winds_down (exec (corrupt_active cond)).
Proof.
  intros d a d' [= _ <-]. split; try done. cbn. apply map_eq. intros n. rewrite !lookup_fmap, map_lookup_imap.
  destruct (agent_secrets d !! n) as [r|]; cbn; [|done]. by destruct (_ && _).
Qed.

Lemma winds_down_mapping v t : tx_rel winds_down (exec (with_settings (insert PHONE_MAPPING_SETTING (v, t)))).
Proof.
  intros d a d' [= _ <-]. split; try done. unfold read_setting. cbn. destruct (_ <? _); [done|].
  by rewrite lookup_insert_ne.
Qed.

Lemma winds_down_audit `{Crypto} ak ts r : tx_rel winds_down (append_audit_tx ak ts r).
Proof. intros d a d' [= _ <-]. split; try done. cbn. unfold append_audit. by eexists. Qed.

(** The statements that respect [winds_down]. *)
Ltac down_shrinks := intros;
  first [ apply fmap_shrinks, drop_rows_shrinks
        | apply fmap_shrinks, delete_subseteq
        | rewrite fmap_alter_same by done; reflexivity
        | case_bool_decide; down_shrinks ].
Ltac down_frame :=
  intros ?d ?a ?d' ?H;
  lazymatch goal with H : _ = (Ok _, _) |- _ =>
    unfold trim_auth_events_tx, insert_credential, write_receipt, exec, query, mret, merr, mlift in H;
    repeat match type of H with context [match ?x with _ => _ end] => destruct x eqn:? end;
    simplify_eq; by split
  end.
Ltac down_step := lazymatch goal with
  | |- tx_rel winds_down (append_audit_tx _ _ _) => apply winds_down_audit
  | |- tx_rel winds_down (exec (with_secret_grants _)) => apply winds_down_grants; down_shrinks
  | |- tx_rel winds_down (exec (with_flow_grants _)) => apply winds_down_flows; down_shrinks
  | |- tx_rel winds_down (exec (with_requests _)) => apply winds_down_requests; down_shrinks
  | |- tx_rel winds_down (exec (corrupt_active _)) => apply winds_down_corrupt
  | |- tx_rel winds_down (exec (with_settings _)) => apply winds_down_mapping
  | |- tx_rel winds_down (exec _) => down_frame
  | |- tx_rel winds_down (trim_auth_events_tx _) => down_frame
  | |- tx_rel winds_down (write_receipt _ _ _ _ _ _ _) => down_frame
  | |- tx_rel winds_down (insert_credential _ _ _) => down_frame
  end.
Ltac down_solve := secret_solve ltac:(idtac; down_step).

Section Bodies.
Context `{C : Crypto} `{RX : RecordExt} `{SE : SecretEnv}.

Lemma sweep_down ak ts now : tx_rel winds_down (sweep ak ts now).
Proof. down_solve. Qed.
Lemma drop_stale_down now member : tx_rel winds_down (drop_stale_requests now member).
Proof. down_solve. Qed.
Lemma commit_release_down ak ts call m grant record now :
  tx_rel winds_down (commit_agent_release ak ts call m grant record now).
Proof. down_solve. Qed.
Lemma quarantine_down ak ts p : tx_rel winds_down (approval_quarantine ak ts p).
Proof. down_solve. Qed.
Lemma refusals_wind_down K : refusals_respect K winds_down.
Proof. split; down_solve. Qed.

(** The calls that can store a secret, open a request, grant or move the home. *)
Definition adds_rows (c : SecretCall) : bool :=
  match c with
  | ScUse _ _ _ | ScUseSealed _ _ _ _ | ScRequestFlow _ _ _ | ScSetHome _ _ _ | ScPut _ _ _
  | ScOperatorDelete _ _ _ => true
  | ScPhone _ _ _ _ (PhDeposit _) _ | ScPhone _ _ _ _ (PhApprove _ _ _) _
  | ScPhone _ _ _ _ (PhDeleteRequest _) _ | ScPhone _ _ _ _ (PhDeleteCommit _ _) _ => true
  | _ => false
  end.

Lemma others_wind_down K c : adds_rows c = false -> secret_respects K winds_down c.
Proof.
  intros Hc. destruct c as [| | | | | | | | | | | | | |? ? ? ? operation|?|?|?]; try discriminate Hc;
    try destruct operation;
    try discriminate Hc; clear Hc; down_solve.
Qed.
End Bodies.

(** ** The invariant of the secret tables *)

Definition attached (d : Db) (name incarnation : string) : Prop :=
  exists r, agent_secrets d !! name = Some r /\ as_incarnation r = incarnation.

(** A grant's envelope was logged when it was granted. *)
Definition grant_logged (d : Db) (name envelope_hash : string) : Prop :=
  exists e, e ∈ audit_log d /\ op e = op_as_str SecretGrantCreate /\
    credential_id e = Some ("secret|" ++ name)%string /\ payload_hash e = Some envelope_hash.

Record grant_ok (d : Db) (g : SecretGrantRow) : Prop := {
  gk_attached : attached d (sg_secret_name g) (sg_incarnation g);
  gk_coverage : one_of_coverage (sg_coverage g) = true;
  gk_duration : one_of_duration (sg_duration g) = true;
  gk_logged : grant_logged d (sg_secret_name g) (sg_envelope_sha256 g);
}.

Record flow_grant_ok (d : Db) (g : FlowGrantRow) : Prop := {
  fk_attached : attached d (fg_secret_name g) (fg_incarnation g);
  fk_version : 1 <= fg_flow_version g <= 9007199254740991;
  fk_logged : grant_logged d (fg_secret_name g) (fg_envelope_sha256 g);
}.

Record secrets_ok (d : Db) : Prop := {
  sk_unique n n' r r' : agent_secrets d !! n = Some r -> agent_secrets d !! n' = Some r' ->
    as_incarnation r = as_incarnation r' -> n = n';
  sk_rows n r : agent_secrets d !! n = Some r -> agent_secret_row_ok r = true;
  sk_grants id g : secret_grants (secrets d) !! id = Some g -> grant_ok d g;
  sk_flows id g : secret_flow_grants (secrets d) !! id = Some g -> flow_grant_ok d g;
  sk_requests id r : secret_pending_requests (secrets d) !! id = Some r ->
    attached d (rq_secret_name r) (rq_incarnation r);
  sk_home v : read_setting SECRET_HOME_SETTING d = Some v -> v <> SECRET_HOME_SELF -> agent_secrets d = ∅;
}.

Lemma map_down {V} (f : V -> V) (m m' : gmap string V) i v' :
  f <$> m' ⊆ f <$> m -> m' !! i = Some v' -> exists v, m !! i = Some v /\ f v = f v'.
Proof.
  intros Hs Hv. assert ((f <$> m) !! i = Some (f v')) as Hf
    by (eapply lookup_weaken; [|exact Hs]; rewrite lookup_fmap, Hv; done).
  rewrite lookup_fmap in Hf. apply fmap_Some in Hf as (v & ? & ?). eauto.
Qed.

Lemma secrets_back d d' n r' : winds_down d d' -> agent_secrets d' !! n = Some r' ->
  exists r, agent_secrets d !! n = Some r /\ corrupt_secret r = corrupt_secret r'.
Proof. intros W. apply map_down. rewrite (wd_secrets _ _ W). done. Qed.

Lemma secrets_forth d d' n r : winds_down d d' -> agent_secrets d !! n = Some r ->
  exists r', agent_secrets d' !! n = Some r' /\ corrupt_secret r' = corrupt_secret r.
Proof. intros W. apply map_down. rewrite (wd_secrets _ _ W). done. Qed.

Lemma same_incarnation r r' : corrupt_secret r = corrupt_secret r' -> as_incarnation r = as_incarnation r'.
Proof. by intros [=]. Qed.

Lemma attached_down d d' n i : winds_down d d' -> attached d n i -> attached d' n i.
Proof.
  intros W (r & Hr & <-). destruct (secrets_forth _ _ _ _ W Hr) as (r' & ? & ?).
  exists r'. split; [done|by apply same_incarnation].
Qed.

Lemma logged_prefix d d' n h : audit_log d `prefix_of` audit_log d' -> grant_logged d n h -> grant_logged d' n h.
Proof. intros [k E] (e & He & ?). exists e. rewrite E. split; [set_solver|done]. Qed.

(** Nothing stored, nothing granted: the invariant stays. *)
Lemma winds_down_ok d d' : winds_down d d' -> secrets_ok d -> secrets_ok d'.
Proof.
  intros W [Hu Hr Hg Hf Hq Hh]. split.
  - intros n n' r r' H1 H2 E. destruct (secrets_back _ _ _ _ W H1) as (x & ? & ?%same_incarnation).
    destruct (secrets_back _ _ _ _ W H2) as (x' & ? & ?%same_incarnation). apply (Hu n n' x x'); [done|done|congruence].
  - intros n r H1. destruct (secrets_back _ _ _ _ W H1) as (x & Hx & E). rewrite <- (Hr _ _ Hx).
    unfold agent_secret_row_ok. by destruct x, r; cbn in *; simplify_eq.
  - intros id g H1. destruct (map_down _ _ _ _ _ (wd_grants _ _ W) H1) as (x & Hx & E).
    destruct (Hg _ _ Hx). destruct x, g; cbn in *; simplify_eq.
    split; cbn; [by eapply attached_down|done|done|by eapply logged_prefix; [apply W|]].
  - intros id g H1. destruct (map_down _ _ _ _ _ (wd_flows _ _ W) H1) as (x & Hx & E).
    destruct (Hf _ _ Hx). destruct x, g; cbn in *; simplify_eq.
    split; cbn; [by eapply attached_down|done|by eapply logged_prefix; [apply W|]].
  - intros id q H1. destruct (map_down _ _ _ _ _ (wd_requests _ _ W) H1) as (x & Hx & E).
    eapply attached_down; [done|]. specialize (Hq _ _ Hx). by destruct x, q; cbn in *; simplify_eq.
  - intros v Hv Hne. rewrite (wd_home _ _ W) in Hv. specialize (Hh _ Hv Hne).
    apply map_empty. intros n. destruct (agent_secrets d' !! n) as [r|] eqn:E; [|done].
    destruct (secrets_back _ _ _ _ W E) as (? & Hx & _). by rewrite Hh in Hx.
Qed.

(** Run a body that winds down inside another. *)
Lemma wp_down {A} (m : Tx A) (Q : A -> Db -> Prop) d :
  tx_rel winds_down m -> secrets_ok d -> (forall a d', winds_down d d' -> secrets_ok d' -> Q a d') -> wp m Q d.
Proof. intros Hm Hd HQ. eapply wp_rel; [done|]. intros a d' W. apply HQ; [done|by eapply winds_down_ok]. Qed.

(** ** Each row that is added *)

Lemma insert_request_ok id r (Q : unit -> Db -> Prop) d :
  secrets_ok d -> attached d (rq_secret_name r) (rq_incarnation r) ->
  (forall d', secrets_ok d' -> Q tt d') -> wp (insert_request id r) Q d.
Proof.
  intros [Hu Hr Hg Hf Hq Hh] Ha HQ. unfold wp, insert_request. destruct (is_some _); [done|]. apply HQ.
  split; cbn; try done.
  - intros i g Hi. destruct (Hg i g Hi). by split.
  - intros i g Hi. destruct (Hf i g Hi). by split.
  - intros i q. rewrite lookup_insert_Some. intros [[<- <-]|[_ Hi]]; [done|]. by apply Hq in Hi.
Qed.

Lemma home_allows d role : secret_home_role_conn d = role -> local_create_allowed role = Ok tt ->
  forall v, read_setting SECRET_HOME_SETTING d = Some v -> v = SECRET_HOME_SELF.
Proof.
  intros <- Hr v Hv. unfold secret_home_role_conn, resolve_secret_home_role in Hr. rewrite Hv in Hr.
  destruct (bool_decide_reflect (v = SECRET_HOME_SELF)); [done|]. revert Hr.
  repeat match goal with |- context [match ?x with _ => _ end] => destruct x end; done.
Qed.

Lemma phone_allows d : phone_deposit_refusal (secret_home_role_conn d) = None ->
  local_create_allowed (secret_home_role_conn d) = Ok tt.
Proof. by destruct (secret_home_role_conn d). Qed.

Lemma insert_secret_ok name r (Q : unit -> Db -> Prop) d :
  secrets_ok d -> local_create_allowed (secret_home_role_conn d) = Ok tt ->
  (forall d', secrets_ok d' -> Q tt d') -> wp (insert_agent_secret name r) Q d.
Proof.
  intros [Hu Hr Hg Hf Hq Hh] Hrole HQ. unfold wp, insert_agent_secret.
  destruct (is_some _) eqn:En; [done|]. destruct (existsb _ _) eqn:Ei; [done|].
  destruct (agent_secret_row_ok r) eqn:Er; [|done]. apply HQ. bool_hyps.
  assert (forall n q, agent_secrets d !! n = Some q -> as_incarnation q <> as_incarnation r) as Hfresh.
  { intros n q Hn E. apply not_true_iff_false in Ei. apply Ei. apply existsb_exists. exists (n, q).
    split; [by apply list_elem_of_In, elem_of_map_to_list|]. by apply bool_decide_eq_true. }
  assert (forall n i, attached d n i -> attached (with_agent_secrets (insert name r) d) n i) as Ha.
  { intros n i (q & Hn & Hi). exists q. split; [|done]. cbn. rewrite lookup_insert_ne; [done|congruence]. }
  split; cbn.
  - intros n n' q q'. rewrite !lookup_insert_Some. intros [[<- <-]|[? Hn]] [[<- <-]|[? Hn']] E; try done.
    + by destruct (Hfresh _ _ Hn').
    + by destruct (Hfresh _ _ Hn).
    + by eapply Hu.
  - intros n q. rewrite lookup_insert_Some. intros [[<- <-]|[_ Hn]]; [done|by eapply Hr].
  - intros i g Hi. destruct (Hg i g Hi). split; auto.
  - intros i g Hi. destruct (Hf i g Hi). split; auto.
  - intros i q Hi. apply Ha. by eapply Hq.
  - intros v Hv Hne. by apply (home_allows d _ eq_refl Hrole) in Hv.
Qed.

Lemma drop_rows_lookup {V} (p : string * V -> bool) (m : gmap string V) i v :
  drop_rows p m !! i = Some v <-> m !! i = Some v /\ p (i, v) = false.
Proof. unfold drop_rows. by rewrite map_lookup_filter_Some. Qed.

Lemma delete_rows_ok incarnation name (Q : unit -> Db -> Prop) d :
  secrets_ok d -> (forall d', secrets_ok d' -> Q tt d') -> wp (delete_secret_rows incarnation name) Q d.
Proof.
  intros [Hu Hr Hg Hf Hq Hh] HQ. unfold delete_secret_rows. repeat wp_step. apply HQ.
  match goal with |- secrets_ok ?x => set (d' := x) end.
  assert (forall n i, i <> incarnation -> attached d n i -> attached d' n i) as Ha.
  { intros n i Hi (r & Hn & <-). exists r. split; [|done]. apply drop_rows_lookup. split; [done|].
    by apply bool_decide_eq_false. }
  split; cbn.
  - intros n n' r r' [H1 _]%drop_rows_lookup [H2 _]%drop_rows_lookup. by eapply Hu.
  - intros n r [H1 _]%drop_rows_lookup. by eapply Hr.
  - intros i g [H1 H2%bool_decide_eq_false]%drop_rows_lookup. destruct (Hg i g H1). split; auto.
  - intros i g [H1 H2%bool_decide_eq_false]%drop_rows_lookup. destruct (Hf i g H1). split; auto.
  - intros i r [H1 H2%bool_decide_eq_false]%drop_rows_lookup. apply Ha; [done|]. by eapply Hq.
  - intros v Hv Hne. rewrite (Hh v Hv Hne). done.
Qed.

Section Grants.
Context `{C : Crypto} `{RX : RecordExt} `{SE : SecretEnv}.

Lemma wp_envelope_audit ak ts o name actor hash (Q : unit -> Db -> Prop) d :
  (forall d', agent_secrets d' = agent_secrets d -> secrets d' = secrets d -> settings d' = settings d ->
     db_schema_version d' = db_schema_version d -> audit_log d `prefix_of` audit_log d' ->
     (exists e, e ∈ audit_log d' /\ op e = op_as_str o /\ credential_id e = Some ("secret|" ++ name)%string /\
                payload_hash e = Some hash) -> Q tt d') ->
  wp (envelope_audit ak ts o name actor hash) Q d.
Proof.
  intros HQ. unfold envelope_audit, audit_now, wp, mbind, mret, append_audit_tx. cbn. apply HQ; try done.
  - by eexists.
  - eexists. split; [apply elem_of_app; right; by apply list_elem_of_singleton|]. done.
Qed.

(** Inserting a grant and logging its envelope, in the same transaction. *)
Lemma grant_then_log {A} ak ts id g actor (a : A) d :
  secrets_ok d -> attached d (sg_secret_name g) (sg_incarnation g) ->
  wp (do! _ <- insert_secret_grant id g ;;
      do! _ <- envelope_audit ak ts SecretGrantCreate (sg_secret_name g) actor (sg_envelope_sha256 g) ;; mret a)
     (fun _ => secrets_ok) d.
Proof.
  intros [Hu Hr Hg Hf Hq Hh] Ha. apply wp_bind. unfold wp at 1, insert_secret_grant.
  destruct (is_some _); [done|]. destruct (_ && _) eqn:Ec; [|done]. bool_hyps.
  apply wp_bind, wp_envelope_audit. intros d' E1 E2 E3 E4 Hp Hlog. apply wp_ret.
  assert (forall n i, attached d n i -> attached d' n i) as Hat by (intros n i; unfold attached; by rewrite E1).
  split; rewrite ?E1, ?E2; cbn.
  - done.
  - done.
  - intros i x. rewrite lookup_insert_Some. intros [[<- <-]|[_ Hx]]; [by split; auto|].
    destruct (Hg i x Hx). split; auto. by eapply (logged_prefix d).
  - intros i x Hx. destruct (Hf i x Hx). split; auto. by eapply (logged_prefix d).
  - intros i x Hx. apply Hat. by eapply Hq.
  - unfold read_setting. rewrite E3, E4. done.
Qed.

Lemma flow_grant_then_log {A} ak ts id g actor (a : A) d :
  secrets_ok d -> attached d (fg_secret_name g) (fg_incarnation g) ->
  wp (do! _ <- insert_flow_grant id g ;;
      do! _ <- envelope_audit ak ts SecretGrantCreate (fg_secret_name g) actor (fg_envelope_sha256 g) ;; mret a)
     (fun _ => secrets_ok) d.
Proof.
  intros [Hu Hr Hg Hf Hq Hh] Ha. apply wp_bind. unfold wp at 1, insert_flow_grant.
  destruct (is_some _); [done|]. destruct (_ && _) eqn:Ec; [|done]. bool_hyps.
  apply wp_bind, wp_envelope_audit. intros d' E1 E2 E3 E4 Hp Hlog. apply wp_ret.
  assert (forall n i, attached d n i -> attached d' n i) as Hat by (intros n i; unfold attached; by rewrite E1).
  split; rewrite ?E1, ?E2; cbn.
  - done.
  - done.
  - intros i x Hx. destruct (Hg i x Hx). split; auto. by eapply (logged_prefix d).
  - intros i x. rewrite lookup_insert_Some. intros [[<- <-]|[_ Hx]]; [split; auto; lia|].
    destruct (Hf i x Hx). split; auto. by eapply (logged_prefix d).
  - intros i x Hx. apply Hat. by eapply Hq.
  - unfold read_setting. rewrite E3, E4. done.
Qed.

(** ** The bodies that add rows *)

Lemma check_target_attached key name sender target d record :
  check_secret_target key name sender target d = Ok record -> attached d name (sr_incarnation record).
Proof.
  unfold check_secret_target. destruct (agent_secrets d !! name) as [row|] eqn:En; [|done].
  destruct (negb _); [done|]. destruct (scope_of_columns row); [|done]. destruct (secret_open _ _ _ _ _); [|done].
  destruct (negb _); [done|]. destruct (negb _); [done|]. intros [= <-]. by exists row.
Qed.

Lemma pending_ok rnd call m record now d :
  secrets_ok d -> attached d (su_name call) (sr_incarnation record) ->
  wp (pending rnd call m record now) (fun _ => secrets_ok) d.
Proof.
  intros Hd Ha. unfold pending. do 2 wp_step. destruct (self_member d) as [member|]; [|by wp_step].
  wp_step. apply wp_down; [apply drop_stale_down|done|]. intros _ d1 W Hd1.
  assert (attached d1 (su_name call) (sr_incarnation record)) by by eapply attached_down.
  do 2 wp_step. destruct (find_request _ d1) as [[id r]|]; [by wp_step|].
  unfold to_sql_u64, sql_range. repeat wp_step; try done. apply insert_request_ok; [done|done|].
  intros. by wp_step.
Qed.

Lemma flow_pending_ok rnd call m record methods now d :
  secrets_ok d -> attached d (fa_name call) (sr_incarnation record) ->
  wp (flow_pending rnd call m record methods now) (fun _ => secrets_ok) d.
Proof.
  intros Hd Ha. unfold flow_pending. do 2 wp_step. destruct (self_member d) as [member|]; [|by wp_step].
  wp_step. apply wp_down; [apply drop_stale_down|done|]. intros _ d1 W Hd1.
  assert (attached d1 (fa_name call) (sr_incarnation record)) by by eapply attached_down.
  do 2 wp_step. destruct (find_request _ d1) as [[id r]|]; [by wp_step|].
  repeat wp_step; try done. apply insert_request_ok; [done|done|].
  intros. by wp_step.
Qed.
End Grants.

Section Invariant.
Context `{C : Crypto} `{RX : RecordExt} `{SE : SecretEnv} (K : Keys).

Lemma use_tx_ok inp call m d : secrets_ok d -> wp (secret_use_tx K inp call m) (fun _ => secrets_ok) d.
Proof.
  intros Hd. unfold secret_use_tx. do 2 wp_step.
  destruct (check_secret_target _ _ _ _ d) as [record|] eqn:Ec; [|by wp_step].
  apply check_target_attached in Ec. wp_step. apply wp_down; [apply sweep_down|done|]. intros _ d1 W Hd1.
  do 2 wp_step. destruct (choose_grant _ _ _ _ d1) as [grant|].
  - repeat wp_step. apply wp_down; [apply commit_release_down|done|]. intros _ d2 _ Hd2. by wp_step.
  - wp_step. eapply wp_mono; [apply pending_ok; [done|by eapply attached_down]|]. intros a d2 Hd2. by wp_step.
Qed.

Lemma replay_down request aad incarnation kinds now : tx_rel winds_down (replay request aad incarnation kinds now).
Proof. down_solve. Qed.
Lemma receipt_down request aad incarnation kind id sealed now :
  tx_rel winds_down (write_receipt request aad incarnation kind id sealed now).
Proof. down_solve. Qed.

Lemma use_sealed_ok inp call request seal d :
  secrets_ok d -> wp (secret_use_sealed_tx K inp call request seal) (fun _ => secrets_ok) d.
Proof.
  intros Hd. unfold secret_use_sealed_tx. do 2 wp_step.
  destruct (check_secret_target _ _ _ _ d) as [record|] eqn:Ec; [|by wp_step].
  apply check_target_attached in Ec. wp_step. apply wp_down; [apply replay_down|done|].
  intros replayed d1 W Hd1. destruct replayed; [by wp_step|].
  wp_step. apply wp_down; [apply sweep_down|done|]. intros _ d2 W2 Hd2.
  do 2 wp_step. destruct (choose_grant _ _ _ _ d2) as [grant|].
  - unfold seal_captured. do 4 wp_step. wp_step. apply wp_down; [apply commit_release_down|done|].
    intros _ d3 _ Hd3. wp_step. apply wp_down; [apply receipt_down|done|]. intros _ d4 _ Hd4. by wp_step.
  - wp_step. eapply wp_mono; [apply pending_ok; [done|by do 2 (eapply attached_down; [done|])]|].
    intros a d3 Hd3. by wp_step.
Qed.

Lemma flow_approval_ok inp call m methods d :
  secrets_ok d -> wp (flow_approval_tx K inp call m methods) (fun _ => secrets_ok) d.
Proof.
  intros Hd. unfold flow_approval_tx. do 2 wp_step.
  destruct (check_secret_target _ _ _ _ d) as [record|] eqn:Ec; [|by wp_step].
  apply check_target_attached in Ec. wp_step. eapply wp_mono; [by apply flow_pending_ok|]. intros. by wp_step.
Qed.

Lemma set_home_ok ak ts updated home ctx d :
  secrets_ok d -> wp (set_secret_home_tx ak ts updated home ctx) (fun _ => secrets_ok) d.
Proof.
  intros Hd. unfold set_secret_home_tx. do 4 wp_step.
  match goal with |- context [bool_decide (_ = ?w)] => set (wanted := w) end.
  destruct (bool_decide _) eqn:Eb; [by wp_step|]. do 8 wp_step.
  destruct (_ && _) eqn:Ee; [by wp_step|]. do 2 wp_step. wp_step.
  unfold audit_now, wp, mbind, mret, append_audit_tx. cbn. destruct Hd as [Hu Hr Hg Hf Hq Hh].
  split; cbn; try done.
  - intros i g Hi. destruct (Hg i g Hi). split; try done. eapply (logged_prefix d); [|eassumption]. cbn. unfold append_audit. by eexists.
  - intros i g Hi. destruct (Hf i g Hi). split; try done. eapply (logged_prefix d); [|eassumption]. cbn. unfold append_audit. by eexists.
  - intros v Hv Hne. unfold read_setting in Hv. case_match; [done|]. cbn in Hv.
    destruct wanted as [w|]; [|by rewrite lookup_delete_eq in Hv].
    rewrite lookup_insert_eq in Hv. injection Hv as <-.
    apply andb_false_iff in Ee as [Ee|Ee]; bool_hyps; [done|].
    apply map_size_empty_inv. apply Z.ltb_ge in Ee. lia.
Qed.

Lemma store_secret_ok rnd name s m now d :
  secrets_ok d -> local_create_allowed (secret_home_role_conn d) = Ok tt ->
  wp (store_secret_tx K rnd name s m now) (fun _ => secrets_ok) d.
Proof.
  intros Hd Hrole. unfold store_secret_tx. repeat wp_step. apply insert_secret_ok; [done|done|].
  intros. by wp_step.
Qed.

Lemma audit_down ak ts o t a fields : tx_rel winds_down (secret_audit ak ts o t a fields).
Proof. down_solve. Qed.

Lemma put_tx_ok inp name s m actor d : secrets_ok d -> wp (secret_put_tx K inp name s m actor) (fun _ => secrets_ok) d.
Proof.
  intros Hd. unfold secret_put_tx. do 2 wp_step. destruct (local_create_allowed _) as [[]|] eqn:Er; [|by wp_step].
  do 2 wp_step. destruct (is_some _); [by wp_step|]. wp_step.
  eapply wp_mono; [by apply store_secret_ok|]. intros inc d1 Hd1.
  wp_step. apply wp_down; [apply audit_down|done|]. intros. by wp_step.
Qed.

Lemma operator_delete_ok ak inp name actor d :
  secrets_ok d -> wp (operator_delete_tx ak inp name actor) (fun _ => secrets_ok) d.
Proof.
  intros Hd. unfold operator_delete_tx. do 2 wp_step. destruct (agent_secrets d !! name) as [row|]; [|by wp_step].
  wp_step. apply delete_rows_ok; [done|]. intros d1 Hd1. do 2 wp_step. wp_step.
  apply wp_down; [apply audit_down|done|]. intros. by wp_step.
Qed.

Lemma delete_request_ok rnd name now d :
  secrets_ok d -> wp (secret_delete_request_tx rnd name now) (fun _ => secrets_ok) d.
Proof.
  intros Hd. unfold secret_delete_request_tx. do 2 wp_step. destruct (self_member d) as [member|]; [|by wp_step].
  do 2 wp_step. destruct (agent_secrets d !! name) as [row|] eqn:En; [|by wp_step].
  wp_step. apply wp_down; [apply drop_stale_down|done|]. intros _ d1 W Hd1.
  do 2 wp_step. destruct (find_request _ d1) as [[id r]|]; [by wp_step|]. repeat wp_step.
  apply insert_request_ok; [done| |intros; by wp_step]. eapply attached_down; [done|]. by exists row.
Qed.

Lemma deposit_tx_ok inp fp sender p now d :
  secrets_ok d -> local_create_allowed (secret_home_role_conn d) = Ok tt ->
  wp (deposit_tx K inp fp sender p now) (fun _ => secrets_ok) d.
Proof.
  intros Hd Hrole. unfold deposit_tx. do 2 wp_step. destruct (deposit_prepared _ _ _) as [[[[pem member] aad] digest]|]; [|by wp_step].
  do 2 wp_step. destruct (secret_deposit_tombstones _ !! _); [by repeat wp_step|].
  destruct (negb _); [by wp_step|]. destruct (open_auth _ _ _ _ _ _); [|by wp_step].
  destruct (let? m := _ in _) as [material|]; [|by wp_step]. do 2 wp_step. destruct (is_some _); [by wp_step|].
  wp_step. eapply wp_mono; [by apply store_secret_ok|]. intros inc d1 Hd1. do 3 wp_step.
  apply wp_down; [apply audit_down|apply (winds_down_ok d1); [by split|done]|]. intros. by wp_step.
Qed.
End Invariant.

Section InvariantApproval.
Context `{C : Crypto} `{RX : RecordExt} `{SE : SecretEnv} (K : Keys).

Lemma consume_down id : tx_rel winds_down (exec (with_requests (alter consume_request id))).
Proof. apply winds_down_requests. intros m. by rewrite fmap_alter_same. Qed.

Lemma flow_item_ok ak ts rnd item e p scope actor hash card now d :
  secrets_ok d -> attached d (rq_secret_name p) (rq_incarnation p) ->
  wp (flow_item_tx ak ts rnd item e p scope actor hash card now) (fun _ => secrets_ok) d.
Proof.
  intros Hd Ha. unfold flow_item_tx.
  repeat match goal with
    | |- wp (mbind _ _) _ _ => fail 1
    | |- wp _ _ _ => wp_step; try done
    end.
  do 2 wp_step. wp_step. apply wp_down; [apply consume_down|done|]. intros _ d1 W Hd1.
  match goal with |- wp (mbind (insert_flow_grant ?i ?g) _) _ _ =>
    apply (flow_grant_then_log ak ts i g actor true d1 Hd1) end.
  by eapply attached_down.
Qed.

Lemma agent_item_ok ak ts id item e p actor hash card now d :
  secrets_ok d -> attached d (rq_secret_name p) (rq_incarnation p) ->
  wp (do! _ <- exec (with_requests (alter consume_request (ai_request_id item))) ;;
      do! _ <- insert_agent_grant id e p hash card now ;;
      do! _ <- envelope_audit ak ts SecretGrantCreate (rq_secret_name p) actor hash ;;
      mret true) (fun _ => secrets_ok) d.
Proof.
  intros Hd Ha. wp_step. apply wp_down; [apply consume_down|done|]. intros _ d1 W Hd1. unfold insert_agent_grant.
  destruct (rq_owner p), (rq_scope_kind p), (rq_scope_ref p), (rq_coverage p); try exact I.
  match goal with |- wp (mbind (insert_secret_grant ?i ?g) _) _ _ =>
    apply (grant_then_log ak ts i g actor true d1 Hd1) end.
  by eapply attached_down.
Qed.

(** One item leaves the invariant, whatever the envelope says. *)
Lemma approval_item_ok ts rnd item e member hash fp card delete_op now d :
  secrets_ok d -> wp (approval_item_tx K ts rnd item e member hash fp card delete_op now) (fun _ => secrets_ok) d.
Proof.
  intros Hd. unfold approval_item_tx. do 2 wp_step.
  destruct (secret_pending_requests (secrets d) !! _) as [p|] eqn:Ep; [|by wp_step].
  pose proof (sk_requests _ Hd _ _ Ep) as Ha. unfold sql_range.
  do 5 (wp_step; try done).
  do 2 wp_step. destruct (agent_secrets d !! rq_secret_name p) as [row|]; [|by wp_step].
  wp_step; [by wp_step|]. destruct delete_op.
  - wp_step; [by wp_step|]. wp_step. apply delete_rows_ok; [done|]. intros d1 Hd1.
    wp_step. apply wp_envelope_audit. intros d2 E1 E2 E3 E4 Hp _. wp_step.
    apply (winds_down_ok d1); [|done]. split; rewrite ?E1, ?E2; try done. unfold read_setting. by rewrite E3, E4.
  - do 2 (wp_step; [by wp_step|]). destruct (scope_of_columns row) as [scope|].
    2:{ wp_step. apply wp_down; [apply quarantine_down|done|]. intros. by wp_step. }
    wp_step.
    { wp_step. apply wp_down; [apply quarantine_down|done|]. intros. by wp_step. }
    wp_step; [by apply flow_item_ok|]. wp_step; [by wp_step|]. do 2 wp_step. by apply agent_item_ok.
Qed.

Lemma approval_items_ok ts rnd i items e member hash fp card delete_op now d :
  secrets_ok d ->
  wp (approval_items_tx K ts rnd i items e member hash fp card delete_op now) (fun _ => secrets_ok) d.
Proof.
  revert i d. induction items as [|item items IH]; intros i d Hd; cbn [approval_items_tx]; [by wp_step|].
  wp_step. eapply wp_mono; [by apply approval_item_ok|]. intros a d1 Hd1.
  wp_step. eapply wp_mono; [by apply IH|]. intros. by wp_step.
Qed.

Lemma approval_ok inp fp pub bs sig card delete_op now d :
  secrets_ok d -> wp (secret_approval_tx K inp fp pub bs sig card delete_op now) (fun _ => secrets_ok) d.
Proof.
  intros Hd. unfold secret_approval_tx. destruct (envelope_verify _ _ _ _) as [e|]; [|by wp_step].
  do 2 wp_step. wp_step. apply wp_down; [down_solve|done|]. intros _ d1 _ Hd1. do 2 wp_step.
  destruct (secret_approval_replies _ !! _) as [row|].
  { destruct (json_from_str _); [by wp_step|exact I]. }
  wp_step. eapply wp_mono; [by apply approval_items_ok|]. intros results d2 Hd2. do 2 wp_step. wp_step.
  apply (winds_down_ok d2); [by split|done].
Qed.

Lemma phone_op_ok inp fp pairing at_ms op admitted d :
  secrets_ok d -> wp (phone_op_tx K inp fp pairing at_ms op admitted) (fun _ => secrets_ok) d.
Proof.
  intros Hd. destruct (adds_rows (ScPhone inp fp pairing at_ms op admitted)) eqn:Ea.
  2:{ apply wp_down; [exact (others_wind_down K _ Ea)|done|done]. }
  unfold phone_op_tx. wp_step. apply wp_down; [destruct op; down_solve|done|]. intros _ d1 _ Hd1.
  destruct (negb admitted); [by wp_step|]. do 2 wp_step.
  destruct op; try discriminate Ea; (destruct pairing; [|by wp_step]);
    (destruct (phone_deposit_refusal _) eqn:Er; [by wp_step|]); do 2 wp_step;
    (destruct (secret_phone_keys _ !! _); [|by wp_step]).
  - apply deposit_tx_ok; [done|by apply phone_allows].
  - by apply approval_ok.
  - by apply delete_request_ok.
  - by apply approval_ok.
Qed.

Lemma secret_calls_ok c : refusals_respect K (keeps secrets_ok) /\ secret_respects K (keeps secrets_ok) c.
Proof.
  assert (forall d d', winds_down d d' -> keeps secrets_ok d d') as Hw
    by (intros d d' W Hd; by eapply winds_down_ok).
  split.
  { destruct (refusals_wind_down K) as [H1 H2]. split; intros; eapply tx_rel_weaken; eauto. }
  destruct (adds_rows c) eqn:Ea.
  2:{ apply (secret_respects_weaken K winds_down _ c Hw). split; [apply refusals_wind_down|by apply others_wind_down]. }
  assert (forall A (m : Tx A), (forall d, secrets_ok d -> wp m (fun _ => secrets_ok) d) -> tx_rel (keeps secrets_ok) m) as Hk
    by (intros A m Hm d a d' E Hd; by apply (wp_run _ _ _ _ _ (Hm d Hd) E)).
  destruct c; try discriminate Ea; cbn [secret_respects]; intros; apply Hk; intros;
    auto using use_tx_ok, use_sealed_ok, flow_approval_ok, set_home_ok, put_tx_ok, operator_delete_ok, phone_op_ok.
Qed.
End InvariantApproval.

(** ** Histories *)

(** What store calls, grants and enrollment never touch. *)
Definition secret_view (d : Db) := (agent_secrets d, secrets d, settings d, db_schema_version d).

Section Histories.
Context `{C : Crypto} `{RX : RecordExt} `{SE : SecretEnv} {Conn : Type} `{L : SqliteStoreLaws Conn}.

Lemma store_calls_keep_secrets K c : op_rel K (on secret_view eq) (call_op (Conn := Conn) c).
Proof. revert c. calls_solve. Qed.
Lemma access_keeps_secrets K c : call_respects K (on secret_view eq) c.
Proof. destruct c; access_solve ltac:(fail). Qed.

Lemma frame_down K d d' : on secret_view eq d d' -> on audit_log (log_grows K) d d' -> winds_down d d'.
Proof.
  unfold on, secret_view. intros [= E1 E2 E3 E4] [Hp _]. split; rewrite ?E1, ?E2; try done.
  unfold read_setting. by rewrite E3, E4.
Qed.

(** A relation the secret calls respect and winding down implies holds over histories. *)
Lemma secret_history (P : Db -> Db -> Prop) `{!PreOrder P} cs (s : EncryptedStore Conn) :
  (forall d d', winds_down d d' -> P d d') ->
  (forall c, OnSecret c ∈ cs -> secret_respects (keys_of s) P c) ->
  P (es_db s) (es_db (run_vault cs s)).
Proof.
  intros HP Hcs. apply (vault_rel (keys_of s) P cs s); [|done]. apply list.Forall_forall. intros [c|c|c] Hin.
  - intros x r x' HK E. destruct (store_calls_keep_secrets _ c x r x' HK E) as (? & Hv & ?).
    destruct (call_log_grows _ c x r x' HK E) as (_ & Hl & _). split_and!; [done| |done].
    by eapply HP, frame_down.
  - eapply call_respects_weaken; [apply HP|].
    pose proof (access_keeps_secrets (keys_of s) c) as Hv. pose proof (access_log_grows (keys_of s) c) as Hl.
    destruct c; cbn in *; intros; intros d a d' E; eapply frame_down; (eapply Hv + eapply Hl); eauto.
  - split; [|by apply Hcs]. destruct (refusals_wind_down (keys_of s)) as [H1 H2].
    split; intros; eapply tx_rel_weaken; eauto.
Qed.

(** C8: after any history of the whole vault, whatever each call returned: no two secrets
    share an incarnation and every row satisfies its column checks; every grant, flow
    grant and pending request belongs to the stored secret of that name and incarnation;
    every grant's signed envelope is in the audit log; and while the secrets' home is
    another computer there is no secret here (so no grant and no request either). *)
Theorem history_keeps_secrets_sound cs (s : EncryptedStore Conn) :
  secrets_ok (es_db s) -> secrets_ok (es_db (run_vault cs s)).
Proof.
  apply (secret_history (keeps secrets_ok)).
  - intros d d' W Hd. by eapply winds_down_ok.
  - intros c _. apply secret_calls_ok.
Qed.
End Histories.

(** ** What a release needs *)

(** The secret [name] is active, its columns spell [scope], its envelope opens under them to
    [material], and the scope admits the sender and the target. *)
Record usable `{Crypto} `{SecretExt} (key : MasterKey) (d : Db) (name : string) (sender : SecretSender)
    (target : UseTarget) (row : AgentSecretRow) (scope : SecretScope) (material : SecretMaterial) : Prop := {
  us_row : agent_secrets d !! name = Some row;
  us_active : as_state row = "active";
  us_scope : scope_of_columns row = Some scope;
  us_open : secret_open key (as_incarnation row) name scope (as_envelope row) = Ok material;
  us_sender : sender_admits sender scope = true;
  us_target : target_matches target scope = true;
}.

Definition record_of (row : AgentSecretRow) (scope : SecretScope) (material : SecretMaterial) : SecretRecord :=
  {| sr_incarnation := as_incarnation row; sr_scope := scope; sr_material := material |}.

(** An audit entry of a release. *)
Definition release_logged (e : AuditEntry) (name actor_name : string) : Prop :=
  op e = op_as_str SecretFirstRelease /\ credential_id e = Some ("secret|" ++ name)%string /\ actor e = actor_name.

(** A grant of the asker for this incarnation of the secret that covers the call at [now]. *)
Record consents (d : Db) (call : SecretUse) (asking_member incarnation : string) (now : Z) (id : string)
    (g : SecretGrantRow) : Prop := {
  cs_row : secret_grants (secrets d) !! id = Some g;
  cs_secret : sg_secret_name g = su_name call;
  cs_incarnation : sg_incarnation g = incarnation;
  cs_asker : sg_asking_member_id g = asking_member;
  cs_live : sg_duration g = "permanent" \/ now < sg_expires_at_ms g;
  cs_covers : grant_covers call g = true;
}.

(** What releasing under [g] leaves: a one-time grant is gone, and a first release is the
    newest audit entry. *)
Definition release_settled (d' : Db) (name actor_name id : string) (g : SecretGrantRow) : Prop :=
  (sg_duration g = "once" -> secret_grants (secrets d') !! id = None) /\
  (sg_duration g = "once" \/ sg_first_released g = false ->
   exists e, last (audit_log d') = Some e /\ release_logged e name actor_name).

Section Release.
Context `{C : Crypto} `{RX : RecordExt} `{SE : SecretEnv} {Conn : Type} `{L : SqliteStoreLaws Conn}.

Lemma check_target_ok key name sender target d record :
  check_secret_target key name sender target d = Ok record ->
  exists row scope material, usable key d name sender target row scope material /\ record = record_of row scope material.
Proof.
  unfold check_secret_target. destruct (agent_secrets d !! name) as [row|] eqn:En; [|done].
  destruct (bool_decide (as_state row = "active")) eqn:Ea; [|done].
  destruct (scope_of_columns row) as [scope|] eqn:Es; [|done].
  destruct (secret_open _ _ _ _ _) as [material|] eqn:Eo; [|done].
  destruct (sender_admits sender scope) eqn:Eb; [|done]. destruct (target_matches target scope) eqn:Et; [|done].
  intros [= <-]. bool_hyps. by exists row, scope, material.
Qed.

Lemma usable_same d d' key name sender target row scope material :
  agent_secrets d' = agent_secrets d -> usable key d name sender target row scope material ->
  usable key d' name sender target row scope material.
Proof. intros E []. split; by rewrite ?E. Qed.

(** The grant [choose_grant] picks is one of the table that answers the call. *)
Lemma choose_grant_sound call m incarnation now d id g :
  choose_grant call m incarnation now d = Some (id, g) ->
  secret_grants (secrets d) !! id = Some g /\ grant_candidate (su_name call) m incarnation now g = true /\
  grant_covers call g = true.
Proof.
  unfold choose_grant. intros [Hin Hc]%find_some. cbn in Hc. rewrite <- list_elem_of_In in Hin.
  rewrite merge_sort_Permutation, list_elem_of_In in Hin. apply filter_In in Hin as [Hin Hcand].
  by apply list_elem_of_In, elem_of_map_to_list in Hin.
Qed.

(** It finds one whenever there is one. *)
Lemma choose_grant_complete call m incarnation now d id g :
  secret_grants (secrets d) !! id = Some g -> grant_candidate (su_name call) m incarnation now g = true ->
  grant_covers call g = true -> exists kv, choose_grant call m incarnation now d = Some kv.
Proof.
  intros Hg Hcand Hcov. unfold choose_grant. destruct (find _ _) as [kv|] eqn:E; [by exists kv|].
  exfalso. assert (grant_covers call (id, g).2 = false) as Hf; [|cbn in Hf; congruence].
  apply (find_none _ _ E), list_elem_of_In. rewrite merge_sort_Permutation, list_elem_of_In.
  apply filter_In. split; [by apply list_elem_of_In, elem_of_map_to_list|done].
Qed.

Definition same_secrets_fewer_grants (d d' : Db) : Prop :=
  agent_secrets d' = agent_secrets d /\ secret_grants (secrets d') ⊆ secret_grants (secrets d).
#[local] Instance same_secrets_fewer_preorder : PreOrder same_secrets_fewer_grants.
Proof. split; [done|]. intros x y z [] []. split; [congruence|by etrans]. Qed.

Lemma sweep_fewer ak ts now : tx_rel same_secrets_fewer_grants (sweep ak ts now).
Proof.
  secret_solve ltac:(idtac; lazymatch goal with
    | |- tx_rel _ (exec (with_secret_grants _)) => intros ?d ?a ?d' [= _ <-]; split; [done|apply delete_subseteq]
    | |- tx_rel _ (exec (with_release_receipts _)) => intros ?d ?a ?d' [= _ <-]; by split
    | |- tx_rel _ (append_audit_tx _ _ _) => intros ?d ?a ?d' [= _ <-]; by split
    end).
Qed.

Lemma release_status record now v : release record now = Ok v -> jget "status" v = Some (JStr "released").
Proof.
  unfold release. destruct (sr_scope record), (sr_material record) as [|u p [uri|]]; try done; [by intros [= <-]| |by intros [= <-]].
  destruct (totp uri now); [|done]. by intros [= <-].
Qed.

(** A pending request answers with a statement to sign, never with the secret. *)
Lemma pending_asks rnd call m record now d :
  wp (pending rnd call m record now)
     (fun out _ => forall o, out = Ok o -> jget "status" (so_reply o) = Some (JStr "approval_required")) d.
Proof.
  unfold pending, drop_stale_requests, to_sql_u64, sql_range, insert_request. repeat wp_step; try done.
  all: try (by intros o [= <-]).
  unfold wp. destruct (is_some _); [done|]. cbn. by intros o [= <-].
Qed.

Lemma secret_audit_log ak ts o t a fields (Q : unit -> Db -> Prop) d :
  (forall e d', d' = with_audit_log (fun l => l ++ [e]) d -> op e = op_as_str o -> credential_id e = t -> actor e = a ->
     Q tt d') -> wp (secret_audit ak ts o t a fields) Q d.
Proof.
  intros HQ. unfold secret_audit, audit_now, wp, mbind, mret, append_audit_tx. cbn. by eapply HQ.
Qed.

Lemma commit_release_settles ak ts call m id g record now d :
  wp (commit_agent_release ak ts call m (id, g) record now)
     (fun _ d' => release_settled d' (su_name call) (sender_actor (su_sender call)) id g) d.
Proof.
  unfold commit_agent_release. set (once := bool_decide (sg_duration g = "once")).
  assert (sg_duration g = "once" <-> once = true) as Ho by (unfold once; by rewrite bool_decide_eq_true).
  clearbody once. apply wp_bind. destruct (negb (sg_first_released g) || once) eqn:Eb.
  - apply secret_audit_log. intros e d1 -> He1 He2 He3. apply wp_exec. split.
    + intros ->%Ho. cbn. apply lookup_delete_eq.
    + intros _. exists e. split; [cbn; apply last_snoc|done].
  - apply wp_ret, wp_exec. apply orb_false_iff in Eb as [Ef%negb_false_iff ->].
    split; [by intros ?%Ho|]. intros [?%Ho|?]; congruence.
Qed.

Lemma consents_intro d d' call m incarnation now id g :
  same_secrets_fewer_grants d d' -> choose_grant call m incarnation now d' = Some (id, g) ->
  consents d call m incarnation now id g.
Proof.
  intros [_ Hs] (Hg & Hc & Hcov)%choose_grant_sound. unfold grant_candidate, grant_unexpired in Hc. bool_hyps.
  split; try done; [by eapply lookup_weaken|].
  match goal with H : (_ || _)%bool = true |- _ => apply orb_true_iff in H as [?|?] end; bool_hyps; [by left|right; lia].
Qed.

(** A transaction that releases. *)
Lemma use_tx_release K inp call m d :
  wp (secret_use_tx K inp call m) (fun out d' => forall outcome, out = Ok (Ok outcome) ->
    jget "status" (so_reply outcome) = Some (JStr "released") ->
    exists row scope material id g,
      usable (k_key K) d (su_name call) (su_sender call) (su_target call) row scope material /\
      consents d call m (as_incarnation row) (sx_clock inp 1) id g /\
      release (record_of row scope material) (sx_clock inp 1) = Ok (so_reply outcome) /\
      release_settled d' (su_name call) (sender_actor (su_sender call)) id g) d.
Proof.
  unfold secret_use_tx. do 2 wp_step. destruct (check_secret_target _ _ _ _ d) as [record|] eqn:Ec; [|by wp_step].
  apply check_target_ok in Ec as (row & scope & material & Hu & ->).
  wp_step. eapply wp_rel; [apply sweep_fewer|]. intros _ d1 Hs. do 2 wp_step.
  destruct (choose_grant _ _ _ _ d1) as [[id g]|] eqn:Eg.
  - do 2 wp_step. wp_step. eapply wp_mono; [apply commit_release_settles|]. intros ? d2 Hset. wp_step.
    intros outcome [= <-] _. exists row, scope, material, id, g. split_and!; [done|by eapply consents_intro| |done].
    by eapply map_err_ok.
  - wp_step. eapply wp_mono; [apply pending_asks|]. intros answer d2 Ha. wp_step. intros outcome [= ->] Hr.
    by rewrite (Ha _ eq_refl) in Hr.
Qed.
End Release.

Section ReleaseOps.
Context `{C : Crypto} `{RX : RecordExt} `{SE : SecretEnv} {Conn : Type} `{L : SqliteStoreLaws Conn}.

Lemma secret_fenced_wp {A} (f : Tx A) (Q : A -> Db -> Prop) (s s' : EncryptedStore Conn) a :
  wp f Q (es_db s) -> secret_fenced f s = (Ok a, s') -> Q a (es_db s') /\ keys_of s' = keys_of s.
Proof.
  unfold secret_fenced, fenced_write. destruct (with_conn_fenced f (es_conn s)) as [[x|e] c] eqn:E; [|done].
  intros Hw [= <- <-]. apply fenced_commits in E. split; [by eapply wp_run|done].
Qed.

Lemma secret_conn_wp {A} (f : Tx A) (Q : A -> Db -> Prop) (s s' : EncryptedStore Conn) a :
  wp f Q (es_db s) -> secret_conn f s = (Ok a, s') -> Q a (es_db s') /\ keys_of s' = keys_of s.
Proof.
  unfold secret_conn. destruct (with_conn f (es_conn s)) as [[x|e] c] eqn:E; [|done].
  intros Hw [= <- <-]. apply conn_commits in E. split; [by eapply wp_run|done].
Qed.

Lemma secret_query {A} (f : Db -> A) (s s' : EncryptedStore Conn) a :
  secret_conn (query f) s = (Ok a, s') -> a = f (es_db s) /\ es_db s' = es_db s /\ keys_of s' = keys_of s.
Proof.
  intros E. destruct (secret_conn_wp (query f) (fun a d => a = f (es_db s) /\ d = es_db s) s s' a) as [[] ?]; auto.
  by apply wp_query.
Qed.

(** A bind that answers [Ok] ran both halves. *)
Lemma mbind_ok {A B F} (m : M (EncryptedStore Conn) F A) (k : A -> M (EncryptedStore Conn) F B) s b s' :
  mbind m k s = (Ok b, s') -> exists a s1, m s = (Ok a, s1) /\ k a s1 = (Ok b, s').
Proof. unfold mbind. destruct (m s) as [[a|e] s1] eqn:E; [|done]. intros Hk. by exists a, s1. Qed.

Lemma use_refused_err {A} inp call refusal (s s' : EncryptedStore Conn) (a : A) :
  use_refused inp call refusal s <> (Ok a, s').
Proof. unfold use_refused. intros (e & s1 & _ & ?)%mbind_ok. done. Qed.

Definition agent_release (inp : SecretInputs) (call : SecretUse) (m : string) (s s' : EncryptedStore Conn) (reply : Value) : Prop :=
  exists row scope material id g now,
    su_sender call <> Basal /\
    usable (es_key s) (es_db s) (su_name call) (su_sender call) (su_target call) row scope material /\
    (now = sx_clock inp 0 \/ now = sx_clock inp 1) /\
    consents (es_db s) call m (as_incarnation row) now id g /\
    release (record_of row scope material) now = Ok reply /\
    release_settled (es_db s') (su_name call) (sender_actor (su_sender call)) id g.

Lemma released_agent inp call m (s s' : EncryptedStore Conn) outcome :
  secret_use_from inp call m s = (Ok outcome, s') ->
  jget "status" (so_reply outcome) = Some (JStr "released") -> agent_release inp call m s s' (so_reply outcome).
Proof.
  unfold secret_use_from, with_keys. destruct (bool_decide (su_sender call = Basal)) eqn:Eb.
  { by intros E%use_refused_err. }
  bool_hyps. intros (snap & s1 & (-> & Hd & HK)%secret_query & Hk)%mbind_ok Hrel. revert Hk. cbv beta.
  assert (forall b, (do! answer <- secret_fenced (secret_use_tx (keys_of s) inp call m) ;;
                     match answer with Err refusal => use_refused inp call refusal | Ok answer => mlift answer end) s1 =
                    (Ok b, s') -> b = outcome -> agent_release inp call m s s' (so_reply outcome)) as Hslow.
  { intros b (answer & s2 & Hf & Hm)%mbind_ok ->. unfold agent_release. rewrite <- Hd.
    destruct (secret_fenced_wp _ _ _ _ _ (use_tx_release (keys_of s) inp call m (es_db s1)) Hf) as [Hpost _].
    destruct answer as [[o|e]|refusal]; [|done|by apply use_refused_err in Hm].
    unfold mlift in Hm. injection Hm as <- <-.
    destruct (Hpost _ eq_refl Hrel) as (row & scope & material & id & g & ? & ? & ? & ?).
    exists row, scope, material, id, g, (sx_clock inp 1). split_and!; auto. }
  destruct (check_secret_target _ _ _ _ (es_db s)) as [record|refusal] eqn:Ec; [|by intros E%use_refused_err].
  destruct (choose_grant _ _ _ _ (es_db s)) as [[id g]|] eqn:Eg; [|intros; by eapply Hslow].
  destruct (existsb _ _); [intros; by eapply Hslow|].
  destruct (sg_first_released g && _) eqn:Ef; [|intros; by eapply Hslow].
  intros (reply & s2 & Hl & Hr)%mbind_ok. unfold mlift in Hl. injection Hl as Hl <-. injection Hr as <- <-.
  apply check_target_ok in Ec as (row & scope & material & Hu & ->). bool_hyps.
  exists row, scope, material, id, g, (sx_clock inp 0). split_and!; auto.
  - by eapply (consents_intro _ (es_db s)); [split|].
  - split; [done|]. intros [?|?]; congruence.
Qed.

Lemma released_has_consent inp call m (s s' : EncryptedStore Conn) outcome :
  secret_use_from inp call m s = (Ok outcome, s') -> jget "status" (so_reply outcome) = Some (JStr "released") ->
  exists row now id g, consents (es_db s) call m (as_incarnation row) now id g.
Proof. intros E Hr. destruct (released_agent _ _ _ _ _ _ E Hr) as (row & ? & ? & id & g & now & ? & ? & ? & ? & _). eauto. Qed.

(** C4: a secret leaves the store for an agent only with consent: the row is active and opens
    under the very scope its columns spell, that scope admits the caller's module and the
    target it names, the caller is no flow, and a grant of that asker for this incarnation
    covers the call and has not expired. What is returned is that material and nothing
    else; a one-time grant is spent by it, and a first release is the newest entry of the
    audit log. *)
Theorem release_needs_consent inp call m (s s' : EncryptedStore Conn) outcome :
  secret_use_from inp call m s = (Ok outcome, s') ->
  jget "status" (so_reply outcome) = Some (JStr "released") ->
  exists row scope material id g now,
    su_sender call <> Basal /\
    usable (es_key s) (es_db s) (su_name call) (su_sender call) (su_target call) row scope material /\
    (now = sx_clock inp 0 \/ now = sx_clock inp 1) /\
    consents (es_db s) call m (as_incarnation row) now id g /\
    release (record_of row scope material) now = Ok (so_reply outcome) /\
    release_settled (es_db s') (su_name call) (sender_actor (su_sender call)) id g.
Proof. apply released_agent. Qed.
End ReleaseOps.

(** ** Release to a flow *)

(** The grant's methods admit the call's. *)
Definition method_admitted `{JsonCodec} (method granted : option string) : Prop :=
  match method, granted with
  | Some m, Some text => exists ms, strings_from_text text = Some ms /\ m ∈ ms
  | None, None => True
  | _, _ => False
  end.

(** A grant for exactly this flow, at this version and code, on this installation. *)
Record flow_consents `{JsonCodec} (d : Db) (call : SecretFlowUse) (asking_member incarnation : string) (id : string)
    (g : FlowGrantRow) : Prop := {
  fc_row : secret_flow_grants (secrets d) !! id = Some g;
  fc_secret : fg_secret_name g = fu_name call;
  fc_incarnation : fg_incarnation g = incarnation;
  fc_asker : fg_asking_member_id g = asking_member;
  fc_flow : fu_flow call = {| flow_id := fg_flow_id g; flow_version := fg_flow_version g;
              flow_code_hash := fg_flow_code_hash g; flow_install_id := fg_flow_install_id g |};
  fc_method : method_admitted (fu_method call) (fg_methods g);
}.

Section FlowRelease.
Context `{C : Crypto} `{RX : RecordExt} `{SE : SecretEnv} {Conn : Type} `{L : SqliteStoreLaws Conn}.

Lemma first_flow_grant_sound method detail rows id g :
  first_flow_grant method detail rows = Ok (Ok (id, g)) ->
  (id, g) ∈ rows /\ method_admitted method (fg_methods g).
Proof.
  revert detail. induction rows as [|[i x] rows IH]; intros detail; [done|]. cbn [first_flow_grant].
  assert (first_flow_grant method "flow_method" rows = Ok (Ok (id, g)) ->
          (id, g) ∈ (i, x) :: rows /\ method_admitted method (fg_methods g)) as Hnext.
  { intros [? ?]%IH. split; [by right|done]. }
  destruct method as [m|], (fg_methods x) as [text|] eqn:Em; try exact Hnext.
  - destruct (strings_from_text text) as [ms|] eqn:Et; [|done]. case_bool_decide; [|exact Hnext].
    intros [= <- <-]. split; [left|]. rewrite Em. by exists ms.
  - intros [= <- <-]. split; [left|]. by rewrite Em.
Qed.

Lemma choose_flow_grant_sound call m incarnation d :
  wp (choose_flow_grant call m incarnation)
     (fun out d' => d' = d /\ forall id g, out = Ok (id, g) -> flow_consents d call m incarnation id g) d.
Proof.
  unfold choose_flow_grant. do 3 wp_step. split; [done|]. intros id g ->.
  match goal with H : first_flow_grant _ _ _ = _ |- _ => apply first_flow_grant_sound in H as [Hin Hm] end.
  rewrite merge_sort_Permutation, list_elem_of_In in Hin. apply filter_In in Hin as [Hin Hc].
  apply list_elem_of_In, elem_of_map_to_list in Hin. cbn in Hc. unfold flow_grant_candidate in Hc. bool_hyps.
  split; try done. destruct (fu_flow call). cbn in *. f_equal; try done. lia.
Qed.

Lemma flow_snapshot_sound K call m d :
  wp (flow_use_snapshot K call m) (fun out d' => d' = d /\ forall record id g, out = Ok (record, (id, g)) ->
    exists row scope material, usable (k_key K) d (fu_name call) Basal (fu_target call) row scope material /\
      record = record_of row scope material /\ flow_consents d call m (as_incarnation row) id g) d.
Proof.
  unfold flow_use_snapshot. do 2 wp_step. destruct (check_secret_target _ _ _ _ d) as [record|] eqn:Ec; [|by wp_step].
  apply check_target_ok in Ec as (row & scope & material & Hu & ->).
  wp_step. eapply wp_mono; [apply choose_flow_grant_sound|]. intros out d' [-> Ho]. wp_step. split; [done|].
  intros record id g E. destruct out as [[i x]|]; simplify_eq. exists row, scope, material. split_and!; auto.
Qed.

(** What a release to a flow leaves. *)
Definition flow_release_settled (d' : Db) (name : string) (g : FlowGrantRow) : Prop :=
  fg_first_released g = false -> exists e, last (audit_log d') = Some e /\ release_logged e name (sender_actor Basal).

Lemma commit_flow_settles ak ts call m id g record now d :
  wp (commit_flow_release ak ts call m (id, g) record now)
     (fun _ d' => flow_release_settled d' (fu_name call) g /\ secret_release_receipts (secrets d') = secret_release_receipts (secrets d)) d.
Proof.
  unfold commit_flow_release. apply wp_bind. destruct (fg_first_released g) eqn:Ef.
  - apply wp_ret, wp_exec. split; [|done]. unfold flow_release_settled. congruence.
  - apply secret_audit_log. intros e d1 -> He1 He2 He3. apply wp_exec. split; [|done]. intros _. exists e.
    split; [cbn; apply last_snoc|done].
Qed.

Lemma flow_use_tx_release K inp call m d :
  wp (flow_use_tx K inp call m) (fun out d' => forall outcome, out = Ok outcome ->
    exists row scope material id g,
      usable (k_key K) d (fu_name call) Basal (fu_target call) row scope material /\
      flow_consents d call m (as_incarnation row) id g /\
      release (record_of row scope material) (sx_clock inp 1) = Ok (so_reply outcome) /\
      flow_release_settled d' (fu_name call) g) d.
Proof.
  unfold flow_use_tx. wp_step. eapply wp_mono; [apply flow_snapshot_sound|]. intros out d1 [-> Ho].
  destruct out as [[record [id g]]|]; [|by wp_step]. destruct (Ho _ _ _ eq_refl) as (row & scope & material & ? & -> & ?).
  do 2 wp_step. wp_step. eapply wp_mono; [apply commit_flow_settles|]. intros ? d2 [Hset _]. wp_step.
  intros outcome [= <-]. exists row, scope, material, id, g. split_and!; auto. by eapply map_err_ok.
Qed.

Lemma flow_checks_keep inp call (s s' : EncryptedStore Conn) : flow_call_checks inp call s = (Ok tt, s') -> es_db s' = es_db s.
Proof.
  unfold flow_call_checks, svalid. intros (a & s1 & [= _ <-] & H1)%mbind_ok.
  apply mbind_ok in H1 as (b & s2 & [= _ <-] & H2). apply mbind_ok in H2 as (c & s3 & [= _ <-] & H3).
  destruct (flow_validate _); [by injection H3 as <-|]. by apply mbind_ok in H3 as (? & ? & _ & ?).
Qed.

(** A secret leaves the store for a flow only under a grant for exactly that flow: the
    same id, version, code hash and installation, asked from the same computer, for this
    incarnation, and for the request's method when the target has one. The secret itself
    must be usable, and a first release is the newest audit entry. *)
Theorem flow_release_needs_consent inp call m (s s' : EncryptedStore Conn) outcome :
  secret_flow_use_from inp call m s = (Ok outcome, s') ->
  exists row scope material id g now,
    usable (es_key s) (es_db s) (fu_name call) Basal (fu_target call) row scope material /\
    flow_consents (es_db s) call m (as_incarnation row) id g /\
    release (record_of row scope material) now = Ok (so_reply outcome) /\
    flow_release_settled (es_db s') (fu_name call) g.
Proof.
  unfold secret_flow_use_from, with_keys.
  intros ([] & s0 & Hchk & (snap & s1 & Hs & Hk)%mbind_ok)%mbind_ok.
  assert (es_db s0 = es_db s) as Hd0 by (by eapply flow_checks_keep).
  destruct (secret_conn_wp _ _ _ _ _ (flow_snapshot_sound (keys_of s) call m (es_db s0)) Hs) as [[Hd1 Ho] _].
  rewrite Hd0 in *. destruct snap as [[record [id g]]|refusal]; [|by apply mbind_ok in Hk as (? & ? & _ & ?)].
  destruct (Ho _ _ _ eq_refl) as (row & scope & material & Hu & -> & Hc).
  destruct (fg_first_released g) eqn:Ef.
  - apply mbind_ok in Hk as (reply & s2 & Hl & Hr). unfold mlift in Hl. injection Hl as Hl <-. injection Hr as <- <-.
    exists row, scope, material, id, g, (sx_clock inp 0). split_and!; auto. unfold flow_release_settled. congruence.
  - apply mbind_ok in Hk as (answer & s2 & Hf & Hm). rewrite <- Hd1.
    destruct (secret_fenced_wp _ _ _ _ _ (flow_use_tx_release (keys_of s) inp call m (es_db s1)) Hf) as [Hpost _].
    destruct answer as [o|refusal]; [|by apply mbind_ok in Hm as (? & ? & _ & ?)]. injection Hm as <- <-.
    destruct (Hpost _ eq_refl) as (row' & scope' & material' & id' & g' & ? & ? & ? & ?).
    exists row', scope', material', id', g', (sx_clock inp 1). split_and!; auto.
Qed.
End FlowRelease.

(** ** Release to a paired computer: one sealing per nonce *)

(** The stored answer for this requester and nonce, still good for this secret. *)
Record receipt_answers (d : Db) (request : ReleaseRequest) (aad_sha256 incarnation : string) (now : Z)
    (sealed : SealedRelease) (row : ReceiptRow) (kind : ReceiptGrant) : Prop := {
  ra_row : secret_release_receipts (secrets d) !! (rr_requester request, rr_nonce request) = Some row;
  ra_kind : rc_grant_kind row = receipt_as_str kind;
  ra_unexpired : now < rc_expires_at_ms row;
  ra_aad : rc_aad_sha256 row = aad_sha256;
  ra_incarnation : rc_incarnation row = incarnation;
  ra_live : receipt_live kind (rc_grant_id row) incarnation (rr_requester request) now d = true;
  ra_bytes : sealed = {| se_enc := rc_enc row; se_ciphertext := rc_ciphertext row |};
}.

Section Sealed.
Context `{C : Crypto} `{RX : RecordExt} `{SE : SecretEnv} {Conn : Type} `{L : SqliteStoreLaws Conn}.

Lemma replay_sound request aad incarnation kinds now d :
  wp (replay request aad incarnation kinds now) (fun out d' => d' = d /\
    match out with
    | None => secret_release_receipts (secrets d) !! (rr_requester request, rr_nonce request) = None
    | Some answer => forall sealed, answer = FAnswer (Ok (FSealed sealed)) ->
        exists row kind, kind ∈ kinds /\ receipt_answers d request aad incarnation now sealed row kind
    end) d.
Proof.
  unfold replay. do 2 wp_step. destruct (secret_release_receipts _ !! _) as [row|] eqn:Er; [|by wp_step].
  destruct (find _ _) as [kind|] eqn:Ek; [|exact I]. apply find_some in Ek as [_ Ek]. wp_step; [by wp_step|].
  do 3 wp_step. split; [done|]. intros sealed. destruct (receipt_live _ _ _ _ _ _) eqn:El; [|done]. intros [= <-].
  bool_hyps. exists row, kind. split; [done|]. split; try done; lia.
Qed.

(** The receipt a fresh sealing leaves. *)
Definition receipt_kept (d' : Db) (request : ReleaseRequest) (sealed : SealedRelease) : Prop :=
  exists row, secret_release_receipts (secrets d') !! (rr_requester request, rr_nonce request) = Some row /\
    rc_enc row = se_enc sealed /\ rc_ciphertext row = se_ciphertext sealed /\
    rc_aad_sha256 row = hex (payload_sha256 (rr_aad request)).

Lemma write_receipt_keeps request incarnation kind id sealed now (Q : Db -> Prop) d :
  (forall d', secret_grants (secrets d') = secret_grants (secrets d) -> audit_log d' = audit_log d ->
     receipt_kept d' request sealed -> Q d') ->
  wp (write_receipt request (hex (payload_sha256 (rr_aad request))) incarnation kind id sealed now) (fun _ => Q) d.
Proof.
  intros HQ. unfold wp, write_receipt. destruct (is_some _); [done|]. apply HQ; [done|done|].
  eexists. split; [apply lookup_insert_eq|]. done.
Qed.

Lemma use_sealed_release K inp call request seal d :
  wp (secret_use_sealed_tx K inp call request seal) (fun out d' => forall sealed, out = FAnswer (Ok (FSealed sealed)) ->
    exists row scope material,
      usable (k_key K) d (su_name call) (su_sender call) (su_target call) row scope material /\
      ((exists receipt kind, d' = d /\ kind ∈ [RAgent; ROnce] /\
          receipt_answers d request (hex (payload_sha256 (rr_aad request))) (as_incarnation row) (sx_clock inp 0)
            sealed receipt kind) \/
       (exists id g reply,
          secret_release_receipts (secrets d) !! (rr_requester request, rr_nonce request) = None /\
          consents d call (rr_requester request) (as_incarnation row) (sx_clock inp 0) id g /\
          release (record_of row scope material) (sx_clock inp 0) = Ok reply /\ seal reply = Ok sealed /\
          release_settled d' (su_name call) (sender_actor (su_sender call)) id g /\
          receipt_kept d' request sealed))) d.
Proof.
  unfold secret_use_sealed_tx. do 2 wp_step. destruct (check_secret_target _ _ _ _ d) as [record|] eqn:Ec; [|by wp_step].
  apply check_target_ok in Ec as (row & scope & material & Hu & ->).
  wp_step. eapply wp_mono; [apply replay_sound|]. intros out d1 [-> Ho]. destruct out as [answer|].
  { wp_step. intros sealed E. destruct (Ho _ E) as (receipt & kind & ? & ?). exists row, scope, material.
    split; [done|]. left. eauto. }
  wp_step. eapply wp_rel; [apply sweep_fewer|]. intros _ d2 Hs. do 2 wp_step.
  destruct (choose_grant _ _ _ _ d2) as [[id g]|] eqn:Eg.
  - unfold seal_captured. do 4 wp_step. wp_step. eapply wp_mono; [apply commit_release_settles|]. intros ? d3 Hset.
    wp_step. apply write_receipt_keeps. intros d4 Hg Ha Hk. wp_step. intros sealed [= <-].
    exists row, scope, material. split; [done|]. right. exists id, g. eexists. split_and!;
      [done|by eapply consents_intro|by eapply map_err_ok|by eapply map_err_ok| |done].
    destruct Hset. split; [by rewrite Hg|by rewrite Ha].
  - wp_step. eapply wp_mono; [apply pending_asks|]. intros answer d3 _. wp_step. intros sealed.
    by destruct answer.
Qed.

Lemma forwarded_ok body (refuse : Refusal -> M (EncryptedStore Conn) SecretError SecretError) s s' r :
  forwarded_answer body refuse s = (Ok (Ok r), s') ->
  exists f, secret_fenced body s = (Ok f, s') /\ f = FAnswer (Ok r).
Proof.
  unfold forwarded_answer, secret_fenced. destruct (fenced_write body s) as [out s1].
  destruct out as [[[a|e]|refusal]|[|[]|]]; intros E; simplify_eq; [by eexists|].
  by apply mbind_ok in E as (? & ? & _ & ?).
Qed.

(** C22: a secret forwarded to a paired computer is sealed once per requester and nonce. The
    bytes returned are either those of the receipt already on disk for them, written for
    the same associated data and incarnation, not expired, under a grant that still
    answers, and then nothing is written; or there was no receipt, the asker's own grant
    covers the call as for an agent, the bytes are a sealing of the released secret, and
    the receipt with exactly these bytes is on disk. *)
Theorem sealed_once_per_nonce inp call request seal (s s' : EncryptedStore Conn) sealed :
  secret_use_sealed inp call request seal s = (Ok (Ok (FSealed sealed)), s') ->
  exists row scope material,
    usable (es_key s) (es_db s) (su_name call) (su_sender call) (su_target call) row scope material /\
    ((exists receipt kind, es_db s' = es_db s /\ kind ∈ [RAgent; ROnce] /\
        receipt_answers (es_db s) request (hex (payload_sha256 (rr_aad request))) (as_incarnation row)
          (sx_clock inp 0) sealed receipt kind) \/
     (exists id g reply,
        secret_release_receipts (secrets (es_db s)) !! (rr_requester request, rr_nonce request) = None /\
        consents (es_db s) call (rr_requester request) (as_incarnation row) (sx_clock inp 0) id g /\
        release (record_of row scope material) (sx_clock inp 0) = Ok reply /\ seal reply = Ok sealed /\
        release_settled (es_db s') (su_name call) (sender_actor (su_sender call)) id g /\
        receipt_kept (es_db s') request sealed)).
Proof.
  unfold secret_use_sealed, with_keys. intros (a & s1 & [= _ <-] & Hk)%mbind_ok.
  destruct (bool_decide _); [by apply use_refused_err in Hk|]. apply forwarded_ok in Hk as (f & Hf & ->).
  destruct (secret_fenced_wp _ _ _ _ _ (use_sealed_release (keys_of s) inp call request seal (es_db s)) Hf) as [Hp _].
  by apply Hp.
Qed.
End Sealed.

(** ** A covered call is served *)

Section Served.
Context `{C : Crypto} `{RX : RecordExt} `{SE : SecretEnv} {Conn : Type} `{L : SqliteStoreLaws Conn}.

Lemma secret_audit_runs ak ts o t a fields (Q : unit -> Db -> Prop) d :
  (forall e, Q tt (with_audit_log (fun l => l ++ [e]) d)) -> runs (secret_audit ak ts o t a fields) Q d.
Proof. intros HQ. unfold secret_audit, audit_now, runs, mbind, mret, append_audit_tx. cbn. apply HQ. Qed.

(** The sweep takes the listed grants and no other. *)
Lemma sweep_grants_runs ak ts rows (Q : unit -> Db -> Prop) d :
  (forall d', agent_secrets d' = agent_secrets d ->
     (forall i, i ∉ map fst rows -> secret_grants (secrets d') !! i = secret_grants (secrets d) !! i) -> Q tt d') ->
  runs (sweep_grants ak ts rows) Q d.
Proof.
  revert d. induction rows as [|[i g] rows IH]; intros d HQ; cbn [sweep_grants].
  { apply runs_ret. by apply HQ. }
  apply runs_bind, runs_exec, runs_bind, secret_audit_runs. intros e. apply IH. intros d' E1 E2. apply HQ; [done|].
  cbn [map]. intros j Hj. rewrite E2 by set_solver. cbn. rewrite lookup_delete_ne by set_solver. done.
Qed.

(** Every expiry column reads back as an unsigned integer. *)
Definition expiries_readable (d : Db) : Prop :=
  forall i g, secret_grants (secrets d) !! i = Some g -> 0 <= sg_expires_at_ms g.

Lemma sweep_runs ak ts now (Q : unit -> Db -> Prop) d :
  expiries_readable d ->
  (forall d', agent_secrets d' = agent_secrets d ->
     (forall i g, secret_grants (secrets d) !! i = Some g -> grant_expired now g = false ->
                  secret_grants (secrets d') !! i = Some g) -> Q tt d') ->
  runs (sweep ak ts now) Q d.
Proof.
  intros He HQ. unfold sweep. apply runs_bind, runs_query.
  destruct (existsb _ _) eqn:E.
  { apply existsb_exists in E as ([i g] & [Hin _]%filter_In & Hlt). apply list_elem_of_In, elem_of_map_to_list in Hin.
    apply He in Hin. cbn in Hlt. lia. }
  apply runs_bind, sweep_grants_runs. intros d1 E1 E2. unfold sweep_release_receipts. apply runs_exec. apply HQ; [done|].
  intros i g Hg Hx. cbn. rewrite E2; [done|]. intros ([j x] & -> & Hin)%list_elem_of_fmap.
  apply list_elem_of_In, filter_In in Hin as [Hin Hex]. apply list_elem_of_In, elem_of_map_to_list in Hin. cbn in *. congruence.
Qed.

Lemma usable_checks key d name sender target row scope material :
  usable key d name sender target row scope material ->
  check_secret_target key name sender target d = Ok (record_of row scope material).
Proof.
  intros []. unfold check_secret_target. rewrite us_row0, us_scope0, us_open0, us_sender0, us_target0.
  rewrite bool_decide_true by done. done.
Qed.

Lemma consents_candidate d call m incarnation now id g :
  consents d call m incarnation now id g ->
  grant_candidate (su_name call) m incarnation now g = true /\ grant_expired now g = false.
Proof.
  intros [_ H2 H3 H4 H5 _]. unfold grant_candidate, grant_unexpired, grant_expired. split.
  - rewrite !andb_true_iff, orb_true_iff, !bool_decide_eq_true. split_and!; [done|done| |done].
    destruct H5; [by left|right; lia].
  - destruct H5; [by rewrite bool_decide_true|]. apply andb_false_iff. right. lia.
Qed.

Lemma commit_release_runs ak ts call m grant record now d :
  runs (commit_agent_release ak ts call m grant record now) (fun _ _ => True) d.
Proof.
  unfold commit_agent_release. destruct grant as [i g]. apply runs_bind. destruct (_ || _).
  - apply secret_audit_runs. intros e. by apply runs_exec.
  - by apply runs_ret, runs_exec.
Qed.

Lemma use_tx_serves K inp call m row scope material id g reply d :
  expiries_readable d -> usable (k_key K) d (su_name call) (su_sender call) (su_target call) row scope material ->
  consents d call m (as_incarnation row) (sx_clock inp 1) id g ->
  release (record_of row scope material) (sx_clock inp 1) = Ok reply ->
  runs (secret_use_tx K inp call m) (fun out _ => out = Ok (Ok {| so_reply := reply; so_last_use := None |})) d.
Proof.
  intros He Hu Hc Hr. unfold secret_use_tx. apply runs_bind, runs_query. rewrite (usable_checks _ _ _ _ _ _ _ _ Hu).
  apply runs_bind, sweep_runs; [done|]. intros d1 E1 Hkeep. apply runs_bind, runs_query.
  destruct (consents_candidate _ _ _ _ _ _ _ Hc) as [Hcand Hex].
  change (sr_incarnation (record_of row scope material)) with (as_incarnation row).
  destruct (choose_grant_complete call m (as_incarnation row) (sx_clock inp 1) d1 id g) as [kv ->];
    [by apply Hkeep; [apply Hc|]|done|apply Hc|].
  apply runs_bind. eapply runs_lift; [by rewrite Hr|]. apply runs_bind.
  eapply runs_mono; [apply commit_release_runs|]. intros _ d2 _. by apply runs_ret.
Qed.

Lemma secret_fenced_total {A} (f : Tx A) (Q : A -> Db -> Prop) (s : EncryptedStore Conn) :
  conn_lease (es_conn s) = true -> conn_healthy (es_conn s) = true -> runs f Q (es_db s) ->
  exists a s', secret_fenced f s = (Ok a, s') /\ Q a (es_db s').
Proof.
  intros Hl Hh Hr. destruct (fenced_total f Q s Hl Hh Hr) as (a & s' & E & HQ & _). exists a, s'. split; [|done].
  unfold fenced, secret_fenced in *. by destruct (fenced_write f s) as [[x|e] s1]; cbn in *; simplify_eq.
Qed.

Lemma secret_conn_total {A} (f : Db -> A) (s : EncryptedStore Conn) :
  conn_healthy (es_conn s) = true ->
  exists s', secret_conn (query f) s = (Ok (f (es_db s)), s') /\ es_db s' = es_db s /\
    conn_lease (es_conn s') = conn_lease (es_conn s) /\ conn_healthy (es_conn s') = true.
Proof.
  intros Hh. unfold secret_conn. destruct (conn_runs (query f) (es_conn s) Hh) as (c & E & Hh').
  rewrite E. eexists. split; [done|]. cbn. destruct (conn_keeps _ _ _ _ E) as [_ ->].
  apply conn_commits in E. by injection E.
Qed.

(** C29: the other half of release: with the lease and a working backend, a usable secret and
    a grant that covers the call at both readings of the clock, the call answers with the
    material. *)
Theorem covered_use_is_served inp call m (s : EncryptedStore Conn) row scope material id g reply reply' :
  conn_lease (es_conn s) = true -> conn_healthy (es_conn s) = true -> expiries_readable (es_db s) ->
  su_sender call <> Basal ->
  usable (es_key s) (es_db s) (su_name call) (su_sender call) (su_target call) row scope material ->
  consents (es_db s) call m (as_incarnation row) (sx_clock inp 0) id g ->
  consents (es_db s) call m (as_incarnation row) (sx_clock inp 1) id g ->
  release (record_of row scope material) (sx_clock inp 0) = Ok reply ->
  release (record_of row scope material) (sx_clock inp 1) = Ok reply' ->
  exists outcome s', secret_use_from inp call m s = (Ok outcome, s') /\
    (so_reply outcome = reply \/ so_reply outcome = reply') /\
    jget "status" (so_reply outcome) = Some (JStr "released").
Proof.
  intros Hl Hh He Hb Hu Hc0 Hc1 Hr0 Hr1. unfold secret_use_from, with_keys. rewrite bool_decide_false by done.
  match goal with |- context [secret_conn (query ?f)] => destruct (secret_conn_total f s Hh) as (s1 & Eq & Hd1 & Hl1 & Hh1) end.
  unfold mbind at 1. rewrite Eq. pose proof (usable_checks _ _ _ _ _ _ _ _ Hu) as Hck.
  change (es_key s) with (k_key (keys_of s)) in Hck. cbv beta. rewrite Hck. cbv beta iota.
  assert (exists outcome s', (do! answer <- secret_fenced (secret_use_tx (keys_of s) inp call m) ;;
      match answer with Err refusal => use_refused inp call refusal | Ok answer => mlift answer end) s1 = (Ok outcome, s') /\
      so_reply outcome = reply') as Hslow.
  { destruct (secret_fenced_total (secret_use_tx (keys_of s) inp call m)
      (fun out _ => out = Ok (Ok {| so_reply := reply'; so_last_use := None |})) s1) as (a & s2 & E2 & ->); [congruence|done| |].
    - rewrite Hd1. by eapply use_tx_serves.
    - unfold mbind. rewrite E2. by do 2 eexists. }
  assert (exists outcome s', (do! answer <- secret_fenced (secret_use_tx (keys_of s) inp call m) ;;
      match answer with Err refusal => use_refused inp call refusal | Ok answer => mlift answer end) s1 = (Ok outcome, s') /\
      (so_reply outcome = reply \/ so_reply outcome = reply') /\ jget "status" (so_reply outcome) = Some (JStr "released"))
    as Hs.
  { destruct Hslow as (o & s2 & E2 & Eo). exists o, s2. split_and!; [done|by right|]. rewrite Eo. by eapply release_status. }
  destruct (choose_grant _ _ _ _ (es_db s)) as [[i x]|]; [|exact Hs]. destruct (existsb _ _); [exact Hs|].
  destruct (_ && _); [|exact Hs]. unfold mbind, mlift. cbn [sr_scope]. rewrite Hr0. do 2 eexists. split_and!; [done|by left|].
  by eapply release_status.
Qed.
End Served.
