(* ===== verification/SecretGrants.v ===== *)
(** * Where the grants on agent secrets come from

    Only an approval signed by the phone grants ([others_grant_nothing]), and what it grants
    is what the signed statement says, for a request that was pending and is spent by it
    ([new_grant_was_signed]); consent withdrawn stays withdrawn over any history without a
    new approval ([withdrawn_consent_stays_withdrawn]). *)

From stdpp Require Import gmap sorting.
From S2P Require Import Prelude Text Crypto Json Record CredentialId Catalog Envelope AuditLog Database Store TxLogic Secrets Kem SecretStore Calls SecretCalls Grants Enrollment Access SecretSpecs.

(** ** Where grants come from *)

(** Nothing is granted: every grant row was there, with the same columns. *)
Definition grant_tables (d : Db) : gmap string SecretGrantRow * gmap string FlowGrantRow :=
  (grant_identity <$> secret_grants (secrets d), flow_grant_identity <$> secret_flow_grants (secrets d)).
Definition fewer (x y : gmap string SecretGrantRow * gmap string FlowGrantRow) : Prop := y.1 ⊆ x.1 /\ y.2 ⊆ x.2.
#[global] Instance fewer_preorder : PreOrder fewer.
Proof. split; [done|]. intros x y z [] []. split; by etrans. Qed.
Abbreviation grants_nothing := (on grant_tables fewer).

Lemma grants_nothing_agents f :
  (forall m, grant_identity <$> f m ⊆ grant_identity <$> m) -> tx_rel grants_nothing (exec (with_secret_grants f)).
Proof. intros Hf d a d' [= _ <-]. split; [apply Hf|done]. Qed.
Lemma grants_nothing_flows f :
  (forall m, flow_grant_identity <$> f m ⊆ flow_grant_identity <$> m) -> tx_rel grants_nothing (exec (with_flow_grants f)).
Proof. intros Hf d a d' [= _ <-]. split; [done|apply Hf]. Qed.

Definition is_approval (c : SecretCall) : bool :=
  match c with ScPhone _ _ _ _ (PhApprove _ _ _) _ => true | _ => false end.

Ltac grants_step :=
  lazymatch goal with
  | |- tx_rel _ (exec (with_secret_grants _)) => apply grants_nothing_agents; down_shrinks
  | |- tx_rel _ (exec (with_flow_grants _)) => apply grants_nothing_flows; down_shrinks
  | H : true = false |- _ => discriminate H
  end.

Section Sources.
Context `{C : Crypto} `{RX : RecordExt} `{SE : SecretEnv}.

Lemma refusals_grant_nothing K : refusals_respect K grants_nothing.
Proof.
  split; intros; (apply (tx_rel_weaken winds_down); [intros d d' []; by split|]); apply (refusals_wind_down K).
Qed.

Lemma others_grant_nothing K c : is_approval c = false -> secret_respects K grants_nothing c.
Proof.
  intros Hc. destruct c as [| | | | | | | | | | | | | |? ? ? ? operation|?|?|?]; try discriminate Hc;
    try destruct operation; try discriminate Hc; clear Hc; secret_solve ltac:(idtac; grants_step).
Qed.
End Sources.

(** *** The signed envelope behind a grant *)

(** The request an item of a signed envelope answers: still pending at [now], on this
    computer, and of exactly the statement whose hash was signed. *)
Record item_answers `{Crypto} `{JsonCodec} (d : Db) (e : ApprovalEnvelope) (item : ApprovalItem) (member : option string)
    (now : Z) (p : RequestRow) (statement : Value) : Prop := {
  ia_row : secret_pending_requests (secrets d) !! ai_request_id item = Some p;
  ia_pending : rq_consumed p = false;
  ia_in_time : now < rq_expires_at_ms p;
  ia_allowed : ae_decision e = "allow" /\ rq_kind p = "approve";
  ia_member : member = Some (rq_member_id p);
  ia_hash : ai_statement_sha256 item = hex (payload_sha256 (rq_statement_bytes p));
  ia_parsed : json_from_slice (rq_statement_bytes p) = Some statement;
  ia_agrees : statement_agrees statement (ai_request_id item) p = true;
  ia_duration : durations_include statement (ae_duration e) = true;
  ia_expiry : expected_expiry (ae_duration e) (as_i64 (ae_issued_at_ms e)) (rq_expires_at_ms p) false =
              Some (as_i64 (ae_grant_expires_at_ms e));
}.

(** The columns a grant takes from the request it answers. *)
Definition grant_of_request (g : SecretGrantRow) (p : RequestRow) (e : ApprovalEnvelope) (hash : string) : Prop :=
  sg_secret_name g = rq_secret_name p /\ sg_incarnation g = rq_incarnation p /\
  Some (sg_scope_owner g) = rq_owner p /\ Some (sg_scope_kind g) = rq_scope_kind p /\
  Some (sg_scope_ref g) = rq_scope_ref p /\ Some (sg_coverage g) = rq_coverage p /\
  sg_asking_member_id g = rq_asking_member_id p /\ sg_duration g = ae_duration e /\
  sg_expires_at_ms g = ae_grant_expires_at_ms e /\ sg_envelope_sha256 g = hash.

Definition flow_grant_of_request (g : FlowGrantRow) (p : RequestRow) (hash : string) : Prop :=
  fg_secret_name g = rq_secret_name p /\ fg_incarnation g = rq_incarnation p /\
  Some (fg_flow_id g) = rq_flow_id p /\ Some (fg_flow_version g) = rq_flow_version p /\
  Some (fg_flow_code_hash g) = rq_flow_code_hash p /\ Some (fg_flow_install_id g) = rq_flow_install_id p /\
  fg_methods g = rq_methods p /\ fg_asking_member_id g = rq_asking_member_id p /\ fg_envelope_sha256 g = hash.

(** The secret was usable when the grant was made, in the state it is in at [d]. *)
Definition grantable `{Crypto} `{SecretExt} (key : MasterKey) (d : Db) (p : RequestRow) : Prop :=
  exists row scope material, agent_secrets d !! rq_secret_name p = Some row /\ as_incarnation row = rq_incarnation p /\
    as_state row = "active" /\ scope_of_columns row = Some scope /\
    secret_open key (rq_incarnation p) (rq_secret_name p) scope (as_envelope row) = Ok material.

Section Signed.
Context `{C : Crypto} `{RX : RecordExt} `{SE : SecretEnv} (K : Keys).
Context (d0 : Db) (e : ApprovalEnvelope) (items : list ApprovalItem) (member : option string) (hash : string) (now : Z).

Definition agent_signed (d : Db) (g : SecretGrantRow) : Prop :=
  exists item p statement, item ∈ items /\ item_answers d0 e item member now p statement /\
    agent_statement_ok statement (ae_duration e) p = true /\ grantable (k_key K) d0 p /\ grant_of_request g p e hash /\
    secret_pending_requests (secrets d) !! ai_request_id item = Some (consume_request p).

Definition flow_signed (d : Db) (g : FlowGrantRow) : Prop :=
  exists item p statement, item ∈ items /\ item_answers d0 e item member now p statement /\
    ae_duration e = "version" /\ grantable (k_key K) d0 p /\ flow_grant_of_request g p hash /\
    secret_pending_requests (secrets d) !! ai_request_id item = Some (consume_request p).

(** Between items: only consumed requests and signed grants are new. *)
Record between_items (d : Db) : Prop := {
  bi_secrets n r : agent_secrets d !! n = Some r -> as_state r = "active" -> agent_secrets d0 !! n = Some r;
  bi_requests i : secret_pending_requests (secrets d) !! i = secret_pending_requests (secrets d0) !! i \/
    exists p, secret_pending_requests (secrets d0) !! i = Some p /\
              secret_pending_requests (secrets d) !! i = Some (consume_request p);
  bi_grants id g : secret_grants (secrets d) !! id = Some g ->
    secret_grants (secrets d0) !! id = Some g \/ agent_signed d g;
  bi_flows id g : secret_flow_grants (secrets d) !! id = Some g ->
    secret_flow_grants (secrets d0) !! id = Some g \/ flow_signed d g;
}.

Lemma between_frame d d' :
  between_items d -> agent_secrets d' = agent_secrets d -> secrets d' = secrets d -> between_items d'.
Proof.
  intros [H1 H2 H3 H4] E1 E2. unfold agent_signed, flow_signed in *.
  split; unfold agent_signed, flow_signed; rewrite ?E1, ?E2; done.
Qed.

Lemma pending_unconsumed d i p :
  between_items d -> secret_pending_requests (secrets d) !! i = Some p -> rq_consumed p = false ->
  secret_pending_requests (secrets d0) !! i = Some p.
Proof.
  intros Hb Hp Hc. destruct (bi_requests _ Hb i) as [E|(p0 & _ & E)]; [congruence|].
  rewrite E in Hp. injection Hp as <-. done.
Qed.

(** Consuming a request keeps what is known. *)
Lemma consume_between d i p :
  between_items d -> secret_pending_requests (secrets d0) !! i = Some p ->
  secret_pending_requests (secrets d) !! i = Some p ->
  between_items (with_requests (alter consume_request i) d).
Proof.
  intros [H1 H2 H3 H4] H0 Hi.
  assert (forall j q, secret_pending_requests (secrets d) !! j = Some (consume_request q) ->
            alter consume_request i (secret_pending_requests (secrets d)) !! j = Some (consume_request q)) as Hc.
  { intros j q Hj. destruct (decide (i = j)) as [<-|Hne]; [|by rewrite lookup_alter_ne].
    rewrite lookup_alter_eq, Hj. done. }
  split; cbn; try done.
  - intros j. destruct (decide (i = j)) as [<-|Hne]; [|rewrite lookup_alter_ne by done; apply H2].
    right. exists p. by rewrite lookup_alter_eq, Hi.
  - intros id g Hg. destruct (H3 id g Hg) as [?|(item & q & st & ? & ? & ? & ? & ? & ?)]; [by left|].
    right. exists item, q, st. split_and!; auto.
  - intros id g Hg. destruct (H4 id g Hg) as [?|(item & q & st & ? & ? & ? & ? & ? & ?)]; [by left|].
    right. exists item, q, st. split_and!; auto.
Qed.
End Signed.

Section SignedItems.
Context `{C : Crypto} `{RX : RecordExt} `{SE : SecretEnv} (K : Keys).
Context (d0 : Db) (e : ApprovalEnvelope) (items : list ApprovalItem) (member : option string) (hash : string) (now : Z).
Abbreviation between := (between_items K d0 e items member hash now).

Lemma quarantine_between ak ts p d : between d -> wp (approval_quarantine ak ts p) (fun _ => between) d.
Proof.
  intros Hb. unfold approval_quarantine, savepoint, wp. cbn.
  match goal with |- between ?x => apply (between_frame K d0 e items member hash now
    (corrupt_active (fun _ a => has_incarnation (rq_incarnation p) a) d) x) end; [|done|done].
  destruct Hb as [H1 H2 H3 H4]. split; cbn; try done. intros n r. rewrite map_lookup_imap.
  destruct (agent_secrets d !! n) as [r0|] eqn:E; cbn; [|done]. intros [= <-].
  destruct (_ && _); [done|]. intros Ha. by apply H1.
Qed.

Lemma insert_grant_between ak ts id g actor item p statement d :
  between d -> item ∈ items -> item_answers d0 e item member now p statement ->
  agent_statement_ok statement (ae_duration e) p = true -> grantable (k_key K) d0 p -> grant_of_request g p e hash ->
  secret_pending_requests (secrets d) !! ai_request_id item = Some (consume_request p) ->
  wp (do! _ <- insert_secret_grant id g ;;
      do! _ <- envelope_audit ak ts SecretGrantCreate (rq_secret_name p) actor hash ;; mret true) (fun _ => between) d.
Proof.
  intros [H1 H2 H3 H4] Hi Ha Hs Hg Hr Hq. apply wp_bind. unfold wp at 1, insert_secret_grant.
  destruct (is_some _); [done|]. destruct (_ && _); [|done].
  apply wp_bind, wp_envelope_audit. intros d' E1 E2 _ _ _ _. apply wp_ret.
  eapply between_frame; [|exact E1|exact E2]. split; cbn; try done.
  intros i x. rewrite lookup_insert_Some. intros [[<- <-]|[_ Hx]]; [|by apply H3].
  right. exists item, p, statement. split_and!; done.
Qed.

Lemma insert_flow_between ak ts id g actor item p statement d :
  between d -> item ∈ items -> item_answers d0 e item member now p statement ->
  ae_duration e = "version" -> grantable (k_key K) d0 p -> flow_grant_of_request g p hash ->
  secret_pending_requests (secrets d) !! ai_request_id item = Some (consume_request p) ->
  wp (do! _ <- insert_flow_grant id g ;;
      do! _ <- envelope_audit ak ts SecretGrantCreate (rq_secret_name p) actor hash ;; mret true) (fun _ => between) d.
Proof.
  intros [H1 H2 H3 H4] Hi Ha Hs Hg Hr Hq. apply wp_bind. unfold wp at 1, insert_flow_grant.
  destruct (is_some _); [done|]. destruct (_ && _); [|done].
  apply wp_bind, wp_envelope_audit. intros d' E1 E2 _ _ _ _. apply wp_ret.
  eapply between_frame; [|exact E1|exact E2]. split; cbn; try done.
  intros i x. rewrite lookup_insert_Some. intros [[<- <-]|[_ Hx]]; [|by apply H4].
  right. exists item, p, statement. split_and!; done.
Qed.

Lemma flow_item_between ak ts rnd item p statement scope actor card d :
  between d -> item ∈ items -> item_answers d0 e item member now p statement -> grantable (k_key K) d0 p ->
  secret_pending_requests (secrets d) !! ai_request_id item = Some p ->
  wp (flow_item_tx ak ts rnd item e p scope actor hash card now) (fun _ => between) d.
Proof.
  intros Hb Hi Ha Hg Hq. unfold flow_item_tx. wp_step; [by wp_step|]. bool_hyps.
  destruct (rq_flow_id p) as [fid|] eqn:E1; [|by wp_step]. destruct (rq_flow_version p) as [v|] eqn:E2; [|by wp_step].
  destruct (rq_flow_code_hash p) as [ch|] eqn:E3; [|by wp_step].
  destruct (rq_flow_install_id p) as [iid|] eqn:E4; [|by wp_step]. cbv zeta.
  repeat match goal with
    | |- wp (mbind _ _) _ _ => fail 1
    | |- wp _ _ _ => wp_step; try done
    end.
  do 4 wp_step. eapply insert_flow_between; [eapply consume_between; [done|apply Ha|done]|done|exact Ha|done|done| |].
  - unfold flow_grant_of_request. cbn. split_and!; congruence.
  - cbn. by rewrite lookup_alter_eq, Hq.
Qed.

Lemma agent_item_between ak ts id item p statement actor card d :
  between d -> item ∈ items -> item_answers d0 e item member now p statement ->
  agent_statement_ok statement (ae_duration e) p = true -> grantable (k_key K) d0 p ->
  secret_pending_requests (secrets d) !! ai_request_id item = Some p ->
  wp (do! _ <- exec (with_requests (alter consume_request (ai_request_id item))) ;;
      do! _ <- insert_agent_grant id e p hash card now ;;
      do! _ <- envelope_audit ak ts SecretGrantCreate (rq_secret_name p) actor hash ;; mret true) (fun _ => between) d.
Proof.
  intros Hb Hi Ha Hs Hg Hq. do 2 wp_step. unfold insert_agent_grant.
  destruct (rq_owner p) eqn:E1, (rq_scope_kind p) eqn:E2, (rq_scope_ref p) eqn:E3, (rq_coverage p) eqn:E4; try exact I.
  eapply insert_grant_between; [eapply consume_between; [done|apply Ha|done]|done|exact Ha|done|done| |].
  - unfold grant_of_request. cbn. split_and!; congruence.
  - cbn. by rewrite lookup_alter_eq, Hq.
Qed.
End SignedItems.

Section SignedApproval.
Context `{C : Crypto} `{RX : RecordExt} `{SE : SecretEnv} (K : Keys).

(** What the guards of an item establish. *)
Lemma item_admitted_answers d0 e item member now p statement :
  secret_pending_requests (secrets d0) !! ai_request_id item = Some p ->
  json_from_slice (rq_statement_bytes p) = Some statement ->
  item_admitted item e member p statement false now = true ->
  expected_expiry (ae_duration e) (as_i64 (ae_issued_at_ms e)) (rq_expires_at_ms p) false =
    Some (as_i64 (ae_grant_expires_at_ms e)) ->
  durations_include statement (ae_duration e) = true ->
  item_answers d0 e item member now p statement.
Proof.
  intros Hp Hj Ha He Hd. unfold item_admitted in Ha. bool_hyps. split; try done; [lia|congruence].
Qed.

Lemma approval_item_between d0 e items member hash now ts rnd item fp card d :
  between_items K d0 e items member hash now d -> item ∈ items ->
  wp (approval_item_tx K ts rnd item e member hash fp card false now)
     (fun _ => between_items K d0 e items member hash now) d.
Proof.
  intros Hb Hi. unfold approval_item_tx. do 2 wp_step.
  destruct (secret_pending_requests (secrets d) !! _) as [p|] eqn:Ep; [|by wp_step]. unfold sql_range.
  wp_step; [done|]. destruct (json_from_slice _) as [statement|] eqn:Ej; [|by wp_step].
  wp_step; [by wp_step|]. wp_step; [by wp_step|]. wp_step; [by wp_step|]. do 2 wp_step.
  destruct (agent_secrets d !! rq_secret_name p) as [row|] eqn:Er; [|by wp_step].
  do 3 (wp_step; [by wp_step|]).
  assert (secret_pending_requests (secrets d0) !! ai_request_id item = Some p) as Hp0.
  { eapply pending_unconsumed; [done|done|]. unfold item_admitted in *. by bool_hyps. }
  bool_hyps.
  assert (item_answers d0 e item member now p statement) as Ha by (by apply item_admitted_answers).
  destruct (scope_of_columns row) as [scope|] eqn:Es.
  2:{ wp_step. eapply wp_mono; [by apply quarantine_between|]. intros. by wp_step. }
  wp_step.
  { wp_step. eapply wp_mono; [by apply quarantine_between|]. intros. by wp_step. }
  assert (grantable (k_key K) d0 p) as Hg.
  { destruct (secret_open _ _ _ _ _) as [material|] eqn:Eo; [|done]. exists row, scope, material.
    split_and!; auto; [by eapply bi_secrets|]. unfold has_incarnation in *. by bool_hyps. }
  wp_step; [by eapply flow_item_between|]. wp_step; [by wp_step|]. do 2 wp_step.
  eapply agent_item_between; try done. match goal with H : (_ && _)%bool = false |- _ => apply andb_false_iff in H as [?|?] end; bool_hyps; congruence.
Qed.

Lemma approval_items_between d0 e all member hash now ts rnd i items fp card d :
  between_items K d0 e all member hash now d -> items ⊆ all ->
  wp (approval_items_tx K ts rnd i items e member hash fp card false now)
     (fun _ => between_items K d0 e all member hash now) d.
Proof.
  revert i d. induction items as [|item items IH]; intros i d Hb Hs; cbn [approval_items_tx]; [by wp_step|].
  wp_step. eapply wp_mono; [apply approval_item_between; [done|set_solver]|]. intros a d1 Hb1.
  wp_step. eapply wp_mono; [apply IH; [done|set_solver]|]. intros. by wp_step.
Qed.

Lemma between_start d e all member hash now : between_items K d e all member hash now d.
Proof. split; auto. Qed.

(** A database that differs in neither secrets, requests nor grants. *)
Definition same_grant_view (d d' : Db) : Prop :=
  agent_secrets d' = agent_secrets d /\ secret_pending_requests (secrets d') = secret_pending_requests (secrets d) /\
  secret_grants (secrets d') = secret_grants (secrets d) /\ secret_flow_grants (secrets d') = secret_flow_grants (secrets d).

Lemma between_after d0 e all member hash now d d' :
  same_grant_view d d' -> between_items K d0 e all member hash now d -> between_items K d0 e all member hash now d'.
Proof.
  intros (E1 & E2 & E3 & E4) [H1 H2 H3 H4]. unfold agent_signed, flow_signed in *.
  split; unfold agent_signed, flow_signed; rewrite ?E1, ?E2, ?E3, ?E4; done.
Qed.

Lemma between_before d0 d1 e all member hash now d :
  same_grant_view d0 d1 -> between_items K d1 e all member hash now d -> between_items K d0 e all member hash now d.
Proof.
  intros (E1 & E2 & E3 & E4) [H1 H2 H3 H4].
  assert (forall item p st, item_answers d1 e item member now p st -> item_answers d0 e item member now p st) as Hia
    by (intros item p st []; split; try done; by rewrite <- E2).
  assert (forall p, grantable (k_key K) d1 p -> grantable (k_key K) d0 p) as Hgr
    by (intros p; unfold grantable; by rewrite E1).
  split; rewrite <- ?E1, <- ?E2, <- ?E3, <- ?E4; try done.
  - intros id g Hg. destruct (H3 id g Hg) as [?|(item & p & st & ? & ? & ? & ? & ? & ?)]; [by left|].
    right. exists item, p, st. split_and!; auto.
  - intros id g Hg. destruct (H4 id g Hg) as [?|(item & p & st & ? & ? & ? & ? & ? & ?)]; [by left|].
    right. exists item, p, st. split_and!; auto.
Qed.

(** The member this computer is, if it is one. *)
Definition member_here (d : Db) : option string := match self_member d with Ok m => Some m | Err _ => None end.

(** A whole approval: its envelope verified, and every grant it adds is signed. *)
Lemma approval_between inp fp pub bs sig card now d :
  wp (secret_approval_tx K inp fp pub bs sig card false now) (fun _ d' =>
    same_grant_view d d' \/
    exists e, envelope_verify bs sig pub fp = Ok e /\
      between_items K d e (ae_items e) (member_here d) (hex (payload_sha256 bs)) now d') d.
Proof.
  unfold secret_approval_tx. destruct (envelope_verify _ _ _ _) as [e|] eqn:Ee; [|by wp_step; left].
  do 4 wp_step. do 2 wp_step. destruct (secret_approval_replies _ !! _) as [row|].
  { destruct (json_from_str _); [by wp_step; left|exact I]. }
  set (d1 := with_approval_replies _ d).
  wp_step. eapply wp_mono; [apply (approval_items_between d1 e (ae_items e)); [apply between_start|done]|].
  intros results d2 Hb. do 2 wp_step. wp_step. right. exists e. split; [done|].
  apply (between_before d d1); [done|]. by apply (between_after _ _ _ _ _ _ d2).
Qed.
End SignedApproval.

(** ** The grant theorems *)

Section GrantTheorems.
Context `{C : Crypto} `{RX : RecordExt} `{SE : SecretEnv} {Conn : Type} `{L : SqliteStoreLaws Conn}.

Lemma phone_approve_between K inp fp pairing at_ms env sig card admitted d :
  wp (phone_op_tx K inp fp pairing at_ms (PhApprove env sig card) admitted) (fun _ d' =>
    same_grant_view d d' \/
    exists p keys e, admitted = true /\ pairing = Some p /\ secret_phone_keys (secrets d) !! (fp, p) = Some keys /\
      envelope_verify env sig (pk_approval_pub keys) fp = Ok e /\
      between_items K d e (ae_items e) (member_here d) (hex (payload_sha256 env)) (sx_clock inp 0) d') d.
Proof.
  unfold phone_op_tx. wp_step. unfold observation at 1. wp_step.
  set (d1 := with_phone_observations _ d). assert (same_grant_view d d1) as H1 by done.
  destruct admitted; cbn [negb]; [|by wp_step; left]. do 2 wp_step. destruct pairing as [p|]; [|by wp_step; left].
  destruct (phone_deposit_refusal _); [by wp_step; left|]. do 2 wp_step.
  destruct (secret_phone_keys _ !! _) as [keys|] eqn:Ek; [|by wp_step; left].
  eapply wp_mono; [apply approval_between|]. cbv beta. intros _ d' [Hs|(e & Hv & Hb)]; [by left|].
  right. exists p, keys, e. split_and!; try done. by apply (between_before K d d1).
Qed.

(** The database after a phone operation: its transaction's, or the old one; a refused key
    conflict adds one diagnostic row. *)
Lemma phone_operation_db inp fp pairing at_ms op admitted (s s' : EncryptedStore Conn) r :
  secret_phone_operation inp fp pairing at_ms op admitted s = (r, s') ->
  exists d1, (d1 = es_db s \/ exists a, phone_op_tx (keys_of s) inp fp pairing at_ms op admitted (es_db s) = (Ok a, d1)) /\
    secret_view (es_db s') = secret_view d1.
Proof.
  unfold secret_phone_operation, with_keys, secret_fenced, fenced_write at 1, mbind.
  destruct (with_conn_fenced _ (es_conn s)) as [[answer|e] c] eqn:E; cbn.
  2:{ intros [= _ <-]. exists (es_db s). split; [by left|]. apply fenced_rolls_back in E. unfold es_db. cbn. by rewrite E. }
  apply fenced_commits in E. intros Hrest. exists (conn_db c). split; [right; by exists answer|].
  assert (forall s1 : EncryptedStore Conn, secret_view (es_db (snd (secret_fenced (refusal_event (sx_event_now inp)
    ("secret-phone|" ++ fp)%string "phone_key_conflict" (PPhone ("fed-phone:" ++ fp)%string)) s1))) =
    secret_view (es_db s1)) as Hb.
  { intros s1. symmetry. eapply (op_rel_secret_fenced (Conn := Conn) (keys_of s1) (on secret_view eq));
      [|reflexivity|apply surjective_pairing]. secret_solve ltac:(fail). }
  destruct answer as [v|x]; [by injection Hrest as _ <-|].
  destruct x; try (by injection Hrest as _ <-). injection Hrest as _ <-. apply (Hb (set_conn c false 1 s)).
Qed.

(** C5: a grant appears only through an approval of an admitted phone operation, by a phone
    whose keys are registered for its pairing, whose signature over the envelope verifies
    under that registered key. The envelope names the request by the hash of its
    statement; the request was pending, unexpired and of this computer, its secret active
    and openable; the grant has exactly the columns of the request, the duration and
    expiry of the envelope and the envelope's hash; and the request is spent. *)
Theorem new_grant_was_signed c (s : EncryptedStore Conn) id g :
  let s' := snd (secret_op c s) in
  secret_grants (secrets (es_db s')) !! id = Some g -> secret_grants (secrets (es_db s)) !! id = None ->
  exists inp fp pairing at_ms env sig card keys e item p statement,
    c = ScPhone inp fp (Some pairing) at_ms (PhApprove env sig card) true /\
    secret_phone_keys (secrets (es_db s)) !! (fp, pairing) = Some keys /\
    envelope_verify env sig (pk_approval_pub keys) fp = Ok e /\ item ∈ ae_items e /\
    item_answers (es_db s) e item (member_here (es_db s)) (sx_clock inp 0) p statement /\
    agent_statement_ok statement (ae_duration e) p = true /\ grantable (es_key s) (es_db s) p /\
    grant_of_request g p e (hex (payload_sha256 env)) /\
    secret_pending_requests (secrets (es_db s')) !! ai_request_id item = Some (consume_request p).
Proof.
  intros s' Hg Hn. destruct (is_approval c) eqn:Ea.
  - destruct c as [| | | | | | | | | | | | | |inp fp pairing at_ms op admitted|?|?|?]; try discriminate Ea.
    destruct op as [| | | |env sig card| | | |]; try discriminate Ea.
    unfold s' in *. cbn [secret_op effect snd] in *.
    destruct (secret_phone_operation _ _ _ _ _ _ s) as [r s1] eqn:E. cbn in Hg |- *.
    apply phone_operation_db in E as (d1 & [->|(a & Et)] & [= _ Hsec _ _]); rewrite Hsec in *; [congruence|].
    destruct (wp_run _ _ _ _ _ (phone_approve_between (keys_of s) inp fp pairing at_ms env sig card admitted (es_db s)) Et)
      as [(_ & _ & Hs & _)|(p & keys & e & -> & -> & Hk & Hv & Hb)]; [rewrite Hs in Hg; congruence|].
    destruct (bi_grants _ _ _ _ _ _ _ _ Hb id g Hg) as [?|(item & q & st & ? & ? & ? & ? & ? & ?)]; [congruence|].
    exists inp, fp, p, at_ms, env, sig, card, keys, e, item, q, st. split_and!; done.
  - exfalso. assert (op_rel (keys_of s) grants_nothing (secret_op (Conn := Conn) c)) as Ho.
    { apply secret_rel; [apply _|apply refusals_grant_nothing|by apply others_grant_nothing]. }
    destruct (Ho s _ _ eq_refl (surjective_pairing _)) as (_ & [Hs _] & _).
    destruct (map_down _ _ _ _ _ Hs Hg) as (? & ? & _). congruence.
Qed.
End GrantTheorems.

(** ** Consent that was withdrawn *)

Section Withdrawn.
Context `{C : Crypto} `{RX : RecordExt} `{SE : SecretEnv} {Conn : Type} `{L : SqliteStoreLaws Conn}.

Lemma consents_before d d' call m incarnation now id g :
  grants_nothing d d' -> consents d' call m incarnation now id g ->
  exists g0, consents d call m incarnation now id g0 /\ grant_identity g0 = grant_identity g.
Proof.
  intros [Hs _] [H1 H2 H3 H4 H5 H6]. destruct (map_down _ _ _ _ _ Hs H1) as (g0 & Hg & E). exists g0. split; [|done].
  unfold grant_covers, scope_equal in *. destruct g0, g; cbn in *; simplify_eq. by split.
Qed.

Lemma history_grants_nothing cs (s : EncryptedStore Conn) :
  (forall c, OnSecret c ∈ cs -> is_approval c = false) -> grants_nothing (es_db s) (es_db (run_vault cs s)).
Proof.
  intros Hcs. apply secret_history; [apply _|intros d d' []; by split|].
  intros c Hc. apply others_grant_nothing. by apply Hcs.
Qed.

(** C10: once no grant covers a call (never granted, spent, revoked, expired and swept, or
    deleted with its secret), no history of the vault without a new signed approval makes
    the store release that secret to it, whatever the clock says. *)
Theorem withdrawn_consent_stays_withdrawn cs (s s' : EncryptedStore Conn) inp call m outcome :
  (forall incarnation now id g, ~ consents (es_db s) call m incarnation now id g) ->
  (forall c, OnSecret c ∈ cs -> is_approval c = false) ->
  secret_use_from inp call m (run_vault cs s) = (Ok outcome, s') ->
  jget "status" (so_reply outcome) <> Some (JStr "released").
Proof.
  intros Hno Hcs E Hr. apply (released_has_consent inp call m) in E as (row & now & id & g & Hc); [|done].
  destruct (consents_before _ _ _ _ _ _ _ _ (history_grants_nothing cs s Hcs) Hc) as (g0 & Hc0 & _).
  by eapply Hno.
Qed.
End Withdrawn.

(** ** Pending requests stay bounded *)

Definition count_of (p : RequestRow -> bool) (m : gmap string RequestRow) : nat := size (filter (fun kv => p kv.2 = true) m).

Lemma bool_filter_list {V} (p : V -> bool) (l : list V) : List.filter p l = filter (fun x => p x = true) l.
Proof.
  induction l as [|x l IH]; [done|]. cbn [List.filter]. rewrite filter_cons, IH.
  destruct (p x) eqn:E; [by rewrite decide_True|by rewrite decide_False by congruence].
Qed.

Lemma length_filter_size {V} (p : V -> bool) (m : gmap string V) :
  length (List.filter (fun kv => p kv.2) (map_to_list m)) = size (filter (fun kv => p kv.2 = true) m).
Proof.
  rewrite bool_filter_list. induction m as [|i x m Hi IH] using map_ind; [done|].
  rewrite map_to_list_insert by done. rewrite filter_cons, map_filter_insert. cbn. case_decide.
  - cbn. rewrite IH, map_size_insert_None; [done|]. apply map_lookup_filter_None. by left.
  - rewrite IH. by rewrite delete_id.
Qed.

Lemma count_requests_of p d : count_requests p d = count_of p (secret_pending_requests (secrets d)).
Proof. apply length_filter_size. Qed.

(** A predicate that does not look at [consumed] counts no more rows when some go. *)
Lemma count_of_down p m m' :
  (forall r, p (consume_request r) = p r) -> consume_request <$> m' ⊆ consume_request <$> m ->
  (count_of p m' <= count_of p m)%nat.
Proof.
  intros Hp Hs. assert (forall m, count_of p m = count_of p (consume_request <$> m)) as E.
  { intros x. unfold count_of. rewrite map_filter_fmap, map_size_fmap. f_equal. apply map_filter_ext.
    intros i r _. cbn. by rewrite Hp. }
  rewrite (E m), (E m'). unfold count_of. by apply map_subseteq_size, map_filter_subseteq_mono.
Qed.

Lemma count_of_ext p q m : (forall r, p r = q r) -> count_of p m = count_of q m.
Proof. intros E. unfold count_of. f_equal. apply map_filter_ext. intros i r _. cbn. by rewrite E. Qed.

Lemma count_of_insert p m i r : m !! i = None ->
  (count_of p (<[i:=r]> m) <= count_of p m + (if p r then 1 else 0))%nat.
Proof.
  intros Hi. unfold count_of. rewrite map_filter_insert. cbn. destruct (p r) eqn:E.
  - rewrite decide_True by done. rewrite map_size_insert_None; [lia|]. apply map_lookup_filter_None. by left.
  - rewrite decide_False by congruence. rewrite delete_id by done. lia.
Qed.

(** At most 64 agent requests, 8 of one asker's scope; 256 of flows, 16 of one asker's
    installation; and one per secret, scope, coverage and asker. *)
Record requests_bounded (m : gmap string RequestRow) : Prop := {
  rb_agent : (count_of agent_request m <= MAX_SECRET_PENDING_TOTAL)%nat;
  rb_scope sc asker : (count_of (fun r => agent_request r && request_of_scope sc asker r) m <= MAX_SECRET_PENDING_PER_SCOPE)%nat;
  rb_flow : (count_of flow_request m <= MAX_FLOW_SECRET_PENDING_TOTAL)%nat;
  rb_install install asker : (count_of (fun r => flow_request r && bool_decide (rq_flow_install_id r = Some install) &&
    bool_decide (rq_asking_member_id r = asker)) m <= MAX_FLOW_SECRET_PENDING_PER_INSTALL)%nat;
  rb_one i j r r' call asker inc : m !! i = Some r -> m !! j = Some r' ->
    agent_request_matches call asker inc r = true -> agent_request_matches call asker inc r' = true -> i = j;
}.

Lemma bounded_down m m' :
  consume_request <$> m' ⊆ consume_request <$> m -> requests_bounded m -> requests_bounded m'.
Proof.
  intros Hs [H1 H2 H3 H4 H5]. split.
  - etrans; [by apply count_of_down|done].
  - intros sc asker. etrans; [by apply count_of_down|apply H2].
  - etrans; [by apply count_of_down|done].
  - intros install asker. etrans; [by apply count_of_down|apply H4].
  - intros i j r r' call asker inc Hi Hj.
    destruct (map_down _ _ _ _ _ Hs Hi) as (x & Hx & Ex), (map_down _ _ _ _ _ Hs Hj) as (y & Hy & Ey).
    intros Hr Hr'. eapply (H5 i j x y call asker inc); [done|done| |].
    + change (agent_request_matches call asker inc (consume_request x) = true). by rewrite Ex.
    + change (agent_request_matches call asker inc (consume_request y) = true). by rewrite Ey.
Qed.

Section RequestBounds.
Context `{C : Crypto} `{RX : RecordExt} `{SE : SecretEnv}.

Definition requests_of (d : Db) : gmap string RequestRow := secret_pending_requests (secrets d).
Abbreviation bounded := (on requests_of (keeps requests_bounded)).

Lemma bounded_requests f :
  (forall m, consume_request <$> f m ⊆ consume_request <$> m) -> tx_rel bounded (exec (with_requests f)).
Proof. intros Hf d a d' [= _ <-] Hb. eapply bounded_down; [apply Hf|done]. Qed.

Lemma bounded_wp {A} (m : Tx A) :
  (forall d, requests_bounded (requests_of d) -> wp m (fun _ d' => requests_bounded (requests_of d')) d) ->
  tx_rel bounded m.
Proof. intros Hm d a d' E Hb. apply (wp_run _ _ _ _ _ (Hm d Hb) E). Qed.

Lemma insert_bounded id r (Q : unit -> Db -> Prop) d :
  (requests_of d !! id = None -> Q tt (with_requests (insert id r) d)) -> wp (insert_request id r) Q d.
Proof. intros HQ. unfold wp, insert_request. destruct (is_some _) eqn:E; [done|]. bool_hyps. auto. Qed.

Lemma find_request_none p d : find_request p d = None -> forall i r, requests_of d !! i = Some r -> p r = false.
Proof.
  intros E i r Hi. apply (find_none _ _ E (i, r)), list_elem_of_In. by apply elem_of_map_to_list.
Qed.

Lemma drop_stale_keeps now member d (Q : unit -> Db -> Prop) :
  requests_bounded (requests_of d) -> (forall d', requests_bounded (requests_of d') -> Q tt d') ->
  wp (drop_stale_requests now member) Q d.
Proof.
  intros Hb HQ. unfold drop_stale_requests. wp_step. apply HQ. eapply bounded_down; [|exact Hb].
  apply fmap_shrinks, drop_rows_shrinks.
Qed.

(** The predicates of a new agent request's count. *)
Lemma counted_once p m i r n :
  m !! i = None -> (count_of p m <= n)%nat -> (p r = true -> (count_of p m < n)%nat) ->
  (count_of p (<[i:=r]> m) <= n)%nat.
Proof. intros Hi Hn Hr. pose proof (count_of_insert p m i r Hi). destruct (p r); [specialize (Hr eq_refl)|]; lia. Qed.

(** A request row made for a call matches exactly what the call's own query matches. *)
Lemma scope_columns sc sc' asker asker' r r' :
  rq_owner r = Some (sc_owner sc) -> rq_scope_kind r = Some (sc_kind sc) -> rq_scope_ref r = Some (sc_ref sc) ->
  rq_asking_member_id r = asker -> request_of_scope sc' asker' r = true ->
  request_of_scope sc' asker' r' = request_of_scope sc asker r'.
Proof.
  intros E1 E2 E3 E4 H. unfold request_of_scope in *. rewrite E1, E2, E3, E4 in H. bool_hyps.
  by repeat match goal with H : Some _ = Some _ |- _ => injection H as -> | H : _ = asker' |- _ => subst asker' end.
Qed.

Lemma new_request_matches call asker inc call' asker' inc' r r' :
  agent_request_matches call' asker' inc' r = true ->
  rq_owner r = Some (sc_owner (su_scope call)) -> rq_scope_kind r = Some (sc_kind (su_scope call)) ->
  rq_scope_ref r = Some (sc_ref (su_scope call)) -> rq_asking_member_id r = asker ->
  rq_incarnation r = inc -> rq_coverage r = Some (su_coverage call) ->
  agent_request_matches call' asker' inc' r' = agent_request_matches call asker inc r'.
Proof.
  intros Hm E1 E2 E3 E4 E5 E6. unfold agent_request_matches in *. bool_hyps.
  assert (inc' = inc) as -> by congruence. assert (su_coverage call' = su_coverage call) as -> by congruence.
  by erewrite scope_columns by done.
Qed.

Lemma pending_bounded rnd call m record now : tx_rel bounded (pending rnd call m record now).
Proof.
  apply bounded_wp. intros d Hb. unfold pending. do 2 wp_step. destruct (self_member d) as [member|]; [|by wp_step].
  wp_step. apply drop_stale_keeps; [done|]. clear Hb. intros d1 Hb. do 2 wp_step.
  destruct (find_request _ d1) as [[id r]|] eqn:Ef; [by wp_step|]. pose proof (find_request_none _ _ Ef) as Hn.
  do 4 wp_step. destruct (_ || _)%bool eqn:El; [by wp_step|]. unfold to_sql_u64, sql_range. do 4 wp_step; [|done].
  wp_step. wp_step. apply insert_bounded. intros Hi. wp_step. rewrite !count_requests_of in El. bool_hyps.
  repeat match goal with H : (_ <=? _)%nat = false |- _ => apply Nat.leb_gt in H end.
  destruct Hb as [B1 B2 B3 B4 B5]. cbn. split.
  - apply counted_once; auto.
  - intros sc asker. apply counted_once; auto. intros Hsc. apply andb_true_iff in Hsc as [_ Hsc].
    rewrite (count_of_ext _ (fun r => agent_request r && request_of_scope (su_scope call) m r)); [done|].
    intros r. f_equal. by eapply scope_columns; [..|exact Hsc].
  - apply counted_once; auto. done.
  - intros install asker. apply counted_once; auto. done.
  - intros i j x y c asker inc. rewrite !lookup_insert_Some. intros [[<- <-]|[Hne Hx]] [[<- <-]|[Hne' Hy]] Mx My; auto.
    + apply Hn in Hy as Hf. rewrite (new_request_matches call m (sr_incarnation record) _ _ _ _ y Mx) in My by done. congruence.
    + apply Hn in Hx as Hf. rewrite (new_request_matches call m (sr_incarnation record) _ _ _ _ x My) in Mx by done. congruence.
    + by eapply B5.
Qed.

Lemma flow_pending_bounded rnd call m record methods now : tx_rel bounded (flow_pending rnd call m record methods now).
Proof.
  apply bounded_wp. intros d Hb. unfold flow_pending. do 2 wp_step. destruct (self_member d) as [member|]; [|by wp_step].
  wp_step. apply drop_stale_keeps; [done|]. clear Hb. intros d1 Hb. do 2 wp_step.
  destruct (find_request _ d1) as [[id r]|]; [by wp_step|].
  do 4 wp_step. destruct (_ || _)%bool eqn:El; [by wp_step|]. do 3 wp_step; [by wp_step|]. do 3 wp_step.
  apply insert_bounded. intros Hi. wp_step. rewrite !count_requests_of in El. bool_hyps.
  repeat match goal with H : (_ <=? _)%nat = false |- _ => apply Nat.leb_gt in H end.
  destruct Hb as [B1 B2 B3 B4 B5]. cbn. split.
  - by apply counted_once.
  - intros sc asker. by apply counted_once.
  - by apply counted_once.
  - intros install asker. apply counted_once; auto. intros Hin. unfold flow_request in Hin. bool_hyps. cbn in *.
    by simplify_eq.
  - intros i j x y c asker inc. rewrite !lookup_insert_Some. intros [[<- <-]|[_ Hx]] [[<- <-]|[_ Hy]] Mx My;
      [done|discriminate Mx|discriminate My|by eapply B5].
Qed.

Lemma delete_request_bounded rnd name now : tx_rel bounded (secret_delete_request_tx rnd name now).
Proof.
  apply bounded_wp. intros d Hb. unfold secret_delete_request_tx. do 2 wp_step.
  destruct (self_member d) as [member|]; [|by wp_step]. do 2 wp_step.
  destruct (agent_secrets d !! name) as [row|]; [|by wp_step].
  wp_step. apply drop_stale_keeps; [done|]. clear Hb. intros d1 Hb. do 2 wp_step.
  destruct (find_request _ d1) as [[id r]|]; [by wp_step|]. do 3 wp_step.
  apply insert_bounded. intros Hi. wp_step. destruct Hb as [B1 B2 B3 B4 B5]. cbn. split; intros; try by apply counted_once.
  rewrite !lookup_insert_Some in *. destruct_or!; destruct_and!; simplify_eq; try done. by eapply B5.
Qed.

Ltac bounded_step :=
  lazymatch goal with
  | |- tx_rel _ (pending _ _ _ _ _) => apply pending_bounded
  | |- tx_rel _ (flow_pending _ _ _ _ _ _) => apply flow_pending_bounded
  | |- tx_rel _ (secret_delete_request_tx _ _ _) => apply delete_request_bounded
  | |- tx_rel _ (exec (with_requests _)) => apply bounded_requests; down_shrinks
  end.

Lemma secret_requests_bounded K c : refusals_respect K bounded /\ secret_respects K bounded c.
Proof. split; [split|destruct c]; secret_solve ltac:(idtac; bounded_step). Qed.

Context {Conn : Type} `{L : SqliteStoreLaws Conn}.

(** C37: however many calls ask, at most 64 agent requests are pending, at most 8 of one
    asker's scope, at most 256 flow requests, at most 16 of one asker's installation; and
    a secret has at most one pending request per scope, coverage and asker. *)
Theorem history_bounds_requests cs (s : EncryptedStore Conn) :
  requests_bounded (requests_of (es_db s)) -> requests_bounded (requests_of (es_db (run_vault cs s))).
Proof.
  apply (secret_history bounded).
  - intros d d' W. unfold on, keeps. apply bounded_down, W.
  - intros c _. apply secret_requests_bounded.
Qed.
End RequestBounds.

(** ** Deposits *)

Section Deposits.
Context `{C : Crypto} `{RX : RecordExt} `{SE : SecretEnv}.

Definition already_stored : Value := jobj [("status", JStr "already_stored")].

Lemma deposit_prepared_frame K p d d' :
  credentials d' = credentials d -> settings d' = settings d -> deposit_prepared K p d' = deposit_prepared K p d.
Proof. intros E1 E2. unfold deposit_prepared, secret_deposit_record, self_member. by rewrite E1, E2. Qed.

Lemma store_secret_live K rnd name s m now d :
  wp (store_secret_tx K rnd name s m now) (fun incarnation d' =>
    incarnation_live incarnation d' = true /\ credentials d' = credentials d /\ settings d' = settings d /\
    secrets d' = secrets d) d.
Proof.
  unfold store_secret_tx. do 4 wp_step. wp_step. unfold wp, insert_agent_secret.
  destruct (is_some _); [done|]. destruct (existsb _ _); [done|]. destruct (agent_secret_row_ok _); [|done]. cbn. split_and!; try done. unfold incarnation_live.
  apply existsb_exists. eexists (_, _). split.
  - apply list_elem_of_In, elem_of_map_to_list. cbn. apply lookup_insert_eq.
  - cbn. unfold has_incarnation. apply bool_decide_eq_true. unfold secret_row. by destruct (columns s) as [[[? ?] ?] ?].
Qed.

(** A deposit is stored once: after one was stored, the same deposit sent again, by
    whichever registered phone and at whatever time, is answered "already stored" from its
    tombstone and changes nothing, as long as nothing happened in between. *)
Theorem repeated_deposit_changes_nothing K inp inp' fp fp' sender sender' p now now' d d' incarnation :
  deposit_tx K inp fp sender p now d = (Ok (Ok (secret_stored incarnation)), d') ->
  deposit_tx K inp' fp' sender' p now' d' = (Ok (Ok already_stored), d').
Proof.
  intros E.
  assert (wp (deposit_tx K inp fp sender p now) (fun out d' => forall i, out = Ok (secret_stored i) ->
    exists pem member aad digest, deposit_prepared K p d' = Ok (pem, member, aad, digest) /\
      exists t, secret_deposit_tombstones (secrets d') !! pd_deposit_id p = Some t /\ tb_digest t = digest /\
        tb_member_id t = member /\ incarnation_live (tb_incarnation t) d' = true) d) as Hw.
  { unfold deposit_tx. do 2 wp_step. destruct (deposit_prepared K p d) as [[[[pem member] aad] digest]|] eqn:Ep; [|by wp_step].
    do 2 wp_step. destruct (secret_deposit_tombstones _ !! _).
    { repeat wp_step. intros i Hi. by destruct (_ && _). }
    destruct (negb _); [by wp_step|]. destruct (open_auth _ _ _ _ _ _); [|by wp_step].
    destruct (let? m := _ in _) as [material|]; [|by wp_step]. do 2 wp_step. destruct (is_some _); [by wp_step|].
    wp_step. eapply wp_mono; [apply store_secret_live|]. cbv beta. intros inc d1 (Hl & Hc & Hs & _). do 3 wp_step.
    apply secret_audit_log. intros e d2 -> _ _ _. wp_step. intros i _. exists pem, member, aad, digest. split.
    - by rewrite (deposit_prepared_frame K p d).
    - eexists. split; [cbn; apply lookup_insert_eq|]. done. }
  destruct (wp_run _ _ _ _ _ Hw E _ eq_refl) as (pem & member & aad & digest & Ep & t & Et & <- & <- & Hl).
  unfold deposit_tx, mbind, query, mret. rewrite Ep, Et, Hl, !bool_decide_true by done. done.
Qed.
End Deposits.
