(* ===== verification/SecretWitness.v ===== *)
(** * Agent secrets at work, on the concrete instances

    A stored secret and a registered phone: an agent asks and the phone signs the statement;
    with grants on disk, an agent, a flow and a paired computer are served; a phone deposits
    a secret. The witnesses of the secret theorems are taken from here. *)

From stdpp Require Import gmap sorting.
From S2P Require Import Prelude Text Crypto Json Record CredentialId Catalog Envelope AuditLog Database Store TxLogic Secrets SecretCodec Kem SecretStore Calls SecretCalls Grants Enrollment Access SecretSpecs SecretGrants.

Module SecretDemo.
Export EnrollDemo.
#[local] Existing Instances ToySecretExt.toy_secret_ext ToyJson.toy_json.

Definition me : string := ("fed-computer:" ++ hex (replicate 16 x11))%string.
Definition peer : string := ("fed-computer:" ++ hex (replicate 16 x22))%string.

Definition sinp (t : Z) (b : byte) : SecretInputs :=
  {| sx_clock i := t; sx_now n := t + Z.of_nat n; sx_event_now := t;
     sx_rnd i := match i with 0%nat => Some (replicate 10 b) | _ => Some (replicate 24 b) end |}.
(** Sixteen bytes for an incarnation. *)
Definition pinp (t : Z) (b : byte) : SecretInputs :=
  {| sx_clock i := t; sx_now n := t + Z.of_nat n; sx_event_now := t;
     sx_rnd i := match i with 0%nat => Some (replicate 16 b) | _ => Some (replicate 24 b) end |}.

Definition home_db : Db := with_settings (insert SELF_MEMBER_SETTING (me, 0)) empty_db.
Definition s0 : EncryptedStore ToyConn := store_over home_db.

Definition api_key : bytes := str_bytes "k3y".
Definition incarnation : string := hex (replicate 16 x31).
Definition svc_scope : SecretScope := ApiKeyScope "api.example.com" (Some "/v1") "authorization_bearer".
Definition svc_row : AgentSecretRow :=
  secret_row "" incarnation svc_scope
    match secret_seal (Some (replicate 24 x31)) (es_key s0) incarnation "svc" svc_scope (ApiKeyMaterial api_key) with
    | Ok blob => blob
    | Err _ => []
    end 1000.

Definition fp : string := "phone1".
Definition approval_pub : bytes := x04 :: replicate 64 x05.
Definition stored_db : Db :=
  with_phone_keys (insert (fp, "pair1") {| pk_deposit_pub := []; pk_approval_pub := approval_pub; pk_created_at_ms := 0 |})
    (with_agent_secrets (insert "svc" svc_row) home_db).
Definition stored : EncryptedStore ToyConn := store_over stored_db.

Definition put : SecretPut :=
  {| put_kind := "agent_api_key"; put_name := "svc"; put_host := Some "api.example.com";
     put_path_prefix := Some "/v1"; put_location := Some "authorization_bearer"; put_origin := None;
     put_material_b64url := hex (deposit_plaintext (ApiKeyMaterial api_key)) |}.

Definition target : UseTarget := ApiKeyTarget "https" "api.example.com" 443 "/v1/items".
Definition scope : AskingScope := {| sc_owner := "alice"; sc_kind := "head"; sc_ref := "a1"; sc_epoch := 7 |}.
Definition ask : SecretUse :=
  {| su_name := "svc"; su_sender := Aft; su_scope := scope; su_worker_parent := None; su_coverage := "scope";
     su_agent_id := Some "agent-1"; su_target := target |}.

Definition asked : EncryptedStore ToyConn := run_vault [OnSecret (ScUse (sinp 2000 x33) ask "")] stored.

(** The oldest pending request, as the phone is shown it. *)
Definition shown (s : EncryptedStore ToyConn) : ApprovalItem :=
  match map_to_list (secret_pending_requests (secrets (es_db s))) with
  | (id, r) :: _ => {| ai_request_id := id; ai_statement_sha256 := rq_statement_sha256 r |}
  | [] => {| ai_request_id := ""; ai_statement_sha256 := "" |}
  end.

Definition envelope (duration : string) (expiry issued : Z) (item : ApprovalItem) : bytes :=
  canonical_bytes {| ae_v := USE_ENVELOPE_TAG; ae_items := [item]; ae_decision := "allow"; ae_duration := duration;
                     ae_grant_expires_at_ms := expiry; ae_device_fingerprint := fp; ae_issued_at_ms := issued |}.
Definition sign (bs : bytes) : bytes := Toy.digest (approval_pub ++ bs).
Definition approve (duration : string) (expiry issued : Z) (b : byte) (item : ApprovalItem) : SecretCall :=
  let bs := envelope duration expiry issued item in
  ScPhone (sinp issued b) fp (Some "pair1") issued (PhApprove bs (sign bs) None) true.

(** Grants already on disk: one for the agent, one for a paired computer, one for a flow,
    and the receipt of an earlier answer. *)
Definition once_grant : SecretGrantRow :=
  {| sg_secret_name := "svc"; sg_incarnation := incarnation; sg_scope_owner := "alice"; sg_scope_kind := "head";
     sg_scope_ref := "a1"; sg_coverage := "scope"; sg_duration := "once"; sg_expires_at_ms := 603000;
     sg_granted_at_ms := 3000; sg_envelope_sha256 := ""; sg_agent_id := Some "agent-1"; sg_card_ref := None;
     sg_first_released := false; sg_last_use_ms := None; sg_asking_member_id := "" |}.
Definition flow : FlowIdentity :=
  {| flow_id := "f1"; flow_version := 3; flow_code_hash := hex (replicate 32 xab); flow_install_id := "install-1" |}.
Definition flow_call : SecretFlowUse := {| fu_name := "svc"; fu_flow := flow; fu_target := target; fu_method := Some "GET" |}.
Definition flow_grant : FlowGrantRow :=
  {| fg_secret_name := "svc"; fg_incarnation := incarnation; fg_flow_id := "f1"; fg_flow_version := 3;
     fg_flow_code_hash := hex (replicate 32 xab); fg_flow_install_id := "install-1";
     fg_methods := Some (strings_to_text ["GET"; "POST"]); fg_granted_at_ms := 3000; fg_envelope_sha256 := "";
     fg_card_ref := None; fg_first_released := false; fg_last_use_ms := None; fg_asking_member_id := "" |}.
Definition nonce : string := hex (replicate 16 x77).
Definition release_request : ReleaseRequest := {| rr_requester := peer; rr_nonce := nonce; rr_aad := str_bytes "aad" |}.
Definition receipt : ReceiptRow :=
  {| rc_aad_sha256 := hex (payload_sha256 (str_bytes "aad")); rc_incarnation := incarnation; rc_grant_kind := "once";
     rc_grant_id := "spent"; rc_enc := [x01]; rc_ciphertext := [x02]; rc_expires_at_ms := 600000 |}.
Definition granted_store : EncryptedStore ToyConn := store_over
  (with_secret_grants (insert "g1" once_grant) (with_flow_grants (insert "f1" flow_grant)
     (with_release_receipts (insert (peer, nonce) receipt) stored_db))).

Definition no_outcome : SecretUseOutcome := {| so_reply := JNull; so_last_use := None |}.
Definition answer {A} (r : result A SecretError * EncryptedStore ToyConn) (dflt : A) : A :=
  match fst r with Ok a => a | Err _ => dflt end.

Lemma empty_secrets_ok : secrets_ok home_db.
Proof.
  split; cbn.
  - intros ? ? ? ? Hx. by apply lookup_empty_Some in Hx.
  - intros ? ? Hx. by apply lookup_empty_Some in Hx.
  - intros ? ? Hx. by apply lookup_empty_Some in Hx.
  - intros ? ? Hx. by apply lookup_empty_Some in Hx.
  - intros ? ? Hx. by apply lookup_empty_Some in Hx.
  - done.
Qed.

Lemma empty_requests_bounded : requests_bounded ∅.
Proof. split; intros; try (unfold count_of; rewrite map_filter_empty, map_size_empty; lia). by apply lookup_empty_Some in H. Qed.
End SecretDemo.

Module SecretWitnesses.
Import SecretDemo.

Definition whole_history : list VaultCall :=
  [OnSecret (ScPut (pinp 1000 x31) put "operator");
   OnSecret (ScPhone (sinp 1100 x32) fp (Some "pair1") 1100 (PhRegister (replicate 32 x06) approval_pub) true);
   OnSecret (ScUse (sinp 2000 x33) ask ""); OnSecret (approve "once" 603000 3000 x34 (shown asked))].

Lemma secrets_sound_witness : secrets_ok (es_db s0) /\ secrets_ok (es_db (run_vault whole_history s0)).
Proof.
  split; [exact empty_secrets_ok|]. apply (history_keeps_secrets_sound whole_history s0). exact empty_secrets_ok.
Defined.

Lemma requests_bounded_witness :
  requests_bounded (requests_of (es_db s0)) /\ requests_bounded (requests_of (es_db (run_vault whole_history s0))).
Proof.
  split; [exact empty_requests_bounded|]. apply (history_bounds_requests whole_history s0). exact empty_requests_bounded.
Defined.

Abbreviation served := (secret_use_from (sinp 4000 x35) ask "" granted_store).
Lemma served_answers : served = (Ok (answer served no_outcome), snd served).
Proof. apply ok_answer. vm_compute. reflexivity. Qed.

Lemma release_witness :
  exists row id g now, consents (es_db granted_store) ask "" (as_incarnation row) now id g /\
    release_settled (es_db (snd served)) "svc" "reserved:aft" id g.
Proof.
  destruct (release_needs_consent (sinp 4000 x35) ask "" granted_store (snd served) (answer served no_outcome))
    as (row & sc & material & id & g & now & _ & _ & _ & Hc & _ & Hs); [exact served_answers|vm_compute; reflexivity|].
  exists row, id, g, now. split; [exact Hc|exact Hs].
Defined.

Abbreviation flow_served := (secret_flow_use_from (sinp 4000 x45) flow_call "" granted_store).
Lemma flow_served_answers : flow_served = (Ok (answer flow_served no_outcome), snd flow_served).
Proof. apply ok_answer. vm_compute. reflexivity. Qed.

Lemma flow_release_witness :
  exists row id g, flow_consents (es_db granted_store) flow_call "" (as_incarnation row) id g.
Proof.
  destruct (flow_release_needs_consent (sinp 4000 x45) flow_call "" granted_store (snd flow_served)
    (answer flow_served no_outcome) flow_served_answers) as (row & sc & material & id & g & now & _ & Hc & _).
  exists row, id, g. exact Hc.
Defined.

(** A repeated request gets the receipt's bytes; nothing is sealed again. *)
Definition never (v : Value) : result SealedRelease string := Err "never".
Abbreviation resealing := (secret_use_sealed (sinp 5000 x56) ask release_request never granted_store).
Lemma resealing_answers :
  resealing = (Ok (Ok (FSealed {| se_enc := [x01]; se_ciphertext := [x02] |})), snd resealing).
Proof. apply pair_eta. vm_compute. reflexivity. Qed.

Lemma sealed_once_witness :
  exists row sc material, usable (es_key granted_store) (es_db granted_store) "svc" Aft target row sc material.
Proof.
  destruct (sealed_once_per_nonce (sinp 5000 x56) ask release_request never granted_store (snd resealing)
    {| se_enc := [x01]; se_ciphertext := [x02] |} resealing_answers) as (row & sc & material & Hu & _).
  exists row, sc, material. exact Hu.
Defined.

(** The phone answers the request with a signed envelope. *)
Definition approving : SecretCall := approve "once" 603000 3000 x34 (shown asked).
Abbreviation grants_after := (secret_grants (secrets (es_db (snd (secret_op approving asked))))).
Definition new_grant : string * SecretGrantRow := default ("", once_grant) (head (map_to_list grants_after)).

Lemma signed_grant_witness :
  exists e item p statement, item ∈ ae_items e /\
    item_answers (es_db asked) e item (member_here (es_db asked)) 3000 p statement /\
    sg_secret_name (snd new_grant) = rq_secret_name p.
Proof.
  destruct (new_grant_was_signed approving asked (fst new_grant) (snd new_grant))
    as (inp & f & pairing & at_ms & env & sig & card & keys & e & item & p & statement & Hc & _ & _ & Hi & Ha & _ & _ & Hg & _).
  - vm_compute. reflexivity.
  - vm_compute. reflexivity.
  - exists e, item, p, statement. injection Hc as <- _ _ _ _ _ _. destruct Hg as [Hn _].
    split; [exact Hi|]. split; [exact Ha|exact Hn].
Defined.

(** Without a grant the agent is asked to wait, whatever else happens. *)
Definition other_calls : list VaultCall := [OnSecret (ScLastUse "g1" 4500)].
Abbreviation waiting := (secret_use_from (sinp 5000 x62) ask "" (run_vault other_calls stored)).
Lemma waiting_answers : waiting = (Ok (answer waiting no_outcome), snd waiting).
Proof. apply ok_answer. vm_compute. reflexivity. Qed.

Lemma withdrawn_witness : jget "status" (so_reply (answer waiting no_outcome)) <> Some (JStr "released").
Proof.
  apply (withdrawn_consent_stays_withdrawn other_calls stored (snd waiting) (sinp 5000 x62) ask ""
    (answer waiting no_outcome)).
  - intros inc now id g [Hrow _ _ _ _ _]. cbn in Hrow. apply lookup_empty_Some in Hrow. exact Hrow.
  - intros c Hc. apply list_elem_of_singleton in Hc. injection Hc as ->. reflexivity.
  - exact waiting_answers.
Defined.

Lemma target_witness :
  validate_scope (ApiKeyScope "api.example.com" (Some "/v1") "authorization_bearer") = Ok tt /\
  exists p q more, percent_decode "/v1" = Ok p /\ percent_decode "/v1/%61" = Ok q /\
    split_list "/" q = split_list "/" p ++ more.
Proof.
  split; [vm_compute; reflexivity|].
  destruct (target_stays_below_prefix "https" "api.example.com" 443 "/v1/%61" "api.example.com" "/v1" "authorization_bearer")
    as (_ & _ & _ & p & q & more & Hp & Hq & Hm & _); [vm_compute; reflexivity..|].
  exists p, q, more. split; [exact Hp|]. split; [exact Hq|exact Hm].
Defined.

Lemma ulid_witness : ulid_shaped (match request_id (Some (replicate 10 xfe)) 1700000000000 with Ok id => id | Err _ => "" end) = true.
Proof.
  apply (request_id_is_ulid (replicate 10 xfe) 1700000000000); [reflexivity|vm_compute; reflexivity].
Defined.

Lemma scope_unique_witness :
  secret_open (es_key s0) incarnation "svc" svc_scope (as_envelope svc_row) = Ok (ApiKeyMaterial api_key) /\
  forall m, secret_open (es_key s0) incarnation "svc" svc_scope (as_envelope svc_row) = Ok m -> ApiKeyMaterial api_key = m.
Proof.
  assert (secret_open (es_key s0) incarnation "svc" svc_scope (as_envelope svc_row) = Ok (ApiKeyMaterial api_key)) as E
    by (vm_compute; reflexivity).
  split; [exact E|]. intros m Em.
  apply (sealed_scope_is_unique (es_key s0) incarnation "svc" svc_scope svc_scope (as_envelope svc_row)
           (ApiKeyMaterial api_key) m eq_refl); [repeat constructor|repeat constructor|exact E|exact Em].
Defined.

Lemma secret_round_trip_witness :
  material_ok (ApiKeyMaterial api_key) /\ exists nonce, length nonce = NONCE_LEN /\
    secret_seal (Some nonce) (es_key s0) incarnation "svc" svc_scope (ApiKeyMaterial api_key) = Ok (as_envelope svc_row).
Proof.
  apply (secret_open_iff_sealed (es_key s0) incarnation "svc" svc_scope (as_envelope svc_row) (ApiKeyMaterial api_key)).
  vm_compute. reflexivity.
Defined.

(** A stored login code: valid, and computed at a concrete time. *)
Abbreviation totp_now := (totp_checked (X := ToySecretExt.toy_secret_ext) "otpauth://totp/a?secret=GEZDGNBVGY3TQOJQ" 59000).
Lemma totp_witness : exists r, totp_now = Some r /\ is_ok r = true.
Proof.
  destruct (totp_never_panics (SecretExtLaws0 := ToySecretExt.toy_secret_ext_laws) "otpauth://totp/a?secret=GEZDGNBVGY3TQOJQ" 59000)
    as (r & E & _ & _).
  exists r. split; [exact E|]. vm_compute in E. injection E as <-. reflexivity.
Defined.

(** The grant is used in time: the agent is served. *)
Lemma granted_usable :
  usable (es_key granted_store) (es_db granted_store) "svc" Aft target svc_row svc_scope (ApiKeyMaterial api_key).
Proof. split; vm_compute; reflexivity. Qed.
Lemma granted_consents : consents (es_db granted_store) ask "" (as_incarnation svc_row) 4000 "g1" once_grant.
Proof. split; try (vm_compute; reflexivity). right. reflexivity. Qed.

Definition svc_reply : Value :=
  match release (record_of svc_row svc_scope (ApiKeyMaterial api_key)) 4000 with Ok v => v | Err _ => JNull end.

Lemma served_witness :
  exists outcome s', secret_use_from (sinp 4000 x35) ask "" granted_store = (Ok outcome, s') /\
    jget "status" (so_reply outcome) = Some (JStr "released").
Proof.
  destruct (covered_use_is_served (sinp 4000 x35) ask "" granted_store svc_row svc_scope (ApiKeyMaterial api_key)
    "g1" once_grant svc_reply svc_reply) as (o & s' & E & _ & Hr).
  - reflexivity.
  - reflexivity.
  - intros i g Hg. cbn in Hg. apply lookup_insert_Some in Hg as [[_ <-]|[_ Hg]]; [vm_compute; discriminate|].
    apply lookup_empty_Some in Hg. destruct Hg.
  - discriminate.
  - exact granted_usable.
  - exact granted_consents.
  - exact granted_consents.
  - vm_compute; reflexivity.
  - vm_compute; reflexivity.
  - exists o, s'. split; [exact E|exact Hr].
Defined.

(** A deposit by the phone, sealed to the store's deposit key. *)
Definition key_inp : SecretInputs :=
  {| sx_clock _ := 500; sx_now n := 500 + Z.of_nat n; sx_event_now := 500;
     sx_rnd i := match i with 0%nat => Some (replicate 32 x41) | _ => Some (replicate 24 x42) end |}.
Definition keyed : Db := es_db (snd (ensure_secret_deposit_key key_inp "i1" s0)).
Definition phone_pub : bytes := replicate 32 x06.
Definition deposit_of (scope : SecretScope) (m : bytes) : PhoneDeposit :=
  let aad := match deposit_aad "d1" me "dep" scope with Ok a => a | Err _ => [] end in
  {| pd_deposit_id := "d1"; pd_member_id := me; pd_name := "dep"; pd_scope := scope; pd_enc := replicate 32 x09;
     pd_ciphertext := m ++ ToyHpke.tag (ToyHpke.public (Toy.digest (replicate 32 x41))) (Some phone_pub)
                              (replicate 32 x09) m DEPOSIT_INFO aad |}.
Definition dep : PhoneDeposit := deposit_of svc_scope (deposit_plaintext (ApiKeyMaterial api_key)).
Abbreviation depositing := (deposit_tx (keys_of s0) (pinp 1000 x31) fp phone_pub dep 1000 keyed).

Lemma deposit_witness :
  deposit_tx (keys_of s0) (pinp 2000 x51) "phone2" [] dep 2000 (snd depositing) = (Ok (Ok already_stored), snd depositing).
Proof.
  apply (repeated_deposit_changes_nothing (keys_of s0) (pinp 1000 x31) (pinp 2000 x51) fp "phone2" phone_pub [] dep 1000 2000
    keyed (snd depositing) incarnation).
  apply pair_eta. vm_compute. reflexivity.
Defined.
End SecretWitnesses.
